(* ===== verification/_CoqProject ===== *)
-Q . S2P
Prelude.v
GoEffects.v
GoTime.v
GoText.v
Mux.v
Domain.v
Enums.v
Json.v
Typing.v
World.v
Samples.v
Telemetry.v
Shared.v
SelectPeriod.v
Steps.v
Flow.v
Kept.v
Bus.v
Waits.v
BusWait.v
TimeEvents.v
Chat.v
Lodging.v
Stay.v
Mq.v
Fakes.v
Settings.v
Probe.v
Journey.v
Progress.v
Ending.v
Crowd.v
Whole.v
Main.v
Boot.v
