(* ===== verification/Prelude.v ===== *)
(** * Guest simulator: verification library

    The program under [internal/] simulates guests of a resort. [main] keeps a fixed
    number of journeys running; a journey makes up a guest and registers it, books a
    cottage by a random walk over booking steps, listens on a queue of its own for the
    request to pay, the confirmation and the check-in notice, pays, and then lives through
    the stay in a conversation with the lodging service; at the end, or after an error, it
    cleans up. This library models that program and proves what makes it correct. Each
    definition carries the name of the Go function or type it translates.

    ** The files and the code they model

    - [Prelude]: tactics, transition systems and their runs, lists, strings, a stable sort.
    - [GoEffects]: [go W A], a function that may return an error, panic or not return, over
      a shared world [W]; its rules ([wp], [safe], [keeps], [robust]) and their tactics.
    - [GoTime], [GoText], [Mux]: the parts of Go's [time], [strings] and [net/http.ServeMux]
      the program uses, with the civil calendar, RFC 3339 and the canonical form of a path.
    - [Domain] ([domain/]): journey state, cache values, messages. [Enums]: the numbers and
      names of the messages' enumerations. [Json]: how [encoding/json] reads and writes the
      documents. [Typing]: the types of these documents.
    - [World] ([infra/redis/], [journey_services/cache_service.go], [port/]): the state the
      steps share, Redis behind [Cache.Load] and [Cache.Save], HTTP requests, the clock.
      [Samples]: a concrete environment. [Shared]: the cache operations of several journeys
      over one server.
    - [Telemetry] ([infra/telemetry/], [infra/redis/redis.go]): the set-up and shutdown of
      OpenTelemetry, the Redis commands in their spans. [Settings] ([config/config.go],
      [infra/log/]): the configuration, the environment variables behind it, what is logged
      of it, and the logger.
    - [SelectPeriod] ([booking_step/select_period.go]); [Steps] (the other steps of
      [booking_step/], [register_guest_step/], [payment_step/]).
    - [Flow] ([flows/], [services/step_selector_service.go], [config/*_flow.go]): the step
      graph, the weighted choice in binary64 arithmetic, the three flows. [Kept]: what
      every step, flow and cache operation keeps, for any invariant of the class [KeptBy].
    - [Bus] ([guest_communication_bus.go]): topics, publishing, the delivery loop. [Waits]
      ([wait_*.go]): the match functions and the wait loop on its topic. [BusWait]: the same
      on the whole bus, interleaved with its goroutine.
    - [TimeEvents] ([time_event_service.go], [hour_notification_service.go], [waitUntil] of
      [run_lodging.go]): hour events, and the three goroutines of a wait for an hour.
    - [Chat] ([websocket/lodging_chat.go]): the reader and the caller of the chat client.
    - [Lodging] ([run_lodging.go], [config/lodging_flow.go], [lodging_flow.go]): plans of the
      stay and the conversation that carries them out. [Stay]: that conversation over the
      client of [Chat] and the clock of [TimeEvents].
    - [Mq] ([infra/mq/]): connection, channel, consumer.
    - [Journey] ([journey/guest_journey.go], [guest_communication.go],
      [cleanup_service.go]): the composition of all of these. [Progress]: what a successful
      journey has done. [Ending]: every journey comes to an end. [Crowd]: a journey among
      the Redis commands of others. [Whole]: the journey over the stay of [Stay].
    - [Probe] ([transport/http/], [infra/http/], [infra/clock/client.go]): the probe server
      and its handlers, the HTTP client, the clock. [Fakes] (the [fakes] packages): the test
      doubles next to what they stand for.
    - [Main] ([main.go], [infra/init.go]): the constructors of the infrastructure with their
      clean-ups, the pool, the skeleton of [main]. [Boot]: [main] over the real components.

    ** State and operations

    A sequential Go function is a [go W A] over the state it can reach: [World] for steps,
    flows and cache, [MqWorld] for RabbitMQ, [LWorld] for the stay, [JWorld] for the whole
    journey (a part's operation runs in the whole through [zoom]). An error does not undo
    what happened before it; [Panic] is a Go panic; [Stuck] is a call that has not
    returned. Requests, AMQP calls and chat calls are appended to histories, so a theorem
    can say what was sent and in which order. Goroutines that share channels (a wait and
    the bus, the chat reader and its caller, the hour notification and its waiter, the
    pool) are transition systems: a [..._step] function of a label and a configuration,
    [run] of its relation, and theorems over every run. Where such a system is part of a
    sequential program, a schedule is executed with [exec], which skips the labels that are
    not enabled: [Stay] implements the interface [LodgingEnv] this way. [Boot] has one
    world of all components, each working in its part.

    ** What is outside the repository

    It enters as a class whose operations answer from the history of calls, with no law
    unless named: [GoLib] (Unicode tables, the lenient parser of [time.Parse], the strings
    of unknown enumeration numbers), [RedisServer] with [RedisLaws] (SET, GET and DEL act on
    a map, for the keys nobody else writes; a failed SET or DEL may have reached the server;
    PING changes nothing), [Crowd] (what other journeys send the server in between, on other
    keys), [Env] (HTTP services, clock, random draws, context), [ProtoLib] and [TimeProto]
    (protobuf decoding), [LodgingEnv] (lodging service and hour waits, as the stay sees
    them), [StaySchedule] (what arrives on the socket and from the clock during a stay, and
    how the goroutines interleave), [AmqpEnv] (the AMQP library), [TelEnv] (OpenTelemetry),
    [EnvParse] (the parser of environment variables), [SlogHandler] (a base handler of
    [slog]), [JourneyEnv] (generated names, and what arrives on the bus when). Every theorem
    holds for every instance; the witnesses apply each to concrete ones.

    ** What the theorems show

    - The journey: a successful one registered, booked and paid exactly once, in this order,
      under the identifiers the services gave, was confirmed and invited by messages that
      arrived, and made exactly the planned visit, up to the frames on the socket of the
      chat; no journey panics; every journey returns once its draws, its waits and its chat
      come to an end ([journey_ends]); one that ends has cleaned up or says why not; without
      a booking it stops. Other journeys change nothing of this, and it leaves theirs alone:
      [Crowd] proves by rely and guarantee that a journey sends the server commands on its
      own key only, whatever it ends with, and that it does what it does alone when any
      commands on other keys fall between its own.
    - The steps: the requests each sends on every outcome, what a success puts in the
      cache; the chosen stay is the best one offered, and one is found whenever one fits.
    - The flows: the booking flow books at most once and ends once a draw takes it to the
      end; the payment flow is the payment step.
    - Messages: publishing loses nothing and does not depend on map order; the bus settles
      each delivery once (refinement of a specification); a wait conserves messages and
      succeeds only with a matching one; the bus goroutine may run during a wait, with
      deliveries of every kind, and the journey's order of one after the other loses none of
      this ([journey_waits_on_the_bus]); the chat is first-in first-out and acknowledges
      what it hands over.
    - The stay: every run follows the plan, also on the wire of the real client; no action
      is early, by the hours the real clock was told; the hours increase, the check-in is
      answered.
    - The cache: what is saved is loaded, whatever the other journeys do in between. The
      JSON documents have the types the structs declare, and the enumerations survive the
      wire.
    - Infrastructure: reconnecting is bounded, failed set-ups close what they opened, the
      pool is bounded and refills; the whole process shuts down all it set up when it ends
      by itself, and what it leaves open otherwise is stated. The log line of the
      configuration shows no secret. The probes answer exactly on the paths that stand for
      their routes, and the service is ready exactly when all it needs is. The test doubles
      agree with the components they stand for, and where they do not is stated.
    - Some theorems pin behaviour that is hardly meant: the second day of a stay has no plan
      ([visit_schedule]); a wait may stall on pending messages ([wait_stalls]); a wake-up
      can be lost ([waitUntil_lost_wakeup]); rejected messages count as delivered
      ([send_success_needs_ack]); a failed start-up skips its clean-up
      ([boot_main_correct]); timeouts wrap around ([StartHTTPServer_correct]); a check-in
      notice needs the instant, not the date ([confirmations_match_correct]); a cancelled
      stay ends without an error ([stay_over_chat]); a failed set-up of telemetry leaves
      providers behind ([Init_correct]).

    ** Bounds and fuel

    The walk of a flow and the reading loops of the stay are unbounded in the code; [fuel]
    bounds the steps and the messages, and running out is [Stuck], never a result.
    [journey_ends] gives the fuel that is enough for a whole journey: [N + 3] steps when the
    draws end the walk from the [N]-th on, and [K + 1] messages when the chat closes after
    [K] calls; [booking_flow_ends] and [checkin_completes] give it for the booking flow and
    the check-in. Theorems about outcomes hold for every fuel. Loops over schedules
    ([bus_loop], [wait_run]) recurse on the schedule. A Go [int] is an unbounded [Z] where
    the values are sizes of stays and indices; the computation of a duration saturates as
    [Time.Sub] does; money is an [int64] that is only compared; [float32] and [float64] are
    exact binary formats.

    ** What is not modelled

    Generated code: the protobuf messages' reflection, the gRPC stub of the clock (their
    decoding is a class above). The text of JSON documents (values are parsed), the bytes of
    the chat's frames. Tracing other than the spans of Redis, and log lines other than the
    configuration's: neither has an effect on the program. The delivery of the context to
    blocked library calls; mutexes (a critical section is one step). The context is polled
    where the code polls it. In [Boot] the journeys of the pool are any change to the shared
    connection and server: this includes what [Crowd] shows a journey to do. The journeys of
    one process share the services over HTTP too, whose answers are arbitrary; guests whose
    documents differ in case only would share a cache entry. *)

From Stdlib Require Import ZArith Lia Sorted.
From stdpp Require Import base tactics list option strings gmap.

(** ** Tactics *)

(** Destruct the discriminee of some [match] or [if] of the goal. *)
Ltac case_match_goal :=
  match goal with
  | |- context [match ?x with _ => _ end] => destruct x eqn:?
  end.

(** Split every conjunction of the context and open every existential. *)
Ltac destruct_conjs :=
  repeat match goal with
  | H : _ /\ _ |- _ => destruct H
  | H : exists _, _ |- _ => destruct H
  end.

(** Turn boolean comparisons of [Z] and [nat] in the context into propositions. *)
Ltac reflect_ineqs :=
  repeat match goal with
  | H : (_ && _)%bool = true |- _ => apply andb_true_iff in H; destruct H
  | H : (_ || _)%bool = false |- _ => apply orb_false_iff in H; destruct H
  | H : negb _ = true |- _ => apply negb_true_iff in H
  | H : negb _ = false |- _ => apply negb_false_iff in H
  | H : (_ <? _)%Z = true |- _ => apply Z.ltb_lt in H
  | H : (_ <? _)%Z = false |- _ => apply Z.ltb_ge in H
  | H : (_ <=? _)%Z = true |- _ => apply Z.leb_le in H
  | H : (_ <=? _)%Z = false |- _ => apply Z.leb_gt in H
  | H : (_ =? _)%Z = true |- _ => apply Z.eqb_eq in H
  | H : (_ =? _)%Z = false |- _ => apply Z.eqb_neq in H
  | H : String.eqb _ _ = true |- _ => apply String.eqb_eq in H
  | H : String.eqb _ _ = false |- _ => apply String.eqb_neq in H
  end.

Create HintDb guest discriminated.

(** ** Reflexive-transitive closure of a labelled step relation *)

Section Runs.
Context {S L : Type} (step : S -> L -> S -> Prop).

(** [run s ls s']: the labels [ls] take [s] to [s'], in this order. *)
Inductive run : S -> list L -> S -> Prop :=
| run_nil s : run s [] s
| run_cons s l s1 ls s2 : step s l s1 -> run s1 ls s2 -> run s (l :: ls) s2.

Lemma run_app s1 ls1 s2 ls2 s3 :
  run s1 ls1 s2 -> run s2 ls2 s3 -> run s1 (ls1 ++ ls2) s3.
Proof. induction 1; simpl; eauto using run. Qed.

Lemma run_one s l s' : step s l s' -> run s [l] s'.
Proof. eauto using run. Qed.

(** Rule induction for invariants of every reachable state. *)
Lemma run_invariant (I : S -> Prop) :
  (forall s l s', I s -> step s l s' -> I s') ->
  forall s ls s', run s ls s' -> I s -> I s'.
Proof. intros Hstep s ls s' Hrun. induction Hrun; eauto. Qed.

(** The same with an invariant that mentions the labels seen so far. *)
Lemma run_invariant_trace (I : list L -> S -> Prop) :
  (forall tr s l s', I tr s -> step s l s' -> I (tr ++ [l]) s') ->
  forall s ls s', run s ls s' -> forall tr, I tr s -> I (tr ++ ls) s'.
Proof.
  intros Hstep s ls s' Hrun. induction Hrun as [|s l s1 ls s2 H1 _ IH]; intros tr HI.
  - by rewrite app_nil_r.
  - replace (tr ++ l :: ls) with ((tr ++ [l]) ++ ls) by by rewrite <- app_assoc.
    eauto.
Qed.
End Runs.

(** Executing a schedule: labels that are not enabled, or not allowed, are passed over. *)
Section Exec.
Context {S L : Type} (step : L -> S -> option S) (ok : L -> bool).

Fixpoint exec (ls : list L) (s : S) : S :=
  match ls with
  | [] => s
  | l :: ls => exec ls (if ok l then default s (step l s) else s)
  end.

Lemma exec_run ls s : exists ls', run (fun s l s' => step l s = Some s') s ls' (exec ls s).
Proof.
  revert s. induction ls as [|l ls IH]; intros s; [eexists; constructor|]. cbn.
  destruct (ok l); [|apply IH]. destruct (step l s) as [s'|] eqn:Es; [|apply IH].
  destruct (IH s') as (ls' & Hr). exists (l :: ls'). by eapply run_cons.
Qed.

Lemma exec_invariant (I : S -> Prop) ls s :
  (forall l s s', ok l = true -> I s -> step l s = Some s' -> I s') -> I s -> I (exec ls s).
Proof.
  intros Hstep. revert s. induction ls as [|l ls IH]; intros s HI; [done|]. cbn. apply IH.
  destruct (ok l) eqn:Eo; [|done]. destruct (step l s) as [s'|] eqn:Es; [|done]. by eapply Hstep.
Qed.
End Exec.

(** ** Bounded universal quantification by computation *)

(** [Z_forallb f lo n] tests [f] on the [n] integers from [lo]. *)
Fixpoint Z_forallb (f : Z -> bool) (lo : Z) (n : nat) : bool :=
  match n with
  | O => true
  | S n' => f lo && Z_forallb f (lo + 1) n'
  end.

Lemma Z_forallb_spec f lo n :
  Z_forallb f lo n = true -> forall z, (lo <= z < lo + Z.of_nat n)%Z -> f z = true.
Proof.
  revert lo. induction n as [|n IH]; simpl; intros lo Hf z Hz; [lia|].
  apply andb_true_iff in Hf as [Hlo Hrest].
  destruct (Z.eq_dec z lo) as [->|Hne]; [done|].
  apply (IH (lo + 1)%Z Hrest). lia.
Qed.

(** ** Options: Go's comparison of a pointer with nil *)

Definition is_nil {A} (o : option A) : bool := match o with None => true | Some _ => false end.

Lemma is_nil_false {A} (o : option A) : is_nil o = false -> exists a, o = Some a.
Proof. destruct o; simpl; [eauto|done]. Qed.

(** ** Lists *)

Lemma Forall_impl_mem {A} (P Q : A -> Prop) (l : list A) :
  (forall x, x ∈ l -> P x -> Q x) -> Forall P l -> Forall Q l.
Proof. rewrite !Forall_forall. naive_solver. Qed.

(** Invariant of a loop over a list: [I] relates the elements done so far to the
    accumulator. *)
Lemma fold_left_invariant {A B} (f : A -> B -> A) (I : list B -> A -> Prop) :
  (forall bs a b, I bs a -> I (bs ++ [b]) (f a b)) ->
  forall bs bs0 a, I bs0 a -> I (bs0 ++ bs) (fold_left f bs a).
Proof.
  intros Hstep bs. induction bs as [|b bs IH]; intros bs0 a HI; simpl.
  - by rewrite app_nil_r.
  - replace (bs0 ++ b :: bs) with ((bs0 ++ [b]) ++ bs) by by rewrite <- app_assoc.
    auto.
Qed.

(** ** Strings *)

Open Scope stdpp_scope.

Lemma string_cons_app x (a b : string) : String x a +:+ b = String x (a +:+ b).
Proof. done. Qed.

Lemma string_nil_app (b : string) : EmptyString +:+ b = b.
Proof. done. Qed.

Lemma string_app_nil_r (a : string) : a +:+ EmptyString = a.
Proof. induction a as [|x a IH]; [done|]. by rewrite string_cons_app, IH. Qed.

Lemma string_app_assoc (a b c : string) : (a +:+ b) +:+ c = a +:+ (b +:+ c).
Proof. induction a as [|x a IH]; [done|]. by rewrite !string_cons_app, IH. Qed.

Lemma string_app_inj_l (a b c : string) : a +:+ b = a +:+ c -> b = c.
Proof. induction a as [|x a IH]; [done|]. rewrite !string_cons_app. intros [= H]. auto. Qed.

Lemma string_length_app (a b : string) :
  String.length (a +:+ b) = (String.length a + String.length b)%nat.
Proof. induction a as [|x a IH]; [done|]. rewrite string_cons_app. simpl. by rewrite IH. Qed.

(** Strings of equal length split an append in one way. *)
Lemma string_app_inj (a b c d : string) :
  String.length a = String.length c -> a +:+ b = c +:+ d -> a = c /\ b = d.
Proof.
  revert c. induction a as [|x a IH]; intros [|y c]; try done.
  simpl. rewrite !string_cons_app. intros [= Hlen] [= -> Heq].
  by destruct (IH c Hlen Heq) as [-> ->].
Qed.

Lemma string_app_inj_r (a b c d : string) :
  String.length b = String.length d -> a +:+ b = c +:+ d -> a = c /\ b = d.
Proof.
  intros Hlen Heq. apply string_app_inj; [|done].
  apply (f_equal String.length) in Heq. rewrite !string_length_app in Heq. lia.
Qed.

(** ** Stable sorting

    [sort.SliceStable] and [sort.Ints]: the result of a stable sort is determined by the
    comparison, so insertion sort is a definition of it. *)

Section Sorting.
Context {A : Type} (less : A -> A -> bool).

Fixpoint insert_stable (x : A) (l : list A) : list A :=
  match l with
  | [] => [x]
  | y :: l' => if less y x then y :: insert_stable x l' else x :: y :: l'
  end.

Fixpoint stable_sort (l : list A) : list A :=
  match l with
  | [] => []
  | x :: l' => insert_stable x (stable_sort l')
  end.

Lemma insert_stable_perm x l : insert_stable x l ≡ₚ x :: l.
Proof.
  induction l as [|y l IH]; simpl; [done|]. destruct (less y x); [|done].
  rewrite IH. apply Permutation_swap.
Qed.

Lemma stable_sort_perm l : stable_sort l ≡ₚ l.
Proof. induction l as [|x l IH]; simpl; [done|]. by rewrite insert_stable_perm, IH. Qed.

Lemma elem_of_stable_sort x l : x ∈ stable_sort l <-> x ∈ l.
Proof. by rewrite stable_sort_perm. Qed.

(** [not_after x y]: [y] is not before [x]. *)
Definition not_after (x y : A) : Prop := less y x = false.

Context (P : A -> Prop).
Context (less_asym : forall x y, P x -> P y -> less x y = true -> less y x = false).
Context (not_after_trans : forall x y z, P x -> P y -> P z ->
           not_after x y -> not_after y z -> not_after x z).

Lemma insert_stable_sorted x l :
  P x -> Forall P l -> StronglySorted not_after l ->
  StronglySorted not_after (insert_stable x l).
Proof.
  intros Hx. induction l as [|y l IH]; simpl; intros HP Hs.
  - repeat constructor.
  - inversion HP as [|? ? Hy HPl]; subst. inversion Hs as [|? ? Hsl Hyl]; subst.
    destruct (less y x) eqn:E.
    + constructor; [auto|]. rewrite insert_stable_perm. constructor; [|done].
      unfold not_after. auto.
    + constructor; [done|]. constructor; [done|].
      rewrite Forall_forall in *. intros z Hz. apply not_after_trans with y; auto.
Qed.

Lemma stable_sort_sorted l : Forall P l -> StronglySorted not_after (stable_sort l).
Proof.
  induction l as [|x l IH]; simpl; intros HP; [constructor|].
  inversion HP; subst. apply insert_stable_sorted; auto. by rewrite stable_sort_perm.
Qed.

(** The head of a sorted list: no element is before it. *)
Lemma stable_sort_head l h t :
  Forall P l -> stable_sort l = h :: t -> forall x, x ∈ l -> not_after h x \/ x = h.
Proof.
  intros HP Hsort x Hx. pose proof (stable_sort_sorted l HP) as Hs. rewrite Hsort in Hs.
  apply elem_of_stable_sort in Hx. rewrite Hsort in Hx.
  inversion Hs as [|? ? _ Hall]; subst. apply elem_of_cons in Hx as [->|Hx]; [auto|].
  left. rewrite Forall_forall in Hall. auto.
Qed.
End Sorting.
