(* ===== verification/GoEffects.v ===== *)
(** * Go effects: error values, panics, shared state

    A Go function that reads and writes shared objects and returns an error is a
    [go W A]: a function of the shared world [W] that gives an [outcome] and the
    world it leaves. An error does not roll the world back. *)

From Stdlib Require Import ZArith Lia.
From stdpp Require Import base tactics list option strings.
From S2P Require Import Prelude.

(** ** Error values *)

(** The errors the program builds or passes on. [Errorf fmt args] is
    [fmt.Errorf(fmt, args...)] before rendering; [Wrapf] is an [fmt.Errorf] with a
    [%w] verb; [LibError] is an error made by code outside the repository. *)
Inductive error : Type :=
| Errorf (fmt : string) (args : list string)
| Wrapf (fmt : string) (args : list string) (inner : error)
| ErrNoSuitablePeriod
| ContextCanceled
| ContextDeadlineExceeded
| RedisNil
| LibError (msg : string)
| ErrJoin (errs : list error).

(** [domain/errors]: an error no code of the program returns. *)
Definition ErrInvalidInputType : error := Errorf "invalid input type" [].

(** Context errors are compared by identity in the program ([errors.Is]). *)
Fixpoint errors_Is_Canceled (e : error) : bool :=
  match e with
  | ContextCanceled => true
  | Wrapf _ _ inner => errors_Is_Canceled inner
  | ErrJoin errs => existsb errors_Is_Canceled errs
  | _ => false
  end.

(** [errors.Join] drops nil errors and is nil when every error is. *)
Definition errors_Join (errs : list (option error)) : option error :=
  match omap id errs with
  | [] => None
  | es => Some (ErrJoin es)
  end.

(** ** Outcomes *)

(** [Stuck] is a call that has not returned: it waits for an event the given
    schedule does not contain, or the fuel of an unbounded loop is used up. *)
Inductive outcome (A : Type) : Type :=
| Ret (a : A)
| Err (e : error)
| Panic (why : string)
| Stuck.
Arguments Ret {A} a.
Arguments Err {A} e.
Arguments Panic {A} why.
Arguments Stuck {A}.

(** ** The state and error monad *)

Definition go (W A : Type) : Type := W -> outcome A * W.

Section Monad.
Context {W : Type}.

#[export] Instance go_ret : MRet (go W) := fun A a w => (Ret a, w).

#[export] Instance go_bind : MBind (go W) := fun A B f m w =>
  match m w with
  | (Ret a, w') => f a w'
  | (Err e, w') => (Err e, w')
  | (Panic p, w') => (Panic p, w')
  | (Stuck, w') => (Stuck, w')
  end.

Definition throw {A} (e : error) : go W A := fun w => (Err e, w).
Definition go_panic {A} (why : string) : go W A := fun w => (Panic why, w).
Definition stuck {A} : go W A := fun w => (Stuck, w).
Definition get : go W W := fun w => (Ret w, w).
Definition gets {A} (f : W -> A) : go W A := fun w => (Ret (f w), w).
Definition modify (f : W -> W) : go W unit := fun w => (Ret tt, f w).

(** [if cond { return err }] *)
Definition guard_err (cond : bool) (e : error) : go W unit :=
  if cond then throw e else mret tt.

(** [v, err := m()]: the error becomes a value the caller inspects. *)
Definition attempt {A} (m : go W A) : go W (error + A) := fun w =>
  match m w with
  | (Ret a, w') => (Ret (inr a), w')
  | (Err e, w') => (Ret (inl e), w')
  | (Panic p, w') => (Panic p, w')
  | (Stuck, w') => (Stuck, w')
  end.

(** [_ = m()] *)
Definition ignore_err {A} (m : go W A) : go W unit :=
  _ ← attempt m; mret tt.

(** The error of a call as Go's nilable [error] result. *)
Definition err_of {A} (m : go W A) : go W (option error) :=
  r ← attempt m; mret (match r with inl e => Some e | inr _ => None end).

Definition lift_sum {A} (r : error + A) : go W A :=
  match r with inl e => throw e | inr a => mret a end.

Definition lift_opt (r : option error) : go W unit :=
  match r with Some e => throw e | None => mret tt end.

Fixpoint forM_ {A} (l : list A) (f : A -> go W unit) : go W unit :=
  match l with
  | [] => mret tt
  | x :: l' => _ ← f x; forM_ l' f
  end.
End Monad.

(** Run a computation on a part of a larger world. *)
Definition zoom {W V A} (view : W -> V) (update : V -> W -> W) (m : go V A) : go W A :=
  fun w => let '(r, v) := m (view w) in (r, update v w).

(** ** Hoare-style reasoning *)

(** Every outcome of [m] from [w] satisfies [Q]. *)
Definition wp {W A} (m : go W A) (Q : outcome A -> W -> Prop) (w : W) : Prop :=
  Q (fst (m w)) (snd (m w)).

(** [m] ends with an error, a panic or no result, whatever it returns. *)
Definition propagate {A B} (r : outcome A) : outcome B :=
  match r with
  | Ret _ => Stuck
  | Err e => Err e
  | Panic p => Panic p
  | Stuck => Stuck
  end.

Section Laws.
Context {W : Type}.
Implicit Types w : W.

Lemma bind_Ret {A B} (m : go W A) (f : A -> go W B) w a w' :
  m w = (Ret a, w') -> (m ≫= f) w = f a w'.
Proof. unfold mbind, go_bind. by intros ->. Qed.

Lemma bind_Err {A B} (m : go W A) (f : A -> go W B) w e w' :
  m w = (Err e, w') -> (m ≫= f) w = (Err e, w').
Proof. unfold mbind, go_bind. by intros ->. Qed.

Lemma bind_Panic {A B} (m : go W A) (f : A -> go W B) w p w' :
  m w = (Panic p, w') -> (m ≫= f) w = (Panic p, w').
Proof. unfold mbind, go_bind. by intros ->. Qed.

Lemma bind_Stuck {A B} (m : go W A) (f : A -> go W B) w w' :
  m w = (Stuck, w') -> (m ≫= f) w = (Stuck, w').
Proof. unfold mbind, go_bind. by intros ->. Qed.

Lemma bind_assoc {A B C} (m : go W A) (f : A -> go W B) (g : B -> go W C) w :
  ((m ≫= f) ≫= g) w = (m ≫= (fun a => f a ≫= g)) w.
Proof. unfold mbind, go_bind. by destruct (m w) as [[a|e|p|] w']. Qed.

(** Inversion of a successful sequence. *)
Lemma bind_inv_Ret {A B} (m : go W A) (f : A -> go W B) w b w2 :
  (m ≫= f) w = (Ret b, w2) ->
  exists a w1, m w = (Ret a, w1) /\ f a w1 = (Ret b, w2).
Proof.
  unfold mbind, go_bind. destruct (m w) as [[a|e|p|] w1]; try done. eauto.
Qed.

Lemma ret_inv {A} (a b : A) w w' : (mret a : go W A) w = (Ret b, w') -> a = b /\ w = w'.
Proof. unfold mret, go_ret. by intros [= -> ->]. Qed.

Lemma guard_inv c e w (u : unit) w' :
  guard_err c e w = (Ret u, w') -> c = false /\ w = w'.
Proof. unfold guard_err, throw, mret, go_ret. destruct c; [done|]. by intros [= _ ->]. Qed.

Lemma guard_true e w : @guard_err W true e w = (Err e, w).
Proof. done. Qed.

Lemma guard_false e w : @guard_err W false e w = (Ret tt, w).
Proof. done. Qed.

Lemma bind_guard_false {B} e (f : unit -> go W B) w :
  (guard_err false e ≫= f) w = f tt w.
Proof. done. Qed.

Lemma wp_ret {A} (a : A) (Q : outcome A -> W -> Prop) w : Q (Ret a) w -> wp (mret a) Q w.
Proof. done. Qed.

(** The rule of sequencing. *)
Lemma wp_bind {A B} (m : go W A) (f : A -> go W B) Q w :
  wp m (fun r w' => match r with
                    | Ret a => wp (f a) Q w'
                    | _ => Q (propagate r) w'
                    end) w ->
  wp (m ≫= f) Q w.
Proof.
  unfold wp, mbind, go_bind. destruct (m w) as [[a|e|p|] w']; simpl; done.
Qed.

Lemma wp_guard c e (Q : outcome unit -> W -> Prop) w :
  (c = true -> Q (Err e) w) -> (c = false -> Q (Ret tt) w) -> wp (guard_err c e) Q w.
Proof. unfold wp, guard_err. destruct c; simpl; auto. Qed.

Lemma wp_mono {A} (m : go W A) (P Q : outcome A -> W -> Prop) w :
  (forall r w', P r w' -> Q r w') -> wp m P w -> wp m Q w.
Proof. unfold wp. auto. Qed.

Lemma wp_run {A} (m : go W A) Q w r w' : wp m Q w -> m w = (r, w') -> Q r w'.
Proof. unfold wp. intros H E. by rewrite E in H. Qed.
End Laws.

(** ** Absence of panics *)

(** From [P], [m] does not panic, and what it returns satisfies [Q]; with [total] it
    always returns a value or an error. *)
Definition safe {W A} (total : bool) (P : W -> Prop) (m : go W A) (Q : A -> W -> Prop) : Prop :=
  forall w, P w ->
    match m w with
    | (Ret a, w') => Q a w'
    | (Err _, _) => True
    | (Panic _, _) => False
    | (Stuck, _) => total = false
    end.

Section Safe.
Context {W : Type}.
Implicit Types P : W -> Prop.

Lemma safe_ret {A} t P (a : A) (Q : A -> W -> Prop) :
  (forall w, P w -> Q a w) -> safe t P (mret a) Q.
Proof. intros H w Hw. by apply H. Qed.

Lemma safe_throw {A} t P e (Q : A -> W -> Prop) : safe t P (throw e) Q.
Proof. by intros w _. Qed.

Lemma safe_stuck {A} P (Q : A -> W -> Prop) : safe false P stuck Q.
Proof. by intros w _. Qed.

Lemma safe_bind {A B} t P (m : go W A) (f : A -> go W B) (Q : A -> W -> Prop) (S : B -> W -> Prop) :
  safe t P m Q -> (forall a, safe t (Q a) (f a) S) -> safe t P (m ≫= f) S.
Proof.
  intros Hm Hf w Hw. specialize (Hm w Hw). unfold mbind, go_bind.
  destruct (m w) as [[a|e|p|] w']; try done. by apply Hf.
Qed.

Lemma safe_guard t P c e :
  safe t P (guard_err c e) (fun _ w => P w /\ c = false).
Proof. intros w Hw. unfold guard_err. by destruct c. Qed.

Lemma safe_weaken {A} t P P' (m : go W A) (Q Q' : A -> W -> Prop) :
  safe t P m Q -> (forall w, P' w -> P w) -> (forall a w, Q a w -> Q' a w) -> safe t P' m Q'.
Proof.
  intros H H1 H2 w Hw. specialize (H w (H1 w Hw)). destruct (m w) as [[a|e|p|] w']; eauto.
Qed.

Lemma safe_gets {A} t P (f : W -> A) : safe t P (gets f) (fun _ => P).
Proof. by intros w Hw. Qed.

Lemma safe_pure {A} t (phi : Prop) P (m : go W A) (Q : A -> W -> Prop) :
  (phi -> safe t P m Q) -> safe t (fun w => P w /\ phi) m Q.
Proof. intros H w [Hw Hphi]. by apply H. Qed.

Lemma safe_partial {A} P (m : go W A) (Q : A -> W -> Prop) : safe true P m Q -> safe false P m Q.
Proof. intros H w Hw. specialize (H w Hw). destruct (m w) as [[a|e|p|] w']; done. Qed.
End Safe.

(** ** Invariants of every outcome *)

(** [I] survives [m], whether it returns or fails. *)
Definition keeps {W A} (I : W -> Prop) (m : go W A) : Prop := forall w, I w -> I (snd (m w)).

Section Keeps.
Context {W : Type} (I : W -> Prop).

Lemma keeps_ret {A} (a : A) : keeps I (mret a).
Proof. by intros w Hw. Qed.

Lemma keeps_throw {A} e : keeps I (@throw W A e).
Proof. by intros w Hw. Qed.

Lemma keeps_panic {A} why : keeps I (@go_panic W A why).
Proof. by intros w Hw. Qed.

Lemma keeps_stuck {A} : keeps I (@stuck W A).
Proof. by intros w Hw. Qed.

Lemma keeps_gets {A} (f : W -> A) : keeps I (gets f).
Proof. by intros w Hw. Qed.

Lemma keeps_guard c e : keeps I (guard_err c e).
Proof. intros w Hw. unfold guard_err. by destruct c. Qed.

Lemma keeps_modify f : (forall w, I w -> I (f w)) -> keeps I (modify f).
Proof. intros Hf w Hw. by apply Hf. Qed.

Lemma keeps_bind {A B} (m : go W A) (f : A -> go W B) :
  keeps I m -> (forall a, keeps I (f a)) -> keeps I (m ≫= f).
Proof.
  intros Hm Hf w Hw. specialize (Hm w Hw). unfold mbind, go_bind.
  destruct (m w) as [[a|e|p|] w']; try done. by apply Hf.
Qed.

Lemma keeps_attempt {A} (m : go W A) : keeps I m -> keeps I (attempt m).
Proof.
  intros Hm w Hw. specialize (Hm w Hw). unfold attempt. by destruct (m w) as [[a|e|p|] w'].
Qed.

Lemma keeps_forM {A} (l : list A) f : (forall x, keeps I (f x)) -> keeps I (forM_ l f).
Proof. intros Hf. induction l as [|x l IH]; [apply keeps_ret|]. by apply keeps_bind. Qed.
End Keeps.

#[export] Hint Resolve keeps_ret keeps_throw keeps_panic keeps_stuck keeps_gets keeps_guard : guest.

(** Take a computation apart: sequences, cases, and what the hints know. *)
Ltac keeps_auto :=
  repeat first
    [ progress cbv beta zeta
    | match goal with
      | |- keeps _ (mbind _ _) => apply keeps_bind; [|intros ?]
      | |- keeps _ (attempt _) => apply keeps_attempt
      | |- keeps _ (match ?x with _ => _ end) => destruct x
      | |- keeps _ _ => solve [eauto with guest]
      end ].

(** [m] keeps [I] on every outcome and does not panic; with [total] it ends. *)
Definition robust {W A} (total : bool) (I : W -> Prop) (m : go W A) : Prop := forall w, I w ->
  I (snd (m w))
  /\ match fst (m w) with Panic _ => False | Stuck => total = false | _ => True end.

Section Robust.
Context {W : Type} (t : bool) (I : W -> Prop).

Lemma robust_intro {A} (m : go W A) Q : safe t I m Q -> keeps I m -> robust t I m.
Proof.
  intros Hs Hk w Hw. split; [by apply Hk|]. specialize (Hs w Hw).
  by destruct (m w) as [[a|e|p|] w'].
Qed.

Lemma robust_keeps {A} (m : go W A) : robust t I m -> keeps I m.
Proof. intros H w Hw. by apply H. Qed.

Lemma robust_bind {A B} (m : go W A) (f : A -> go W B) :
  robust t I m -> (forall a, robust t I (f a)) -> robust t I (m ≫= f).
Proof.
  intros Hm Hf w Hw. destruct (Hm w Hw) as [H1 H2]. unfold mbind, go_bind.
  destruct (m w) as [[a|e|p|] w']; try done. by apply Hf.
Qed.

Lemma robust_ret {A} (a : A) : robust t I (mret a).
Proof. by intros w Hw. Qed.

Lemma robust_throw {A} e : robust t I (@throw W A e).
Proof. by intros w Hw. Qed.

Lemma robust_guard c e : robust t I (guard_err c e).
Proof. intros w Hw. unfold guard_err. by destruct c. Qed.

Lemma robust_gets {A} (f : W -> A) : robust t I (gets f).
Proof. by intros w Hw. Qed.

Lemma robust_modify f : (forall w, I w -> I (f w)) -> robust t I (modify f).
Proof. intros Hf w Hw. split; [by apply Hf|done]. Qed.

Lemma robust_attempt {A} (m : go W A) : robust t I m -> robust t I (attempt m).
Proof.
  intros Hm w Hw. destruct (Hm w Hw) as [H1 H2]. unfold attempt. by destruct (m w) as [[a|e|p|] w'].
Qed.
End Robust.

(** A computation on a part of a world on which the invariant does not depend, and on the
    part the invariant is about. *)
Lemma robust_zoom {W V A} t (I : W -> Prop) (Iv : V -> Prop) view update (m : go V A) :
  (forall w, I w -> Iv (view w)) -> (forall v w, I w -> Iv v -> I (update v w)) ->
  robust t Iv m -> robust t I (zoom view update m).
Proof.
  intros Hv Hu Hm w Hw. destruct (Hm (view w) (Hv w Hw)) as [H1 H2]. unfold zoom.
  destruct (m (view w)) as [r v]. split; [by apply Hu|done].
Qed.

#[export] Hint Resolve robust_ret robust_throw robust_guard robust_gets : guest.

Ltac robust_auto :=
  repeat first
    [ progress cbv beta zeta
    | match goal with
      | |- robust _ _ (mbind _ _) => apply robust_bind; [|intros ?]
      | |- robust _ _ (attempt _) => apply robust_attempt
      | |- robust _ _ (match ?x with _ => _ end) => destruct x
      | |- robust _ _ _ => solve [eauto with guest]
      end ].

(** Step through a successful run recorded in [H]. *)
Ltac go_inv H :=
  let a := fresh "v" in let w := fresh "w" in let H1 := fresh "Hrun" in
  apply bind_inv_Ret in H as (a & w & H1 & H).

(** Invert every leading guard of a successful run. *)
Ltac go_guards H :=
  repeat (let H1 := fresh "Hg" in
          apply bind_inv_Ret in H as ([] & ? & H1 & H);
          apply guard_inv in H1 as [H1 <-]).

(** One step of a sequence, by the rule of its first computation; the name of the value
    is the caller's. *)
Tactic Notation "safe_seq" constr(rule) "as" simple_intropattern(x) :=
  eapply safe_bind; [apply rule|];
  match goal with
  | |- forall _, _ => intros x; cbv beta; try (apply safe_pure; intros ?)
  end.
