(* ===== verification/GoTime.v ===== *)
(** * The part of Go's [time] package the program uses

    A [Time] is an instant (nanoseconds since the Unix epoch) and the offset of its
    location. The program converts to UTC before it reads a calendar field, so a
    location is only ever an offset here. The calendar is the proleptic Gregorian
    one of package [time]; [civil_of_days] and [days_of_civil] are its two
    directions. *)

From Stdlib Require Import ZArith Lia Ascii.
From stdpp Require Import base tactics list option strings.
From S2P Require Import Prelude.
Open Scope Z_scope.

(** ** Calendar *)

(** Year, month and day of the day [z] after 1970-01-01. *)
Definition civil_of_days (z : Z) : Z * Z * Z :=
  let z' := z + 719468 in
  let era := z' / 146097 in
  let doe := z' mod 146097 in
  let yoe := (doe - doe / 1460 + doe / 36524 - doe / 146096) / 365 in
  let doy := doe - (365 * yoe + yoe / 4 - yoe / 100) in
  let mp := (5 * doy + 2) / 153 in
  let d := doy - (153 * mp + 2) / 5 + 1 in
  let m := if mp <? 10 then mp + 3 else mp - 9 in
  (yoe + era * 400 + (if m <=? 2 then 1 else 0), m, d).

(** The day number of a date; the day may be out of the month's range, as in
    [time.Date]. *)
Definition days_of_civil (y m d : Z) : Z :=
  let y' := if m <=? 2 then y - 1 else y in
  let era := y' / 400 in
  let yoe := y' mod 400 in
  let doy := (153 * (if 2 <? m then m - 3 else m + 9) + 2) / 5 + d - 1 in
  let doe := yoe * 365 + yoe / 4 - yoe / 100 + doy in
  era * 146097 + doe - 719468.

Definition isLeap (y : Z) : bool :=
  (y mod 4 =? 0) && (negb (y mod 100 =? 0) || (y mod 400 =? 0)).

Definition daysIn (m y : Z) : Z :=
  if m =? 2 then (if isLeap y then 29 else 28)
  else if (m =? 4) || (m =? 6) || (m =? 9) || (m =? 11) then 30 else 31.

(** ** Instants *)

Record Time := mkTime {
  unixNano : Z;    (** nanoseconds since 1970-01-01T00:00:00Z *)
  zoneOffset : Z;  (** seconds east of UTC *)
}.

#[export] Instance Time_eq_dec : EqDecision Time.
Proof. solve_decision. Defined.

Definition nsPerSec : Z := 1000000000.
Definition nsPerDay : Z := 86400 * nsPerSec.

(** Wall-clock nanoseconds in the location of [t]. *)
Definition wall (t : Time) : Z := unixNano t + zoneOffset t * nsPerSec.

Definition UTC (t : Time) : Time := mkTime (unixNano t) 0.
Definition civil (t : Time) : Z * Z * Z := civil_of_days (wall t / nsPerDay).
Definition Year (t : Time) : Z := fst (fst (civil t)).
Definition Month (t : Time) : Z := snd (fst (civil t)).
Definition Day (t : Time) : Z := snd (civil t).
Definition Hour (t : Time) : Z := wall t mod nsPerDay / (3600 * nsPerSec).
Definition Minute (t : Time) : Z := wall t mod (3600 * nsPerSec) / (60 * nsPerSec).
Definition Second (t : Time) : Z := wall t mod (60 * nsPerSec) / nsPerSec.
Definition Nanosecond (t : Time) : Z := wall t mod nsPerSec.

Definition Before (t u : Time) : bool := unixNano t <? unixNano u.
Definition After (t u : Time) : bool := unixNano u <? unixNano t.
Definition Equal (t u : Time) : bool := unixNano t =? unixNano u.

(** [time.Date]: months, days and clock fields may be out of range. *)
Definition Date (y m d h mi s ns offset : Z) : Time :=
  let y' := y + (m - 1) / 12 in
  let m' := (m - 1) mod 12 + 1 in
  mkTime (((days_of_civil y' m' d * 86400 + h * 3600 + mi * 60 + s) - offset) * nsPerSec + ns)
         offset.

Definition AddDate (t : Time) (years months days : Z) : Time :=
  Date (Year t + years) (Month t + months) (Day t + days)
       (Hour t) (Minute t) (Second t) (Nanosecond t) (zoneOffset t).

(** [Duration] is an [int64] of nanoseconds; [Sub] saturates. *)
Definition minDuration : Z := - 2 ^ 63.
Definition maxDuration : Z := 2 ^ 63 - 1.
Definition Sub (t u : Time) : Z :=
  Z.max minDuration (Z.min maxDuration (unixNano t - unixNano u)).

#[global] Arguments civil_of_days : simpl never.
#[global] Arguments days_of_civil : simpl never.
#[global] Arguments Date : simpl never.
#[global] Arguments AddDate : simpl never.
#[global] Arguments Sub : simpl never.

(** ** Calendar lemmas *)

Definition civil_ok_doe (doe : Z) : bool :=
  let yoe := (doe - doe / 1460 + doe / 36524 - doe / 146096) / 365 in
  let doy := doe - (365 * yoe + yoe / 4 - yoe / 100) in
  let mp := (5 * doy + 2) / 153 in
  let d := doy - (153 * mp + 2) / 5 + 1 in
  let m := if mp <? 10 then mp + 3 else mp - 9 in
  (0 <=? yoe) && (yoe <? 400) && (0 <=? mp) && (mp <=? 11) && (1 <=? d)
  && (d <=? daysIn m (yoe + (if m <=? 2 then 1 else 0))).

(** Years of the 400-year cycle start in March; all but the cycle's last day. *)
Definition year_start (k : Z) : Z := 365 * k + k / 4 - k / 100.
Definition year_of_day (doe : Z) : Z := (doe - doe / 1460 + doe / 36524 - doe / 146096) / 365.

Definition year_ok (k : Z) : bool :=
  (year_of_day (year_start k) =? k) && (year_of_day (year_start (k + 1) - 1) =? k)
  && (year_start (k + 1) - year_start k <=? (if isLeap (k + 1) then 366 else 365)).

Definition days_in (m : Z) (leap : bool) : Z :=
  if m =? 2 then (if leap then 29 else 28)
  else if (m =? 4) || (m =? 6) || (m =? 9) || (m =? 11) then 30 else 31.

(** The month and day of a day of a year that starts in March. *)
Definition doy_ok (leap : bool) (doy : Z) : bool :=
  let mp := (5 * doy + 2) / 153 in
  let d := doy - (153 * mp + 2) / 5 + 1 in
  let m := if mp <? 10 then mp + 3 else mp - 9 in
  (0 <=? mp) && (mp <=? 11) && (1 <=? d) && (d <=? days_in m leap).

Lemma year_ok_all : Z_forallb year_ok 0 400 = true.
Proof. vm_compute. reflexivity. Qed.

Lemma doy_ok_all : Z_forallb (doy_ok false) 0 365 && Z_forallb (doy_ok true) 0 366 = true.
Proof. vm_compute. reflexivity. Qed.

Lemma year_of_day_mono a b : 0 <= a <= b -> b < 146096 -> year_of_day a <= year_of_day b.
Proof.
  intros H1 H2. unfold year_of_day. rewrite (Z.div_small a 146096), (Z.div_small b 146096) by lia.
  apply Z.div_le_mono; [lia|].
  pose proof (Z.div_le_mono a b 36524 ltac:(lia) ltac:(lia)).
  pose proof (Z.div_le_mono b (a + (b - a) * 1460) 1460 ltac:(lia) ltac:(lia)) as Hq.
  rewrite Z.div_add in Hq by lia. lia.
Qed.

Lemma year_exists (n : nat) doe :
  0 <= doe < year_start (Z.of_nat n) ->
  exists k, 0 <= k < Z.of_nat n /\ year_start k <= doe < year_start (k + 1).
Proof.
  induction n as [|n IH]; intros Hd; [change (year_start (Z.of_nat 0)) with 0 in Hd; lia|].
  destruct (Z.ltb_spec doe (year_start (Z.of_nat n))) as [Hlt|Hge].
  - destruct IH as (k & Hk & H); [lia|]. exists k. split; [lia|exact H].
  - exists (Z.of_nat n). split; [lia|]. split; [exact Hge|].
    replace (Z.of_nat n + 1) with (Z.of_nat (S n)) by lia. lia.
Qed.

Lemma daysIn_leap m k : daysIn m (k + (if m <=? 2 then 1 else 0)) = days_in m (isLeap (k + 1)).
Proof.
  unfold daysIn, days_in. destruct (m =? 2) eqn:E; [|done]. apply Z.eqb_eq in E as ->. done.
Qed.

Lemma civil_ok doe : 0 <= doe < 146097 -> civil_ok_doe doe = true.
Proof.
  intros Hd. destruct (decide (doe = 146096)) as [->|Hne]; [vm_compute; reflexivity|].
  destruct (year_exists 400 doe) as (k & Hk & Hlo & Hhi);
    [change (year_start (Z.of_nat 400)) with 146096; lia|]. change (Z.of_nat 400) with 400 in Hk.
  pose proof (Z_forallb_spec _ _ _ year_ok_all k ltac:(lia)) as Hy. unfold year_ok in Hy.
  reflect_ineqs.
  assert (0 <= year_start k) by (unfold year_start; Z.div_mod_to_equations; lia).
  assert (year_start (k + 1) <= 146096) by (unfold year_start; Z.div_mod_to_equations; lia).
  pose proof (year_of_day_mono (year_start k) doe ltac:(lia) ltac:(lia)).
  pose proof (year_of_day_mono doe (year_start (k + 1) - 1) ltac:(lia) ltac:(lia)).
  unfold civil_ok_doe. fold (year_of_day doe). replace (year_of_day doe) with k by lia.
  fold (year_start k). cbv zeta. rewrite daysIn_leap.
  pose proof doy_ok_all as Hall. apply andb_true_iff in Hall as [Hcommon Hleap].
  assert (Hdoy : doy_ok (isLeap (k + 1)) (doe - year_start k) = true).
  { destruct (isLeap (k + 1));
      [apply (Z_forallb_spec _ _ _ Hleap)|apply (Z_forallb_spec _ _ _ Hcommon)]; lia. }
  unfold doy_ok in Hdoy. cbv zeta in Hdoy.
  replace (0 <=? k) with true by (symmetry; apply Z.leb_le; lia).
  replace (k <? 400) with true by (symmetry; apply Z.ltb_lt; lia). exact Hdoy.
Qed.

Lemma isLeap_period y k : isLeap (y + k * 400) = isLeap y.
Proof.
  unfold isLeap.
  replace (y + k * 400) with (y + k * 100 * 4) at 1 by lia.
  replace (y + k * 400) with (y + k * 4 * 100) at 1 by lia.
  rewrite !Z.mod_add by lia. done.
Qed.

Lemma daysIn_period m y k : daysIn m (y + k * 400) = daysIn m y.
Proof. unfold daysIn. by rewrite isLeap_period. Qed.

Lemma civil_of_days_spec z :
  let '(y, m, d) := civil_of_days z in
  days_of_civil y m d = z /\ 1 <= m <= 12 /\ 1 <= d <= daysIn m y.
Proof.
  unfold civil_of_days.
  set (era := (z + 719468) / 146097). set (doe := (z + 719468) mod 146097).
  assert (Hdoe : 0 <= doe < 146097) by (apply Z.mod_pos_bound; lia).
  assert (Hz : z + 719468 = 146097 * era + doe) by (apply Z.div_mod; lia).
  pose proof (civil_ok doe Hdoe) as Hok.
  unfold civil_ok_doe in Hok.
  set (yoe := (doe - doe / 1460 + doe / 36524 - doe / 146096) / 365) in *.
  set (doy := doe - (365 * yoe + yoe / 4 - yoe / 100)) in *.
  set (mp := (5 * doy + 2) / 153) in *. clearbody era mp yoe.
  cbv zeta in Hok. reflect_ineqs.
  set (m := if mp <? 10 then mp + 3 else mp - 9) in *.
  assert (Hm : 1 <= m <= 12) by (subst m; destruct (mp <? 10) eqn:E; reflect_ineqs; lia).
  split; [|split; [exact Hm|]].
  - unfold days_of_civil.
    assert (Hy : (if m <=? 2 then yoe + era * 400 + (if m <=? 2 then 1 else 0) - 1
                  else yoe + era * 400 + (if m <=? 2 then 1 else 0)) = yoe + era * 400)
      by (destruct (m <=? 2); lia).
    rewrite Hy, Z.div_add, Z.mod_add, Z.div_small, Z.mod_small by lia.
    assert (Hmp : (if 2 <? m then m - 3 else m + 9) = mp)
      by (subst m; destruct (mp <? 10) eqn:E; reflect_ineqs;
          destruct (2 <? _) eqn:E2; reflect_ineqs; lia).
    rewrite Hmp. subst doy. lia.
  - replace (yoe + era * 400 + (if m <=? 2 then 1 else 0))
      with (yoe + (if m <=? 2 then 1 else 0) + era * 400) by lia.
    rewrite daysIn_period. lia.
Qed.

Lemma days_of_civil_of_days z y m d :
  civil_of_days z = (y, m, d) -> days_of_civil y m d = z.
Proof. intros E. pose proof (civil_of_days_spec z) as H. rewrite E in H. tauto. Qed.

Lemma civil_of_days_inj z1 z2 : civil_of_days z1 = civil_of_days z2 -> z1 = z2.
Proof.
  destruct (civil_of_days z1) as [[y m] d] eqn:E1. intros E2.
  rewrite <- (days_of_civil_of_days z1 y m d E1). by apply days_of_civil_of_days.
Qed.

(** Days past the end of the month run into the next one. *)
Lemma days_of_civil_add y m d n : days_of_civil y m (d + n) = days_of_civil y m d + n.
Proof. unfold days_of_civil. lia. Qed.

Lemma Month_range t : 1 <= Month t <= 12.
Proof.
  unfold Month, civil. pose proof (civil_of_days_spec (wall t / nsPerDay)) as H.
  destruct (civil_of_days _) as [[y m] d]. simpl. tauto.
Qed.

Lemma days_of_civil_Time t : days_of_civil (Year t) (Month t) (Day t) = wall t / nsPerDay.
Proof.
  unfold Year, Month, Day, civil. destruct (civil_of_days _) as [[y m] d] eqn:E.
  by apply days_of_civil_of_days.
Qed.

Lemma month_normal m : 1 <= m <= 12 -> (m - 1) / 12 = 0 /\ (m - 1) mod 12 + 1 = m.
Proof. intros H. rewrite Z.div_small, Z.mod_small by lia. lia. Qed.

(** Splitting a day's wall clock into fields loses nothing. *)
Lemma clock_fields t :
  Hour t * 3600 * nsPerSec + Minute t * 60 * nsPerSec + Second t * nsPerSec + Nanosecond t
  = wall t mod nsPerDay.
Proof.
  unfold Hour, Minute, Second, Nanosecond, nsPerDay, nsPerSec.
  set (w := wall t). clearbody w. Z.div_mod_to_equations. lia.
Qed.

(** [AddDate(0, 0, n)] is a shift by whole days, in any fixed-offset location. *)
Lemma AddDate_days t n :
  AddDate t 0 0 n = mkTime (unixNano t + n * nsPerDay) (zoneOffset t).
Proof.
  unfold AddDate, Date. rewrite !Z.add_0_r.
  destruct (month_normal (Month t) (Month_range t)) as [-> ->].
  rewrite Z.add_0_r, days_of_civil_add, days_of_civil_Time. f_equal.
  pose proof (clock_fields t) as Hc.
  pose proof (Z.div_mod (wall t) nsPerDay ltac:(unfold nsPerDay, nsPerSec; lia)) as Hd.
  unfold wall in *. unfold nsPerDay in *. unfold nsPerSec in *. lia.
Qed.

(** Midnight of the calendar day is the floor of the instant. *)
Lemma Date_midnight t :
  Date (Year t) (Month t) (Day t) 0 0 0 0 0
  = mkTime (wall t / nsPerDay * nsPerDay) 0.
Proof.
  unfold Date. destruct (month_normal (Month t) (Month_range t)) as [-> ->].
  rewrite !Z.add_0_r, days_of_civil_Time. f_equal. unfold nsPerDay. lia.
Qed.

Lemma Date_hour t h :
  Date (Year t) (Month t) (Day t) h 0 0 0 0
  = mkTime (wall t / nsPerDay * nsPerDay + h * 3600 * nsPerSec) 0.
Proof.
  unfold Date. destruct (month_normal (Month t) (Month_range t)) as [-> ->].
  rewrite !Z.add_0_r, days_of_civil_Time. f_equal. unfold nsPerDay. lia.
Qed.

(** Equal calendar fields mean the same day. *)
Lemma same_civil_iff t u :
  (Year t = Year u /\ Month t = Month u /\ Day t = Day u)
  <-> wall t / nsPerDay = wall u / nsPerDay.
Proof.
  unfold Year, Month, Day, civil. split.
  - intros (Hy & Hm & Hd). apply civil_of_days_inj.
    destruct (civil_of_days (wall t / nsPerDay)) as [[? ?] ?],
             (civil_of_days (wall u / nsPerDay)) as [[? ?] ?]. simpl in *. congruence.
  - intros ->. done.
Qed.

Lemma nsPerDay_pos : 0 < nsPerDay.
Proof. unfold nsPerDay, nsPerSec. lia. Qed.
#[export] Hint Resolve nsPerDay_pos : guest.

Lemma floor_day_le n : n / nsPerDay * nsPerDay <= n < n / nsPerDay * nsPerDay + nsPerDay.
Proof.
  pose proof (Z.div_mod n nsPerDay ltac:(pose proof nsPerDay_pos; lia)).
  pose proof (Z.mod_pos_bound n nsPerDay nsPerDay_pos). lia.
Qed.

(** ** Formatting *)

Definition digit (n : Z) : ascii := ascii_of_nat (Z.to_nat (48 + n)).

Fixpoint utoa_aux (fuel : nat) (n : Z) (acc : string) : string :=
  match fuel with
  | O => acc
  | S fuel' =>
      let acc' := String (digit (n mod 10)) acc in
      if n <? 10 then acc' else utoa_aux fuel' (n / 10) acc'
  end.

(** Decimal digits of [n >= 0]; a number below [2^k] has at most [k] of them. *)
Definition utoa (n : Z) : string := utoa_aux (S (Z.to_nat (Z.log2 n))) n "".

Fixpoint zeros (n : nat) : string :=
  match n with O => "" | S n' => String "0"%char (zeros n') end.

Definition pad_zeros (width : nat) (s : string) : string :=
  zeros (width - String.length s) +:+ s.

(** [appendInt] of package time: zero padding to [width], sign first. *)
Definition appendInt (x : Z) (width : nat) : string :=
  (if x <? 0 then "-" else "") +:+ pad_zeros width (utoa (Z.abs x)).

(** [t.Format("2006-01-02")] *)
Definition FormatDate (t : Time) : string :=
  appendInt (Year t) 4 +:+ "-" +:+ appendInt (Month t) 2 +:+ "-" +:+ appendInt (Day t) 2.

Definition FormatClock (t : Time) : string :=
  appendInt (Hour t) 2 +:+ ":" +:+ appendInt (Minute t) 2 +:+ ":" +:+ appendInt (Second t) 2.

(** The [Z07:00] suffix. *)
Definition FormatZone (t : Time) : string :=
  let off := zoneOffset t in
  if off =? 0 then "Z"
  else (if Z.quot off 60 <? 0 then "-" else "+")
       +:+ appendInt (Z.abs (Z.quot off 60) / 60) 2 +:+ ":"
       +:+ appendInt (Z.abs (Z.quot off 60) mod 60) 2.

(** [t.Format(time.RFC3339)] *)
Definition FormatRFC3339 (t : Time) : string :=
  FormatDate t +:+ "T" +:+ FormatClock t +:+ FormatZone t.

(** Conversion tests compare calendar terms structurally before they compute them. *)
#[global] Strategy 10000 [civil_of_days days_of_civil Date AddDate civil Sub].
