(* ===== verification/GoText.v ===== *)
(** * The string and time-text functions of Go's standard library

    [strings.TrimSpace], [strings.EqualFold], [strings.ToLower], [strings.Split] and
    the RFC 3339 reader behind [Time.UnmarshalJSON]. What needs the Unicode tables,
    and the lenient layout parser [time.Parse] falls back to, are the operations of
    the class [GoLib]. *)

From Stdlib Require Import ZArith Lia Ascii.
From Stdlib Require String.
From stdpp Require Import base tactics list option strings.
From S2P Require Import Prelude GoTime.
Open Scope Z_scope.

(** ** Parameters: the standard library, and the strings of [google.golang.org/protobuf] *)

Class GoLib := {
  (** [strings.EqualFold] from the first non-ASCII byte on *)
  unicode_EqualFold : string -> string -> bool;
  (** [strings.ToLower] of a string with a non-ASCII byte *)
  unicode_ToLower : string -> string;
  (** [time.Parse(time.RFC3339, s)] where the strict reader refuses [s] *)
  time_Parse_lenient : string -> option Time;
  (** [protoimpl.X.EnumStringOf] for an enumeration with these names *)
  proto_EnumStringOf : list (Z * string) -> Z -> string
}.

Definition byte (c : ascii) : Z := Z.of_nat (nat_of_ascii c).

(** ** [strings.TrimSpace] *)

Definition asciiSpace (b : Z) : bool := ((9 <=? b) && (b <=? 13)) || (b =? 32).

(** The bytes of one white-space rune at the head, by [unicode.IsSpace]: how many. *)
Definition space_len (l : list Z) : nat :=
  match l with
  | b :: rest =>
      if asciiSpace b then 1%nat
      else match b, rest with
           | 194, b2 :: _ => if (b2 =? 133) || (b2 =? 160) then 2%nat else 0%nat
           | 225, b2 :: b3 :: _ => if (b2 =? 154) && (b3 =? 128) then 3%nat else 0%nat
           | 226, b2 :: b3 :: _ =>
               if ((b2 =? 128) && (((128 <=? b3) && (b3 <=? 138)) || (b3 =? 168)
                                   || (b3 =? 169) || (b3 =? 175)))
                  || ((b2 =? 129) && (b3 =? 159)) then 3%nat else 0%nat
           | 227, b2 :: b3 :: _ => if (b2 =? 128) && (b3 =? 128) then 3%nat else 0%nat
           | _, _ => 0%nat
           end
  | [] => 0%nat
  end.

(** The same for a rune at the end, on the reversed bytes. *)
Definition space_len_rev (l : list Z) : nat :=
  match l with
  | b :: rest =>
      if asciiSpace b then 1%nat
      else match rest with
           | b2 :: rest' =>
               if Nat.eqb (space_len [b2; b]) 2 then 2%nat
               else match rest' with
                    | b3 :: _ => if Nat.eqb (space_len [b3; b2; b]) 3 then 3%nat else 0%nat
                    | [] => 0%nat
                    end
           | [] => 0%nat
           end
  | [] => 0%nat
  end.

Fixpoint trim_with (len : list Z -> nat) (fuel : nat) (l : list ascii) : list ascii :=
  match fuel with
  | O => l
  | S fuel' =>
      match len (map byte l) with
      | O => l
      | n => trim_with len fuel' (drop n l)
      end
  end.

Definition trim_left (l : list ascii) : list ascii := trim_with space_len (length l) l.
Definition trim_right (l : list ascii) : list ascii :=
  rev (trim_with space_len_rev (length l) (rev l)).

Definition TrimSpace (s : string) : string :=
  String.string_of_list_ascii (trim_right (trim_left (String.list_ascii_of_string s))).

(** ** Case *)

Definition isASCII (s : string) : bool :=
  forallb (fun c => byte c <? 128) (String.list_ascii_of_string s).

Definition lower_ascii (c : ascii) : ascii :=
  if (65 <=? byte c) && (byte c <=? 90) then ascii_of_nat (Z.to_nat (byte c + 32)) else c.

Definition ToLower {G : GoLib} (s : string) : string :=
  if isASCII s
  then String.string_of_list_ascii (map lower_ascii (String.list_ascii_of_string s))
  else unicode_ToLower s.

Fixpoint EqualFold {G : GoLib} (s t : string) : bool :=
  match s, t with
  | String sr s', String tr t' =>
      if (128 <=? byte sr) || (128 <=? byte tr) then unicode_EqualFold s t
      else if Ascii.eqb (lower_ascii sr) (lower_ascii tr) then EqualFold s' t'
      else false
  | EmptyString, EmptyString => true
  | _, _ => false
  end.

(** ** [strings.Split] with a one-byte separator *)

Fixpoint split_aux (sep : ascii) (cur : list ascii) (l : list ascii) : list (list ascii) :=
  match l with
  | [] => [rev cur]
  | c :: l' => if Ascii.eqb c sep then rev cur :: split_aux sep [] l'
               else split_aux sep (c :: cur) l'
  end.

Definition Split (s : string) (sep : ascii) : list string :=
  map String.string_of_list_ascii (split_aux sep [] (String.list_ascii_of_string s)).

(** ** RFC 3339 *)

Definition substr (s : string) (lo hi : nat) : string := String.substring lo (hi - lo) s.

Definition char_at (s : string) (i : nat) : option ascii := String.get i s.

Definition isDigit (c : ascii) : bool := (48 <=? byte c) && (byte c <=? 57).

Fixpoint digits_value (acc : Z) (s : string) : option Z :=
  match s with
  | EmptyString => Some acc
  | String c s' => if isDigit c then digits_value (acc * 10 + (byte c - 48)) s' else None
  end.

(** [parseUint] of [parseRFC3339]. *)
Definition parseUint (s : string) (lo hi : Z) : option Z :=
  match digits_value 0 s with
  | Some x => if (lo <=? x) && (x <=? hi) then Some x else None
  | None => None
  end.

Definition is_char (s : string) (i : nat) (c : ascii) : bool :=
  match char_at s i with Some c' => Ascii.eqb c c' | None => false end.

(** The number of leading digits. *)
Fixpoint count_digits (s : string) : nat :=
  match s with
  | String c s' => if isDigit c then S (count_digits s') else O
  | EmptyString => O
  end.

(** The fraction and what is left: at most nine digits count. *)
Definition parseFraction (s : string) : Z * string :=
  let n := count_digits (substr s 1 (String.length s)) in
  if is_char s 0 "."%char && Nat.ltb 0 n then
    let used := Nat.min n 9 in
    (default 0 (digits_value 0 (substr s 1 (S used))) * 10 ^ (9 - Z.of_nat used),
     substr s (S n) (String.length s))
  else (0, s).

(** The zone suffix: its offset in seconds. *)
Definition parseZone (s : string) : option Z :=
  if String.eqb s "Z" then Some 0
  else if negb (Nat.eqb (String.length s) 6) then None
  else
    hr ← parseUint (substr s 1 3) 0 23;
    mm ← parseUint (substr s 4 6) 0 59;
    if (is_char s 0 "-"%char || is_char s 0 "+"%char) && is_char s 3 ":"%char then
      Some (if is_char s 0 "-"%char then - ((hr * 60 + mm) * 60) else (hr * 60 + mm) * 60)
    else None.

Definition parseRFC3339 (s : string) : option Time :=
  if Nat.ltb (String.length s) 19 then None
  else
    year ← parseUint (substr s 0 4) 0 9999;
    month ← parseUint (substr s 5 7) 1 12;
    day ← parseUint (substr s 8 10) 1 (daysIn month year);
    hour ← parseUint (substr s 11 13) 0 23;
    min ← parseUint (substr s 14 16) 0 59;
    sec ← parseUint (substr s 17 19) 0 59;
    if is_char s 4 "-"%char && is_char s 7 "-"%char && is_char s 10 "T"%char
       && is_char s 13 ":"%char && is_char s 16 ":"%char then
      let '(nsec, rest) := parseFraction (substr s 19 (String.length s)) in
      off ← parseZone rest;
      let t := Date year month day hour min sec nsec 0 in
      Some (mkTime (unixNano t - off * nsPerSec) off)
    else None.

(** [Time.UnmarshalJSON] of a JSON string. *)
Definition UnmarshalTime {G : GoLib} (s : string) : option Time :=
  match parseRFC3339 s with
  | Some t => Some t
  | None => time_Parse_lenient s
  end.

(** [Time.MarshalJSON]: RFC 3339 with nanoseconds; an error when the year or the
    zone does not fit the format. *)
Fixpoint trim_zeros_rev (l : list ascii) : list ascii :=
  match l with
  | c :: l' => if Ascii.eqb c "0"%char then trim_zeros_rev l' else l
  | [] => []
  end.

Definition FormatFraction (ns : Z) : string :=
  if ns =? 0 then ""
  else "." +:+ String.string_of_list_ascii
         (rev (trim_zeros_rev (rev (String.list_ascii_of_string (appendInt ns 9))))).

Definition FormatRFC3339Nano (t : Time) : string :=
  FormatDate t +:+ "T" +:+ FormatClock t +:+ FormatFraction (Nanosecond t) +:+ FormatZone t.

Definition MarshalTime (t : Time) : option string :=
  if (0 <=? Year t) && (Year t <=? 9999)
     && (Z.abs (Z.quot (zoneOffset t) 60) / 60 <? 24)
  then Some (FormatRFC3339Nano t) else None.

(** ** Digits *)

Definition two_digits_ok (x : Z) : bool :=
  match appendInt x 2 with
  | String a (String b EmptyString) => bool_decide (digits_value 0 (appendInt x 2) = Some x)
  | _ => false
  end.

Definition four_digits_ok (x : Z) : bool :=
  match appendInt x 4 with
  | String a (String b (String c (String d EmptyString))) =>
      bool_decide (digits_value 0 (appendInt x 4) = Some x)
  | _ => false
  end.

Lemma two_digits_all : Z_forallb two_digits_ok 0 100 = true.
Proof. vm_compute. reflexivity. Qed.

Lemma four_digits_all : Z_forallb four_digits_ok 0 (Z.to_nat 10000) = true.
Proof. vm_compute. reflexivity. Qed.

Lemma two_digits x : 0 <= x < 100 ->
  exists a b, appendInt x 2 = String a (String b EmptyString)
              /\ digits_value 0 (String a (String b EmptyString)) = Some x.
Proof.
  intros Hx. pose proof (Z_forallb_spec _ _ _ two_digits_all x ltac:(lia)) as H.
  unfold two_digits_ok in H. destruct (appendInt x 2) as [|a [|b [|c s]]]; try done.
  apply bool_decide_eq_true in H. eauto.
Qed.

Lemma four_digits x : 0 <= x <= 9999 ->
  exists a b c d, appendInt x 4 = String a (String b (String c (String d EmptyString)))
    /\ digits_value 0 (String a (String b (String c (String d EmptyString)))) = Some x.
Proof.
  intros Hx. pose proof (Z_forallb_spec _ _ _ four_digits_all x) as H.
  rewrite Z2Nat.id in H by lia. specialize (H ltac:(lia)).
  unfold four_digits_ok in H. destruct (appendInt x 4) as [|a [|b [|c [|d [|e s]]]]]; try done.
  apply bool_decide_eq_true in H. eauto 6.
Qed.

Lemma parseUint_spec s x lo hi :
  digits_value 0 s = Some x -> lo <= x <= hi -> parseUint s lo hi = Some x.
Proof.
  intros H [Hlo Hhi]. unfold parseUint. rewrite H.
  apply Z.leb_le in Hlo as ->. apply Z.leb_le in Hhi as ->. done.
Qed.

(** ** The RFC 3339 text of a whole second in UTC *)

(** Times the text form carries without loss. *)
Definition rfc3339_exact (t : Time) : Prop :=
  zoneOffset t = 0 /\ Nanosecond t = 0 /\ 0 <= Year t <= 9999.

#[export] Instance rfc3339_exact_dec t : Decision (rfc3339_exact t).
Proof. unfold rfc3339_exact. apply _. Defined.

Lemma Day_range t : 1 <= Day t <= daysIn (Month t) (Year t).
Proof.
  unfold Day, Month, Year, civil. pose proof (civil_of_days_spec (wall t / nsPerDay)) as H.
  destruct (civil_of_days _) as [[y m] d]. simpl. tauto.
Qed.

Lemma daysIn_le m y : daysIn m y <= 31.
Proof. unfold daysIn. repeat case_match_goal; lia. Qed.

Lemma clock_range t :
  0 <= Hour t <= 23 /\ 0 <= Minute t <= 59 /\ 0 <= Second t <= 59
  /\ 0 <= Nanosecond t < nsPerSec.
Proof.
  unfold Hour, Minute, Second, Nanosecond, nsPerDay, nsPerSec.
  set (w := wall t). clearbody w. Z.div_mod_to_equations. lia.
Qed.

(** [time.Date] of a UTC time's own fields is that time. *)
Lemma Date_fields t :
  zoneOffset t = 0 ->
  Date (Year t) (Month t) (Day t) (Hour t) (Minute t) (Second t) (Nanosecond t) 0 = t.
Proof.
  intros Hz. pose proof (AddDate_days t 0) as H. unfold AddDate in H.
  rewrite Hz, !Z.add_0_r in H. rewrite H, <- Hz. by destruct t.
Qed.

Lemma parseRFC3339_Z y1 y2 y3 y4 m1 m2 d1 d2 h1 h2 i1 i2 s1 s2 :
  let two a b := String a (String b EmptyString) in
  parseRFC3339
    (String y1 (String y2 (String y3 (String y4 (String "-"%char
      (String m1 (String m2 (String "-"%char (String d1 (String d2 (String "T"%char
      (String h1 (String h2 (String ":"%char (String i1 (String i2 (String ":"%char
      (String s1 (String s2 (String "Z"%char EmptyString)))))))))))))))))))) =
  (year ← parseUint (String y1 (String y2 (two y3 y4))) 0 9999;
   month ← parseUint (two m1 m2) 1 12;
   day ← parseUint (two d1 d2) 1 (daysIn month year);
   hour ← parseUint (two h1 h2) 0 23;
   min ← parseUint (two i1 i2) 0 59;
   sec ← parseUint (two s1 s2) 0 59;
   Some (mkTime (unixNano (Date year month day hour min sec 0 0) - 0 * nsPerSec) 0)).
Proof. reflexivity. Qed.

Lemma parse_FormatRFC3339 t :
  rfc3339_exact t -> parseRFC3339 (FormatRFC3339 t) = Some t.
Proof.
  intros (Hz & Hns & Hy). pose proof (Month_range t). pose proof (Day_range t) as HD.
  pose proof (daysIn_le (Month t) (Year t)). destruct (clock_range t) as (Hh & Hm & Hs & _).
  unfold FormatRFC3339, FormatDate, FormatClock, FormatZone. rewrite Hz. simpl Z.eqb. cbv iota.
  destruct (four_digits (Year t) Hy) as (y1 & y2 & y3 & y4 & -> & Hvy).
  destruct (two_digits (Month t) ltac:(lia)) as (m1 & m2 & -> & Hvm).
  destruct (two_digits (Day t) ltac:(lia)) as (d1 & d2 & -> & Hvd).
  destruct (two_digits (Hour t) ltac:(lia)) as (h1 & h2 & -> & Hvh).
  destruct (two_digits (Minute t) ltac:(lia)) as (i1 & i2 & -> & Hvi).
  destruct (two_digits (Second t) ltac:(lia)) as (s1 & s2 & -> & Hvs).
  rewrite !string_app_assoc, !string_cons_app, !string_nil_app.
  rewrite parseRFC3339_Z. cbv zeta.
  rewrite (parseUint_spec _ _ _ _ Hvy) by lia; cbn [mbind option_bind].
  rewrite (parseUint_spec _ _ _ _ Hvm) by lia; cbn [mbind option_bind].
  rewrite (parseUint_spec _ _ _ _ Hvd) by lia; cbn [mbind option_bind].
  rewrite (parseUint_spec _ _ _ _ Hvh) by lia; cbn [mbind option_bind].
  rewrite (parseUint_spec _ _ _ _ Hvi) by lia; cbn [mbind option_bind].
  rewrite (parseUint_spec _ _ _ _ Hvs) by lia; cbn [mbind option_bind].
  pose proof (Date_fields t Hz) as Hdate. rewrite Hns in Hdate. rewrite Hdate, Z.sub_0_r.
  f_equal. destruct t. simpl in *. by subst.
Qed.

Lemma MarshalTime_exact t :
  rfc3339_exact t -> MarshalTime t = Some (FormatRFC3339 t).
Proof.
  intros (Hz & Hns & [Hy1 Hy2]). unfold MarshalTime, FormatRFC3339Nano, FormatFraction.
  apply Z.leb_le in Hy1 as ->. apply Z.leb_le in Hy2 as ->. rewrite Hz, Hns. done.
Qed.

(** The text form is injective on the times it carries exactly. *)
Lemma FormatRFC3339_inj t u :
  rfc3339_exact t -> rfc3339_exact u -> FormatRFC3339 t = FormatRFC3339 u -> t = u.
Proof.
  intros Ht Hu Heq. apply parse_FormatRFC3339 in Ht, Hu. congruence.
Qed.

Lemma FormatRFC3339_length t : rfc3339_exact t -> String.length (FormatRFC3339 t) = 20%nat.
Proof.
  intros (Hz & Hns & Hy). pose proof (Month_range t). pose proof (Day_range t).
  pose proof (daysIn_le (Month t) (Year t)). destruct (clock_range t) as (Hh & Hm & Hs & _).
  unfold FormatRFC3339, FormatDate, FormatClock, FormatZone. rewrite Hz.
  rewrite !string_length_app.
  destruct (four_digits (Year t) Hy) as (? & ? & ? & ? & -> & _).
  destruct (two_digits (Month t) ltac:(lia)) as (? & ? & -> & _).
  destruct (two_digits (Day t) ltac:(lia)) as (? & ? & -> & _).
  destruct (two_digits (Hour t) ltac:(lia)) as (? & ? & -> & _).
  destruct (two_digits (Minute t) ltac:(lia)) as (? & ? & -> & _).
  destruct (two_digits (Second t) ltac:(lia)) as (? & ? & -> & _).
  done.
Qed.

(** A UTC midnight is exact when its year has four digits. *)
Lemma midnight_exact t :
  zoneOffset t = 0 -> unixNano t mod nsPerDay = 0 -> 0 <= Year t <= 9999 -> rfc3339_exact t.
Proof.
  intros Hz Hm Hy. split; [done|]. split; [|done].
  unfold Nanosecond, wall. rewrite Hz, Z.mul_0_l, Z.add_0_r.
  unfold nsPerDay in Hm. rewrite Z.rem_mul_r in Hm by (unfold nsPerSec; lia).
  unfold nsPerSec in *. Z.div_mod_to_equations. lia.
Qed.
