(* ===== verification/Mux.v ===== *)
(** * Routing by path: the part of [net/http.ServeMux] the probe server uses

    A mux with patterns that are plain paths of one segment. A request path that is not in
    canonical form is answered with a redirect to the one that is, except for [CONNECT];
    a canonical path is matched segment by segment, each segment unescaped. The paths are
    escaped ones ([URL.EscapedPath]). *)

From Stdlib Require Import ZArith Lia Ascii.
From Stdlib Require String.
From stdpp Require Import base tactics list option strings.
From S2P Require Import Prelude GoEffects GoText.
Open Scope Z_scope.

(** ** Definitions *)

Definition slash : ascii := "/"%char.

(** The segments of a path that is empty or starts with a slash. *)
Definition path_segments (p : string) : list string :=
  match p with EmptyString => [] | String _ p => Split p slash end.

Fixpoint slashes (ss : list string) : string :=
  match ss with [] => "" | s :: ss => "/" +:+ s +:+ slashes ss end.

(** [path.Clean] of a rooted path, from left to right over its segments. *)
Definition clean_step (kept : list string) (s : string) : list string :=
  if String.eqb s "" || String.eqb s "." then kept
  else if String.eqb s ".." then tail kept
  else s :: kept.

Definition clean_segments (ss : list string) : list string := rev (fold_left clean_step ss []).

Definition path_Clean (p : string) : string :=
  match clean_segments (path_segments p) with [] => "/" | ss => slashes ss end.

Definition ends_with_slash (p : string) : bool :=
  match last (path_segments p) with Some s => String.eqb s "" | None => false end.

(** [http.cleanPath] *)
Definition cleanPath (p : string) : string :=
  if String.eqb p "" then "/" else
  let p := match p with
           | String c _ => if Ascii.eqb c slash then p else "/" +:+ p
           | EmptyString => p
           end in
  let np := path_Clean p in
  if ends_with_slash p && negb (String.eqb np "/") then np +:+ "/" else np.

Definition hex_value (c : ascii) : option Z :=
  let b := byte c in
  if (48 <=? b) && (b <=? 57) then Some (b - 48)
  else if (97 <=? b) && (b <=? 102) then Some (b - 87)
  else if (65 <=? b) && (b <=? 70) then Some (b - 55)
  else None.

(** [url.PathUnescape] *)
Fixpoint PathUnescape (s : string) : option string :=
  match s with
  | EmptyString => Some ""
  | String c s =>
      if Ascii.eqb c "%" then
        match s with
        | String a (String b s) =>
            match hex_value a, hex_value b with
            | Some x, Some y => String (ascii_of_nat (Z.to_nat (16 * x + y))) <$> PathUnescape s
            | _, _ => None
            end
        | _ => None
        end
      else String c <$> PathUnescape s
  end.

(** A segment that cannot be unescaped is taken as it is. *)
Definition unescaped (s : string) : string := default s (PathUnescape s).

(** The handler a path names. *)
Definition find_handler {H} (patterns : list (string * H)) (path : string) : option H :=
  match path_segments path with
  | [s] => snd <$> List.find (fun p => String.eqb ("/" +:+ unescaped s) (fst p)) patterns
  | _ => None
  end.

(** [ServeMux.findHandler]: a redirect, a handler or none. *)
Inductive Found (H : Type) := Redirect (path : string) | Handler (h : H) | NotFound.
Arguments Redirect {H}.
Arguments Handler {H}.
Arguments NotFound {H}.

Definition findHandler {H} (patterns : list (string * H)) (method path : string) : Found H :=
  let np := if String.eqb method "CONNECT" then path else cleanPath path in
  if negb (String.eqb np path) then Redirect np
  else match find_handler patterns np with Some h => Handler h | None => NotFound end.

(** ** Splitting and joining *)

Definition no_slash (s : string) : Prop := slash ∉ String.list_ascii_of_string s.

Lemma split_aux_here sep cur l : sep ∉ l -> split_aux sep cur l = [rev cur ++ l].
Proof.
  revert cur. induction l as [|c l IH]; intros cur Hl; cbn; [by rewrite app_nil_r|].
  apply not_elem_of_cons in Hl as [Hc Hl]. rewrite (proj2 (Ascii.eqb_neq c sep)) by done.
  rewrite IH by done. cbn. by rewrite <- app_assoc.
Qed.

Lemma split_aux_sep sep cur l l' :
  sep ∉ l -> split_aux sep cur (l ++ sep :: l') = (rev cur ++ l) :: split_aux sep [] l'.
Proof.
  revert cur. induction l as [|c l IH]; intros cur Hl; cbn; [by rewrite Ascii.eqb_refl, app_nil_r|].
  apply not_elem_of_cons in Hl as [Hc Hl]. rewrite (proj2 (Ascii.eqb_neq c sep)) by done.
  rewrite IH by done. cbn. by rewrite <- app_assoc.
Qed.

Lemma ascii_app s t :
  String.list_ascii_of_string (s +:+ t) = String.list_ascii_of_string s ++ String.list_ascii_of_string t.
Proof.
  induction s as [|c s IH]; [done|]. rewrite string_cons_app. cbn [String.list_ascii_of_string app].
  by rewrite IH.
Qed.

Lemma Split_here s : no_slash s -> Split s slash = [s].
Proof.
  intros H. unfold Split. rewrite split_aux_here by done. cbn.
  by rewrite String.string_of_list_ascii_of_string.
Qed.

Lemma Split_slash s t : no_slash s -> Split (s +:+ String slash t) slash = s :: Split t slash.
Proof.
  intros H. unfold Split. rewrite ascii_app. cbn [String.list_ascii_of_string].
  rewrite split_aux_sep by done. cbn. by rewrite String.string_of_list_ascii_of_string.
Qed.

Lemma no_slash_cons c s : no_slash (String c s) <-> c <> slash /\ no_slash s.
Proof. unfold no_slash. cbn. rewrite not_elem_of_cons. naive_solver. Qed.

Lemma no_slash_nil : no_slash "".
Proof. intros H. by apply not_elem_of_nil in H. Qed.

(** Every string up to its first slash. *)
Lemma first_slash p :
  no_slash p \/ exists s t, p = s +:+ String slash t /\ no_slash s.
Proof.
  induction p as [|c p [IH|(s & t & -> & IH)]]; [left; apply no_slash_nil|..];
    (destruct (decide (c = slash)) as [->|Hc]; [right|]).
  - exists "", p. split; [done|apply no_slash_nil].
  - left. by apply no_slash_cons.
  - exists "". eexists. split; [reflexivity|apply no_slash_nil].
  - right. exists (String c s), t. split; [done|]. by apply no_slash_cons.
Qed.

Lemma string_app_length_lt (s t : string) : (String.length t < String.length (s +:+ String slash t))%nat.
Proof. rewrite string_length_app. cbn. lia. Qed.

(** A rooted path is its segments, none of which has a slash. *)
Lemma Split_slashes p :
  Split p slash <> [] /\ Forall no_slash (Split p slash) /\ slashes (Split p slash) = String slash p.
Proof.
  remember (String.length p) as n eqn:Hn. revert p Hn. induction (lt_wf n) as [n _ IH]. intros p ->.
  destruct (first_slash p) as [H|(s & t & -> & H)].
  - rewrite Split_here by done. split; [done|]. split; [by constructor|]. cbn. by rewrite string_app_nil_r.
  - rewrite Split_slash by done. destruct (IH _ (string_app_length_lt s t) t eq_refl) as (_ & Hs & Hj).
    split; [done|]. split; [by constructor|]. cbn [slashes]. by rewrite Hj.
Qed.

Lemma segments_slashes ss : Forall no_slash ss -> path_segments (slashes ss) = ss.
Proof.
  intros H. destruct ss as [|s ss]; [done|]. change (Split (s +:+ slashes ss) slash = s :: ss).
  revert s H. induction ss as [|s' ss IH]; intros s H; apply Forall_cons in H as [Hs H].
  - cbn [slashes]. rewrite string_app_nil_r. by apply Split_here.
  - change (slashes (s' :: ss)) with (String slash (s' +:+ slashes ss)).
    rewrite Split_slash by done. f_equal. by apply IH.
Qed.

(** ** The canonical form *)

Definition proper (s : string) : Prop := s <> "" /\ s <> "." /\ s <> "..".

(** Proper segments, after which there may be one slash more. *)
Definition canonical (p : string) : Prop := exists ss t,
  p = slashes (ss ++ t) /\ ss ++ t <> [] /\ Forall no_slash ss /\ Forall proper ss /\ (t = [] \/ t = [""]).

Lemma clean_step_Forall (P : string -> Prop) kept s :
  (proper s -> P s) -> Forall P kept -> Forall P (clean_step kept s).
Proof.
  intros Hs Hk. unfold clean_step. destruct (String.eqb_spec s ""); [done|].
  destruct (String.eqb_spec s "."); [done|]. destruct (String.eqb_spec s ".."); cbn.
  - destruct kept as [|x kept]; [done|]. by apply Forall_cons in Hk as [_ Hk].
  - constructor; [by apply Hs|done].
Qed.

Lemma clean_segments_Forall (P : string -> Prop) ss :
  (forall s, s ∈ ss -> proper s -> P s) -> Forall P (clean_segments ss).
Proof.
  intros Hss. unfold clean_segments. apply Forall_rev.
  assert (Hk : Forall P []) by constructor. revert Hk Hss. generalize (@nil string).
  induction ss as [|s ss IH]; intros kept Hk Hss; [done|]. cbn. apply IH.
  - apply clean_step_Forall; [|done]. apply Hss. by left.
  - intros x Hx. apply Hss. by right.
Qed.

Lemma clean_step_proper kept s : proper s -> clean_step kept s = s :: kept.
Proof.
  intros (H1 & H2 & H3). unfold clean_step. by rewrite !(proj2 (String.eqb_neq _ _)).
Qed.

Lemma clean_segments_proper ss t :
  Forall proper ss -> t = [] \/ t = [""] -> clean_segments (ss ++ t) = ss.
Proof.
  intros Hss Ht. unfold clean_segments. rewrite fold_left_app.
  assert (forall kept, fold_left clean_step t kept = kept) as -> by (by destruct Ht as [-> | ->]).
  assert (Hf : forall kept, fold_left clean_step ss kept = rev ss ++ kept).
  { induction Hss as [|s ss Hs _ IH]; intros kept; [done|].
    cbn. rewrite clean_step_proper, IH by done. by rewrite <- app_assoc. }
  by rewrite Hf, app_nil_r, rev_involutive.
Qed.

(** What [cleanPath] makes of the segments. *)
Definition tidy (ss : list string) : list string :=
  match clean_segments ss with
  | [] => [""]
  | kept => kept ++ (if bool_decide (last ss = Some "") then [""] else [])
  end.

Lemma slashes_app ss t : slashes (ss ++ t) = slashes ss +:+ slashes t.
Proof.
  induction ss as [|s ss IH]; [done|]. cbn [app slashes]. by rewrite IH, <- !string_app_assoc.
Qed.

Lemma cleanPath_rooted p : cleanPath (String slash p) = slashes (tidy (Split p slash)).
Proof.
  change (cleanPath (String slash p)) with
    (let np := path_Clean (String slash p) in
     if ends_with_slash (String slash p) && negb (String.eqb np "/") then np +:+ "/" else np).
  cbv zeta. unfold path_Clean, ends_with_slash, tidy. cbn [path_segments].
  pose proof (clean_segments_Forall proper (Split p slash) (fun _ _ H => H)) as Hp.
  destruct (clean_segments (Split p slash)) as [|s kept]; [by rewrite andb_false_r|].
  apply Forall_cons in Hp as [(Hs & _) _].
  assert (String.eqb (slashes (s :: kept)) "/" = false) as ->.
  { apply String.eqb_neq. by destruct s. }
  rewrite andb_true_r, slashes_app. destruct (last _) as [x|]; cbn [negb].
  - destruct (String.eqb_spec x "") as [->|Hx]; [done|].
    rewrite bool_decide_false by congruence. by rewrite string_app_nil_r.
  - rewrite bool_decide_false by done. by rewrite string_app_nil_r.
Qed.

Lemma cleanPath_any p : exists q, cleanPath p = cleanPath (String slash q).
Proof.
  destruct p as [|c p]; [by exists ""|]. destruct (Ascii.eqb c slash) eqn:Ec.
  - exists p. by apply Ascii.eqb_eq in Ec as ->.
  - exists (String c p). unfold cleanPath. cbn [String.eqb]. by rewrite Ec, Ascii.eqb_refl.
Qed.

(** [cleanPath] gives a canonical path, *)
Lemma cleanPath_canonical p : canonical (cleanPath p).
Proof.
  destruct (cleanPath_any p) as (q & ->). rewrite cleanPath_rooted. unfold tidy.
  destruct (Split_slashes q) as (_ & Hns & _). rewrite Forall_forall in Hns.
  pose proof (clean_segments_Forall proper (Split q slash) (fun _ _ H => H)) as Hp.
  pose proof (clean_segments_Forall no_slash (Split q slash) (fun s Hs _ => Hns s Hs)) as Hn.
  destruct (clean_segments (Split q slash)) as [|s kept]; [exists [], [""]; repeat (split; [done|]); by right|].
  exists (s :: kept). eexists. split; [reflexivity|]. split; [done|]. split; [done|]. split; [done|].
  case_bool_decide; auto.
Qed.

(** leaves a canonical one as it is, *)
Lemma canonical_cleanPath p : canonical p -> cleanPath p = p.
Proof.
  intros (ss & t & -> & Hne & Hns & Hp & Ht).
  assert (Hall : Forall no_slash (ss ++ t)).
  { apply Forall_app. split; [done|]. destruct Ht as [-> | ->]; [done|].
    constructor; [apply no_slash_nil|done]. }
  pose proof (segments_slashes (ss ++ t) Hall) as Hseg.
  destruct (slashes (ss ++ t)) as [|c p] eqn:Ep; [by destruct (ss ++ t)|].
  assert (c = slash) as -> by (destruct (ss ++ t); [done|]; by injection Ep).
  cbn [path_segments] in Hseg. rewrite cleanPath_rooted, Hseg, <- Ep. f_equal. unfold tidy.
  rewrite clean_segments_proper by done. destruct ss as [|s ss]; [by destruct Ht as [-> | ->]|].
  f_equal. destruct Ht as [-> | ->].
  - rewrite app_nil_r, bool_decide_false; [done|]. intros Hl. apply last_Some_elem_of in Hl.
    rewrite Forall_forall in Hp. by destruct (Hp _ Hl).
  - by rewrite last_snoc, bool_decide_true.
Qed.

(** so the paths it does not change are the canonical ones, and once is enough. *)
Lemma cleanPath_fixed p : cleanPath p = p <-> canonical p.
Proof. split; [intros <-; apply cleanPath_canonical|apply canonical_cleanPath]. Qed.

Lemma cleanPath_idempotent p : cleanPath (cleanPath p) = cleanPath p.
Proof. apply cleanPath_fixed, cleanPath_canonical. Qed.

(** ** Matching *)

(** The path is one segment that stands for [s]. *)
Definition stands_for (s path : string) : Prop :=
  exists seg, path = String slash seg /\ no_slash seg /\ unescaped seg = s.

Lemma path_segments_one path s :
  String.get 0 path = Some slash -> path_segments path = [s] -> path = String slash s /\ no_slash s.
Proof.
  destruct path as [|c p]; [done|]. intros [= ->] H. cbn in H.
  destruct (Split_slashes p) as (_ & Hn & Hj). rewrite H in Hn, Hj. apply Forall_cons in Hn as [Hn _].
  split; [|done]. rewrite <- Hj. cbn [slashes]. by rewrite string_app_nil_r.
Qed.

Lemma find_handler_here {H} (patterns : list (string * H)) seg :
  no_slash seg ->
  find_handler patterns (String slash seg)
  = snd <$> List.find (fun p => String.eqb ("/" +:+ unescaped seg) (fst p)) patterns.
Proof. intros Hs. unfold find_handler. cbn [path_segments]. by rewrite Split_here. Qed.

(** A handler is found only for a path that stands for its pattern. *)
Lemma find_handler_Some {H} (patterns : list (string * H)) path h :
  String.get 0 path = Some slash -> find_handler patterns path = Some h ->
  exists s, stands_for s path /\ ("/" +:+ s, h) ∈ patterns.
Proof.
  intros H0 Hf. unfold find_handler in Hf. destruct (path_segments path) as [|seg [|]] eqn:Es; try done.
  destruct (path_segments_one _ _ H0 Es) as [-> Hn].
  destruct (List.find _ patterns) as [[pat h']|] eqn:Ef; [|done]. injection Hf as ->.
  apply List.find_some in Ef as [Hin Heq]. cbn in Heq. apply String.eqb_eq in Heq.
  exists (unescaped seg). split; [by exists seg|]. change ("/" +:+ unescaped seg = pat) in Heq. rewrite Heq.
  by apply list_elem_of_In.
Qed.
