(* ===== verification/Domain.v ===== *)
(** * Data of the simulator

    [internal/domain] and [internal/domain/dto]: the shared journey state, the cached
    journey value, the HTTP bodies, and the messages of [api/proto] as the code reads
    them through their nil-safe getters. A pointer field is an [option]; a protobuf
    timestamp is the [time.Time] its [AsTime] gives. *)

From Stdlib Require Import ZArith Lia Floats.SpecFloat.
From stdpp Require Import base tactics list option strings gmap.
From S2P Require Import Prelude GoTime.
Open Scope Z_scope.

(** ** [internal/domain/set_datatype.go] *)

Section Set_.
Context {T : Type} `{Countable T}.

Definition NewSet : gset T := ∅.
Definition Set_Add (s : gset T) (item : T) : gset T := {[item]} ∪ s.
Definition Set_Remove (s : gset T) (item : T) : gset T := s ∖ {[item]}.

(** A map is iterated in an order the language leaves open: any enumeration
    without repetition is a result of [Values]. *)
Definition Set_Values (s : gset T) (values : list T) : Prop :=
  NoDup values /\ forall x, x ∈ values <-> x ∈ s.

Lemma Set_Values_elements s : Set_Values s (elements s).
Proof. split; [apply NoDup_elements|]. intros x. apply elem_of_elements. Qed.

Lemma Set_Values_perm s l1 l2 : Set_Values s l1 -> Set_Values s l2 -> l1 ≡ₚ l2.
Proof.
  intros [Hnd1 H1] [Hnd2 H2]. apply NoDup_Permutation; [done..|].
  intros x. by rewrite H1, H2.
Qed.
End Set_.

(** ** [internal/domain/dto] *)

Record Guest := mkGuest {
  DocumentId : string;
  GivenNames : string;
  Surname : string;
  Email : string;
  BillingAddress : string
}.

(** [domain.State]: one object per journey, shared by every step and service. A nil
    slice of cottage names is [None]. *)
Record State := mkState {
  st_Guest : option Guest;
  st_GuestId : string;
  st_CottageNames : option (list string);
  st_RedisKey : string;
  st_QueueName : string;
  st_RoutingKey : string
}.

Definition emptyState : State := mkState None "" None "" "" "".

Definition set_Guest (g : option Guest) (s : State) : State :=
  mkState g (st_GuestId s) (st_CottageNames s) (st_RedisKey s) (st_QueueName s) (st_RoutingKey s).
Definition set_GuestId (i : string) (s : State) : State :=
  mkState (st_Guest s) i (st_CottageNames s) (st_RedisKey s) (st_QueueName s) (st_RoutingKey s).
Definition set_CottageNames (l : option (list string)) (s : State) : State :=
  mkState (st_Guest s) (st_GuestId s) l (st_RedisKey s) (st_QueueName s) (st_RoutingKey s).
Definition set_RedisKey (k : string) (s : State) : State :=
  mkState (st_Guest s) (st_GuestId s) (st_CottageNames s) k (st_QueueName s) (st_RoutingKey s).
Definition set_Queue (q r : string) (s : State) : State :=
  mkState (st_Guest s) (st_GuestId s) (st_CottageNames s) (st_RedisKey s) q r.

Record Period := mkPeriod { Start : Time; End_ : Time }.

Record GuestJourneyBooking := mkBooking {
  BookingID : string;
  SelectedCottage : string;
  SelectedPeriod : option Period
}.

Record GuestJourneyInvoice := mkInvoice {
  InvoiceNumber : string;
  ReceiptNumber : string
}.

Record GuestJourneyCacheValue := mkCacheValue {
  GuestID : string;
  PersonalInfo : option Guest;
  Booking : option GuestJourneyBooking;
  Invoice : option GuestJourneyInvoice
}.

Definition set_cv_GuestID (i : string) (v : GuestJourneyCacheValue) :=
  mkCacheValue i (PersonalInfo v) (Booking v) (Invoice v).
Definition set_cv_PersonalInfo (g : option Guest) (v : GuestJourneyCacheValue) :=
  mkCacheValue (GuestID v) g (Booking v) (Invoice v).
Definition set_cv_Booking (b : option GuestJourneyBooking) (v : GuestJourneyCacheValue) :=
  mkCacheValue (GuestID v) (PersonalInfo v) b (Invoice v).
Definition set_cv_Invoice (i : option GuestJourneyInvoice) (v : GuestJourneyCacheValue) :=
  mkCacheValue (GuestID v) (PersonalInfo v) (Booking v) i.

(** Bodies of the HTTP interfaces. *)
Record PeriodDTO := mkPeriodDTO { CheckIn : Time; CheckOut : Time }.
Record AvailablePeriodDTO := mkAvailablePeriodDTO { avail_Name : string; avail_Periods : list PeriodDTO }.

(** [AvailablePeriodDTO.ToPeriods] *)
Definition ToPeriods (d : AvailablePeriodDTO) : list Period :=
  map (fun p => mkPeriod (CheckIn p) (CheckOut p)) (avail_Periods d).

Record BookingRequest := mkBookingRequest {
  req_GuestId : string;
  req_NumberOfGuests : Z;
  req_CheckInDate : string;
  req_CheckOutDate : string;
  req_GuestName : string;
  req_GuestEmail : string;
  req_GuestDocument : string;
  req_BillingAddress : string
}.

Record CottageDetails := mkCottageDetails {
  Description : string;
  View : string;
  FurnitureDescription : string;
  BathroomDescription : string;
  AmenitiesDescription : string
}.

Record Cottage := mkCottage {
  Cottage_Name : string;
  Cottage_Type : string;
  Cottage_Details : CottageDetails;
  Cottage_Photos : list string;
  PricePerNight : spec_float  (** a [float32] *)
}.

Record PayWithCardRequest := mkPayWithCardRequest {
  card_Number : string;
  card_Brand : string;
  card_ExpMonth : Z;
  card_ExpYear : Z;
  card_Cvv : string;
  card_HolderName : string
}.

Record PayWithCardResponse := mkPayWithCardResponse {
  pay_ReceiptNumber : string;
  pay_InvoiceNumber : string;
  pay_Status : string
}.

(** ** [api/proto/communication] *)

Record Money := mkMoney { Amount : Z; Currency : string }.
Record BookingSummary := mkBookingSummary { sum_CottageName : string; sum_Nights : Z; sum_NumberOfGuests : Z }.
Record PayerSummary := mkPayerSummary { payer_Name : string; payer_Email : string }.

Record PaymentOption := mkPaymentOption {
  opt_Method : string;
  opt_PaymentUrl : string;
  opt_Instructions : string
}.

Record PaymentRequest := mkPaymentRequest {
  pr_InvoiceNumber : string;
  pr_Description : string;
  pr_Total : option Money;
  pr_IssuedAt : option Time;
  pr_ExpiresAt : option Time;
  pr_Booking : option BookingSummary;
  pr_Payer : option PayerSummary;
  pr_Options : list PaymentOption
}.

(** Enumerations are open: an unknown number is kept. *)
Inductive BookingStatus :=
| BOOKING_STATUS_UNSPECIFIED
| BOOKING_STATUS_PENDING
| BOOKING_STATUS_CONFIRMED
| BOOKING_STATUS_CANCELLED
| BookingStatus_other (n : Z).

#[export] Instance BookingStatus_eq_dec : EqDecision BookingStatus.
Proof. solve_decision. Defined.

(** [communication.Guest] *)
Record NotifiedGuest := mkNotifiedGuest {
  ng_GuestId : string;
  ng_Name : string;
  ng_Email : string;
  ng_Phone : string
}.

Record BookingConfirmationSummary := mkConfirmationSummary {
  bcs_CottageName : string;
  bcs_CheckIn : option Time;
  bcs_CheckOut : option Time;
  bcs_Nights : Z;
  bcs_NumberOfGuests : Z
}.

Record BookingConfirmedNotificationEvent := mkBookingConfirmed {
  bc_Id : string;
  bc_BookingId : string;
  bc_BookingStatus : BookingStatus;
  bc_Guest : option NotifiedGuest;
  bc_Booking : option BookingConfirmationSummary;
  bc_ConfirmedAt : option Time
}.

Record CheckInTodayNotification := mkCheckInToday {
  ct_BookingId : string;
  ct_GuestId : string;
  ct_CottageName : string;
  ct_CheckIn : option Time;
  ct_CheckOut : option Time;
  ct_NumberOfGuests : Z;
  ct_NotificationDay : option Time
}.

(** [event.TimeEvent] *)
Record TimeEvent := mkTimeEvent { te_Time : option Time }.

(** ** [api/proto/lodging] *)

Inductive GuestAction :=
| GUEST_ACTION_UNSPECIFIED | SHOW_FOR_CHECKIN | SHOW_DOCUMENT | SHOW_BOOKING_NUMBER
| ENTER_COTTAGE | LEAVE_COTTAGE | GO_FOR_A_BATH | RETURN_FROM_BATH | GO_FOR_DINNER
| GO_FOR_BREAKFAST | GO_TO_SLEEP | WAKEUP | LEAVE_CLEANUP_NOTIFICATION | ENJOY_RESORT
| PROCEED_TO_CHECKOUT | RETURN_COTTAGE_KEY | TAKE_COTTAGE_KEY
| GuestAction_other (n : Z).

Inductive SystemNotification :=
| SYSTEM_NOTIFICATION_UNSPECIFIED | BOOKING_CHECKING | CHECK_IN_COMPLETE | DINNER_READY
| PREPARE_COTTAGE_TO_SLEEP | BREAKFAST_READY | CHECK_OUT_TOMORROW | CHECK_OUT_COMPLETE
| CHECK_OUT_TODAY
| SystemNotification_other (n : Z).

Inductive SystemRequest :=
| SYSTEM_REQUEST_UNSPECIFIED | REQUEST_DOCUMENT | REQUEST_BOOKING_NUMBER
| GIVE_COTTAGE_KEY | REQUEST_COTTAGE_KEY
| SystemRequest_other (n : Z).

Inductive Sender := SENDER_UNSPECIFIED | SENDER_GUEST | SENDER_SYSTEM | Sender_other (n : Z).
Inductive AckStatus :=
| ACK_STATUS_UNSPECIFIED | ACK_STATUS_ACCEPTED | ACK_STATUS_REJECTED | AckStatus_other (n : Z).
Inductive ErrorCode := ERROR_CODE_UNSPECIFIED | ERROR_CODE_NONE | ErrorCode_other (n : Z).

#[export] Instance GuestAction_eq_dec : EqDecision GuestAction.
Proof. solve_decision. Defined.
#[export] Instance SystemNotification_eq_dec : EqDecision SystemNotification.
Proof. solve_decision. Defined.
#[export] Instance SystemRequest_eq_dec : EqDecision SystemRequest.
Proof. solve_decision. Defined.
#[export] Instance Sender_eq_dec : EqDecision Sender.
Proof. solve_decision. Defined.
#[export] Instance AckStatus_eq_dec : EqDecision AckStatus.
Proof. solve_decision. Defined.
#[export] Instance ErrorCode_eq_dec : EqDecision ErrorCode.
Proof. solve_decision. Defined.

Record Ack := mkAck { AcknowledgedMessageId : string; Ack_Status : AckStatus; Ack_Code : ErrorCode }.

Inductive GuestResponse :=
| GuestResponse_ShowDocument (DocumentId : string)
| GuestResponse_ShowBookingNumber (BookingId : string)
| GuestResponse_ReceiveCottageKey (CottageKeyId : string)
| GuestResponse_ReturnCottageKey (CottageKeyId : string).

(** The oneof of [ChatMessage]; [Payload_nil] when no variant is set. *)
Inductive ChatPayload :=
| Payload_nil
| Payload_GuestAction (a : GuestAction)
| Payload_GuestResponse (r : GuestResponse)
| Payload_SystemNotification (n : SystemNotification)
| Payload_SystemRequest (r : SystemRequest)
| Payload_Ack (a : Ack).

(** A nil trace context is the empty list. *)
Record ChatMessage := mkChatMessage {
  MessageId : string;
  CorrelationId : string;
  ChatSender : Sender;
  ProtocolVersion : string;
  TraceContext : list (string * string);
  ChatMessagePayload : ChatPayload
}.

#[export] Instance Ack_eq_dec : EqDecision Ack.
Proof. solve_decision. Defined.
#[export] Instance GuestResponse_eq_dec : EqDecision GuestResponse.
Proof. solve_decision. Defined.
#[export] Instance ChatPayload_eq_dec : EqDecision ChatPayload.
Proof. solve_decision. Defined.
#[export] Instance ChatMessage_eq_dec : EqDecision ChatMessage.
Proof. solve_decision. Defined.

Definition GetSystemNotification (m : ChatMessage) : SystemNotification :=
  match ChatMessagePayload m with
  | Payload_SystemNotification n => n
  | _ => SYSTEM_NOTIFICATION_UNSPECIFIED
  end.

Definition GetSystemRequest (m : ChatMessage) : SystemRequest :=
  match ChatMessagePayload m with
  | Payload_SystemRequest r => r
  | _ => SYSTEM_REQUEST_UNSPECIFIED
  end.

Definition GetAck (m : ChatMessage) : option Ack :=
  match ChatMessagePayload m with
  | Payload_Ack a => Some a
  | _ => None
  end.
