(* ===== verification/Enums.v ===== *)
(** * The enumerations of the messages

    The generated files of [domain/dto] give every enumeration its numbers and two tables,
    from numbers to names and back. On the wire a value is its number, and an unknown one is
    kept as it is. *)

From Stdlib Require Import ZArith Lia.
From stdpp Require Import base tactics list option strings gmap.
From S2P Require Import Prelude GoEffects GoTime GoText Domain.
Open Scope Z_scope.

(** ** Enumerations *)

(** The constants of the type, and its tables. *)
Class ProtoEnum (X : Type) := {
  enum_known : list (X * Z);
  enum_other : Z -> X;
  enum_other_number : X -> option Z;
  enum_name : list (Z * string);
  enum_value : list (string * Z)
}.

Section Enum.
Context {X : Type} `{EqDecision X} {EN : ProtoEnum X}.

Fixpoint assoc {A B} `{EqDecision A} (l : list (A * B)) (a : A) : option B :=
  match l with
  | [] => None
  | (a', b) :: l => if decide (a = a') then Some b else assoc l a
  end.

(** [Number()]: the [int32] of the value. *)
Definition Number (x : X) : Z := default (default 0 (enum_other_number x)) (assoc enum_known x).

(** The value of a number: a constant if there is one. *)
Definition of_number (n : Z) : X :=
  match List.find (fun p => snd p =? n) enum_known with Some (x, _) => x | None => enum_other n end.

(** [String()] *)
Definition EnumString {G : GoLib} (x : X) : string := proto_EnumStringOf enum_name (Number x).

(** A number that is no constant's. *)
Definition unknown (n : Z) : Prop := forall x, (x, n) ∉ enum_known.

(** A value in the form [of_number] gives it. *)
Definition canonical (x : X) : Prop :=
  match enum_other_number x with Some n => unknown n | None => True end.

(** What the generated code promises of an enumeration. *)
Class EnumLaws := {
  known_consts : NoDup (map fst enum_known);
  known_numbers : NoDup (map snd enum_known);
  known_int32 : Forall (fun p => 0 <= snd p < 2 ^ 31) enum_known;
  known_not_other : Forall (fun p => enum_other_number (fst p) = None) enum_known;
  other_other n : enum_other_number (enum_other n) = Some n;
  known_or_other x : enum_other_number x = None -> exists n, (x, n) ∈ enum_known;
  other_is x n : enum_other_number x = Some n -> x = enum_other n;
  name_numbers : map fst enum_name = map snd enum_known;
  name_names : NoDup (map snd enum_name);
  value_name : enum_value = map (fun p => (snd p, fst p)) enum_name
}.
End Enum.
#[global] Arguments EnumLaws X {_}.

(** *** Association lists *)

Section Assoc.
Context {A B : Type} `{EqDecision A}.
Implicit Types l : list (A * B).

Lemma assoc_Some l a b : assoc l a = Some b -> (a, b) ∈ l.
Proof.
  induction l as [|[a' b'] l IH]; cbn; [done|]. case_decide as He; [subst; intros [= ->]; by left|].
  intros Hl. right. by apply IH.
Qed.

Lemma assoc_iff l a b : NoDup (map fst l) -> assoc l a = Some b <-> (a, b) ∈ l.
Proof.
  intros Hnd. split; [apply assoc_Some|]. induction l as [|[a' b'] l IH]; cbn.
  - by intros ?%not_elem_of_nil.
  - apply NoDup_cons in Hnd as [Hn Hnd]. cbn in Hn.
    intros [[= -> ->]|Hin]%elem_of_cons; [by rewrite decide_True|].
    rewrite decide_False; [by apply IH|]. intros ->. apply Hn. by apply (list_elem_of_fmap_2 fst) in Hin.
Qed.

Lemma assoc_None l a : (forall b, (a, b) ∉ l) -> assoc l a = None.
Proof.
  intros H. destruct (assoc l a) as [b|] eqn:Ea; [|done]. by apply assoc_Some, H in Ea.
Qed.
End Assoc.

(** ** The messages' enumerations *)

Definition BookingStatus_name : list (Z * string) :=
  [(0, "BOOKING_STATUS_UNSPECIFIED");
   (1, "BOOKING_STATUS_PENDING");
   (2, "BOOKING_STATUS_CONFIRMED");
   (3, "BOOKING_STATUS_CANCELLED")].
Definition BookingStatus_value : list (string * Z) :=
  [("BOOKING_STATUS_UNSPECIFIED", 0);
   ("BOOKING_STATUS_PENDING", 1);
   ("BOOKING_STATUS_CONFIRMED", 2);
   ("BOOKING_STATUS_CANCELLED", 3)].
#[export] Instance BookingStatus_enum : ProtoEnum BookingStatus := {|
  enum_known := [(BOOKING_STATUS_UNSPECIFIED, 0); (BOOKING_STATUS_PENDING, 1); (BOOKING_STATUS_CONFIRMED, 2); (BOOKING_STATUS_CANCELLED, 3)];
  enum_other := BookingStatus_other;
  enum_other_number x := match x with BookingStatus_other n => Some n | _ => None end;
  enum_name := BookingStatus_name;
  enum_value := BookingStatus_value
|}.

Definition GuestAction_name : list (Z * string) :=
  [(0, "GUEST_ACTION_UNSPECIFIED");
   (1, "SHOW_FOR_CHECKIN");
   (2, "SHOW_DOCUMENT");
   (3, "SHOW_BOOKING_NUMBER");
   (4, "ENTER_COTTAGE");
   (5, "LEAVE_COTTAGE");
   (6, "GO_FOR_A_BATH");
   (7, "RETURN_FROM_BATH");
   (8, "GO_FOR_DINNER");
   (9, "GO_FOR_BREAKFAST");
   (10, "GO_TO_SLEEP");
   (11, "WAKEUP");
   (12, "LEAVE_CLEANUP_NOTIFICATION");
   (13, "ENJOY_RESORT");
   (14, "PROCEED_TO_CHECKOUT");
   (15, "RETURN_COTTAGE_KEY");
   (16, "TAKE_COTTAGE_KEY")].
Definition GuestAction_value : list (string * Z) :=
  [("GUEST_ACTION_UNSPECIFIED", 0);
   ("SHOW_FOR_CHECKIN", 1);
   ("SHOW_DOCUMENT", 2);
   ("SHOW_BOOKING_NUMBER", 3);
   ("ENTER_COTTAGE", 4);
   ("LEAVE_COTTAGE", 5);
   ("GO_FOR_A_BATH", 6);
   ("RETURN_FROM_BATH", 7);
   ("GO_FOR_DINNER", 8);
   ("GO_FOR_BREAKFAST", 9);
   ("GO_TO_SLEEP", 10);
   ("WAKEUP", 11);
   ("LEAVE_CLEANUP_NOTIFICATION", 12);
   ("ENJOY_RESORT", 13);
   ("PROCEED_TO_CHECKOUT", 14);
   ("RETURN_COTTAGE_KEY", 15);
   ("TAKE_COTTAGE_KEY", 16)].
#[export] Instance GuestAction_enum : ProtoEnum GuestAction := {|
  enum_known := [(GUEST_ACTION_UNSPECIFIED, 0); (SHOW_FOR_CHECKIN, 1); (SHOW_DOCUMENT, 2); (SHOW_BOOKING_NUMBER, 3); (ENTER_COTTAGE, 4); (LEAVE_COTTAGE, 5); (GO_FOR_A_BATH, 6); (RETURN_FROM_BATH, 7); (GO_FOR_DINNER, 8); (GO_FOR_BREAKFAST, 9); (GO_TO_SLEEP, 10); (WAKEUP, 11); (LEAVE_CLEANUP_NOTIFICATION, 12); (ENJOY_RESORT, 13); (PROCEED_TO_CHECKOUT, 14); (RETURN_COTTAGE_KEY, 15); (TAKE_COTTAGE_KEY, 16)];
  enum_other := GuestAction_other;
  enum_other_number x := match x with GuestAction_other n => Some n | _ => None end;
  enum_name := GuestAction_name;
  enum_value := GuestAction_value
|}.

Definition SystemNotification_name : list (Z * string) :=
  [(0, "SYSTEM_NOTIFICATION_UNSPECIFIED");
   (1, "BOOKING_CHECKING");
   (2, "CHECK_IN_COMPLETE");
   (3, "DINNER_READY");
   (4, "PREPARE_COTTAGE_TO_SLEEP");
   (5, "BREAKFAST_READY");
   (6, "CHECK_OUT_TOMORROW");
   (7, "CHECK_OUT_COMPLETE");
   (8, "CHECK_OUT_TODAY")].
Definition SystemNotification_value : list (string * Z) :=
  [("SYSTEM_NOTIFICATION_UNSPECIFIED", 0);
   ("BOOKING_CHECKING", 1);
   ("CHECK_IN_COMPLETE", 2);
   ("DINNER_READY", 3);
   ("PREPARE_COTTAGE_TO_SLEEP", 4);
   ("BREAKFAST_READY", 5);
   ("CHECK_OUT_TOMORROW", 6);
   ("CHECK_OUT_COMPLETE", 7);
   ("CHECK_OUT_TODAY", 8)].
#[export] Instance SystemNotification_enum : ProtoEnum SystemNotification := {|
  enum_known := [(SYSTEM_NOTIFICATION_UNSPECIFIED, 0); (BOOKING_CHECKING, 1); (CHECK_IN_COMPLETE, 2); (DINNER_READY, 3); (PREPARE_COTTAGE_TO_SLEEP, 4); (BREAKFAST_READY, 5); (CHECK_OUT_TOMORROW, 6); (CHECK_OUT_COMPLETE, 7); (CHECK_OUT_TODAY, 8)];
  enum_other := SystemNotification_other;
  enum_other_number x := match x with SystemNotification_other n => Some n | _ => None end;
  enum_name := SystemNotification_name;
  enum_value := SystemNotification_value
|}.

Definition SystemRequest_name : list (Z * string) :=
  [(0, "SYSTEM_REQUEST_UNSPECIFIED");
   (1, "REQUEST_DOCUMENT");
   (2, "REQUEST_BOOKING_NUMBER");
   (3, "GIVE_COTTAGE_KEY");
   (4, "REQUEST_COTTAGE_KEY")].
Definition SystemRequest_value : list (string * Z) :=
  [("SYSTEM_REQUEST_UNSPECIFIED", 0);
   ("REQUEST_DOCUMENT", 1);
   ("REQUEST_BOOKING_NUMBER", 2);
   ("GIVE_COTTAGE_KEY", 3);
   ("REQUEST_COTTAGE_KEY", 4)].
#[export] Instance SystemRequest_enum : ProtoEnum SystemRequest := {|
  enum_known := [(SYSTEM_REQUEST_UNSPECIFIED, 0); (REQUEST_DOCUMENT, 1); (REQUEST_BOOKING_NUMBER, 2); (GIVE_COTTAGE_KEY, 3); (REQUEST_COTTAGE_KEY, 4)];
  enum_other := SystemRequest_other;
  enum_other_number x := match x with SystemRequest_other n => Some n | _ => None end;
  enum_name := SystemRequest_name;
  enum_value := SystemRequest_value
|}.

Definition Sender_name : list (Z * string) :=
  [(0, "SENDER_UNSPECIFIED");
   (1, "SENDER_GUEST");
   (2, "SENDER_SYSTEM")].
Definition Sender_value : list (string * Z) :=
  [("SENDER_UNSPECIFIED", 0);
   ("SENDER_GUEST", 1);
   ("SENDER_SYSTEM", 2)].
#[export] Instance Sender_enum : ProtoEnum Sender := {|
  enum_known := [(SENDER_UNSPECIFIED, 0); (SENDER_GUEST, 1); (SENDER_SYSTEM, 2)];
  enum_other := Sender_other;
  enum_other_number x := match x with Sender_other n => Some n | _ => None end;
  enum_name := Sender_name;
  enum_value := Sender_value
|}.

Definition AckStatus_name : list (Z * string) :=
  [(0, "ACK_STATUS_UNSPECIFIED");
   (1, "ACK_STATUS_ACCEPTED");
   (2, "ACK_STATUS_REJECTED")].
Definition AckStatus_value : list (string * Z) :=
  [("ACK_STATUS_UNSPECIFIED", 0);
   ("ACK_STATUS_ACCEPTED", 1);
   ("ACK_STATUS_REJECTED", 2)].
#[export] Instance AckStatus_enum : ProtoEnum AckStatus := {|
  enum_known := [(ACK_STATUS_UNSPECIFIED, 0); (ACK_STATUS_ACCEPTED, 1); (ACK_STATUS_REJECTED, 2)];
  enum_other := AckStatus_other;
  enum_other_number x := match x with AckStatus_other n => Some n | _ => None end;
  enum_name := AckStatus_name;
  enum_value := AckStatus_value
|}.

Definition ErrorCode_name : list (Z * string) :=
  [(0, "ERROR_CODE_UNSPECIFIED");
   (1, "ERROR_CODE_NONE")].
Definition ErrorCode_value : list (string * Z) :=
  [("ERROR_CODE_UNSPECIFIED", 0);
   ("ERROR_CODE_NONE", 1)].
#[export] Instance ErrorCode_enum : ProtoEnum ErrorCode := {|
  enum_known := [(ERROR_CODE_UNSPECIFIED, 0); (ERROR_CODE_NONE, 1)];
  enum_other := ErrorCode_other;
  enum_other_number x := match x with ErrorCode_other n => Some n | _ => None end;
  enum_name := ErrorCode_name;
  enum_value := ErrorCode_value
|}.

(** *** Their laws *)

(** The tables are lists of constants; the rest is by the constructors of the type. *)
Ltac by_constructor :=
  let x := fresh in intros x; destruct x; try discriminate; intros _; eexists;
  repeat first [by left|right].
Ltac enum_laws :=
  split;
  [ apply (bool_decide_unpack _); vm_compute; done
  | apply (bool_decide_unpack _); vm_compute; done
  | apply (bool_decide_unpack _); vm_compute; done
  | apply (bool_decide_unpack _); vm_compute; done
  | reflexivity
  | by_constructor
  | let x := fresh in intros x ?; destruct x; try discriminate; by intros [= ->]
  | reflexivity
  | apply (bool_decide_unpack _); vm_compute; done
  | reflexivity ].

#[export] Instance BookingStatus_laws : EnumLaws BookingStatus.
Proof. enum_laws. Qed.
#[export] Instance GuestAction_laws : EnumLaws GuestAction.
Proof. enum_laws. Qed.
#[export] Instance SystemNotification_laws : EnumLaws SystemNotification.
Proof. enum_laws. Qed.
#[export] Instance SystemRequest_laws : EnumLaws SystemRequest.
Proof. enum_laws. Qed.
#[export] Instance Sender_laws : EnumLaws Sender.
Proof. enum_laws. Qed.
#[export] Instance AckStatus_laws : EnumLaws AckStatus.
Proof. enum_laws. Qed.
#[export] Instance ErrorCode_laws : EnumLaws ErrorCode.
Proof. enum_laws. Qed.

(** ** What follows *)

Section EnumSpec.
Context {X : Type} `{EqDecision X} {EN : ProtoEnum X} {EL : EnumLaws X}.

Lemma Number_known x n : (x, n) ∈ enum_known -> Number x = n.
Proof.
  intros Hin. unfold Number. by rewrite (proj2 (assoc_iff _ _ _ known_consts) Hin).
Qed.

Lemma of_number_known x n : (x, n) ∈ enum_known -> of_number n = x.
Proof.
  intros Hin. unfold of_number. destruct (List.find _ _) as [[x' n']|] eqn:Ef.
  - apply List.find_some in Ef as [Hin' He]. cbn in He. apply Z.eqb_eq in He as ->.
    apply list_elem_of_In in Hin'.
    apply list_elem_of_lookup in Hin as [i Hi], Hin' as [k Hk].
    assert (i = k) as ->.
    { eapply (NoDup_lookup _ i k n known_numbers); rewrite list_lookup_fmap; [by rewrite Hi|by rewrite Hk]. }
    congruence.
  - apply list_elem_of_In in Hin. apply (List.find_none _ _ Ef) in Hin. cbn in Hin. by rewrite Z.eqb_refl in Hin.
Qed.

Lemma of_number_unknown n : unknown n -> of_number n = enum_other n.
Proof.
  intros Hu. unfold of_number. destruct (List.find _ _) as [[x n']|] eqn:Ef; [|done].
  apply List.find_some in Ef as [Hin He]. cbn in He. apply Z.eqb_eq in He as ->.
  by apply list_elem_of_In, Hu in Hin.
Qed.

Lemma Number_other n : Number (enum_other n) = n.
Proof.
  unfold Number. rewrite (assoc_None enum_known), other_other; [done|]. intros m Hin.
  pose proof known_not_other as Hk. rewrite Forall_forall in Hk. specialize (Hk _ Hin). cbn in Hk.
  by rewrite other_other in Hk.
Qed.

Lemma Number_of_number n : Number (of_number n) = n.
Proof.
  destruct (List.find (fun p => snd p =? n) enum_known) as [[x n']|] eqn:Ef.
  - apply List.find_some in Ef as [Hin He]. cbn in He. apply Z.eqb_eq in He as ->.
    apply list_elem_of_In in Hin. by rewrite (of_number_known _ _ Hin), (Number_known _ _ Hin).
  - unfold of_number. rewrite Ef. apply Number_other.
Qed.

Lemma of_number_Number x : canonical x -> of_number (Number x) = x.
Proof.
  unfold canonical. destruct (enum_other_number x) as [n|] eqn:Eo; intros Hc.
  - apply other_is in Eo as ->. rewrite Number_other. by apply of_number_unknown.
  - destruct (known_or_other x Eo) as (n & Hin). by rewrite (Number_known _ _ Hin), (of_number_known _ _ Hin).
Qed.

Lemma tables_inverse n s : assoc enum_name n = Some s <-> assoc enum_value s = Some n.
Proof.
  assert (Hn : NoDup (map fst enum_name)) by (rewrite name_numbers; apply known_numbers).
  assert (Hv : NoDup (map fst enum_value)).
  { rewrite value_name, map_map. cbn. apply name_names. }
  rewrite (assoc_iff _ _ _ Hn), (assoc_iff _ _ _ Hv), value_name. split.
  - intros Hin. by apply (list_elem_of_fmap_2 (fun p => (snd p, fst p))) in Hin.
  - intros ([m t] & [= -> ->] & Hin)%list_elem_of_fmap. done.
Qed.

Lemma named_iff_known n : (exists s, assoc enum_name n = Some s) <-> exists x, (x, n) ∈ enum_known.
Proof.
  assert (Hn : NoDup (map fst enum_name)) by (rewrite name_numbers; apply known_numbers).
  split.
  - intros (s & Hs%assoc_Some). apply (list_elem_of_fmap_2 fst) in Hs. cbn in Hs.
    change (fst <$> enum_name) with (map fst enum_name) in Hs. rewrite name_numbers in Hs.
    apply list_elem_of_fmap in Hs as ([x m] & -> & Hin). by exists x.
  - intros (x & Hin). apply (list_elem_of_fmap_2 snd) in Hin. cbn in Hin.
    change (snd <$> enum_known) with (map snd (enum_known (X := X))) in Hin. rewrite <- name_numbers in Hin.
    apply list_elem_of_fmap in Hin as ([m s] & -> & Hin'). exists s. by apply assoc_iff.
Qed.
End EnumSpec.

(** The enumerations of the messages survive the wire: every number, known or not, is the
    number of its value, and every value in canonical form is the value of its number; the
    two tables are inverse to each other and name exactly the constants, whose numbers fit
    in 31 bits. *)
Theorem enum_roundtrip (X : Type) `{EqDecision X} {EN : ProtoEnum X} {EL : EnumLaws X} :
  (forall n, Number (of_number n) = n)
  /\ (forall x, canonical x -> of_number (Number x) = x)
  /\ (forall n s, assoc enum_name n = Some s <-> assoc enum_value s = Some n)
  /\ (forall n, (exists s, assoc enum_name n = Some s) <-> exists x, of_number n = x /\ enum_other_number x = None)
  /\ forall x, enum_other_number x = None -> 0 <= Number x < 2 ^ 31.
Proof.
  split; [apply Number_of_number|]. split; [apply of_number_Number|]. split; [apply tables_inverse|].
  pose proof known_not_other as Hk. rewrite Forall_forall in Hk.
  pose proof known_int32 as Hb. rewrite Forall_forall in Hb. split.
  - intros n. rewrite named_iff_known. split.
    + intros (x & Hin). exists x. split; [by apply of_number_known|]. exact (Hk _ Hin).
    + intros (x & <- & Ho). destruct (known_or_other _ Ho) as (m & Hin).
      rewrite <- (Number_known _ _ Hin), Number_of_number in Hin. by eexists.
  - intros x Ho. destruct (known_or_other x Ho) as (n & Hin). rewrite (Number_known _ _ Hin). exact (Hb _ Hin).
Qed.

(** ** The confirmed booking *)

Lemma enum_roundtrip_witness :
  of_number 2 = BOOKING_STATUS_CONFIRMED /\ of_number (Number (BookingStatus_other 9)) = BookingStatus_other 9.
Proof.
  pose proof (enum_roundtrip BookingStatus) as (_ & H & _). split; [reflexivity|].
  apply H. intros x Hin.
  repeat (apply elem_of_cons in Hin as [Hin|Hin]; [discriminate|]). by apply not_elem_of_nil in Hin.
Defined.
