(* ===== verification/Json.v ===== *)
(** * JSON values and the decoders of the program's structs

    [encoding/json] at the level of JSON values: [json.Marshal] builds a [json] from a
    struct, [json.Unmarshal] fills a struct field by field, in the order of the
    object's members. The text layer between a [json] and its bytes is not part of
    the model. *)

From Stdlib Require Import ZArith Lia Floats.SpecFloat.
From stdpp Require Import base tactics list option strings.
From S2P Require Import Prelude GoTime GoText Domain.
Open Scope Z_scope.

(** A number is [m * 10 ^ e]. *)
Inductive json :=
| JNull
| JBool (b : bool)
| JNum (m e : Z)
| JStr (s : string)
| JArr (l : list json)
| JObj (kvs : list (string * json)).

(** The nearest [float32] of a decimal; infinite when out of range. *)
Definition float32_of_decimal (m e : Z) : spec_float :=
  match m with
  | Z0 => S754_zero false
  | Zpos p | Zneg p =>
      let neg := m <? 0 in
      if 0 <=? e then binary_normalize 24 128 (m * 10 ^ e) 0 neg
      else SFdiv 24 128 (S754_finite neg p 0) (S754_finite false (Z.to_pos (10 ^ (- e))) 0)
  end.

(** ** Decoders

    [decode cur j] is [json.Unmarshal] of [j] into a variable holding [cur]; [None] is
    an error. A JSON null leaves a non-pointer as it is and makes a pointer nil. *)

Section Decode.
Context {G : GoLib}.

Definition into (T : Type) : Type := T -> json -> option T.

Definition decode_string : into string := fun cur j =>
  match j with JStr s => Some s | JNull => Some cur | _ => None end.

Definition decode_float32 : into spec_float := fun cur j =>
  match j with
  | JNum m e =>
      match float32_of_decimal m e with
      | S754_infinity _ => None
      | f => Some f
      end
  | JNull => Some cur
  | _ => None
  end.

Definition decode_time : into Time := fun cur j =>
  match j with JStr s => UnmarshalTime s | JNull => Some cur | _ => None end.

Definition decode_ptr {T} (zero : T) (d : into T) : into (option T) := fun cur j =>
  match j with
  | JNull => Some None
  | _ => Some <$> d (default zero cur) j
  end.

Definition decode_slice {T} (zero : T) (d : into T) : into (list T) := fun _ j =>
  match j with
  | JArr l => mapM (d zero) l
  | JNull => Some []
  | _ => None
  end.

(** The field a member name selects: exact match first, then up to case. *)
Definition select_field (names : list string) (key : string) : option string :=
  match find (String.eqb key) names with
  | Some n => Some n
  | None => find (EqualFold key) names
  end.

Fixpoint decode_members {T} (names : list string) (set : string -> into T)
    (cur : T) (kvs : list (string * json)) : option T :=
  match kvs with
  | [] => Some cur
  | (k, v) :: rest =>
      match select_field names k with
      | Some n => cur' ← set n cur v; decode_members names set cur' rest
      | None => decode_members names set cur rest
      end
  end.

Definition decode_struct {T} (names : list string) (set : string -> into T) : into T :=
  fun cur j =>
    match j with
    | JObj kvs => decode_members names set cur kvs
    | JNull => Some cur
    | _ => None
    end.

(** *** The cached journey value *)

Definition zeroTime : Time := mkTime (days_of_civil 1 1 1 * nsPerDay) 0.
Definition zeroPeriod : Period := mkPeriod zeroTime zeroTime.
Definition zeroGuest : Guest := mkGuest "" "" "" "" "".
Definition zeroBooking : GuestJourneyBooking := mkBooking "" "" None.
Definition zeroInvoice : GuestJourneyInvoice := mkInvoice "" "".
Definition zeroCacheValue : GuestJourneyCacheValue := mkCacheValue "" None None None.

Definition Guest_members : list string :=
  ["document_id"; "given_names"; "surname"; "email"; "billing_address"].
Definition Guest_member (name : string) : into Guest := fun g j =>
   match name with
   | "document_id" => s ← decode_string (DocumentId g) j;
       Some (mkGuest s (GivenNames g) (Surname g) (Email g) (BillingAddress g))
   | "given_names" => s ← decode_string (GivenNames g) j;
       Some (mkGuest (DocumentId g) s (Surname g) (Email g) (BillingAddress g))
   | "surname" => s ← decode_string (Surname g) j;
       Some (mkGuest (DocumentId g) (GivenNames g) s (Email g) (BillingAddress g))
   | "email" => s ← decode_string (Email g) j;
       Some (mkGuest (DocumentId g) (GivenNames g) (Surname g) s (BillingAddress g))
   | _ => s ← decode_string (BillingAddress g) j;
       Some (mkGuest (DocumentId g) (GivenNames g) (Surname g) (Email g) s)
   end%stdpp.

Definition decode_Guest : into Guest := decode_struct Guest_members Guest_member.

Definition Period_members : list string :=
  ["from"; "to"].
Definition Period_member (name : string) : into Period := fun p j =>
   match name with
   | "from" => t ← decode_time (Start p) j; Some (mkPeriod t (End_ p))
   | _ => t ← decode_time (End_ p) j; Some (mkPeriod (Start p) t)
   end%stdpp.

Definition decode_Period : into Period := decode_struct Period_members Period_member.

Definition Booking_members : list string :=
  ["bookingId"; "selectedCottage"; "selectedPeriod"].
Definition Booking_member (name : string) : into GuestJourneyBooking := fun b j =>
   match name with
   | "bookingId" => s ← decode_string (BookingID b) j;
       Some (mkBooking s (SelectedCottage b) (SelectedPeriod b))
   | "selectedCottage" => s ← decode_string (SelectedCottage b) j;
       Some (mkBooking (BookingID b) s (SelectedPeriod b))
   | _ => p ← decode_ptr zeroPeriod decode_Period (SelectedPeriod b) j;
       Some (mkBooking (BookingID b) (SelectedCottage b) p)
   end%stdpp.

Definition decode_Booking : into GuestJourneyBooking := decode_struct Booking_members Booking_member.

Definition Invoice_members : list string :=
  ["invoiceNumber"; "receiptNumber"].
Definition Invoice_member (name : string) : into GuestJourneyInvoice := fun i j =>
   match name with
   | "invoiceNumber" => s ← decode_string (InvoiceNumber i) j;
       Some (mkInvoice s (ReceiptNumber i))
   | _ => s ← decode_string (ReceiptNumber i) j;
       Some (mkInvoice (InvoiceNumber i) s)
   end%stdpp.

Definition decode_Invoice : into GuestJourneyInvoice := decode_struct Invoice_members Invoice_member.

Definition CacheValue_members : list string :=
  ["guestId"; "personalInfo"; "booking"; "invoice"].
Definition CacheValue_member (name : string) : into GuestJourneyCacheValue := fun v j =>
   match name with
   | "guestId" => s ← decode_string (GuestID v) j; Some (set_cv_GuestID s v)
   | "personalInfo" =>
       g ← decode_ptr zeroGuest decode_Guest (PersonalInfo v) j;
       Some (set_cv_PersonalInfo g v)
   | "booking" =>
       b ← decode_ptr zeroBooking decode_Booking (Booking v) j;
       Some (set_cv_Booking b v)
   | _ =>
       i ← decode_ptr zeroInvoice decode_Invoice (Invoice v) j;
       Some (set_cv_Invoice i v)
   end%stdpp.

Definition decode_CacheValue : into GuestJourneyCacheValue := decode_struct CacheValue_members CacheValue_member.

(** *** HTTP bodies *)

Definition decode_PeriodDTO : into PeriodDTO :=
  decode_struct ["check_in"; "check_out"]
    (fun name p j =>
       match name with
       | "check_in" => t ← decode_time (CheckIn p) j; Some (mkPeriodDTO t (CheckOut p))
       | _ => t ← decode_time (CheckOut p) j; Some (mkPeriodDTO (CheckIn p) t)
       end)%stdpp.

Definition decode_AvailablePeriodDTO : into AvailablePeriodDTO :=
  decode_struct ["cottage_name"; "available_periods"]
    (fun name d j =>
       match name with
       | "cottage_name" => s ← decode_string (avail_Name d) j;
           Some (mkAvailablePeriodDTO s (avail_Periods d))
       | _ => l ← decode_slice (mkPeriodDTO zeroTime zeroTime) decode_PeriodDTO (avail_Periods d) j;
           Some (mkAvailablePeriodDTO (avail_Name d) l)
       end)%stdpp.

Definition decode_CottageDetails : into CottageDetails :=
  decode_struct ["description"; "view"; "furniture_description"; "bathroom_description";
                 "amenities_description"]
    (fun name d j =>
       match name with
       | "description" => s ← decode_string (Description d) j;
           Some (mkCottageDetails s (View d) (FurnitureDescription d) (BathroomDescription d) (AmenitiesDescription d))
       | "view" => s ← decode_string (View d) j;
           Some (mkCottageDetails (Description d) s (FurnitureDescription d) (BathroomDescription d) (AmenitiesDescription d))
       | "furniture_description" => s ← decode_string (FurnitureDescription d) j;
           Some (mkCottageDetails (Description d) (View d) s (BathroomDescription d) (AmenitiesDescription d))
       | "bathroom_description" => s ← decode_string (BathroomDescription d) j;
           Some (mkCottageDetails (Description d) (View d) (FurnitureDescription d) s (AmenitiesDescription d))
       | _ => s ← decode_string (AmenitiesDescription d) j;
           Some (mkCottageDetails (Description d) (View d) (FurnitureDescription d) (BathroomDescription d) s)
       end)%stdpp.

Definition zeroCottage : Cottage :=
  mkCottage "" "" (mkCottageDetails "" "" "" "" "") [] (S754_zero false).

Definition decode_Cottage : into Cottage :=
  decode_struct ["name"; "type"; "details"; "photos"; "price_per_night"]
    (fun name c j =>
       match name with
       | "name" => s ← decode_string (Cottage_Name c) j;
           Some (mkCottage s (Cottage_Type c) (Cottage_Details c) (Cottage_Photos c) (PricePerNight c))
       | "type" => s ← decode_string (Cottage_Type c) j;
           Some (mkCottage (Cottage_Name c) s (Cottage_Details c) (Cottage_Photos c) (PricePerNight c))
       | "details" => d ← decode_CottageDetails (Cottage_Details c) j;
           Some (mkCottage (Cottage_Name c) (Cottage_Type c) d (Cottage_Photos c) (PricePerNight c))
       | "photos" => l ← decode_slice "" decode_string (Cottage_Photos c) j;
           Some (mkCottage (Cottage_Name c) (Cottage_Type c) (Cottage_Details c) l (PricePerNight c))
       | _ => f ← decode_float32 (PricePerNight c) j;
           Some (mkCottage (Cottage_Name c) (Cottage_Type c) (Cottage_Details c) (Cottage_Photos c) f)
       end)%stdpp.

Definition decode_Cottages : into (list Cottage) := decode_slice zeroCottage decode_Cottage.

(** [booking.Confirmation]: its identifier. *)
Definition decode_Confirmation : into string :=
  decode_struct ["bookingId"] (fun _ s j => decode_string s j).

Definition decode_PayWithCardResponse : into PayWithCardResponse :=
  decode_struct ["receiptNumber"; "invoiceNumber"; "status"]
    (fun name r j =>
       match name with
       | "receiptNumber" => s ← decode_string (pay_ReceiptNumber r) j;
           Some (mkPayWithCardResponse s (pay_InvoiceNumber r) (pay_Status r))
       | "invoiceNumber" => s ← decode_string (pay_InvoiceNumber r) j;
           Some (mkPayWithCardResponse (pay_ReceiptNumber r) s (pay_Status r))
       | _ => s ← decode_string (pay_Status r) j;
           Some (mkPayWithCardResponse (pay_ReceiptNumber r) (pay_InvoiceNumber r) s)
       end)%stdpp.
End Decode.

(** ** Encoders: [json.Marshal] *)

Definition encode_Guest (g : Guest) : json :=
  JObj [("document_id", JStr (DocumentId g)); ("given_names", JStr (GivenNames g));
        ("surname", JStr (Surname g)); ("email", JStr (Email g));
        ("billing_address", JStr (BillingAddress g))].

Definition encode_Period (p : Period) : option json :=
  s ← MarshalTime (Start p);
  e ← MarshalTime (End_ p);
  Some (JObj [("from", JStr s); ("to", JStr e)]).

(** [omitempty] on a pointer drops a nil one. *)
Definition member_opt {T} (name : string) (enc : T -> option json) (v : option T)
  : option (list (string * json)) :=
  match v with
  | None => Some []
  | Some x => j ← enc x; Some [(name, j)]
  end.

Definition encode_Booking (b : GuestJourneyBooking) : option json :=
  p ← member_opt "selectedPeriod" encode_Period (SelectedPeriod b);
  Some (JObj ([("bookingId", JStr (BookingID b));
               ("selectedCottage", JStr (SelectedCottage b))] ++ p)).

Definition encode_Invoice (i : GuestJourneyInvoice) : json :=
  JObj (("invoiceNumber", JStr (InvoiceNumber i))
        :: if String.eqb (ReceiptNumber i) "" then []
           else [("receiptNumber", JStr (ReceiptNumber i))]).

Definition encode_CacheValue (v : GuestJourneyCacheValue) : option json :=
  g ← member_opt "personalInfo" (fun x => Some (encode_Guest x)) (PersonalInfo v);
  b ← member_opt "booking" encode_Booking (Booking v);
  i ← member_opt "invoice" (fun x => Some (encode_Invoice x)) (Invoice v);
  Some (JObj ([("guestId", JStr (GuestID v))] ++ g ++ b ++ i)).

Definition encode_BookingRequest (r : BookingRequest) : json :=
  JObj [("mainGuest", JStr (req_GuestId r)); ("numberOfGuests", JNum (req_NumberOfGuests r) 0);
        ("checkInDate", JStr (req_CheckInDate r)); ("checkOutDate", JStr (req_CheckOutDate r));
        ("guestName", JStr (req_GuestName r)); ("guestEmail", JStr (req_GuestEmail r));
        ("guestDocument", JStr (req_GuestDocument r));
        ("billingAddress", JStr (req_BillingAddress r))].

Definition encode_PayWithCardRequest (r : PayWithCardRequest) : json :=
  JObj [("number", JStr (card_Number r)); ("brand", JStr (card_Brand r));
        ("expMonth", JNum (card_ExpMonth r) 0); ("expYear", JNum (card_ExpYear r) 0);
        ("cvv", JStr (card_Cvv r)); ("holderName", JStr (card_HolderName r))].

(** ** Round trip of the cached value *)

(** The times of a value survive their text form. *)
Definition period_exact (p : Period) : Prop := rfc3339_exact (Start p) /\ rfc3339_exact (End_ p).
Definition cacheValue_exact (v : GuestJourneyCacheValue) : Prop :=
  forall b p, Booking v = Some b -> SelectedPeriod b = Some p -> period_exact p.

Section RoundTrip.
Context {G : GoLib}.

(** One member of an object whose name is a field's. *)
Lemma decode_member {T} names (set : string -> into T) cur k n v rest cur' :
  select_field names k = Some n -> set n cur v = Some cur' ->
  decode_members names set cur ((k, v) :: rest) = decode_members names set cur' rest.
Proof. intros Hs Hset. simpl. rewrite Hs. simpl. by rewrite Hset. Qed.

(** An [omitempty] member: its decoding, or nothing to decode. *)
Lemma decode_member_opt {T A} names (set : string -> into T) (enc : A -> option json)
    cur n v kv rest cur' :
  select_field names n = Some n ->
  member_opt n enc v = Some kv ->
  (forall x j, v = Some x -> enc x = Some j -> set n cur j = Some cur') ->
  (v = None -> cur' = cur) ->
  decode_members names set cur (kv ++ rest) = decode_members names set cur' rest.
Proof.
  intros Hs Hkv Hsome Hnone. destruct v as [x|]; simpl in Hkv.
  - destruct (enc x) as [j|] eqn:Ej; simpl in Hkv; [|done]. injection Hkv as <-.
    cbn [app]. eapply decode_member; eauto.
  - injection Hkv as <-. by rewrite Hnone.
Qed.

Lemma decode_encode_Guest g0 g : decode_Guest g0 (encode_Guest g) = Some g.
Proof. destruct g. reflexivity. Qed.

Lemma decode_time_exact t0 t : rfc3339_exact t ->
  exists s, MarshalTime t = Some s /\ decode_time t0 (JStr s) = Some t.
Proof.
  intros Ht. exists (FormatRFC3339 t). rewrite MarshalTime_exact by done.
  simpl. unfold UnmarshalTime. by rewrite parse_FormatRFC3339.
Qed.

Lemma decode_encode_Period p0 p : period_exact p ->
  exists j, encode_Period p = Some j /\ decode_ptr zeroPeriod decode_Period p0 j = Some (Some p).
Proof.
  intros [Hs He]. unfold encode_Period. set (q := default zeroPeriod p0).
  destruct (decode_time_exact (Start q) (Start p) Hs) as (s & -> & Ds).
  destruct (decode_time_exact (End_ q) (End_ p) He) as (e & -> & De).
  eexists. split; [reflexivity|]. unfold decode_ptr. fold q. unfold decode_Period.
  cbn [decode_struct].
  rewrite (decode_member _ _ q "from" "from" _ _ (mkPeriod (Start p) (End_ q)))
    by (try reflexivity; unfold Period_member; by rewrite Ds).
  rewrite (decode_member _ _ _ "to" "to" _ _ p)
    by (try reflexivity; unfold Period_member; cbn [End_ Start]; rewrite De; by destruct p).
  done.
Qed.

Lemma encode_Booking_obj b j : encode_Booking b = Some j -> exists kvs, j = JObj kvs.
Proof. unfold encode_Booking. destruct (member_opt _ _ _); simpl; intros [= <-]. eauto. Qed.

Lemma encode_CacheValue_obj v j : encode_CacheValue v = Some j -> exists kvs, j = JObj kvs.
Proof.
  unfold encode_CacheValue. destruct (member_opt "personalInfo" _ _); simpl; [|done].
  destruct (member_opt "booking" _ _); simpl; [|done].
  destruct (member_opt "invoice" _ _); simpl; intros [= <-]. eauto.
Qed.

Lemma decode_encode_Booking b0 b :
  (forall p, SelectedPeriod b = Some p -> period_exact p) ->
  SelectedPeriod b0 = None ->
  exists j, encode_Booking b = Some j /\ decode_Booking b0 j = Some b.
Proof.
  intros Hp H0.
  assert (Hm : exists kv, member_opt "selectedPeriod" encode_Period (SelectedPeriod b) = Some kv).
  { destruct (SelectedPeriod b) as [p|] eqn:E; [|eexists; reflexivity].
    destruct (decode_encode_Period None p (Hp p eq_refl)) as (j & Ej & _).
    simpl. rewrite Ej. eexists; reflexivity. }
  destruct Hm as (kv & Hkv). unfold encode_Booking. rewrite Hkv.
  eexists. split; [reflexivity|]. unfold decode_Booking. cbn [decode_struct app].
  rewrite (decode_member _ _ b0 "bookingId" "bookingId" _ _
            (mkBooking (BookingID b) (SelectedCottage b0) None))
    by (try reflexivity; unfold Booking_member; simpl; by rewrite H0).
  rewrite (decode_member _ _ _ "selectedCottage" "selectedCottage" _ _
            (mkBooking (BookingID b) (SelectedCottage b) None)) by reflexivity.
  rewrite <- (app_nil_r kv).
  rewrite (decode_member_opt Booking_members Booking_member _ _ "selectedPeriod" _ _ _ b eq_refl Hkv); [done|..].
  - intros p j Hb Ej. destruct (decode_encode_Period None p (Hp p Hb)) as (j' & Ej' & Dj').
    rewrite Ej in Ej'. injection Ej' as <-.
    unfold Booking_member. cbn [SelectedPeriod]. rewrite Dj', <- Hb. by destruct b.
  - intros Hb. rewrite <- Hb. by destruct b.
Qed.

Lemma decode_encode_Invoice i0 i :
  ReceiptNumber i0 = "" -> decode_Invoice i0 (encode_Invoice i) = Some i.
Proof.
  intros H0. destruct i as [n r]. unfold encode_Invoice. cbn [InvoiceNumber ReceiptNumber].
  destruct (String.eqb r "") eqn:E; [|reflexivity].
  apply String.eqb_eq in E as ->. cbn. by rewrite H0.
Qed.

Lemma member_opt_total {A} n (enc : A -> option json) v :
  (forall x, v = Some x -> exists j, enc x = Some j) -> exists kv, member_opt n enc v = Some kv.
Proof.
  intros H. destruct v as [x|]; simpl; [|eauto]. destruct (H x eq_refl) as (j & ->). eauto.
Qed.

(** [json.Unmarshal] into a fresh value inverts [json.Marshal]. *)
Lemma decode_encode_CacheValue v :
  cacheValue_exact v ->
  exists j, encode_CacheValue v = Some j /\ decode_CacheValue zeroCacheValue j = Some v.
Proof.
  intros Hex. unfold encode_CacheValue.
  destruct (member_opt_total "personalInfo" (fun x => Some (encode_Guest x)) (PersonalInfo v))
    as (kg & Hkg); [eauto|].
  destruct (member_opt_total "booking" encode_Booking (Booking v)) as (kb & Hkb).
  { intros b Hb. destruct (decode_encode_Booking zeroBooking b) as (j & Ej & _); eauto. }
  destruct (member_opt_total "invoice" (fun x => Some (encode_Invoice x)) (Invoice v))
    as (ki & Hki); [eauto|].
  rewrite Hkg, Hkb, Hki. eexists. split; [reflexivity|].
  unfold decode_CacheValue. cbn [decode_struct app].
  rewrite (decode_member _ _ _ "guestId" "guestId" _ _ (mkCacheValue (GuestID v) None None None))
    by reflexivity.
  rewrite (decode_member_opt CacheValue_members CacheValue_member _ _ "personalInfo" _ _ _
            (mkCacheValue (GuestID v) (PersonalInfo v) None None) eq_refl Hkg).
  2: { intros g j Hg [= <-]. unfold CacheValue_member. rewrite Hg. by destruct g. }
  2: { by intros ->. }
  rewrite (decode_member_opt CacheValue_members CacheValue_member _ _ "booking" _ _ _
            (mkCacheValue (GuestID v) (PersonalInfo v) (Booking v) None) eq_refl Hkb).
  2: { intros b j Hb Ej. destruct (decode_encode_Booking zeroBooking b) as (j' & Ej' & Dj'); eauto.
       rewrite Ej in Ej'. injection Ej' as <-. destruct (encode_Booking_obj b j Ej) as (kvs & ->).
       unfold CacheValue_member, decode_ptr. cbn [Booking default]. by rewrite Dj', Hb. }
  2: { by intros ->. }
  rewrite <- (app_nil_r ki).
  rewrite (decode_member_opt CacheValue_members CacheValue_member _ _ "invoice" _ _ _ v eq_refl Hki); [done|..].
  - intros i j Hi [= <-]. pose proof (decode_encode_Invoice zeroInvoice i eq_refl) as D.
    unfold CacheValue_member, decode_ptr. cbn [Invoice default].
    unfold encode_Invoice in *. rewrite D. simpl. rewrite <- Hi. by destruct v.
  - intros Hi. rewrite <- Hi. by destruct v.
Qed.
End RoundTrip.
