(* ===== verification/Typing.v ===== *)
(** * Types of the JSON the program reads and writes

    The shape each DTO gives its JSON, and when a JSON value has it. The decoders of
    [Json] accept exactly the values of their shape, and what the encoders write has it. *)

From Stdlib Require Import ZArith Lia Floats.SpecFloat.
From stdpp Require Import base tactics list option strings.
From S2P Require Import Prelude GoTime GoText Domain Json.
Open Scope Z_scope.

(** ** Shapes *)

(** A pointer has the shape of what it points to: null is let through everywhere. *)
Inductive shape :=
| SString
| STime
| SFloat32
| SInt
| SList (s : shape)
| SStruct (fields : list (string * shape)).

Section Typing.
Context {G : GoLib}.

(** [j] can be stored in a variable of the shape. In an object the members that select a
    field have its shape; the others are ignored. *)
Fixpoint typed (s : shape) (j : json) : Prop :=
  match s, j with
  | _, JNull => True
  | SString, JStr _ => True
  | STime, JStr t => is_Some (UnmarshalTime t)
  | SFloat32, JNum m e => match float32_of_decimal m e with S754_infinity _ => False | _ => True end
  | SInt, JNum _ e => e = 0
  | SList s, JArr l => Forall (typed s) l
  | SStruct fs, JObj kvs =>
      Forall (fun kv : string * json =>
        match select_field (map fst fs) (fst kv) with
        | None => True
        | Some n => (fix field (fs : list (string * shape)) : Prop :=
                       match fs with
                       | [] => True
                       | (n', s) :: fs => if String.eqb n n' then typed s (snd kv) else field fs
                       end) fs
        end) kvs
  | _, _ => False
  end.

(** The shape of a field. *)
Fixpoint field_shape (n : string) (fs : list (string * shape)) : option shape :=
  match fs with
  | [] => None
  | (n', s) :: fs => if String.eqb n n' then Some s else field_shape n fs
  end.

Definition field_typed (fs : list (string * shape)) (n : string) (j : json) : Prop :=
  match field_shape n fs with Some s => typed s j | None => True end.

Lemma typed_struct fs kvs :
  typed (SStruct fs) (JObj kvs)
  <-> Forall (fun kv : string * json =>
        match select_field (map fst fs) (fst kv) with
        | None => True | Some n => field_typed fs n (snd kv) end) kvs.
Proof.
  cbn [typed]. apply Forall_iff. intros [k v]. cbn [fst snd].
  destruct (select_field (map fst fs) k) as [n|]; [|done]. unfold field_typed.
  clear. induction fs as [|[n' s] fs IH]; [done|]. cbn. destruct (String.eqb n n'); [done|]. exact IH.
Qed.

(** [d] reads exactly the values of the shape, whatever the variable held. *)
Definition reads {T} (s : shape) (d : into T) : Prop := forall cur j, is_Some (d cur j) <-> typed s j.

Lemma is_Some_bind {A B} (x : option A) (f : A -> B) : is_Some (x ≫= fun a => Some (f a)) <-> is_Some x.
Proof. destruct x; cbn; [split; by eexists|done]. Qed.

Lemma is_Some_fmap {A B} (x : option A) (f : A -> B) : is_Some (f <$> x) <-> is_Some x.
Proof. by rewrite fmap_is_Some. Qed.

Lemma reads_string : reads SString decode_string.
Proof. intros cur []; cbn; split; try done; by eexists. Qed.

Lemma reads_time : reads STime decode_time.
Proof. intros cur []; cbn; split; try done; by eexists. Qed.

Lemma reads_float32 : reads SFloat32 decode_float32.
Proof.
  intros cur [| |m e| | |]; cbn; try (split; done || by eexists).
  destruct (float32_of_decimal m e); split; try done; by eexists.
Qed.

Lemma reads_ptr {T} (zero : T) s d : reads s d -> reads s (decode_ptr zero d).
Proof.
  intros Hd cur j. destruct j; cbn; try (rewrite is_Some_fmap; apply Hd).
  split; [by destruct s|by eexists].
Qed.

Lemma reads_slice {T} (zero : T) s d : reads s d -> reads (SList s) (decode_slice zero d).
Proof.
  intros Hd cur j. destruct j as [| | | |l|]; cbn; try (split; [by intros []|done]).
  rewrite mapM_is_Some. apply Forall_iff. intros x. apply Hd.
Qed.

(** A struct whose fields are read by their shapes. *)
Lemma reads_struct {T} fs (set : string -> into T) :
  Forall (fun n => forall cur j, is_Some (set n cur j) <-> field_typed fs n j) (map fst fs) ->
  reads (SStruct fs) (decode_struct (map fst fs) set).
Proof.
  intros Hset cur j. destruct j as [| | | | |kvs]; cbn [decode_struct];
    try (split; [by intros []|done]).
  rewrite typed_struct. revert cur. induction kvs as [|[k v] kvs IH]; intros cur; cbn [decode_members].
  - split; [by constructor|by eexists].
  - rewrite Forall_cons. cbn [fst snd].
    destruct (select_field (map fst fs) k) as [n|] eqn:Ek; [|rewrite IH; tauto].
    assert (Hn : n ∈ map fst fs).
    { unfold select_field in Ek. destruct (find (String.eqb k) _) as [n0|] eqn:E1; simplify_eq.
      - apply find_some in E1 as [Hin _]. by apply list_elem_of_In.
      - apply find_some in Ek as [Hin _]. by apply list_elem_of_In. }
    rewrite Forall_forall in Hset. specialize (Hset n Hn cur v).
    destruct (set n cur v) as [cur'|]; cbn.
    + rewrite IH. assert (field_typed fs n v) by (by apply Hset; eexists). tauto.
    + split; [by intros []|]. intros [H _]. by apply Hset in H as [].
Qed.

(** ** The DTOs *)

Definition Guest_shape : shape := SStruct (map (fun n => (n, SString)) Guest_members).
Definition Period_shape : shape := SStruct [("from", STime); ("to", STime)].
Definition Booking_shape : shape :=
  SStruct [("bookingId", SString); ("selectedCottage", SString); ("selectedPeriod", Period_shape)].
Definition Invoice_shape : shape := SStruct [("invoiceNumber", SString); ("receiptNumber", SString)].
Definition CacheValue_shape : shape :=
  SStruct [("guestId", SString); ("personalInfo", Guest_shape); ("booking", Booking_shape);
           ("invoice", Invoice_shape)].
Definition PeriodDTO_shape : shape := SStruct [("check_in", STime); ("check_out", STime)].
Definition AvailablePeriod_shape : shape :=
  SStruct [("cottage_name", SString);
           ("available_periods", SList PeriodDTO_shape)].
Definition CottageDetails_shape : shape :=
  SStruct [("description", SString); ("view", SString); ("furniture_description", SString);
           ("bathroom_description", SString); ("amenities_description", SString)].
Definition Cottage_shape : shape :=
  SStruct [("name", SString); ("type", SString); ("details", CottageDetails_shape);
           ("photos", SList SString); ("price_per_night", SFloat32)].
Definition Confirmation_shape : shape := SStruct [("bookingId", SString)].
Definition PayWithCardResponse_shape : shape :=
  SStruct [("receiptNumber", SString); ("invoiceNumber", SString); ("status", SString)].

Definition BookingRequest_fields : list (string * shape) :=
  [("mainGuest", SString); ("numberOfGuests", SInt); ("checkInDate", SString); ("checkOutDate", SString);
   ("guestName", SString); ("guestEmail", SString); ("guestDocument", SString); ("billingAddress", SString)].
Definition PayWithCardRequest_fields : list (string * shape) :=
  [("number", SString); ("brand", SString); ("expMonth", SInt); ("expYear", SInt); ("cvv", SString);
   ("holderName", SString)].

(** Every field is there, once, in its place, with a value of its shape that is not null. *)
Definition fills (fs : list (string * shape)) (j : json) : Prop :=
  match j with
  | JObj kvs => map fst kvs = map fst fs
                /\ Forall2 (fun (f : string * shape) kv => typed (snd f) (snd kv) /\ snd kv <> JNull) fs kvs
  | _ => False
  end.

(** The fields of a struct one by one; [rules] reads those that are not basic. *)
Ltac struct_fields rules :=
  repeat (apply Forall_cons; split);
  [ intros cur j; cbn -[decode_string decode_time decode_float32 decode_ptr decode_slice decode_CottageDetails
      decode_PeriodDTO typed];
    unfold field_typed; cbn -[decode_string decode_time decode_float32 decode_ptr decode_slice decode_CottageDetails
      decode_PeriodDTO typed];
    rewrite ?is_Some_bind; first [apply reads_string | apply reads_time | apply reads_float32 | rules] ..
  | by apply Forall_nil ].

Lemma reads_Guest : reads Guest_shape decode_Guest.
Proof.
  apply (reads_struct (map (fun n => (n, SString)) Guest_members) Guest_member). struct_fields fail.
Qed.

Lemma reads_Period : reads Period_shape decode_Period.
Proof. apply (reads_struct [("from", STime); ("to", STime)] Period_member). struct_fields fail. Qed.

Lemma reads_Booking : reads Booking_shape decode_Booking.
Proof.
  apply (reads_struct [("bookingId", SString); ("selectedCottage", SString); ("selectedPeriod", Period_shape)]
           Booking_member).
  struct_fields ltac:(apply reads_ptr, reads_Period).
Qed.

Lemma reads_Invoice : reads Invoice_shape decode_Invoice.
Proof.
  apply (reads_struct [("invoiceNumber", SString); ("receiptNumber", SString)] Invoice_member).
  struct_fields fail.
Qed.

Lemma reads_CacheValue : reads CacheValue_shape decode_CacheValue.
Proof.
  apply (reads_struct [("guestId", SString); ("personalInfo", Guest_shape); ("booking", Booking_shape);
           ("invoice", Invoice_shape)] CacheValue_member).
  struct_fields ltac:(apply reads_ptr; first [apply reads_Guest | apply reads_Booking | apply reads_Invoice]).
Qed.

Lemma reads_PeriodDTO : reads PeriodDTO_shape decode_PeriodDTO.
Proof. refine (reads_struct [("check_in", STime); ("check_out", STime)] _ _). struct_fields fail. Qed.

Lemma reads_AvailablePeriod : reads AvailablePeriod_shape decode_AvailablePeriodDTO.
Proof.
  refine (reads_struct [("cottage_name", SString);
    ("available_periods", SList PeriodDTO_shape)] _ _).
  struct_fields ltac:(apply reads_slice, reads_PeriodDTO).
Qed.

Lemma reads_CottageDetails : reads CottageDetails_shape decode_CottageDetails.
Proof.
  refine (reads_struct [("description", SString); ("view", SString); ("furniture_description", SString);
    ("bathroom_description", SString); ("amenities_description", SString)] _ _). struct_fields fail.
Qed.

Lemma reads_Cottage : reads Cottage_shape decode_Cottage.
Proof.
  refine (reads_struct [("name", SString); ("type", SString); ("details", CottageDetails_shape);
    ("photos", SList SString); ("price_per_night", SFloat32)] _ _).
  struct_fields ltac:(first [apply reads_CottageDetails | apply reads_slice, reads_string]).
Qed.

Lemma reads_Confirmation : reads Confirmation_shape decode_Confirmation.
Proof. refine (reads_struct [("bookingId", SString)] _ _). struct_fields fail. Qed.

Lemma reads_PayWithCardResponse : reads PayWithCardResponse_shape decode_PayWithCardResponse.
Proof.
  refine (reads_struct [("receiptNumber", SString); ("invoiceNumber", SString); ("status", SString)] _ _).
  struct_fields fail.
Qed.

(** C18: the JSON of the program is typed. The decoders of the cache value, of the lists of
    free periods and of cottages, of the booking's confirmation and of the payment's answer
    accept exactly the values of their shape, whatever the variable held before; what is
    written to the cache has the cache value's shape; and the bodies of a booking and of a
    payment have every field of the request, in order and none of them null. *)
Theorem json_is_typed :
  reads CacheValue_shape decode_CacheValue
  /\ reads AvailablePeriod_shape decode_AvailablePeriodDTO
  /\ reads (SList Cottage_shape) decode_Cottages
  /\ reads Confirmation_shape decode_Confirmation
  /\ reads PayWithCardResponse_shape decode_PayWithCardResponse
  /\ (forall v j, cacheValue_exact v -> encode_CacheValue v = Some j -> typed CacheValue_shape j)
  /\ (forall r, fills BookingRequest_fields (encode_BookingRequest r))
  /\ (forall r, fills PayWithCardRequest_fields (encode_PayWithCardRequest r)).
Proof.
  split; [exact reads_CacheValue|]. split; [exact reads_AvailablePeriod|].
  split; [apply reads_slice, reads_Cottage|]. split; [exact reads_Confirmation|].
  split; [exact reads_PayWithCardResponse|]. split; [|split].
  - intros v j Hv Hj. destruct (decode_encode_CacheValue v Hv) as (j' & Hj' & Hd).
    rewrite Hj in Hj'. injection Hj' as <-. apply (reads_CacheValue zeroCacheValue). by eexists.
  - intros r. split; [done|]. by repeat constructor.
  - intros r. split; [done|]. by repeat constructor.
Qed.
End Typing.
