(* ===== verification/World.v ===== *)
(** * The world of a journey: shared state, cache, HTTP services, clock, randomness

    [internal/infra/redis], [internal/port] and [journey_services/cache_service.go].
    What is outside the repository (the Redis server, the HTTP services, the clock
    emulator, the random source, the context) is the class [RedisServer] with its laws
    and the class [Env]; the [World] records what the program did with them. *)

From Stdlib Require Import ZArith Lia Floats.SpecFloat.
From stdpp Require Import base tactics list option strings gmap.
From S2P Require Import Prelude GoEffects GoTime GoText Domain Json.
Open Scope Z_scope.

(** ** The environment *)

(** The Redis commands the program uses, as a server state machine. An operation
    returns its error, if any, and the state the server is left in. *)
Class RedisServer := {
  redis_db : Type;
  redis_SET : string -> json -> redis_db -> option error * redis_db;
  redis_GET : string -> redis_db -> (error + json) * redis_db;
  redis_DEL : string -> redis_db -> option error * redis_db;
  redis_PING : redis_db -> option error * redis_db
}.

(** Documented behaviour of the commands: [redis_view] is the keyspace. A failed write
    may or may not have reached the server. The server may have other clients: the laws
    speak of the keys [redis_own] says are this client's, those nobody else writes. *)
Class RedisLaws (R : RedisServer) := {
  redis_view : redis_db -> gmap string json;
  redis_own : string -> Prop;
  redis_SET_ok k v db db' : redis_own k ->
    redis_SET k v db = (None, db') -> redis_view db' = <[k := v]> (redis_view db);
  redis_SET_err k v e db db' : redis_own k ->
    redis_SET k v db = (Some e, db') ->
    redis_view db' = redis_view db \/ redis_view db' = <[k := v]> (redis_view db);
  redis_GET_ok k v db db' : redis_own k ->
    redis_GET k db = (inr v, db') -> redis_view db !! k = Some v /\ redis_view db' = redis_view db;
  redis_GET_err k e db db' : redis_own k ->
    redis_GET k db = (inl e, db') -> redis_view db' = redis_view db;
  redis_DEL_ok k db db' : redis_own k ->
    redis_DEL k db = (None, db') -> redis_view db' = delete k (redis_view db);
  redis_DEL_err k e db db' : redis_own k ->
    redis_DEL k db = (Some e, db') ->
    redis_view db' = redis_view db \/ redis_view db' = delete k (redis_view db);
  redis_PING_view r db db' : redis_PING db = (r, db') -> redis_view db' = redis_view db
}.

Inductive HttpClient := CottageManager | GuestManager | PaymentSimulator.
Inductive HttpMethod := GET | POST.

Record HttpRequest := mkHttpRequest {
  http_Client : HttpClient;
  http_Method : HttpMethod;
  http_Path : string;
  http_Query : list (string * string);
  http_Body : option json
}.

(** A transport error, or a response: [resp.IsError()], [resp.Status()] and the JSON
    value of the body when the body is one. *)
Inductive HttpResult :=
| HttpFailure (e : error)
| HttpResponse (IsError : bool) (Status : string) (Body : option json).

Class Env := {
  (** the answer to the last request of the history *)
  env_http : list HttpRequest -> HttpResult;
  (** the n-th reading of the clock emulator *)
  env_now : nat -> error + Time;
  (** the n-th draw of [math/rand] *)
  env_rand : nat -> Z;
  (** [ctx.Err()] at its n-th poll *)
  env_ctx : nat -> option error
}.

(** ** The world *)

Section World.
Context {G : GoLib} {R : RedisServer} {E : Env}.

(** A nil [*domain.State] is [None]; a nil [port.Cache] is [None], a cache over a nil
    Redis client is [Some None]. *)
Record World := mkWorld {
  w_state : option State;
  w_cache : option (option redis_db);
  w_http : list HttpRequest;
  w_clock : nat;
  w_rand : nat;
  w_polls : nat
}.

Definition set_state (s : option State) (w : World) : World :=
  mkWorld s (w_cache w) (w_http w) (w_clock w) (w_rand w) (w_polls w).
Definition set_cache (c : option (option redis_db)) (w : World) : World :=
  mkWorld (w_state w) c (w_http w) (w_clock w) (w_rand w) (w_polls w).
Definition set_http (h : list HttpRequest) (w : World) : World :=
  mkWorld (w_state w) (w_cache w) h (w_clock w) (w_rand w) (w_polls w).
Definition tick_clock (w : World) : World :=
  mkWorld (w_state w) (w_cache w) (w_http w) (S (w_clock w)) (w_rand w) (w_polls w).
Definition tick_rand (w : World) : World :=
  mkWorld (w_state w) (w_cache w) (w_http w) (w_clock w) (S (w_rand w)) (w_polls w).
Definition tick_polls (w : World) : World :=
  mkWorld (w_state w) (w_cache w) (w_http w) (w_clock w) (w_rand w) (S (w_polls w)).

Definition nil_deref : string := "nil pointer dereference".

(** [*state] and an update through the shared pointer. *)
Definition deref_state : go World State := fun w =>
  match w_state w with Some s => (Ret s, w) | None => (Panic nil_deref, w) end.
Definition update_state (f : State -> State) : go World unit := fun w =>
  match w_state w with
  | Some s => (Ret tt, set_state (Some (f s)) w)
  | None => (Panic nil_deref, w)
  end.
Definition state_is_nil : go World bool :=
  gets (fun w => is_nil (w_state w)).
Definition cache_is_nil : go World bool :=
  gets (fun w => is_nil (w_cache w)).

(** [client.R()...Execute()] *)
Definition do_http (c : option HttpClient) (m : HttpMethod) (path : string)
    (query : list (string * string)) (body : option json)
  : go World (bool * string * option json) := fun w =>
  match c with
  | None => (Panic nil_deref, w)
  | Some cl =>
      let h := w_http w ++ [mkHttpRequest cl m path query body] in
      match env_http h with
      | HttpFailure e => (Err e, set_http h w)
      | HttpResponse ie st b => (Ret (ie, st, b), set_http h w)
      end
  end.

(** [s.clock.Now(ctx)] *)
Definition clock_Now : go World Time := fun w =>
  match env_now (w_clock w) with
  | inl e => (Err e, tick_clock w)
  | inr t => (Ret t, tick_clock w)
  end.

(** [rand.Intn(n)]: in [0, n); panics for [n <= 0]. *)
Definition rand_Intn (n : Z) : go World Z := fun w =>
  if n <=? 0 then (Panic "invalid argument to Intn", w)
  else (Ret (env_rand (w_rand w) mod n), tick_rand w).

(** [rand.Float64()]: a multiple of [2^-53] in [0, 1). *)
Definition rand_Float64 : go World spec_float := fun w =>
  (Ret (binary_normalize 53 1024 (env_rand (w_rand w) mod 2 ^ 53) (-53) false), tick_rand w).

Definition ctx_Err : go World (option error) := fun w =>
  (Ret (env_ctx (w_polls w)), tick_polls w).

(** *** [infra/redis/cache.go] *)

Definition err_redis_client : error := Errorf "invalid redis client" [].
Definition err_state_nil : error := Errorf "invalid state, state is nil" [].
Definition err_guestId_empty : error := Errorf "invalid state, guestId is empty" [].

(** The guard [c.redis == nil] and a command on the server. *)
Definition redis_call {A} (cmd : redis_db -> (error + A) * redis_db) : go World A := fun w =>
  match w_cache w with
  | None => (Panic nil_deref, w)
  | Some None => (Err err_redis_client, w)
  | Some (Some db) =>
      let '(r, db') := cmd db in
      (match r with inl e => Err e | inr a => Ret a end, set_cache (Some (Some db')) w)
  end.

Definition of_err {D} (x : option error * D) : (error + unit) * D :=
  (match fst x with Some e => inl e | None => inr tt end, snd x).

Definition Cache_Set (key : string) (value : json) : go World unit :=
  redis_call (fun db => of_err (redis_SET key value db)).
Definition Cache_Get (key : string) : go World json := redis_call (redis_GET key).
Definition Cache_Del (key : string) : go World unit :=
  redis_call (fun db => of_err (redis_DEL key db)).

(** [c.redis == nil] before the key is looked at *)
Definition check_redis : go World unit := redis_call (fun db => (inr tt, db)).

Definition EnsureKey : go World string :=
  n ← state_is_nil;
  _ ← guard_err n err_state_nil;
  s ← deref_state;
  if negb (String.eqb (st_RedisKey s) "") then mret (st_RedisKey s)
  else
    _ ← guard_err (String.eqb (st_GuestId s) "") err_guestId_empty;
    _ ← update_state (set_RedisKey ("guest." +:+ st_GuestId s));
    mret ("guest." +:+ st_GuestId s).

Definition err_json : error := LibError "json: cannot unmarshal".

Definition Load : go World GuestJourneyCacheValue :=
  _ ← check_redis;
  key ← EnsureKey;
  payload ← Cache_Get key;
  match decode_CacheValue zeroCacheValue payload with
  | Some value => mret value
  | None => throw err_json
  end.

Definition Save (value : GuestJourneyCacheValue) : go World unit :=
  _ ← check_redis;
  key ← EnsureKey;
  match encode_CacheValue value with
  | None => throw (LibError "json: error calling MarshalJSON")
  | Some payload => Cache_Set key payload
  end.

(** *** [journey_services/cache_service.go] *)

Definition err_cache_nil : error := Errorf "invalid guest journey cache" [].

(** The first guards of every operation of [JourneyCacheService]. *)
Definition service_guards : go World State :=
  n ← state_is_nil;
  _ ← guard_err n err_state_nil;
  c ← cache_is_nil;
  _ ← guard_err c err_cache_nil;
  deref_state.

Definition InitializeStateCache : go World unit :=
  s ← service_guards;
  _ ← guard_err (is_nil (st_Guest s)) (Errorf "invalid state, guest is nil" []);
  _ ← guard_err (String.eqb (st_RedisKey s) "") (Errorf "invalid state, redisKey is empty" []);
  Save (mkCacheValue "" (st_Guest s) None None).

Definition SyncStateCache (stepName : string) : go World unit :=
  s ← service_guards;
  _ ← guard_err (String.eqb (st_GuestId s) "") err_guestId_empty;
  current ← Load;
  let current := if negb (String.eqb (st_GuestId s) "")
                 then set_cv_GuestID (st_GuestId s) current else current in
  let current := match st_Guest s with
                 | Some g => set_cv_PersonalInfo (Some g) current
                 | None => current
                 end in
  Save current.

Definition LogStateCache : go World unit :=
  s ← service_guards;
  _ ← guard_err (String.eqb (st_RedisKey s) "") (Errorf "invalid state, redisKey is empty" []);
  _ ← Cache_Get (st_RedisKey s);
  mret tt.

Definition DeleteStateCache : go World unit :=
  s ← service_guards;
  _ ← guard_err (String.eqb (st_RedisKey s) "") (Errorf "invalid state, redisKey is empty" []);
  Cache_Del (st_RedisKey s).
End World.

(** ** What a cache operation does *)

Section CacheSpec.
Context {G : GoLib} {R : RedisServer} {RL : RedisLaws R} {E : Env}.

(** The key of the journey's cache entry once [EnsureKey] has run. *)
Definition cache_key (s : State) : string :=
  if String.eqb (st_RedisKey s) "" then "guest." +:+ st_GuestId s else st_RedisKey s.

(** The server holds [v] under the journey's key. *)
Definition cached (w : World) (v : GuestJourneyCacheValue) : Prop :=
  exists s db j, w_state w = Some s /\ w_cache w = Some (Some db)
    /\ (st_RedisKey s <> "" /\ redis_own (st_RedisKey s))
    /\ redis_view db !! st_RedisKey s = Some j
    /\ decode_CacheValue zeroCacheValue j = Some v.

(** The journey's key is its own. *)
Definition owned (w : World) : Prop := exists s, w_state w = Some s /\ redis_own (cache_key s).

Lemma cache_key_set s : st_RedisKey s <> "" -> cache_key s = st_RedisKey s.
Proof. intros H. unfold cache_key. by apply String.eqb_neq in H as ->. Qed.

Lemma cached_owned w v : cached w v -> owned w.
Proof.
  intros (s & db & j & Hs & _ & [Hk Ho] & _). exists s. by rewrite cache_key_set.
Qed.

(** What a cache operation leaves alone. *)
Record cache_frame (w w' : World) : Prop := {
  frame_http : w_http w' = w_http w;
  frame_clock : w_clock w' = w_clock w;
  frame_rand : w_rand w' = w_rand w;
  frame_polls : w_polls w' = w_polls w;
  frame_state : exists s, w_state w = Some s
                          /\ w_state w' = Some (set_RedisKey (cache_key s) s);
}.

Lemma cache_key_nonempty s : cache_key s <> "".
Proof.
  unfold cache_key. destruct (String.eqb (st_RedisKey s) "") eqn:E1; [done|].
  by apply String.eqb_neq.
Qed.

Lemma cache_key_idem s : cache_key (set_RedisKey (cache_key s) s) = cache_key s.
Proof.
  unfold cache_key at 1. simpl. destruct (String.eqb (cache_key s) "") eqn:E1; [|done].
  apply String.eqb_eq in E1. by destruct (cache_key_nonempty s).
Qed.

Lemma set_RedisKey_idem k s : set_RedisKey k (set_RedisKey k s) = set_RedisKey k s.
Proof. done. Qed.

Lemma set_RedisKey_same s : st_RedisKey s <> "" -> set_RedisKey (cache_key s) s = s.
Proof.
  intros H. unfold cache_key. apply String.eqb_neq in H as ->. by destruct s.
Qed.

Lemma cache_frame_refl w s :
  w_state w = Some s -> st_RedisKey s <> "" -> cache_frame w w.
Proof. intros Hs Hk. split; try done. exists s. by rewrite set_RedisKey_same. Qed.

Lemma cache_frame_trans w1 w2 w3 : cache_frame w1 w2 -> cache_frame w2 w3 -> cache_frame w1 w3.
Proof.
  intros [H1 H2 H3 H4 (s & Hs & Hs')] [K1 K2 K3 K4 (t & Ht & Ht')].
  split; try congruence. exists s. split; [done|].
  rewrite Hs' in Ht. injection Ht as <-. rewrite Ht'. by rewrite cache_key_idem.
Qed.

Lemma cache_frame_owned w w' : cache_frame w w' -> owned w' -> owned w.
Proof.
  intros [_ _ _ _ (s & Hs & Hs')] (s' & Hs1 & Ho). rewrite Hs' in Hs1. injection Hs1 as <-.
  exists s. by rewrite cache_key_idem in Ho.
Qed.

Lemma redis_call_Ret {A} (cmd : redis_db -> (error + A) * redis_db) w a w' :
  redis_call cmd w = (Ret a, w') ->
  exists db db', w_cache w = Some (Some db) /\ cmd db = (inr a, db')
                 /\ w' = set_cache (Some (Some db')) w.
Proof.
  unfold redis_call. destruct (w_cache w) as [[db|]|]; try done.
  destruct (cmd db) as [[e|b] db'] eqn:Ec; intros [= <- <-]. eauto.
Qed.

Lemma EnsureKey_Ret w k w' :
  EnsureKey w = (Ret k, w') ->
  exists s, w_state w = Some s /\ k = cache_key s
            /\ w' = set_state (Some (set_RedisKey (cache_key s) s)) w.
Proof.
  unfold EnsureKey, state_is_nil, gets, deref_state, guard_err, update_state, cache_key.
  unfold mbind, go_bind, mret, go_ret, throw.
  destruct w as [[s|] c h ck r p]; simpl; [|done].
  destruct (String.eqb (st_RedisKey s) "") eqn:E1; simpl.
  - destruct (String.eqb (st_GuestId s) ""); simpl; intros [= <- <-].
    exists s. by rewrite E1.
  - intros [= <- <-]. exists s. rewrite E1. split; [done|]. split; [done|].
    unfold set_state. simpl. by destruct s.
Qed.

(** A successful [Load] returns what the server holds under the journey's key. *)
Lemma Load_Ret w v w' :
  Load w = (Ret v, w') -> (owned w -> cached w' v) /\ cache_frame w w'.
Proof.
  unfold Load. intros H.
  go_inv H. apply redis_call_Ret in Hrun as (db & ? & Hdb & [= _ <-] & ->).
  go_inv H. apply EnsureKey_Ret in Hrun as (s & Hs & -> & ->).
  go_inv H. apply redis_call_Ret in Hrun as (db1 & db2 & Hdb1 & Hget & ->).
  simpl in Hdb1. injection Hdb1 as <-.
  destruct (decode_CacheValue _ _) eqn:Ed; [|done]. apply ret_inv in H as [-> <-].
  split.
  - intros (s' & Hs' & Ho). assert (s' = s) as -> by (cbn in Hs; congruence).
    apply redis_GET_ok in Hget as [Hget Hview]; [|exact Ho].
    do 3 eexists. split; [done|]. split; [done|]. split; [split; [apply cache_key_nonempty|exact Ho]|].
    split; [simpl; rewrite Hview; apply Hget|exact Ed].
  - split; try done. exists s. done.
Qed.

(** A [Load] of a journey whose key is set gives the cached value and no other. *)
Lemma Load_cached w v0 v w' :
  cached w v0 -> Load w = (Ret v, w') -> v = v0 /\ w_state w' = w_state w.
Proof.
  intros (s0 & db0 & j0 & Hs0 & Hdb0 & [Hk0 Ho0] & Hv0 & Hd0). unfold Load. intros H.
  go_inv H. apply redis_call_Ret in Hrun as (db & ? & Hdb & [= _ <-] & ->).
  go_inv H. apply EnsureKey_Ret in Hrun as (s & Hs & -> & ->).
  go_inv H. apply redis_call_Ret in Hrun as (db1 & db2 & Hdb1 & Hget & ->).
  simpl in Hs, Hdb1. rewrite Hs0 in Hs. injection Hs as <-.
  rewrite Hdb0 in Hdb. injection Hdb as <-. injection Hdb1 as <-.
  rewrite (cache_key_set s0 Hk0) in Hget. apply redis_GET_ok in Hget as [Hget _]; [|exact Ho0].
  rewrite Hget in Hv0. injection Hv0 as <-.
  rewrite Hd0 in H. apply ret_inv in H as [-> <-]. split; [done|].
  simpl. rewrite set_RedisKey_same by done. done.
Qed.

(** A successful [Save] makes the value the cached one and touches no other key. *)
Lemma Save_Ret w v w' :
  Save v w = (Ret tt, w') ->
  cache_frame w w'
  /\ (owned w -> cacheValue_exact v -> cached w' v)
  /\ (forall s db db' k, owned w -> w_state w = Some s -> w_cache w = Some (Some db) ->
        w_cache w' = Some (Some db') -> k <> cache_key s ->
        redis_view db' !! k = redis_view db !! k).
Proof.
  unfold Save. intros H.
  go_inv H. apply redis_call_Ret in Hrun as (db & ? & Hdb & [= _ <-] & ->).
  go_inv H. apply EnsureKey_Ret in Hrun as (s & Hs & -> & ->).
  destruct (encode_CacheValue v) as [j|] eqn:Ej; [|done].
  apply redis_call_Ret in H as (db1 & db2 & Hdb1 & Hset & ->).
  simpl in Hdb1. injection Hdb1 as <-. unfold of_err in Hset.
  destruct (redis_SET _ _ db) as [[e|] db3] eqn:Eset; simpl in Hset; [done|].
  injection Hset as <-. cbn [set_state w_state] in Eset.
  assert (Hview : owned w -> redis_own (cache_key s)
                  /\ redis_view db3 = <[cache_key s := j]> (redis_view db)).
  { intros (s' & Hs' & Ho). assert (s' = s) as -> by (cbn in Hs; congruence).
    split; [done|]. by apply redis_SET_ok in Eset. }
  split; [|split].
  - split; try done. exists s. done.
  - intros Ho Hex. destruct (Hview Ho) as [Ho' Ev].
    destruct (decode_encode_CacheValue v Hex) as (j' & Ej' & Dj).
    rewrite Ej in Ej'. injection Ej' as <-.
    do 3 eexists. split; [done|]. split; [done|].
    split; [split; [apply cache_key_nonempty|exact Ho']|].
    split; [simpl; rewrite Ev; apply lookup_insert_eq|exact Dj].
  - intros s0 db0 db0' k Ho Hs0 Hdb0 Hdb0' Hk. destruct (Hview Ho) as [_ Ev]. simpl in *. simplify_eq.
    rewrite Ev. by rewrite lookup_insert_ne.
Qed.

(** [Load] once the key is set is one [GET]. *)
Lemma Load_eq w s db :
  w_state w = Some s -> w_cache w = Some (Some db) -> st_RedisKey s <> "" ->
  Load w =
    let '(r, db') := redis_GET (st_RedisKey s) db in
    (match r with
     | inl e => Err e
     | inr j => match decode_CacheValue zeroCacheValue j with
                | Some v => Ret v
                | None => Err err_json
                end
     end, set_cache (Some (Some db')) w).
Proof.
  intros Hs Hdb Hk. apply String.eqb_neq in Hk.
  unfold Load, check_redis, Cache_Get, EnsureKey, redis_call, state_is_nil, gets, deref_state,
    guard_err, mbind, go_bind, mret, go_ret, throw.
  destruct w as [st c h ck r p]; cbn in *. subst st c. cbn. rewrite Hk. cbn.
  destruct (redis_GET _ db) as [[e'|j'] db']; cbn; [done|]. by destruct (decode_CacheValue _ _).
Qed.

(** [Load] of a journey with a cache entry gives the entry or an error of the server. *)
Lemma Load_any w v :
  cached w v ->
  exists w', w_http w' = w_http w /\ w_state w' = w_state w
    /\ ((Load w = (Ret v, w') /\ cached w' v) \/ exists e, Load w = (Err e, w')).
Proof.
  intros Hc. destruct Hc as (s & db & j & Hs & Hdb & [Hk Ho] & Hv & Hd) eqn:Hc'.
  pose proof (Load_eq w s db Hs Hdb Hk) as El. clear Hc'.
  destruct (redis_GET (st_RedisKey s) db) as [[e|j'] db'] eqn:Eg.
  - eexists. split; [|split; [|right; exists e; exact El]]; done.
  - apply redis_GET_ok in Eg as [Ev Hview]; [|done]. assert (j' = j) as -> by congruence.
    rewrite Hd in El. eexists. split; [|split; [|left; split; [exact El|]]]; try done.
    exists s, db', j. rewrite Hview. done.
Qed.

(** [Save] once the key is set is one [SET]. *)
Lemma Save_eq v w s db :
  w_state w = Some s -> w_cache w = Some (Some db) -> st_RedisKey s <> "" ->
  Save v w =
    match encode_CacheValue v with
    | None => (Err (LibError "json: error calling MarshalJSON"), w)
    | Some j =>
        let '(r, db') := redis_SET (st_RedisKey s) j db in
        (match r with Some e => Err e | None => Ret tt end, set_cache (Some (Some db')) w)
    end.
Proof.
  intros Hs Hdb Hk. apply String.eqb_neq in Hk.
  unfold Save, check_redis, Cache_Set, EnsureKey, redis_call, state_is_nil, gets, deref_state,
    guard_err, mbind, go_bind, mret, go_ret, throw.
  destruct w as [st c h ck r p]; cbn in *. subst st c. cbn. rewrite Hk. cbn.
  destruct (encode_CacheValue v); [|done]. cbn. destruct (redis_SET _ _ db) as [[e|] db']; done.
Qed.

(** A [Save] that fails leaves the journey's entry as it was or has written it. *)
Lemma Save_Err v v0 w e w' :
  cached w v0 -> cacheValue_exact v -> Save v w = (Err e, w') ->
  w_state w' = w_state w /\ w_http w' = w_http w /\ (cached w' v0 \/ cached w' v).
Proof.
  intros (s & db & j & Hs & Hdb & [Hk Ho] & Hv & Hd) Hex. rewrite (Save_eq v w s db Hs Hdb Hk).
  destruct (decode_encode_CacheValue v Hex) as (j' & -> & Hd').
  destruct (redis_SET (st_RedisKey s) j' db) as [[e'|] db'] eqn:Eset; [|done]. intros [= _ <-].
  split; [done|]. split; [done|].
  apply redis_SET_err in Eset as [E1|E1]; [left; exists s, db', j|right; exists s, db', j'|done];
    rewrite E1; [done|]. repeat (split; [done|]). split; [|done]. apply lookup_insert_eq.
Qed.

(** [Save] sends no HTTP request, whatever its outcome. *)
Lemma Save_http v w r w' : Save v w = (r, w') -> w_http w' = w_http w.
Proof.
  unfold Save, check_redis, Cache_Set, EnsureKey, redis_call, state_is_nil, gets, deref_state,
    guard_err, update_state, mbind, go_bind, mret, go_ret, throw.
  destruct w as [[s|] [[db|]|] h ck rn p]; cbn; try by intros [= <- <-].
  destruct (String.eqb (st_RedisKey s) ""); cbn;
    [destruct (String.eqb (st_GuestId s) ""); cbn; [by intros [= <- <-]|]|];
    (destruct (encode_CacheValue v); [|by intros [= <- <-]]); cbn;
    destruct (redis_SET _ _ _) as [[e|] db']; cbn; by intros [= <- <-].
Qed.

(** With a cache and a state, [Save] returns or reports an error. *)
Lemma Save_total w v v' r w' :
  cached w v -> Save v' w = (r, w') ->
  match r with Ret _ | Err _ => True | Panic _ | Stuck => False end.
Proof.
  intros (s & db & j & Hs & Hdb & [Hk _] & _). apply String.eqb_neq in Hk.
  unfold Save, check_redis, Cache_Set, EnsureKey, redis_call, state_is_nil, gets, deref_state,
    guard_err, update_state, mbind, go_bind, mret, go_ret, throw.
  destruct w as [st c h ck rn p]; cbn in *. subst st c. cbn. rewrite Hk. cbn.
  destruct (encode_CacheValue v'); [|by intros [= <- <-]]. cbn.
  destruct (redis_SET _ _ _) as [[e|] db']; cbn; by intros [= <- <-].
Qed.

(** A request is recorded whatever becomes of it; a nil client panics before. *)
Lemma do_http_any c m path q body w r w' :
  do_http c m path q body w = (r, w') ->
  (c = None /\ w' = w /\ r = Panic nil_deref)
  \/ exists cl, c = Some cl /\ w' = set_http (w_http w ++ [mkHttpRequest cl m path q body]) w
       /\ r = match env_http (w_http w') with
              | HttpFailure e => Err e
              | HttpResponse ie st b => Ret (ie, st, b)
              end.
Proof.
  unfold do_http. destruct c as [cl|]; [|intros [= <- <-]; by left].
  intros H. right. exists cl. destruct (env_http _) as [e|ie st b] eqn:Eh;
    injection H as <- <-; cbn [w_http set_http]; by rewrite Eh.
Qed.

Lemma do_http_Ret c m path q body w ie st b w' :
  do_http c m path q body w = (Ret (ie, st, b), w') ->
  exists cl, c = Some cl /\ w' = set_http (w_http w ++ [mkHttpRequest cl m path q body]) w
    /\ env_http (w_http w') = HttpResponse ie st b.
Proof.
  intros H. apply do_http_any in H as [(_ & _ & H)|(cl & -> & -> & H)]; [done|].
  exists cl. split; [done|]. split; [done|]. destruct (env_http _); [done|]. by simplify_eq.
Qed.

Lemma set_http_cached h w v : cached (set_http h w) v <-> cached w v.
Proof. done. Qed.

(** The cache gives back what was saved: a value whose booked period has times of whole
    UTC seconds, in the years RFC 3339 can write, survives the JSON round trip, under the
    key of the journey, and saving it touches no other journey's entry. *)
Theorem Save_Load_roundtrip v w w1 v' w2 :
  owned w -> cacheValue_exact v -> Save v w = (Ret tt, w1) -> Load w1 = (Ret v', w2) ->
  v' = v
  /\ exists s, w_state w = Some s /\ w_state w2 = Some (set_RedisKey (cache_key s) s)
       /\ forall db db1 k, w_cache w = Some (Some db) -> w_cache w1 = Some (Some db1) ->
            k <> cache_key s -> redis_view db1 !! k = redis_view db !! k.
Proof.
  intros Hw Hex Hs Hl. destruct (Save_Ret _ _ _ Hs) as (Hf & Hc & Ho).
  destruct (Load_cached _ _ _ _ (Hc Hw Hex) Hl) as [-> Hst]. split; [done|].
  destruct (frame_state _ _ Hf) as (s & Hs0 & Hs1). exists s. split; [done|].
  split; [congruence|]. intros db db1 k Hdb Hdb1 Hk. by apply (Ho s).
Qed.
End CacheSpec.

(** ** Journeys whose objects exist *)

Section Ready.
Context {G : GoLib} {R : RedisServer} {E : Env}.

(** The state and the cache are not nil; [listed] asks for listed cottages too. *)
Definition ready (listed : bool) (w : World) : Prop :=
  exists s c, w_state w = Some s /\ w_cache w = Some c
    /\ (listed = true -> st_CottageNames s <> None).

(** A [Load] that returns had a state and a cache. *)
Lemma Load_ready w v w' : Load w = (Ret v, w') -> ready false w'.
Proof.
  unfold Load. intros H.
  go_inv H. apply redis_call_Ret in Hrun as (db & ? & Hdb & [= _ <-] & ->).
  go_inv H. apply EnsureKey_Ret in Hrun as (s & Hs & -> & ->).
  go_inv H. apply redis_call_Ret in Hrun as (db1 & db2 & Hdb1 & Hget & ->).
  destruct (decode_CacheValue _ _) eqn:Ed; [|done]. apply ret_inv in H as [-> <-].
  by eexists _, _.
Qed.

Lemma ready_weaken b w : ready b w -> ready false w.
Proof. intros (s & c & Hs & Hc & _). exists s, c. done. Qed.

Lemma ready_state b s w c :
  w_cache w = Some c -> (b = true -> st_CottageNames s <> None) -> ready b (set_state (Some s) w).
Proof. intros Hc Hb. exists s, c. done. Qed.

Lemma redis_call_safe {A} t b (cmd : redis_db -> (error + A) * redis_db) :
  safe t (ready b) (redis_call cmd) (fun _ => ready b).
Proof.
  intros w (s & c & Hs & Hc & Hb). unfold redis_call. rewrite Hc. destruct c as [db|]; [|done].
  destruct (cmd db) as [[e|a] db']; [done|]. by exists s, (Some db').
Qed.

Lemma deref_state_safe t b :
  safe t (ready b) deref_state (fun s w => ready b w /\ w_state w = Some s).
Proof. intros w (s & c & Hs & Hr). unfold deref_state. rewrite Hs. split; [|done]. by exists s, c. Qed.

Lemma update_state_safe t b f :
  (forall s, st_CottageNames s <> None -> st_CottageNames (f s) <> None) ->
  safe t (ready b) (update_state f) (fun _ => ready b).
Proof.
  intros Hf w (s & c & Hs & Hc & Hb). unfold update_state. rewrite Hs.
  exists (f s), c. split; [done|]. split; [done|]. intros Ht. auto.
Qed.

Lemma EnsureKey_safe t b : safe t (ready b) EnsureKey (fun _ => ready b).
Proof.
  unfold EnsureKey. safe_seq @safe_gets as ?. safe_seq @safe_guard as ?.
  safe_seq deref_state_safe as s.
  eapply (safe_weaken _ (ready b)); [|by intros ? [? _]|by intros ? ? Hq; exact Hq].
  destruct (negb _); [by apply safe_ret|].
  safe_seq @safe_guard as ?. eapply safe_bind; [by apply update_state_safe|intros ?].
  by apply safe_ret.
Qed.

Lemma Load_safe t b : safe t (ready b) Load (fun _ => ready b).
Proof.
  safe_seq @redis_call_safe as ?.
  safe_seq @EnsureKey_safe as ?.
  safe_seq @redis_call_safe as ?.
  destruct (decode_CacheValue _ _); [by apply safe_ret|apply safe_throw].
Qed.

Lemma Save_safe t b v : safe t (ready b) (Save v) (fun _ => ready b).
Proof.
  safe_seq @redis_call_safe as ?.
  safe_seq @EnsureKey_safe as ?.
  destruct (encode_CacheValue _); [apply redis_call_safe|apply safe_throw].
Qed.

Lemma do_http_safe t b cl m path q body :
  safe t (ready b) (do_http (Some cl) m path q body) (fun _ => ready b).
Proof. intros w Hw. unfold do_http. by destruct (env_http _). Qed.

Lemma clock_Now_safe t b : safe t (ready b) clock_Now (fun _ => ready b).
Proof. intros w Hw. unfold clock_Now. by destruct (env_now _). Qed.

Lemma rand_Intn_safe t b n :
  0 < n -> safe t (ready b) (rand_Intn n) (fun i w => ready b w /\ 0 <= i < n).
Proof.
  intros Hn w Hw. unfold rand_Intn. destruct (n <=? 0) eqn:En; reflect_ineqs; [lia|].
  split; [exact Hw|]. by apply Z.mod_pos_bound.
Qed.

(** *** No operation makes the state or the cache nil *)

Lemma redis_call_keeps {A} (cmd : redis_db -> (error + A) * redis_db) :
  keeps (ready false) (redis_call cmd).
Proof.
  intros w (s & c & Hs & Hc & Hb). unfold redis_call. rewrite Hc.
  destruct c as [db|]; [|by exists s, None].
  destruct (cmd db) as [r db']. by exists s, (Some db').
Qed.

Lemma deref_state_keeps : keeps (ready false) deref_state.
Proof. intros w Hw. unfold deref_state. by destruct (w_state w). Qed.

Lemma update_state_keeps f : keeps (ready false) (update_state f).
Proof.
  intros w (s & c & Hs & Hc & Hb). unfold update_state. rewrite Hs. by exists (f s), c.
Qed.

Lemma do_http_keeps c m path q body : keeps (ready false) (do_http c m path q body).
Proof. intros w Hw. unfold do_http. destruct c; [|done]. by destruct (env_http _). Qed.

Lemma clock_Now_keeps : keeps (ready false) clock_Now.
Proof. intros w Hw. unfold clock_Now. by destruct (env_now _). Qed.

Lemma rand_Intn_keeps n : keeps (ready false) (rand_Intn n).
Proof. intros w Hw. unfold rand_Intn. by destruct (n <=? 0). Qed.

Lemma rand_Float64_keeps : keeps (ready false) rand_Float64.
Proof. by intros w Hw. Qed.

Lemma ctx_Err_keeps : keeps (ready false) ctx_Err.
Proof. by intros w Hw. Qed.
End Ready.

(** ** The requests a computation sends *)

Section Requests.
Context {G : GoLib} {R : RedisServer} {E : Env}.

Definition is_post (r : HttpRequest) : bool :=
  match http_Method r with POST => true | GET => false end.

(** [m] appends requests to the history, at most [n] of them posts, and gives no random
    number back. *)
Definition posts_le {A} (n : nat) (m : go World A) : Prop :=
  forall w, (w_rand w <= w_rand (snd (m w)))%nat
            /\ exists l, w_http (snd (m w)) = w_http w ++ l
                         /\ (length (filter is_post l) <= n)%nat.

Lemma posts_le_quiet {A} (m : go World A) :
  (forall w, w_http (snd (m w)) = w_http w /\ (w_rand w <= w_rand (snd (m w)))%nat) ->
  posts_le 0 m.
Proof.
  intros H w. destruct (H w) as [Hh Hr]. split; [done|]. exists []. by rewrite Hh, app_nil_r.
Qed.

(** Neither the cache nor the state sends anything. *)
Lemma redis_call_http {A} (cmd : redis_db -> (error + A) * redis_db) h :
  keeps (fun w => w_http w = h) (redis_call cmd).
Proof.
  intros w Hh. unfold redis_call. destruct (w_cache w) as [[db|]|]; try done. by destruct (cmd db).
Qed.

Lemma deref_state_http h : keeps (fun w => w_http w = h) deref_state.
Proof. intros w Hh. unfold deref_state. by destruct (w_state w). Qed.

Lemma update_state_http f h : keeps (fun w => w_http w = h) (update_state f).
Proof. intros w Hh. unfold update_state. by destruct (w_state w). Qed.

Lemma posts_le_bind {A B} n1 n2 (m : go World A) (f : A -> go World B) :
  posts_le n1 m -> (forall a, posts_le n2 (f a)) -> posts_le (n1 + n2) (m ≫= f).
Proof.
  intros Hm Hf w. destruct (Hm w) as (Hr1 & l1 & H1 & Hn1). unfold mbind, go_bind.
  destruct (m w) as [[a|e|p|] w']; cbn [snd] in *;
    try (split; [done|]; exists l1; split; [done|lia]).
  destruct (Hf a w') as (Hr2 & l2 & H2 & Hn2). split; [lia|]. exists (l1 ++ l2).
  rewrite H2, H1, <- app_assoc, filter_app, length_app. split; [done|lia].
Qed.

Lemma posts_le_weaken {A} n n' (m : go World A) : (n <= n')%nat -> posts_le n m -> posts_le n' m.
Proof. intros Hn H w. destruct (H w) as (Hr & l & Hl & Hk). split; [done|]. exists l. split; [done|lia]. Qed.

Lemma posts_le_ret {A} (a : A) : posts_le 0 (mret a).
Proof. by apply posts_le_quiet. Qed.

Lemma posts_le_throw {A} e : posts_le 0 (@throw World A e).
Proof. by apply posts_le_quiet. Qed.

Lemma posts_le_guard c e : posts_le 0 (guard_err c e).
Proof. apply posts_le_quiet. intros w. unfold guard_err. by destruct c. Qed.

Lemma posts_le_redis {A} (cmd : redis_db -> (error + A) * redis_db) : posts_le 0 (redis_call cmd).
Proof.
  apply posts_le_quiet. intros w. unfold redis_call. destruct (w_cache w) as [[db|]|]; try done.
  by destruct (cmd db).
Qed.

Lemma posts_le_deref : posts_le 0 deref_state.
Proof. apply posts_le_quiet. intros w. unfold deref_state. by destruct (w_state w). Qed.

Lemma posts_le_update f : posts_le 0 (update_state f).
Proof. apply posts_le_quiet. intros w. unfold update_state. by destruct (w_state w). Qed.

Lemma posts_le_EnsureKey : posts_le 0 EnsureKey.
Proof.
  unfold EnsureKey. apply (posts_le_bind 0 0); [by apply posts_le_quiet|intros n].
  apply (posts_le_bind 0 0); [apply posts_le_guard|intros _].
  apply (posts_le_bind 0 0); [apply posts_le_deref|intros s].
  destruct (negb _); [apply posts_le_ret|].
  apply (posts_le_bind 0 0); [apply posts_le_guard|intros _].
  apply (posts_le_bind 0 0); [apply posts_le_update|intros _]. apply posts_le_ret.
Qed.

Lemma posts_le_Load : posts_le 0 Load.
Proof.
  apply (posts_le_bind 0 0); [apply posts_le_redis|intros _].
  apply (posts_le_bind 0 0); [apply posts_le_EnsureKey|intros k].
  apply (posts_le_bind 0 0); [apply posts_le_redis|intros j].
  destruct (decode_CacheValue _ _); [apply posts_le_ret|apply posts_le_throw].
Qed.

Lemma posts_le_Save v : posts_le 0 (Save v).
Proof.
  apply (posts_le_bind 0 0); [apply posts_le_redis|intros _].
  apply (posts_le_bind 0 0); [apply posts_le_EnsureKey|intros k].
  destruct (encode_CacheValue _); [apply posts_le_redis|apply posts_le_throw].
Qed.

Lemma posts_le_http c m path q body :
  posts_le (if is_post (mkHttpRequest CottageManager m path q body) then 1 else 0)
    (do_http c m path q body).
Proof.
  intros w. unfold do_http. destruct c as [cl|]; (split; [first [done|by destruct (env_http _)]|]).
  - exists [mkHttpRequest cl m path q body]. split; [by destruct (env_http _)|].
    by destruct m.
  - exists []. rewrite app_nil_r. split; [done|simpl; lia].
Qed.

Lemma posts_le_clock : posts_le 0 clock_Now.
Proof. apply posts_le_quiet. intros w. unfold clock_Now. by destruct (env_now _). Qed.

Lemma posts_le_Intn n : posts_le 0 (rand_Intn n).
Proof. apply posts_le_quiet. intros w. unfold rand_Intn. destruct (n <=? 0); simpl; auto with lia. Qed.
End Requests.

#[export] Hint Resolve redis_call_safe EnsureKey_safe Load_safe Save_safe do_http_safe
  clock_Now_safe safe_throw : guest.
#[export] Hint Resolve redis_call_keeps deref_state_keeps update_state_keeps do_http_keeps
  clock_Now_keeps rand_Intn_keeps rand_Float64_keeps ctx_Err_keeps
  redis_call_http deref_state_http update_state_http : guest.
#[export] Hint Resolve posts_le_ret posts_le_throw posts_le_guard posts_le_redis posts_le_deref
  posts_le_update posts_le_Load posts_le_Save posts_le_clock posts_le_Intn : guest.
