(* ===== verification/Samples.v ===== *)
(** * A concrete environment

    Instances of what is outside the repository, on which the theorems are tried: an
    ASCII-only Unicode library, an in-memory Redis server that never fails and services
    that answer from a script. *)

From Stdlib Require Import ZArith Lia.
From stdpp Require Import base tactics list option strings gmap.
From S2P Require Import Prelude GoEffects GoTime GoText Domain Json World.
Open Scope Z_scope.

Definition sample_lib : GoLib := {|
  unicode_EqualFold := String.eqb;
  unicode_ToLower := fun s => s;
  time_Parse_lenient := fun _ => None;
  proto_EnumStringOf := fun names n =>
    match List.find (fun p => fst p =? n) names with Some p => snd p | None => "?" end
|}.

Definition sample_redis : RedisServer := {|
  redis_db := gmap string json;
  redis_SET := fun k v db => (None, <[k := v]> db);
  redis_GET := fun k db =>
    (match db !! k with Some v => inr v | None => inl RedisNil end, db);
  redis_DEL := fun k db => (None, delete k db);
  redis_PING := fun db => (None, db)
|}.

Definition sample_redis_laws : RedisLaws sample_redis.
Proof.
  refine {| redis_view := fun db : @redis_db sample_redis => (db : gmap string json);
            redis_own := fun _ => True |}; simpl.
  - by intros k v db db' _ [= <-].
  - done.
  - intros k v db db' _. destruct (db !! k); [|done]. by intros [= <- <-].
  - intros k e db db' _. destruct (db !! k); by intros [= _ <-].
  - by intros k db db' _ [= <-].
  - done.
  - by intros r db db' [= _ <-].
Defined.

(** Services that answer by method and path, a clock that stands still. *)
Definition sample_env (answers : list (HttpMethod * string * HttpResult)) (now : Time) : Env := {|
  env_http h :=
    match last h with
    | None => HttpFailure (LibError "no request")
    | Some r =>
        let same (a : HttpMethod * string * HttpResult) :=
          match fst (fst a), http_Method r with
          | GET, GET | POST, POST => String.eqb (snd (fst a)) (http_Path r)
          | _, _ => false
          end in
        match List.find same answers with
        | Some a => snd a
        | None => HttpResponse true "404 Not Found" None
        end
    end;
  env_now _ := inr now;
  env_rand n := Z.of_nat n;
  env_ctx _ := None
|}.

(** 2025-03-10T09:30:00Z *)
Definition sample_now : Time := Date 2025 3 10 9 30 0 0 0.

Definition sample_guest : Guest :=
  mkGuest "DOC-1" "Ada" "Lovelace" "ada@example.org" "1 Analytical Street".

Definition sample_state : State :=
  mkState (Some sample_guest) "g-1" (Some ["Birch"; "Aspen"]) "guest.sim-1" "q" "rk".

Definition sample_period : Period :=
  mkPeriod (Date 2025 3 20 0 0 0 0 0) (Date 2025 3 23 0 0 0 0 0).

(** The cached value of a journey at its stages. *)
Definition sample_fresh : GuestJourneyCacheValue :=
  mkCacheValue "" (Some sample_guest) None None.
Definition sample_chosen : GuestJourneyCacheValue :=
  mkCacheValue "g-1" (Some sample_guest) (Some (mkBooking "" "Aspen" (Some sample_period))) None.
Definition sample_booked : GuestJourneyCacheValue :=
  mkCacheValue "g-1" (Some sample_guest)
    (Some (mkBooking "b-1" "Aspen" (Some sample_period))) (Some (mkInvoice "inv-1" "")).

Definition sample_db (v : GuestJourneyCacheValue) : gmap string json :=
  match encode_CacheValue v with
  | Some j => {[ "guest.sim-1" := j ]}
  | None => ∅
  end.

Definition sample_world (v : GuestJourneyCacheValue) : @World sample_redis :=
  @mkWorld sample_redis (Some sample_state) (Some (Some (sample_db v))) [] 0 0 0.

(** The sample world holds its value under the journey's key. *)
Lemma sample_cached (v : GuestJourneyCacheValue) :
  @cacheValue_exact v ->
  @cached sample_lib sample_redis sample_redis_laws (sample_world v) v.
Proof.
  intros Hv. destruct (@decode_encode_CacheValue sample_lib v Hv) as (j & Ej & Dj).
  exists sample_state, (sample_db v), j. split; [done|]. split; [done|]. split; [by split|].
  split; [|exact Dj]. unfold sample_db. rewrite Ej. by apply lookup_singleton_eq.
Qed.

(** A run known by its first component. *)
Lemma run_ok {W A} (m : go W A) w a : fst (m w) = Ret a -> m w = (Ret a, snd (m w)).
Proof. destruct (m w). simpl. by intros ->. Qed.

(** The sample values survive the round trip through the cache. *)
Lemma sample_exact (v : GuestJourneyCacheValue) :
  v ∈ [sample_fresh; sample_chosen; sample_booked] -> cacheValue_exact v.
Proof.
  assert (Hp : period_exact sample_period) by (vm_compute; repeat split; done).
  intros [->|[->|[->|[]%not_elem_of_nil]%elem_of_cons]%elem_of_cons]%elem_of_cons b p Hb Hs;
    [done|..]; injection Hb as <-; injection Hs as <-; exact Hp.
Qed.

Lemma sample_fresh_cached :
  @cached sample_lib sample_redis sample_redis_laws (sample_world sample_fresh) sample_fresh.
Proof. apply sample_cached, sample_exact. by left. Qed.

Lemma sample_chosen_cached :
  @cached sample_lib sample_redis sample_redis_laws (sample_world sample_chosen) sample_chosen.
Proof. apply sample_cached, sample_exact. right. by left. Qed.

Lemma sample_booked_cached :
  @cached sample_lib sample_redis sample_redis_laws (sample_world sample_booked) sample_booked.
Proof. apply sample_cached, sample_exact. right. right. by left. Qed.

Definition sample_saved : @World sample_redis :=
  snd (@Save sample_redis sample_booked (sample_world sample_fresh)).

Lemma sample_saves :
  fst (@Save sample_redis sample_booked (sample_world sample_fresh)) = Ret tt
  /\ exists v, fst (@Load sample_lib sample_redis sample_saved) = Ret v.
Proof. split; [|eexists]; vm_compute; reflexivity. Qed.

Lemma Save_Load_roundtrip_witness :
  exists w2, @Load sample_lib sample_redis sample_saved = (Ret sample_booked, w2).
Proof.
  assert (Hx : cacheValue_exact sample_booked) by (apply sample_exact; right; right; by left).
  assert (Ho : @owned sample_redis sample_redis_laws (sample_world sample_fresh)) by (by exists sample_state).
  destruct sample_saves as (Hs & v & Hl). apply run_ok in Hs, Hl. fold sample_saved in Hs.
  pose proof (@Save_Load_roundtrip sample_lib sample_redis sample_redis_laws
                sample_booked _ _ v _ Ho Hx Hs Hl) as (Hv & _).
  rewrite Hv in Hl. eexists. exact Hl.
Defined.
