(* ===== verification/Telemetry.v ===== *)
(** * Telemetry: [infra/telemetry/], [infra/redis/redis.go]

    Setting the OpenTelemetry providers up and shutting them down, and the spans around
    the Redis commands. The OpenTelemetry SDK is the class [TelEnv]: every call on it is
    recorded and answered from the history. *)

From Stdlib Require Import ZArith Lia.
From stdpp Require Import base tactics list option strings.
From S2P Require Import Prelude GoEffects GoTime GoText Domain Json World Samples.
Open Scope Z_scope.

(** ** [telemetry.go], [metrics.go] *)

Record Config := mkTelConfig { Endpoint : string; GrpcPort : Z; Insecure : bool }.
Record AppInfo := mkAppInfo { app_ServiceName : string; app_Version : string }.

Inductive ExporterOption := WithEndpoint (address : string) | WithInsecure.

(** [fmt.Sprintf("%s:%d", host, port)] *)
Definition address (host : string) (port : Z) : string := host +:+ ":" +:+ appendInt port 0.

Definition otelTraceOptions (cfg : Config) : list ExporterOption :=
  WithEndpoint (address (Endpoint cfg) (GrpcPort cfg)) :: (if Insecure cfg then [WithInsecure] else []).
Definition otelMetricOptions (cfg : Config) : list ExporterOption :=
  WithEndpoint (address (Endpoint cfg) (GrpcPort cfg)) :: (if Insecure cfg then [WithInsecure] else []).

Inductive Instrument := StartupHistogram | MqPublishCounter | MqPublishDurationHist.
Inductive Propagator := B3 | TraceContext | Baggage.
Inductive Provider := TracerProvider | MeterProvider.

Inductive TelCall :=
| TelResource (service : string)
| TelTraceExporter (opts : list ExporterOption)
| TelMetricExporter (opts : list ExporterOption)
| TelSetProvider (p : Provider)
| TelSetPropagator (l : list Propagator)
| TelInstrument (i : Instrument)
| TelShutdown (p : Provider).

(** The error of the last call of a history. *)
Class TelEnv := { tel_err : list TelCall -> option error }.

(** The calls made, and the providers that run: made and not shut down. *)
Record TelWorld := mkTel { tel_calls : list TelCall; tel_running : list Provider }.

Section Telemetry.
Context {T : TelEnv}.

Definition tel_record (c : TelCall) (w : TelWorld) : TelWorld :=
  mkTel (tel_calls w ++ [c]) (tel_running w).

(** A call that can fail, and one that cannot. *)
Definition tel_try (c : TelCall) : go TelWorld unit := fun w =>
  (match tel_err (tel_calls w ++ [c]) with Some e => Err e | None => Ret tt end, tel_record c w).
Definition tel_do (c : TelCall) : go TelWorld unit := modify (tel_record c).
Definition tel_start (p : Provider) : go TelWorld unit :=
  modify (fun w => mkTel (tel_calls w) (tel_running w ++ [p])).

Definition newTraceProvider (cfg : Config) : go TelWorld unit :=
  _ ← tel_try (TelTraceExporter (otelTraceOptions cfg)); tel_start TracerProvider.
Definition newMeterProvider (cfg : Config) : go TelWorld unit :=
  _ ← tel_try (TelMetricExporter (otelMetricOptions cfg)); tel_start MeterProvider.

Definition initMetrics : go TelWorld unit :=
  _ ← tel_try (TelInstrument StartupHistogram);
  _ ← tel_try (TelInstrument MqPublishCounter);
  tel_try (TelInstrument MqPublishDurationHist).

(** [traceProvider.Shutdown], [meterProvider.Shutdown]: the provider stops, error or not. *)
Definition tel_shutdown (p : Provider) : go TelWorld unit := fun w =>
  let '(r, w1) := tel_try (TelShutdown p) w in
  (r, mkTel (tel_calls w1) (List.filter (fun q => match p, q with
                                               | TracerProvider, TracerProvider
                                               | MeterProvider, MeterProvider => false
                                               | _, _ => true
                                               end) (tel_running w1))).

(** [if err := f; err != nil { shutdownErr = errors.Join(shutdownErr, err) }] *)
Definition join_err {W} (acc : option error) (m : go W unit) : go W (option error) :=
  err ← err_of m;
  mret (match err with Some e => errors_Join [acc; Some e] | None => acc end).

(** The function [Init] returns. *)
Definition shutdownTelemetry : go TelWorld unit :=
  shutdownErr ← join_err None (tel_shutdown TracerProvider);
  shutdownErr ← join_err shutdownErr (tel_shutdown MeterProvider);
  lift_opt shutdownErr.

Definition Init (cfg : Config) (appCfg : AppInfo) : go TelWorld (go TelWorld unit) :=
  _ ← tel_try (TelResource (app_ServiceName appCfg +:+ ":" +:+ app_Version appCfg));
  _ ← newTraceProvider cfg;
  _ ← newMeterProvider cfg;
  _ ← tel_do (TelSetProvider TracerProvider);
  _ ← tel_do (TelSetProvider MeterProvider);
  _ ← tel_do (TelSetPropagator [B3; TraceContext; Baggage]);
  _ ← initMetrics;
  mret shutdownTelemetry.

(** *** What [Init] does *)

(** The calls of a set-up in order. *)
Definition init_calls (cfg : Config) (appCfg : AppInfo) : list TelCall :=
  [TelResource (app_ServiceName appCfg +:+ ":" +:+ app_Version appCfg);
   TelTraceExporter (otelTraceOptions cfg); TelMetricExporter (otelMetricOptions cfg);
   TelSetProvider TracerProvider; TelSetProvider MeterProvider;
   TelSetPropagator [B3; TraceContext; Baggage];
   TelInstrument StartupHistogram; TelInstrument MqPublishCounter;
   TelInstrument MqPublishDurationHist].

Definition fallible (c : TelCall) : bool :=
  match c with TelSetProvider _ | TelSetPropagator _ => false | _ => true end.

(** The providers that the calls of a set-up start. *)
Definition started_by (c : TelCall) : option Provider :=
  match c with
  | TelTraceExporter _ => Some TracerProvider
  | TelMetricExporter _ => Some MeterProvider
  | _ => None
  end.

(** The first call of [todo] that fails after the history [h]: the calls before it, the
    call, its error. *)
Fixpoint init_failure (h before todo : list TelCall) : option (list TelCall * TelCall * error) :=
  match todo with
  | [] => None
  | c :: rest =>
      match (if fallible c then tel_err (h ++ before ++ [c]) else None) with
      | Some e => Some (before, c, e)
      | None => init_failure h (before ++ [c]) rest
      end
  end.

(** What [Init] has done when [c] is its next call. *)
Definition init_world (h before : list TelCall) : TelWorld :=
  mkTel (h ++ before) (omap started_by before).

Lemma tel_try_Err h before c e :
  tel_err (h ++ before ++ [c]) = Some e ->
  tel_try c (init_world h before) = (Err e, mkTel (h ++ before ++ [c]) (omap started_by before)).
Proof. intros He. unfold tel_try, tel_record. cbn. rewrite <- app_assoc, He. done. Qed.

Lemma tel_try_None h before c :
  started_by c = None -> tel_err (h ++ before ++ [c]) = None ->
  tel_try c (init_world h before) = (Ret tt, init_world h (before ++ [c])).
Proof.
  intros Hs He. unfold tel_try, tel_record, init_world. cbn. rewrite <- app_assoc, He, omap_app.
  cbn. by rewrite Hs, app_nil_r.
Qed.

Lemma tel_do_init h before c :
  started_by c = None -> tel_do c (init_world h before) = (Ret tt, init_world h (before ++ [c])).
Proof.
  intros Hs. unfold tel_do, modify, tel_record, init_world. cbn.
  by rewrite <- app_assoc, omap_app; cbn; rewrite Hs, app_nil_r.
Qed.

Lemma tel_provider_init h before c p :
  started_by c = Some p -> tel_err (h ++ before ++ [c]) = None ->
  (_ ← tel_try c; tel_start p) (init_world h before) = (Ret tt, init_world h (before ++ [c])).
Proof.
  intros Hs He. unfold tel_try, tel_start, modify, tel_record, init_world, mbind, go_bind. cbn.
  rewrite <- app_assoc, He, omap_app. cbn. by rewrite Hs.
Qed.

Lemma shutdownTelemetry_spec h :
  let w1 := mkTel h [TracerProvider; MeterProvider] in
  let h1 := h ++ [TelShutdown TracerProvider] in
  let h2 := h1 ++ [TelShutdown MeterProvider] in
  shutdownTelemetry w1 =
    (match tel_err h1, tel_err h2 with
     | None, None => Ret tt
     | Some e, None | None, Some e => Err (ErrJoin [e])
     | Some e1, Some e2 => Err (ErrJoin [ErrJoin [e1]; e2])
     end, mkTel h2 []).
Proof.
  cbv zeta. unfold shutdownTelemetry, join_err, err_of, attempt, tel_shutdown, tel_try, tel_record,
    mbind, go_bind, mret, go_ret. cbn.
  destruct (tel_err (h ++ [_])) as [e1|]; cbn; destruct (tel_err _) as [e2|]; done.
Qed.

Lemma Init_spec cfg appCfg h :
  match init_failure h [] (init_calls cfg appCfg) with
  | Some (before, c, e) =>
      Init cfg appCfg (mkTel h [])
      = (Err e, mkTel (h ++ before ++ [c]) (omap started_by before))
  | None =>
      let w1 := mkTel (h ++ init_calls cfg appCfg) [TracerProvider; MeterProvider] in
      let h1 := tel_calls w1 ++ [TelShutdown TracerProvider] in
      let h2 := h1 ++ [TelShutdown MeterProvider] in
      Init cfg appCfg (mkTel h []) = (Ret shutdownTelemetry, w1)
      /\ shutdownTelemetry w1 =
           (match tel_err h1, tel_err h2 with
            | None, None => Ret tt
            | Some e, None | None, Some e => Err (ErrJoin [e])
            | Some e1, Some e2 => Err (ErrJoin [ErrJoin [e1]; e2])
            end, mkTel h2 [])
  end.
Proof.
  replace (mkTel h []) with (init_world h []) by (unfold init_world; by rewrite app_nil_r).
  unfold init_calls. cbn [init_failure fallible]. unfold Init, newTraceProvider, newMeterProvider, initMetrics.
  repeat lazymatch goal with
  | |- context [match tel_err (h ++ ?b ++ [?c]) with _ => _ end] =>
      let He := fresh "He" in
      destruct (tel_err (h ++ b ++ [c])) as [e|] eqn:He;
      [ repeat first [apply bind_Err | apply (tel_try_Err _ _ _ _ He)]
      | first
          [ rewrite (bind_Ret _ _ _ _ _ (tel_try_None h b c eq_refl He))
          | rewrite (bind_Ret _ _ _ _ _ (tel_provider_init h b c _ eq_refl He))
          | rewrite bind_assoc, (bind_Ret _ _ _ _ _ (tel_try_None h b c eq_refl He))
          | rewrite (tel_try_None h b c eq_refl He) ];
        repeat match goal with
        | |- context [mbind ?f (tel_do ?c) (init_world h ?b)] =>
            rewrite (bind_Ret (tel_do c) f _ _ _ (tel_do_init h b c eq_refl))
        end ]
  end.
  split; [reflexivity|]. apply shutdownTelemetry_spec.
Qed.

(** C36: setting telemetry up makes its calls in one order and stops at the first that
    fails, with that call's error; the providers started before it go on running and no
    shutdown function comes back, so nobody stops them. When all succeed both providers
    run, and the shutdown it returns stops both, each once and in order, whatever the first
    one reports, and reports every error. *)
Theorem Init_correct cfg appCfg h :
  match init_failure h [] (init_calls cfg appCfg) with
  | Some (before, c, e) =>
      Init cfg appCfg (mkTel h [])
      = (Err e, mkTel (h ++ before ++ [c]) (omap started_by before))
  | None =>
      let w1 := mkTel (h ++ init_calls cfg appCfg) [TracerProvider; MeterProvider] in
      let h1 := tel_calls w1 ++ [TelShutdown TracerProvider] in
      let h2 := h1 ++ [TelShutdown MeterProvider] in
      Init cfg appCfg (mkTel h []) = (Ret shutdownTelemetry, w1)
      /\ shutdownTelemetry w1 =
           (match tel_err h1, tel_err h2 with
            | None, None => Ret tt
            | Some e, None | None, Some e => Err (ErrJoin [e])
            | Some e1, Some e2 => Err (ErrJoin [ErrJoin [e1]; e2])
            end, mkTel h2 [])
  end.
Proof. apply Init_spec. Qed.
End Telemetry.

(** ** [infra/redis/redis.go]: the commands in their spans *)

(** A span: its attributes, the error its status carries, whether it was ended. *)
Record Span := mkSpan {
  span_name : string;
  span_attrs : list (string * string);
  span_error : option error;
  span_ended : bool
}.

(** [span.RecordError] and [span.SetStatus(codes.Error, ...)] *)
Definition recordSpanError (err : option error) (s : Span) : Span :=
  match err with
  | None => s
  | Some e => mkSpan (span_name s) (span_attrs s) (Some e) (span_ended s)
  end.

Definition span_End (s : Span) : Span := mkSpan (span_name s) (span_attrs s) (span_error s) true.

Section RedisSpans.
Context {R : RedisServer}.
(** The length of the text of a value *)
Variable value_size : json -> Z.

(** The client: the server behind it, the spans made; [Close] is [rd_closed]. *)
Record Redis := mkRedis { rd_db : redis_db; rd_spans : list Span; rd_closed : bool }.

(** A command in a span that is ended by the deferred [span.End]. *)
Definition traced {A} (name : string) (attrs : list (string * string))
    (cmd : redis_db -> (error + A) * redis_db) : go Redis A := fun r =>
  let span := mkSpan name (("db.system", "redis") :: attrs) None false in
  let '(res, db) := cmd (rd_db r) in
  let span := recordSpanError (match res with inl e => Some e | inr _ => None end) span in
  (match res with inl e => Err e | inr a => Ret a end,
   mkRedis db (rd_spans r ++ [span_End span]) (rd_closed r)).

Definition Redis_Ping : go Redis unit :=
  traced "redis PING" [("db.operation", "PING")] (fun db => of_err (redis_PING db)).
Definition Redis_set (key : string) (value : json) : go Redis unit :=
  traced "redis SET" [("db.operation", "SET"); ("db.redis.key", key);
                      ("db.redis.value_size", appendInt (value_size value) 0)]
    (fun db => of_err (redis_SET key value db)).
Definition Redis_get (key : string) : go Redis json :=
  traced "redis GET" [("db.operation", "GET"); ("db.redis.key", key)] (redis_GET key).
Definition Redis_del (key : string) : go Redis unit :=
  traced "redis DEL" [("db.operation", "DEL"); ("db.redis.key", key)]
    (fun db => of_err (redis_DEL key db)).

(** [close_err] is what the library reports. *)
Definition Redis_Close (close_err : option error) : go Redis unit := fun r =>
  (match close_err with Some e => Err e | None => Ret tt end, mkRedis (rd_db r) (rd_spans r) true).

Definition error_of {A} (r : outcome A) : option error := match r with Err e => Some e | _ => None end.

(** [m] is [cmd] to its caller and leaves one ended span of that name behind, whose status
    is the command's error. *)
Definition transparent {A} (name : string) (cmd : go World A) (m : go Redis A) : Prop :=
  forall r w, w_cache w = Some (Some (rd_db r)) ->
    fst (m r) = fst (cmd w)
    /\ snd (cmd w) = set_cache (Some (Some (rd_db (snd (m r))))) w
    /\ exists s, rd_spans (snd (m r)) = rd_spans r ++ [s] /\ span_name s = name
         /\ span_ended s = true /\ span_error s = error_of (fst (m r))
         /\ rd_closed (snd (m r)) = rd_closed r.

Lemma traced_transparent {A} name attrs (cmd : redis_db -> (error + A) * redis_db) :
  transparent name (redis_call cmd) (traced name attrs cmd).
Proof.
  intros r w Hw. unfold traced, redis_call. rewrite Hw. destruct (cmd (rd_db r)) as [[e|a] db'].
  all: split; [done|]; split; [done|]; eexists; repeat split.
Qed.

(** The traced Redis commands are the commands the cache is modelled with: the same
    result, the same state of the server; each leaves exactly one span, ended on success and
    on failure alike and marked with the error if there was one. *)
Theorem redis_commands_transparent key value :
  transparent "redis SET" (Cache_Set key value) (Redis_set key value)
  /\ transparent "redis GET" (Cache_Get key) (Redis_get key)
  /\ transparent "redis DEL" (Cache_Del key) (Redis_del key)
  /\ transparent "redis PING" (redis_call (fun db => of_err (redis_PING db))) Redis_Ping.
Proof. split; [|split; [|split]]; apply traced_transparent. Qed.
End RedisSpans.
