(* ===== verification/Shared.v ===== *)
(** * Journeys that share one Redis server

    The pool of [main] runs several journeys over one server. A journey's access to it is
    one of the operations below, each at most one Redis command; between two of them any
    other journey may run its own. *)

From Stdlib Require Import ZArith Lia.
From stdpp Require Import base tactics list option strings gmap.
From S2P Require Import Prelude GoEffects GoTime GoText Domain Json World Samples.
Open Scope Z_scope.

(** ** The operations *)

(** Every Redis command of the program is sent by one of these; [SyncStateCache] is a load
    and a save. *)
Inductive CacheOp :=
| OpLoad
| OpSave (v : GuestJourneyCacheValue)
| OpLog
| OpDelete
| OpPing.

Section Shared.
Context {G : GoLib} {R : RedisServer} {E : Env}.

Definition cache_op (op : CacheOp) : go World (option GuestJourneyCacheValue) :=
  match op with
  | OpLoad => v ← Load; mret (Some v)
  | OpSave v => _ ← Save v; mret None
  | OpLog => _ ← LogStateCache; mret None
  | OpDelete => _ ← DeleteStateCache; mret None
  | OpPing => _ ← redis_call (fun db => of_err (redis_PING db)); mret None
  end.

(** The server and the states of the journeys. *)
Record Shared := mkShared { sh_db : redis_db; sh_states : list State }.

(** A journey's world around the server. *)
Definition world_of (s : State) (db : redis_db) : World :=
  mkWorld (Some s) (Some (Some db)) [] 0 0 0.

(** Journey [i] runs an operation: its outcome, and what it leaves. *)
Definition run_op (i : nat) (op : CacheOp) (sh : Shared)
  : option (outcome (option GuestJourneyCacheValue) * Shared) :=
  match sh_states sh !! i with
  | None => None
  | Some s =>
      let '(r, w) := cache_op op (world_of s (sh_db sh)) in
      match w_state w, w_cache w with
      | Some s', Some (Some db') => Some (r, mkShared db' (<[i := s']> (sh_states sh)))
      | _, _ => None
      end
  end.

Definition shared_rel (sh : Shared) (l : nat * CacheOp) (sh' : Shared) : Prop :=
  exists r, run_op (fst l) (snd l) sh = Some (r, sh').
End Shared.

(** ** What an operation touches *)

Section Isolation.
Context {G : GoLib} {R : RedisServer} {RL : RedisLaws R} {E : Env}.
(** Nobody but these journeys uses the server. *)
Hypothesis owns_all : forall k, redis_own k.

(** From [w] an operation of a journey in state [s] leaves every other key alone, and of its
    state at most fills in the key. *)
Definition own_only (s : State) (db : redis_db) (w' : World) : Prop :=
  exists s' db', w_state w' = Some s' /\ (s' = s \/ s' = set_RedisKey (cache_key s) s)
    /\ w_cache w' = Some (Some db')
    /\ forall k, k <> cache_key s -> redis_view db' !! k = redis_view db !! k.

Lemma own_only_refl s db w :
  w_state w = Some s -> w_cache w = Some (Some db) -> own_only s db w.
Proof. intros Hs Hd. exists s, db. split; [done|]. split; [by left|]. done. Qed.

(** A command that leaves the other keys alone, of a journey whose key may be filled in. *)
Lemma redis_call_own {A} (cmd : redis_db -> (error + A) * redis_db) s s' db w :
  w_state w = Some s' -> (s' = s \/ s' = set_RedisKey (cache_key s) s) ->
  w_cache w = Some (Some db) ->
  (forall k, k <> cache_key s -> redis_view (snd (cmd db)) !! k = redis_view db !! k) ->
  own_only s db (snd (redis_call cmd w)).
Proof.
  intros Hs Hs' Hd Hk. unfold redis_call. rewrite Hd. destruct (cmd db) as [r db'] eqn:Ec.
  cbn [snd] in *. exists s', db'. done.
Qed.

Lemma GET_view k db : redis_view (snd (redis_GET k db)) = redis_view db.
Proof.
  destruct (redis_GET k db) as [[e|v] db'] eqn:Eg; cbn;
    [by eapply redis_GET_err|by apply redis_GET_ok in Eg as [_ ->]].
Qed.

Lemma SET_view k v db k' :
  k' <> k -> redis_view (snd (of_err (redis_SET k v db))) !! k' = redis_view db !! k'.
Proof.
  intros Hk. destruct (redis_SET k v db) as [[e|] db'] eqn:Es; cbn.
  - apply redis_SET_err in Es as [-> | ->]; [done| |done]. by rewrite lookup_insert_ne.
  - apply redis_SET_ok in Es as ->; [|done]. by rewrite lookup_insert_ne.
Qed.

Lemma DEL_view k db k' :
  k' <> k -> redis_view (snd (of_err (redis_DEL k db))) !! k' = redis_view db !! k'.
Proof.
  intros Hk. destruct (redis_DEL k db) as [[e|] db'] eqn:Es; cbn.
  - apply redis_DEL_err in Es as [-> | ->]; [done| |done]. by rewrite lookup_delete_ne.
  - apply redis_DEL_ok in Es as ->; [|done]. by rewrite lookup_delete_ne.
Qed.

(** [EnsureKey] gives the journey's key, or the journey has none. *)
Lemma EnsureKey_any w s :
  w_state w = Some s ->
  EnsureKey w = (Ret (cache_key s), set_state (Some (set_RedisKey (cache_key s) s)) w)
  \/ exists e, EnsureKey w = (Err e, w).
Proof.
  intros Hs. unfold EnsureKey, state_is_nil, gets, deref_state, guard_err, update_state, cache_key.
  unfold mbind, go_bind, mret, go_ret, throw.
  destruct w as [st c h ck r p]; cbn in *. subst st. cbn.
  destruct (String.eqb (st_RedisKey s) "") eqn:E1; cbn.
  - destruct (String.eqb (st_GuestId s) ""); cbn; [right; by eexists|by left].
  - left. unfold set_state. cbn. by destruct s.
Qed.

(** A value returned after an operation changes nothing. *)
Lemma bind_ret_snd {A B} (m : go World A) (f : A -> B) w : snd ((a ← m; mret (f a)) w) = snd (m w).
Proof. unfold mbind, go_bind, mret, go_ret. by destruct (m w) as [[a|e|p|] w']. Qed.

(** The shape of [Load] and [Save]: the client, the key, a command on it. *)
Lemma keyed_own {A} (f : string -> go World A) s db :
  own_only s db (snd (f (cache_key s) (world_of (set_RedisKey (cache_key s) s) db))) ->
  own_only s db (snd ((_ ← check_redis; key ← EnsureKey; f key) (world_of s db))).
Proof.
  intros Hf. unfold check_redis, redis_call at 1, mbind at 1, go_bind at 1. cbn.
  destruct (EnsureKey_any (world_of s db) s eq_refl) as [He|(e & He)].
  - rewrite (bind_Ret _ _ _ _ _ He). exact Hf.
  - rewrite (bind_Err _ _ _ _ _ He). by apply own_only_refl.
Qed.

Lemma Load_own s db : own_only s db (snd (Load (world_of s db))).
Proof.
  apply (keyed_own (fun key => payload ← Cache_Get key;
    match decode_CacheValue zeroCacheValue payload with
    | Some value => mret value | None => throw err_json end)).
  unfold mbind, go_bind.
  pose proof (redis_call_own (redis_GET (cache_key s)) s (set_RedisKey (cache_key s) s) db
    (world_of (set_RedisKey (cache_key s) s) db) eq_refl (or_intror eq_refl) eq_refl
    (fun k _ => f_equal (lookup k) (GET_view _ _))) as H.
  unfold Cache_Get. destruct (redis_call _ _) as [[j|e|p|] w']; cbn [snd] in *; try done.
  by destruct (decode_CacheValue _ _).
Qed.

Lemma Save_own v s db : own_only s db (snd (Save v (world_of s db))).
Proof.
  apply (keyed_own (fun key => match encode_CacheValue v with
    | None => throw (LibError "json: error calling MarshalJSON")
    | Some payload => Cache_Set key payload end)).
  destruct (encode_CacheValue v) as [j|].
  - apply (redis_call_own _ s (set_RedisKey (cache_key s) s)); try done; [by right|].
    intros k. apply SET_view.
  - exists (set_RedisKey (cache_key s) s), db. split; [done|]. split; [by right|]. done.
Qed.

(** The shape of [LogStateCache] and [DeleteStateCache]. *)
Lemma guarded_own {A} (f : State -> go World A) s db :
  (st_RedisKey s <> "" -> own_only s db (snd (f s (world_of s db)))) ->
  own_only s db (snd ((s ← service_guards;
    _ ← guard_err (String.eqb (st_RedisKey s) "") (Errorf "invalid state, redisKey is empty" []);
    f s) (world_of s db))).
Proof.
  intros Hf. unfold service_guards, state_is_nil, cache_is_nil, gets, guard_err, deref_state, throw,
    mbind, go_bind, mret, go_ret. cbn.
  destruct (String.eqb (st_RedisKey s) "") eqn:Ek; cbn; [by apply own_only_refl|].
  apply Hf. by apply String.eqb_neq.
Qed.

Lemma cache_op_own op s db : own_only s db (snd (cache_op op (world_of s db))).
Proof.
  destruct op as [|v| | |]; cbn [cache_op]; rewrite bind_ret_snd.
  - apply Load_own.
  - apply Save_own.
  - apply (guarded_own (fun s => _ ← Cache_Get (st_RedisKey s); mret tt)). intros Hk.
    rewrite bind_ret_snd. apply (redis_call_own _ s s); try done; [by left|].
    intros k _. by rewrite GET_view.
  - apply (guarded_own (fun s => Cache_Del (st_RedisKey s))). intros Hk.
    apply (redis_call_own _ s s); try done; [by left|].
    intros k Hne. apply DEL_view. by rewrite <- cache_key_set.
  - apply (redis_call_own _ s s); try done; [by left|]. intros k _.
    destruct (redis_PING db) as [[e|] db'] eqn:Ep; cbn; by rewrite (redis_PING_view _ _ _ Ep).
Qed.

(** ** Isolation *)

(** The journeys use different keys: a key is set from the guest's document, or from the
    guest's identifier where none was set, and an operation only writes it down. *)
Definition distinct_guests (sh : Shared) : Prop :=
  forall i j s t, sh_states sh !! i = Some s -> sh_states sh !! j = Some t ->
    cache_key s = cache_key t -> i = j.

(** What an operation of [i] leaves. *)
Lemma run_op_own i op sh r sh' :
  run_op i op sh = Some (r, sh') ->
  exists s s', sh_states sh !! i = Some s /\ sh_states sh' = <[i := s']> (sh_states sh)
    /\ (s' = s \/ s' = set_RedisKey (cache_key s) s)
    /\ forall k, k <> cache_key s -> redis_view (sh_db sh') !! k = redis_view (sh_db sh) !! k.
Proof.
  unfold run_op. destruct (sh_states sh !! i) as [s|] eqn:Es; [|done].
  destruct (cache_op_own op s (sh_db sh)) as (s' & db' & Hs' & Hor & Hdb & Hk).
  destruct (cache_op op _) as [r0 w]. cbn [snd] in *. rewrite Hs', Hdb. intros [= <- <-].
  exists s, s'. done.
Qed.

Lemma run_op_distinct i op sh r sh' :
  distinct_guests sh -> run_op i op sh = Some (r, sh') -> distinct_guests sh'.
Proof.
  intros Hd Hr. destruct (run_op_own i op sh r sh' Hr) as (s & s' & Hs & Hst & Hor & _).
  assert (Hkey : cache_key s' = cache_key s) by (destruct Hor as [-> | ->]; [done|apply cache_key_idem]).
  assert (Hback : forall j t, sh_states sh' !! j = Some t ->
    exists t0, sh_states sh !! j = Some t0 /\ cache_key t0 = cache_key t).
  { intros j t Ht. rewrite Hst in Ht. apply list_lookup_insert_Some in Ht as [(<- & <- & _)|(_ & Ht)];
      [by exists s|by exists t]. }
  intros j k t u Ht Hu He. destruct (Hback j t Ht) as (t0 & Ht0 & E1).
  destruct (Hback k u Hu) as (u0 & Hu0 & E2). eapply Hd; [done..|]. congruence.
Qed.

(** The other journeys leave a journey's state and entry alone. *)
Lemma others_leave_alone i s sh ls sh' :
  distinct_guests sh -> sh_states sh !! i = Some s ->
  run shared_rel sh ls sh' -> Forall (fun l => fst l <> i) ls ->
  sh_states sh' !! i = Some s
  /\ redis_view (sh_db sh') !! cache_key s = redis_view (sh_db sh) !! cache_key s.
Proof.
  intros Hd Hs Hrun. induction Hrun as [sh|sh [j op] sh1 ls sh' Hstep _ IH]; intros Hall; [done|].
  apply Forall_cons in Hall as [Hij Hall]. cbn in Hij. destruct Hstep as (r & Hr). cbn in Hr.
  pose proof (run_op_distinct _ _ _ _ _ Hd Hr) as Hd1.
  destruct (run_op_own _ _ _ _ _ Hr) as (t & t' & Ht & Hst & _ & Hk).
  assert (Hs1 : sh_states sh1 !! i = Some s) by (rewrite Hst; by rewrite list_lookup_insert_ne).
  destruct (IH Hd1 Hs1 Hall) as [H1 H2]. split; [done|]. rewrite H2. apply Hk.
  intros He. apply Hij. symmetry. by apply (Hd i j s t).
Qed.

(** The value an operation of [i] has found or left under its key. *)
Definition entry (i : nat) (sh : Shared) (v : GuestJourneyCacheValue) : Prop :=
  exists s, sh_states sh !! i = Some s /\ cached (world_of s (sh_db sh)) v.

Lemma run_op_Ret i op sh a sh' :
  run_op i op sh = Some (Ret a, sh') ->
  exists s s' w, sh_states sh !! i = Some s /\ sh_states sh' !! i = Some s'
    /\ cache_op op (world_of s (sh_db sh)) = (Ret a, w)
    /\ w_state w = Some s' /\ w_cache w = Some (Some (sh_db sh')).
Proof.
  unfold run_op. destruct (sh_states sh !! i) as [s|] eqn:Es; [|done].
  destruct (cache_op op (world_of s (sh_db sh))) as [r w] eqn:Ec.
  destruct (w_state w) as [s'|] eqn:Es'; [|done]. destruct (w_cache w) as [[db|]|] eqn:Ed; [|done..].
  intros [= -> <-]. exists s, s', w. split; [done|]. split; [|done].
  cbn. rewrite list_lookup_insert_eq; [done|]. by eapply lookup_lt_Some.
Qed.

Lemma Save_entry i v sh sh' :
  cacheValue_exact v -> run_op i (OpSave v) sh = Some (Ret None, sh') -> entry i sh' v.
Proof.
  intros Hex Hr. destruct (run_op_Ret _ _ _ _ _ Hr) as (s & s' & w & _ & Hs' & Hc & Hw & Hd).
  cbn in Hc. go_inv Hc. injection Hc as <-. destruct v0.
  destruct (Save_Ret _ _ _ Hrun) as (_ & Hcached & _). destruct (Hcached ltac:(by eexists) Hex) as (t & db & j & Ht & Hdb & Hrest).
  exists s'. split; [done|]. exists s', (sh_db sh'), j. split; [done|]. split; [done|]. by simplify_eq.
Qed.

Lemma entry_others i v sh ls sh' :
  distinct_guests sh -> entry i sh v -> run shared_rel sh ls sh' -> Forall (fun l => fst l <> i) ls ->
  entry i sh' v.
Proof.
  intros Hd (s & Hs & (t & db & j & Ht & Hdb & Hk & Hv & Hdec)) Hrun Hall.
  injection Ht as <-. injection Hdb as <-.
  destruct (others_leave_alone i s sh ls sh' Hd Hs Hrun Hall) as [Hs' Hview].
  rewrite (cache_key_set s (proj1 Hk)) in Hview. exists s. split; [done|]. exists s, (sh_db sh'), j.
  do 3 (split; [done|]). split; [|done]. cbn. by rewrite Hview.
Qed.

Lemma Load_entry i v v' sh sh' :
  entry i sh v -> run_op i OpLoad sh = Some (Ret (Some v'), sh') -> v' = v.
Proof.
  intros (s & Hs & Hc) Hr. destruct (run_op_Ret _ _ _ _ _ Hr) as (s0 & s' & w & Hs0 & _ & Hl & _).
  rewrite Hs in Hs0. injection Hs0 as <-. cbn in Hl. go_inv Hl. apply ret_inv in Hl as [[= <-] _].
  by destruct (Load_cached _ _ _ _ Hc Hrun) as [-> _].
Qed.

Lemma Delete_gone i sh sh' :
  run_op i OpDelete sh = Some (Ret None, sh') ->
  exists s, sh_states sh' !! i = Some s /\ redis_view (sh_db sh') !! cache_key s = None.
Proof.
  intros Hr. destruct (run_op_Ret _ _ _ _ _ Hr) as (s & s' & w & _ & Hs' & Hc & Hw & Hd).
  exists s'. split; [done|]. cbn in Hc. go_inv Hc. injection Hc as <-. destruct v.
  unfold DeleteStateCache, service_guards, state_is_nil, cache_is_nil, gets, guard_err, deref_state,
    throw, mbind, go_bind, mret, go_ret in Hrun. cbn in Hrun.
  destruct (String.eqb (st_RedisKey s) "") eqn:Ek; [done|]. cbn in Hrun. apply String.eqb_neq in Ek.
  destruct (redis_DEL (st_RedisKey s) (sh_db sh)) as [[e|] d] eqn:Edel; cbn in Hrun; [done|].
  injection Hrun as <-. cbn in Hw, Hd. injection Hw as <-. injection Hd as <-.
  rewrite (cache_key_set s Ek). apply redis_DEL_ok in Edel as ->; [|done]. apply lookup_delete_eq.
Qed.

(** C17: journeys of different guests do not meet in the cache: a journey loads what it last
    saved, whatever the others load, save, log or delete in between and whatever fails; an
    entry it has deleted stays deleted; and the entries of the others are as they were. *)
Theorem journeys_isolated i sh0 sh1 ls sh2 :
  distinct_guests sh0 -> run shared_rel sh1 ls sh2 -> Forall (fun l => fst l <> i) ls ->
  (forall v v' sh3, cacheValue_exact v -> run_op i (OpSave v) sh0 = Some (Ret None, sh1) ->
     run_op i OpLoad sh2 = Some (Ret (Some v'), sh3) -> v' = v)
  /\ (run_op i OpDelete sh0 = Some (Ret None, sh1) ->
       exists s, sh_states sh2 !! i = Some s /\ redis_view (sh_db sh2) !! cache_key s = None)
  /\ (forall op r j s, run_op i op sh0 = Some (r, sh1) -> sh_states sh0 !! j = Some s -> j <> i ->
       Forall (fun l => fst l <> j) ls ->
       redis_view (sh_db sh2) !! cache_key s = redis_view (sh_db sh0) !! cache_key s).
Proof.
  intros Hd Hrun Hall. split; [|split].
  - intros v v' sh3 Hex Hsave Hload. eapply Load_entry; [|exact Hload].
    eapply entry_others; [by eapply run_op_distinct| |exact Hrun|exact Hall].
    by eapply Save_entry.
  - intros Hdel. destruct (Delete_gone i sh0 sh1 Hdel) as (s & Hs & Hnone). exists s.
    destruct (others_leave_alone i s sh1 ls sh2) as [H1 H2]; [by eapply run_op_distinct|done..|].
    split; [done|]. by rewrite H2.
  - intros op r j s Hop Hs Hne Hj.
    apply (others_leave_alone j s sh0 ((i, op) :: ls) sh2 Hd Hs).
    + eapply run_cons; [by exists r|exact Hrun].
    + constructor; [cbn; congruence|done].
Qed.
End Isolation.

(** ** Two guests *)

Section Witnesses.
#[local] Existing Instances sample_lib sample_redis sample_redis_laws.
#[local] Instance shared_env : Env := sample_env [] sample_now.

(** A registered guest, with the key [createGuest] has set from the document. *)
Definition guest_state (id key : string) : State := mkState None id None key "" "".
Definition two_guests : Shared := mkShared (∅ : gmap string json) [guest_state "g-1" "guest.pending.d-1"; guest_state "g-2" "guest.pending.d-2"].

Lemma two_guests_distinct : distinct_guests two_guests.
Proof. intros [|[|i]] [|[|j]] s t; cbn; try done; by intros [= <-] [= <-]. Qed.

(** The second guest saves, loads and deletes between the first one's save and load. *)
Definition between : list (nat * CacheOp) :=
  [(1%nat, OpSave sample_chosen); (1%nat, OpLoad); (1%nat, OpDelete)].

Definition after_op (i : nat) (op : CacheOp) (sh : Shared) : Shared :=
  match run_op i op sh with Some (_, sh') => sh' | None => sh end.

(** How an operation of the runs below ends, decided without spelling the states out. *)
Definition ends_with (p : outcome (option GuestJourneyCacheValue) -> bool) (i : nat) (op : CacheOp)
    (sh : Shared) : bool :=
  match run_op i op sh with Some (r, _) => p r | None => false end.

Lemma ends_with_run p i op sh :
  ends_with p i op sh = true -> exists r, run_op i op sh = Some (r, after_op i op sh) /\ p r = true.
Proof. unfold ends_with, after_op. destruct (run_op i op sh) as [[r sh']|]; [eauto|done]. Qed.

Definition saved_ok (r : outcome (option GuestJourneyCacheValue)) : bool :=
  match r with Ret None => true | _ => false end.
Definition loaded_ok (r : outcome (option GuestJourneyCacheValue)) : bool :=
  match r with Ret (Some _) => true | _ => false end.

Definition sh_saved : Shared := after_op 0 (OpSave sample_booked) two_guests.
Definition sh_between : Shared := after_op 1 OpDelete (after_op 1 OpLoad (after_op 1 (OpSave sample_chosen) sh_saved)).

Lemma between_run : run shared_rel sh_saved between sh_between.
Proof.
  assert (Hstep : forall i op sh, ends_with (fun _ => true) i op sh = true -> shared_rel sh (i, op) (after_op i op sh))
    by (intros i op sh H; apply ends_with_run in H as (r & H & _); by exists r).
  unfold between, sh_between. do 3 (eapply run_cons; [apply Hstep; vm_compute; reflexivity|]). constructor.
Qed.

Lemma between_ends :
  run_op 0 (OpSave sample_booked) two_guests = Some (Ret None, sh_saved)
  /\ exists v, run_op 0 OpLoad sh_between = Some (Ret (Some v), after_op 0 OpLoad sh_between).
Proof.
  split.
  - destruct (ends_with_run saved_ok 0 (OpSave sample_booked) two_guests) as (r & H & Hr);
      [vm_compute; reflexivity|].
    destruct r as [[v|]|e|p|]; try discriminate Hr. exact H.
  - destruct (ends_with_run loaded_ok 0 OpLoad sh_between) as (r & H & Hr); [vm_compute; reflexivity|].
    destruct r as [[v|]|e|p|]; try discriminate Hr. exists v. exact H.
Qed.

Lemma journeys_isolated_witness :
  exists sh3, run_op 0 OpLoad sh_between = Some (Ret (Some sample_booked), sh3).
Proof.
  destruct between_ends as (Hsave & v & Hload). exists (after_op 0 OpLoad sh_between).
  assert (Hex : cacheValue_exact sample_booked) by (apply sample_exact; right; right; by left).
  assert (Hall : Forall (fun l : nat * CacheOp => fst l <> 0%nat) between) by (repeat constructor; done).
  rewrite <- (proj1 (journeys_isolated (RL := sample_redis_laws) (fun _ => Logic.I) 0 two_guests sh_saved between sh_between two_guests_distinct
    between_run Hall) sample_booked v _ Hex Hsave Hload) at 1. exact Hload.
Defined.
End Witnesses.
