(* ===== verification/SelectPeriod.v ===== *)
(** * Choosing a stay: [steps/booking_step/select_period.go]

    The pure search ([pickNearestSuitablePeriod], the ordering of candidates,
    [uniqueStayCandidates]) and the step that queries the cottage manager for every
    cottage and search window. *)

From Stdlib Require Import ZArith Lia.
From stdpp Require Import base tactics list option strings gmap.
From S2P Require Import Prelude GoEffects GoTime GoText Domain Json World Samples.
Open Scope Z_scope.

Definition numberOfNights : list Z := [3; 5; 7; 10; 14].
Definition searchWindows : list Z := [3; 5; 7; 10; 14; 21; 30].
Definition maxPeriodAttempts : nat := 5.
Definition minSearchLeadDays : Z := 5.

Record stayCandidate := mkCandidate {
  cottageName : string;
  period : Period;
  distance : Z;
  nights : Z
}.

Definition startOfUTCDay (t : Time) : Time :=
  Date (Year (UTC t)) (Month (UTC t)) (Day (UTC t)) 0 0 0 0 0.

Definition searchStart (now : Time) : Time := AddDate (startOfUTCDay now) 0 0 minSearchLeadDays.

(** One iteration of the loop of [pickNearestSuitablePeriod]; the accumulator is the
    selected period with its distance. *)
Definition pick_step (now : Time) (nights : Z) (selected : option (Period * Z)) (p : Period)
  : option (Period * Z) :=
  let candidateStart := startOfUTCDay (Start p) in
  let candidateStart := if Before candidateStart (searchStart now)
                        then searchStart now else candidateStart in
  let candidateEnd := AddDate candidateStart 0 0 nights in
  let periodEnd := startOfUTCDay (End_ p) in
  if After candidateEnd periodEnd then selected
  else
    let d := Sub candidateStart (searchStart now) in
    match selected with
    | None => Some (mkPeriod candidateStart candidateEnd, d)
    | Some (_, selectedDistance) =>
        if d <? selectedDistance then Some (mkPeriod candidateStart candidateEnd, d) else selected
    end.

Definition pickNearestSuitablePeriod (now : Time) (availablePeriods : list Period) (nights : Z)
  : option Period :=
  fst <$> fold_left (pick_step now nights) availablePeriods None.

(** The comparison given to [sort.SliceStable]. *)
Definition candidate_less (a b : stayCandidate) : bool :=
  if negb (distance a =? distance b) then distance a <? distance b
  else if negb (nights a =? nights b) then nights a <? nights b
  else if negb (bool_decide (Start (period a) = Start (period b)))
       then Before (Start (period a)) (Start (period b))
  else String.ltb (cottageName a) (cottageName b).

Definition candidate_key (c : stayCandidate) : string :=
  cottageName c +:+ "|" +:+ FormatRFC3339 (UTC (Start (period c)))
                +:+ "|" +:+ FormatRFC3339 (UTC (End_ (period c))).

Fixpoint unique_from (seen : gset string) (candidates : list stayCandidate)
  : list stayCandidate :=
  match candidates with
  | [] => []
  | c :: rest =>
      if bool_decide (candidate_key c ∈ seen) then unique_from seen rest
      else c :: unique_from ({[candidate_key c]} ∪ seen) rest
  end.

Definition uniqueStayCandidates (candidates : list stayCandidate) : list stayCandidate :=
  unique_from ∅ candidates.

(** The first of [nightOptions] for which some period is long enough. *)
Fixpoint first_fitting (now : Time) (availablePeriods : list Period) (cottage : string)
    (nightOptions : list Z) : option stayCandidate :=
  match nightOptions with
  | [] => None
  | n :: rest =>
      match pickNearestSuitablePeriod now availablePeriods n with
      | None => first_fitting now availablePeriods cottage rest
      | Some p => Some (mkCandidate cottage p (Sub (Start p) now) n)
      end
  end.

Section Step.
Context {G : GoLib} {R : RedisServer} {E : Env}.

Definition loadAvailablePeriods (cottage : string) (now : Time) (windowDays : Z)
  : go World (list Period) :=
  let from := AddDate (startOfUTCDay now) 0 0 minSearchLeadDays in
  let to := AddDate from 0 0 windowDays in
  '(isErr, status, body) ← do_http (Some CottageManager) GET
      ("/cottage/" +:+ cottage +:+ "/available-dates")
      [("to", FormatDate to); ("from", FormatDate from)] None;
  _ ← guard_err isErr (Errorf "error: %s" [status]);
  match body ≫= decode_AvailablePeriodDTO (mkAvailablePeriodDTO "" []) with
  | Some dto => mret (ToPeriods dto)
  | None => throw err_json
  end.

(** The loop over the windows of one cottage. *)
Fixpoint collect_windows (cottage : string) (now : Time) (nightOptions windows : list Z)
  : go World (list stayCandidate) :=
  match windows with
  | [] => mret []
  | w :: rest =>
      availablePeriods ← loadAvailablePeriods cottage now w;
      more ← collect_windows cottage now nightOptions rest;
      mret (match first_fitting now availablePeriods cottage nightOptions with
            | Some c => c :: more
            | None => more
            end)
  end.

Fixpoint collect_cottages (cottages : list string) (now : Time) (nightOptions : list Z)
  : go World (list stayCandidate) :=
  match cottages with
  | [] => mret []
  | c :: rest =>
      here ← collect_windows c now nightOptions searchWindows;
      more ← collect_cottages rest now nightOptions;
      mret (here ++ more)
  end.

Definition collectStayCandidates (now : Time) (nightOptions : list Z)
  : go World (list stayCandidate) :=
  s ← deref_state;
  candidates ← collect_cottages (default [] (st_CottageNames s)) now nightOptions;
  match candidates with
  | [] => mret []
  | _ => mret (uniqueStayCandidates (stable_sort candidate_less candidates))
  end.

Definition SelectPeriod_Validate : go World unit :=
  n ← state_is_nil;
  _ ← guard_err n err_state_nil;
  c ← cache_is_nil;
  guard_err c err_cache_nil.

Definition SelectPeriod_Execute : go World unit :=
  now ← clock_Now;
  cacheValue ← Load;
  match Booking cacheValue with
  | None => throw (Errorf "invalid cached booking context, booking is nil" [])
  | Some b =>
      s ← deref_state;
      _ ← guard_err (Nat.eqb (length (default [] (st_CottageNames s))) 0)
            (Errorf "invalid state, cottageNames is empty" []);
      let nightOptions := stable_sort Z.ltb numberOfNights in
      candidates ← collectStayCandidates now nightOptions;
      match take maxPeriodAttempts candidates with
      | [] => throw ErrNoSuitablePeriod
      | selected :: _ =>
          Save (set_cv_Booking
                  (Some (mkBooking (BookingID b) (cottageName selected) (Some (period selected))))
                  cacheValue)
      end
  end.
End Step.

(** ** The nearest suitable period *)

#[global] Arguments pick_step : simpl never.
#[global] Arguments startOfUTCDay : simpl never.
#[global] Arguments searchStart : simpl never.
#[global] Strategy 10000 [pick_step startOfUTCDay searchStart].

Lemma startOfUTCDay_floor t : startOfUTCDay t = mkTime (unixNano t / nsPerDay * nsPerDay) 0.
Proof.
  unfold startOfUTCDay. rewrite Date_midnight. unfold wall. simpl. by rewrite Z.add_0_r.
Qed.

Lemma searchStart_eq now :
  searchStart now = mkTime ((unixNano now / nsPerDay + minSearchLeadDays) * nsPerDay) 0.
Proof. unfold searchStart. rewrite startOfUTCDay_floor, AddDate_days. simpl. f_equal. lia. Qed.

(** Midnight in UTC. *)
Definition utc_midnight (t : Time) : Prop := zoneOffset t = 0 /\ unixNano t mod nsPerDay = 0.

Lemma midnight_intro k : utc_midnight (mkTime (k * nsPerDay) 0).
Proof. split; [done|]. simpl. apply Z_mod_mult. Qed.

Lemma midnight_AddDate t n : utc_midnight t -> utc_midnight (AddDate t 0 0 n).
Proof.
  intros [Hz Hm]. rewrite AddDate_days. split; [done|]. simpl. by rewrite Z_mod_plus_full.
Qed.

(** The stay [p] gives when it is searched for [n] nights. *)
Definition stay_start (now : Time) (p : Period) : Time :=
  if Before (startOfUTCDay (Start p)) (searchStart now)
  then searchStart now else startOfUTCDay (Start p).

Definition stay (now : Time) (n : Z) (p : Period) : Period :=
  mkPeriod (stay_start now p) (AddDate (stay_start now p) 0 0 n).

(** The period is long enough. *)
Definition fits (now : Time) (n : Z) (p : Period) : Prop :=
  unixNano (End_ (stay now n p)) <= unixNano (startOfUTCDay (End_ p)).

#[export] Instance fits_dec now n p : Decision (fits now n p).
Proof. unfold fits. apply _. Defined.

Definition stay_distance (now : Time) (p : Period) : Z := Sub (stay_start now p) (searchStart now).

Lemma pick_step_eq now n selected p :
  pick_step now n selected p =
  if decide (fits now n p) then
    match selected with
    | None => Some (stay now n p, stay_distance now p)
    | Some (_, d) => if stay_distance now p <? d
                     then Some (stay now n p, stay_distance now p) else selected
    end
  else selected.
Proof.
  destruct (decide (fits now n p)) as [Hf|Hf]; revert Hf;
    unfold pick_step, fits, stay, stay_distance, stay_start, After; cbv zeta;
    set (cs := if Before _ _ then _ else _); clearbody cs; cbn [End_ Start]; intros Hf;
    destruct (_ <? unixNano (AddDate cs 0 0 n)) eqn:Eq; reflect_ineqs; first [reflexivity | lia].
Qed.

Lemma stay_start_midnight now p : utc_midnight (stay_start now p).
Proof.
  unfold stay_start. rewrite searchStart_eq, startOfUTCDay_floor.
  destruct (Before _ _); apply midnight_intro.
Qed.

Lemma stay_start_ge now p :
  unixNano (searchStart now) <= unixNano (stay_start now p)
  /\ unixNano (startOfUTCDay (Start p)) <= unixNano (stay_start now p).
Proof.
  unfold stay_start, Before. destruct (_ <? _) eqn:Eq; reflect_ineqs; lia.
Qed.

(** What the loop has selected after a prefix of the periods: the first of those at the
    least distance. *)
Definition selected_from (now : Time) (n : Z) (ps : list Period) (r : option (Period * Z)) : Prop :=
  match r with
  | None => forall p, p ∈ ps -> ~ fits now n p
  | Some (sel, d) =>
      exists before p after, ps = before ++ p :: after
        /\ fits now n p /\ sel = stay now n p /\ d = stay_distance now p
        /\ (forall q, q ∈ before -> fits now n q -> d < stay_distance now q)
        /\ (forall q, q ∈ after -> fits now n q -> d <= stay_distance now q)
  end.

Lemma selected_from_snoc now n ps r p :
  selected_from now n ps r -> selected_from now n (ps ++ [p]) (pick_step now n r p).
Proof.
  intros Hr. rewrite pick_step_eq. case_decide as Hf.
  - destruct r as [[sel d]|]; simpl in Hr.
    + destruct Hr as (bef & q & aft & -> & Hq & -> & -> & Hb & Ha).
      destruct (_ <? _) eqn:Eq; reflect_ineqs; simpl.
      * exists (bef ++ q :: aft), p, []. repeat split; try done; [|set_solver].
        intros x [Hx|[->|Hx]%elem_of_cons]%elem_of_app Hfx; [|done|].
        -- specialize (Hb x Hx Hfx). lia.
        -- specialize (Ha x Hx Hfx). lia.
      * exists bef, q, (aft ++ [p]). rewrite <- app_assoc. repeat split; try done.
        intros x [Hx| ->%list_elem_of_singleton]%elem_of_app Hfx; [auto|lia].
    + exists ps, p, []. repeat split; try done; [|set_solver].
      intros q Hq Hfq. by destruct (Hr q Hq).
  - destruct r as [[sel d]|]; simpl in *.
    + destruct Hr as (bef & q & aft & -> & Hq & -> & -> & Hb & Ha).
      exists bef, q, (aft ++ [p]). rewrite <- app_assoc. repeat split; try done.
      intros x [Hx| ->%list_elem_of_singleton]%elem_of_app Hfx; [auto|done].
    + intros q [Hq| ->%list_elem_of_singleton]%elem_of_app; auto.
Qed.

Lemma pick_selected now n ps :
  selected_from now n ps (fold_left (pick_step now n) ps None).
Proof.
  apply (fold_left_invariant _ (selected_from now n)) with (bs0 := []).
  - intros bs a b. apply selected_from_snoc.
  - intros p Hp. set_solver.
Qed.

(** A period chosen by the search. *)
Lemma pick_Some now n ps sel :
  pickNearestSuitablePeriod now ps n = Some sel ->
  exists p, p ∈ ps /\ fits now n p /\ sel = stay now n p.
Proof.
  unfold pickNearestSuitablePeriod. pose proof (pick_selected now n ps) as H.
  destruct (fold_left _ _ _) as [[s d]|]; simpl; [|done]. intros [= <-].
  destruct H as (bef & p & aft & -> & Hf & -> & _). exists p. set_solver.
Qed.

Lemma pick_None now n ps :
  pickNearestSuitablePeriod now ps n = None <-> forall p, p ∈ ps -> ~ fits now n p.
Proof.
  unfold pickNearestSuitablePeriod. pose proof (pick_selected now n ps) as H.
  destruct (fold_left _ _ _) as [[s d]|]; simpl; split; try done.
  intros Hno. destruct H as (bef & p & aft & -> & Hf & _). destruct (Hno p); set_solver.
Qed.

(** A stay the search may choose out of [p]: [n] whole days from a UTC midnight, not
    before the lead time, inside the days of the period. *)
Definition stay_ok (now : Time) (n : Z) (p : Period) (sel : Period) : Prop :=
  utc_midnight (Start sel) /\ End_ sel = AddDate (Start sel) 0 0 n
  /\ unixNano (startOfUTCDay now) + minSearchLeadDays * nsPerDay <= unixNano (Start sel)
  /\ unixNano (startOfUTCDay (Start p)) <= unixNano (Start sel)
  /\ unixNano (End_ sel) <= unixNano (startOfUTCDay (End_ p)).

Lemma stay_stay_ok now n p : fits now n p -> stay_ok now n p (stay now n p).
Proof.
  intros Hf. pose proof (stay_start_ge now p) as [H1 H2].
  unfold stay_ok, fits, stay in *. cbn [Start End_] in *.
  split; [apply stay_start_midnight|]. split; [reflexivity|].
  unfold searchStart in H1. rewrite AddDate_days in H1. cbn [unixNano] in H1.
  split; [exact H1|]. split; [exact H2|exact Hf].
Qed.

(** C16: [pickNearestSuitablePeriod] finds a stay exactly when some period is long
    enough; the stay lies inside the days of one of the offered periods, starts at a UTC
    midnight at least [minSearchLeadDays] days ahead, lasts the asked number of days, and
    no other period that fits gives a shorter distance (the first of the nearest wins). *)
Theorem pickNearest_correct now ps n :
  match pickNearestSuitablePeriod now ps n with
  | None => forall p, p ∈ ps -> ~ fits now n p
  | Some sel =>
      exists before p after, ps = before ++ p :: after /\ fits now n p
        /\ sel = stay now n p /\ stay_ok now n p sel
        /\ (forall q, q ∈ before -> fits now n q -> stay_distance now p < stay_distance now q)
        /\ (forall q, q ∈ after -> fits now n q -> stay_distance now p <= stay_distance now q)
  end.
Proof.
  unfold pickNearestSuitablePeriod. pose proof (pick_selected now n ps) as H.
  destruct (fold_left _ _ _) as [[s d]|]; simpl; [|done].
  destruct H as (bef & p & aft & -> & Hf & -> & -> & Hb & Ha).
  exists bef, p, aft. do 3 (split; [done|]). split; [by apply stay_stay_ok|done].
Qed.

(** ** The order of the candidates *)

(** Candidates the search builds: their stay starts at a UTC midnight. *)
Definition candidate_wf (c : stayCandidate) : Prop :=
  utc_midnight (Start (period c)) /\ utc_midnight (End_ (period c)).

(** The comparison as a lexicographic order on four keys. *)
Lemma candidate_less_keys a b :
  candidate_wf a -> candidate_wf b ->
  candidate_less a b = true <->
    distance a < distance b
    \/ (distance a = distance b /\ nights a < nights b)
    \/ (distance a = distance b /\ nights a = nights b
        /\ unixNano (Start (period a)) < unixNano (Start (period b)))
    \/ (distance a = distance b /\ nights a = nights b
        /\ unixNano (Start (period a)) = unixNano (Start (period b))
        /\ String.ltb (cottageName a) (cottageName b) = true).
Proof.
  intros [[Ha _] _] [[Hb _] _]. unfold candidate_less, Before.
  destruct (Start (period a)) as [sa za], (Start (period b)) as [sb zb]. simpl in *. subst.
  destruct (distance a =? distance b) eqn:Ed; reflect_ineqs; simpl; [|rewrite Z.ltb_lt; lia].
  destruct (nights a =? nights b) eqn:En; reflect_ineqs; simpl; [|rewrite Z.ltb_lt; lia].
  case_bool_decide as Hs; simpl.
  - injection Hs as ->. intuition lia.
  - rewrite Z.ltb_lt. split; [intros; lia|].
    intros [?|[?|[?|(_ & _ & <- & _)]]]; try lia. by destruct Hs.
Qed.

Lemma ltb_asym s t : String.ltb s t = true -> String.ltb t s = false.
Proof.
  unfold String.ltb. rewrite (String.compare_antisym t s).
  destruct (String.compare s t); simpl; done.
Qed.

Lemma ltb_false_leb s t : String.ltb t s = false <-> String.leb s t = true.
Proof.
  unfold String.ltb, String.leb. rewrite (String.compare_antisym t s).
  destruct (String.compare s t); simpl; done.
Qed.

Lemma ltb_not_after_trans s t u :
  String.ltb t s = false -> String.ltb u t = false -> String.ltb u s = false.
Proof.
  rewrite !ltb_false_leb. intros H1 H2.
  assert (H : String.le s u) by (transitivity t; unfold String.le; by rewrite ?H1, ?H2).
  unfold String.le in H. by apply Is_true_true in H.
Qed.

Lemma candidate_less_asym a b :
  candidate_wf a -> candidate_wf b -> candidate_less a b = true -> candidate_less b a = false.
Proof.
  intros Ha Hb H. apply not_true_is_false. intros H'.
  apply candidate_less_keys in H, H'; try done.
  destruct H as [?|[?|[?|(? & ? & ? & H)]]], H' as [?|[?|[?|(? & ? & ? & H')]]]; try lia.
  apply ltb_asym in H. congruence.
Qed.

Lemma candidate_not_after_trans a b c :
  candidate_wf a -> candidate_wf b -> candidate_wf c ->
  not_after candidate_less a b -> not_after candidate_less b c -> not_after candidate_less a c.
Proof.
  unfold not_after. intros Ha Hb Hc H1 H2. apply not_true_is_false. intros H3.
  apply not_true_iff_false in H1, H2. rewrite candidate_less_keys in H1, H2, H3 by done.
  destruct (String.ltb (cottageName b) (cottageName a)) eqn:E1;
    destruct (String.ltb (cottageName c) (cottageName b)) eqn:E2.
  1-3: exfalso; clear - H1 H2 H3; intuition lia.
  pose proof (ltb_not_after_trans _ _ _ E1 E2) as E3. rewrite E3 in H3.
  clear - H1 H2 H3. intuition lia.
Qed.

(** ** Duplicates *)

Lemma unique_from_spec seen cs :
  (forall c, c ∈ unique_from seen cs -> c ∈ cs /\ candidate_key c ∉ seen)
  /\ NoDup (map candidate_key (unique_from seen cs))
  /\ (forall c, c ∈ cs -> candidate_key c ∈ seen
        \/ exists c', c' ∈ unique_from seen cs /\ candidate_key c' = candidate_key c)
  /\ sublist (unique_from seen cs) cs.
Proof.
  revert seen. induction cs as [|c cs IH]; intros seen; simpl.
  - repeat split; try set_solver; constructor.
  - case_bool_decide as Hseen.
    + destruct (IH seen) as (H1 & H2 & H3 & H4). split; [|split; [done|split]].
      * intros x Hx. apply H1 in Hx. set_solver.
      * intros x [->|Hx]%elem_of_cons; [by left|auto].
      * by constructor.
    + destruct (IH ({[candidate_key c]} ∪ seen)) as (H1 & H2 & H3 & H4).
      split; [|split; [|split]].
      * intros x [->|Hx]%elem_of_cons; [set_solver|]. apply H1 in Hx. set_solver.
      * constructor; [|done]. intros (x & Hk & Hx)%list_elem_of_fmap.
        apply H1 in Hx as [_ Hx]. set_solver.
      * intros x [->|Hx]%elem_of_cons; [right; exists c; set_solver|].
        destruct (H3 x Hx) as [[Hk|Hk]%elem_of_union|(y & Hy & Hk)]; [|by left|right; set_solver].
        right. exists c. apply elem_of_singleton in Hk. set_solver.
      * by constructor.
Qed.

(** The text key separates stays: the two time fields have a fixed width, whatever the
    cottage's name contains. *)
Lemma candidate_key_inj a b :
  zoneOffset (Start (period a)) = 0 -> zoneOffset (Start (period b)) = 0 ->
  zoneOffset (End_ (period a)) = 0 -> zoneOffset (End_ (period b)) = 0 ->
  period_exact (period a) -> period_exact (period b) ->
  candidate_key a = candidate_key b ->
  cottageName a = cottageName b /\ period a = period b.
Proof.
  intros Z1 Z2 Z3 Z4 [Sa Ea] [Sb Eb]. unfold candidate_key.
  assert (HU : forall t, zoneOffset t = 0 -> UTC t = t) by (by intros [n z]; simpl; intros ->).
  rewrite !HU by done. intros Hk.
  assert (L : forall t u : Time, rfc3339_exact t -> rfc3339_exact u ->
    String.length ("|" +:+ FormatRFC3339 t +:+ "|" +:+ FormatRFC3339 u) = 42%nat).
  { intros t u Ht Hu. rewrite !string_length_app, !FormatRFC3339_length by done. done. }
  apply string_app_inj_r in Hk as [Hname Hk]; [|by rewrite !L].
  split; [done|]. apply string_app_inj in Hk as [_ Hk]; [|done].
  apply string_app_inj in Hk as [Hs Hk]; [|by rewrite !FormatRFC3339_length].
  apply string_app_inj in Hk as [_ He]; [|done].
  apply FormatRFC3339_inj in Hs, He; try done.
  destruct (period a), (period b). simpl in *. by subst.
Qed.

Lemma uniqueStayCandidates_head c cs :
  exists rest, uniqueStayCandidates (c :: cs) = c :: rest.
Proof. unfold uniqueStayCandidates. simpl. case_bool_decide; [set_solver|eauto]. Qed.

(** Two candidates for the same cottage and stay. *)
Definition same_stay (a b : stayCandidate) : Prop :=
  cottageName a = cottageName b /\ period a = period b.

(** [uniqueStayCandidates] keeps the candidates in order and keeps exactly one for
    each cottage and stay, although it compares formatted text. *)
Theorem uniqueStayCandidates_correct cs :
  Forall (fun c => candidate_wf c /\ period_exact (period c)) cs ->
  sublist (uniqueStayCandidates cs) cs
  /\ (forall i j a b, uniqueStayCandidates cs !! i = Some a ->
        uniqueStayCandidates cs !! j = Some b -> same_stay a b -> i = j)
  /\ (forall c, c ∈ cs -> exists c', c' ∈ uniqueStayCandidates cs /\ same_stay c' c).
Proof.
  intros Hwf. rewrite Forall_forall in Hwf.
  destruct (unique_from_spec ∅ cs) as (H1 & H2 & H3 & H4). fold (uniqueStayCandidates cs) in *.
  split; [done|]. split.
  - intros i j a b Ha Hb [Hn Hp].
    assert (Hk : candidate_key a = candidate_key b) by (unfold candidate_key; by rewrite Hn, Hp).
    apply (NoDup_lookup _ _ _ (candidate_key a) H2); rewrite list_lookup_fmap.
    + by rewrite Ha.
    + by rewrite Hb, Hk.
  - intros c Hc. destruct (H3 c Hc) as [?|(c' & Hc' & Hk)]; [set_solver|].
    exists c'. split; [done|]. apply H1 in Hc' as [Hc' _].
    destruct (Hwf c Hc) as [[[] []] ?], (Hwf c' Hc') as [[[] []] ?].
    by apply candidate_key_inj.
Qed.

(** ** The queries *)

Section StepSpec.
Context {G : GoLib} {R : RedisServer} {RL : RedisLaws R} {E : Env}.

Definition available_request (now : Time) (cottage : string) (windowDays : Z) : HttpRequest :=
  let from := AddDate (startOfUTCDay now) 0 0 minSearchLeadDays in
  mkHttpRequest CottageManager GET ("/cottage/" +:+ cottage +:+ "/available-dates")
    [("to", FormatDate (AddDate from 0 0 windowDays)); ("from", FormatDate from)] None.

(** The requests sent for one cottage, in order. *)
Definition cottage_requests (now : Time) (cottage : string) : list HttpRequest :=
  map (available_request now cottage) searchWindows.

(** The cottage manager offered [p] for [cottage] in its answer to a request of [h]. *)
Definition offered (now : Time) (h : list HttpRequest) (cottage : string) (p : Period) : Prop :=
  exists h1 w h2 st body dto,
    h = h1 ++ available_request now cottage w :: h2
    /\ env_http (h1 ++ [available_request now cottage w]) = HttpResponse false st (Some body)
    /\ decode_AvailablePeriodDTO (mkAvailablePeriodDTO "" []) body = Some dto
    /\ p ∈ ToPeriods dto.

(** A candidate and where it comes from. *)
Definition candidate_ok (now : Time) (opts : list Z) (h : list HttpRequest)
    (c : stayCandidate) : Prop :=
  nights c ∈ opts /\ distance c = Sub (Start (period c)) now
  /\ exists p, offered now h (cottageName c) p /\ stay_ok now (nights c) p (period c).

Lemma offered_app now h h' cottage p : offered now h cottage p -> offered now (h ++ h') cottage p.
Proof.
  intros (h1 & w & h2 & st & body & dto & -> & H). exists h1, w, (h2 ++ h'), st, body, dto.
  by rewrite <- app_assoc.
Qed.

Lemma candidate_ok_app now opts h h' c : candidate_ok now opts h c -> candidate_ok now opts (h ++ h') c.
Proof. intros (H1 & H2 & p & H3 & H4). split; [done|]. split; [done|]. eauto using offered_app. Qed.

Lemma loadAvailablePeriods_Ret cottage now days w ps w' :
  loadAvailablePeriods cottage now days w = (Ret ps, w') ->
  w' = set_http (w_http w ++ [available_request now cottage days]) w
  /\ forall p, p ∈ ps -> offered now (w_http w') cottage p.
Proof.
  unfold loadAvailablePeriods, do_http. intros H. go_inv H.
  fold (available_request now cottage days) in Hrun.
  destruct (env_http _) as [e|ie st b] eqn:Eh; [done|].
  injection Hrun as <- <-. go_inv H. apply guard_inv in Hrun as [-> <-].
  destruct (b ≫= _) as [dto|] eqn:Ed; [|done]. apply ret_inv in H as [<- <-].
  split; [done|]. intros p Hp. destruct b as [body|]; [|done].
  exists (w_http w), days, [], st, body, dto. simpl. done.
Qed.

Lemma first_fitting_ok now ps cottage opts c h :
  (forall p, p ∈ ps -> offered now h cottage p) ->
  first_fitting now ps cottage opts = Some c ->
  candidate_ok now opts h c /\ cottageName c = cottage.
Proof.
  intros Hps. induction opts as [|n opts IH]; simpl; [done|].
  destruct (pickNearestSuitablePeriod now ps n) as [sel|] eqn:Ep.
  - intros [= <-]. split; [|done]. apply pick_Some in Ep as (p & Hp & Hf & ->).
    split; [by left|]. split; [done|]. exists p. split; [auto|].
    by apply stay_stay_ok.
  - intros Hc. destruct (IH Hc) as [(H1 & H2 & H3) H4]. split; [|done].
    split; [by right|done].
Qed.

Lemma first_fitting_None now ps cottage opts :
  first_fitting now ps cottage opts = None <->
  forall n p, n ∈ opts -> p ∈ ps -> ~ fits now n p.
Proof.
  induction opts as [|n opts IH]; simpl.
  - split; [|done]. intros _ n p Hn. by apply not_elem_of_nil in Hn.
  - destruct (pickNearestSuitablePeriod now ps n) as [sel|] eqn:Ep.
    + split; [done|]. apply pick_Some in Ep as (p & Hp & Hf & _).
      intros H. destruct (H n p); [by left|done|done].
    + rewrite IH. pose proof (proj1 (pick_None now n ps) Ep) as Hno. split.
      * intros H m p [->|Hm]%elem_of_cons Hp; [by apply Hno|by apply H].
      * intros H m p Hm Hp. apply H; [by right|done].
Qed.

Lemma collect_windows_Ret cottage now opts windows w cs w' :
  collect_windows cottage now opts windows w = (Ret cs, w') ->
  w' = set_http (w_http w ++ map (available_request now cottage) windows) w
  /\ forall c, c ∈ cs -> candidate_ok now opts (w_http w') c /\ cottageName c = cottage.
Proof.
  revert w cs w'. induction windows as [|days windows IH]; intros w cs w' H; simpl in H.
  - apply ret_inv in H as [<- <-]. split; [|by intros c Hc%not_elem_of_nil].
    simpl. rewrite app_nil_r. by destruct w.
  - go_inv H. apply loadAvailablePeriods_Ret in Hrun as [-> Hps].
    go_inv H. apply IH in Hrun as [-> Hmore]. apply ret_inv in H as [<- <-].
    split; [simpl; by rewrite <- app_assoc|].
    intros c Hc. destruct (first_fitting _ _ _ _) as [c0|] eqn:Ef; [|auto].
    apply elem_of_cons in Hc as [->|Hc]; [|auto].
    apply first_fitting_ok with (h := w_http w ++ [available_request now cottage days]) in Ef
      as [H1 H2]; [|exact Hps].
    split; [|done]. simpl. by apply candidate_ok_app.
Qed.

Lemma collect_cottages_Ret cottages now opts w cs w' :
  collect_cottages cottages now opts w = (Ret cs, w') ->
  w' = set_http (w_http w ++ concat (map (cottage_requests now) cottages)) w
  /\ forall c, c ∈ cs -> candidate_ok now opts (w_http w') c /\ cottageName c ∈ cottages.
Proof.
  revert w cs w'. induction cottages as [|cot cottages IH]; intros w cs w' H; cbn [collect_cottages] in H.
  - apply ret_inv in H as [<- <-]. split; [|by intros c Hc%not_elem_of_nil].
    simpl. rewrite app_nil_r. by destruct w.
  - go_inv H. apply collect_windows_Ret in Hrun as [-> Hhere].
    go_inv H. apply IH in Hrun as [-> Hmore]. apply ret_inv in H as [<- <-].
    split; [cbn [map concat w_http set_http]; by rewrite <- app_assoc|].
    intros c [Hc|Hc]%elem_of_app.
    + destruct (Hhere c Hc) as [H1 H2]. split; [|rewrite H2; by left]. cbn [w_http set_http]. by apply candidate_ok_app.
    + destruct (Hmore c Hc) as [H1 H2]. split; [done|by right].
Qed.

Lemma candidate_ok_wf now opts h c : candidate_ok now opts h c -> candidate_wf c.
Proof.
  intros (_ & _ & p & _ & Hm & He & _). split; [done|]. rewrite He. by apply midnight_AddDate.
Qed.

Lemma collectStayCandidates_Ret now opts w cs w' :
  collectStayCandidates now opts w = (Ret cs, w') ->
  exists s all, w_state w = Some s
    /\ collect_cottages (default [] (st_CottageNames s)) now opts w = (Ret all, w')
    /\ cs = uniqueStayCandidates (stable_sort candidate_less all).
Proof.
  unfold collectStayCandidates, deref_state. intros H. go_inv H.
  destruct (w_state w) as [s|]; [|done]. injection Hrun as <- <-.
  go_inv H. exists s, v. split; [done|]. destruct v as [|c v].
  - by apply ret_inv in H as [<- <-].
  - by apply ret_inv in H as [<- <-].
Qed.

(** The candidate the step takes: no collected candidate comes before it. *)
Lemma selected_least now opts h all c rest :
  (forall x, x ∈ all -> candidate_ok now opts h x) ->
  uniqueStayCandidates (stable_sort candidate_less all) = c :: rest ->
  c ∈ all /\ forall x, x ∈ all -> candidate_less x c = false.
Proof.
  intros Hok Hu.
  assert (Hwf : Forall candidate_wf all)
    by (rewrite Forall_forall; intros x Hx; eapply candidate_ok_wf; eauto).
  destruct (stable_sort candidate_less all) as [|h0 t] eqn:Es; [done|].
  destruct (uniqueStayCandidates_head h0 t) as (r & Hr). rewrite Hr in Hu.
  injection Hu as -> _.
  assert (Hc : c ∈ all) by (apply (elem_of_stable_sort candidate_less); rewrite Es; set_solver).
  split; [done|]. intros x Hx.
  destruct (stable_sort_head candidate_less candidate_wf candidate_less_asym
              candidate_not_after_trans all c t Hwf Es x Hx) as [H| ->]; [exact H|].
  unfold candidate_less. rewrite !Z.eqb_refl. simpl. rewrite bool_decide_true by done. simpl.
  unfold String.ltb. replace (String.compare (cottageName c) (cottageName c)) with Eq; [done|].
  pose proof (String.compare_antisym (cottageName c) (cottageName c)) as Ha.
  by destruct (String.compare _ _).
Qed.

Lemma MarshalTime_midnight t s : utc_midnight t -> MarshalTime t = Some s -> rfc3339_exact t.
Proof.
  intros [Hz Hm]. unfold MarshalTime. destruct (_ && _) eqn:Ec; [|done]. intros _.
  reflect_ineqs. by apply midnight_exact.
Qed.

(** A booking whose stay is between midnights is saved without loss. *)
Lemma Save_period_exact v b p w w' :
  Save v w = (Ret tt, w') -> Booking v = Some b -> SelectedPeriod b = Some p ->
  utc_midnight (Start p) -> utc_midnight (End_ p) -> cacheValue_exact v.
Proof.
  unfold Save. intros H Hb Hp Hs He. go_inv H. go_inv H.
  destruct (encode_CacheValue v) as [j|] eqn:Ej; [|done].
  unfold encode_CacheValue in Ej. destruct (member_opt "personalInfo" _ _); simpl in Ej; [|done].
  rewrite Hb in Ej. simpl in Ej. destruct (encode_Booking b) as [jb|] eqn:Eb; simpl in Ej; [|done].
  unfold encode_Booking in Eb. rewrite Hp in Eb. simpl in Eb.
  destruct (encode_Period p) as [jp|] eqn:Ep; simpl in Eb; [|done].
  unfold encode_Period in Ep. destruct (MarshalTime (Start p)) eqn:E1; simpl in Ep; [|done].
  destruct (MarshalTime (End_ p)) eqn:E2; simpl in Ep; [|done].
  intros b' p' Hb' Hp'. simplify_eq. split; eapply MarshalTime_midnight; eauto.
Qed.

Lemma elem_of_take_head {A} (n : nat) (l : list A) x r :
  take n l = x :: r -> exists r', l = x :: r'.
Proof. destruct n, l; simpl; try done. intros [= -> _]. eauto. Qed.

(** Night options in ascending order. *)
Definition nightOptions : list Z := stable_sort Z.ltb numberOfNights.

Lemma nightOptions_eq : nightOptions = [3; 5; 7; 10; 14].
Proof. reflexivity. Qed.

(** A candidate no collected candidate comes before. *)
Definition best_candidate (all : list stayCandidate) (c : stayCandidate) : Prop :=
  c ∈ all /\ forall x, x ∈ all -> candidate_less x c = false.

(** What a journey's booking becomes. *)
Definition with_stay (c : stayCandidate) (b : GuestJourneyBooking) : GuestJourneyBooking :=
  mkBooking (BookingID b) (cottageName c) (Some (period c)).

Lemma clock_Now_Ret w t w' :
  clock_Now w = (Ret t, w') -> env_now (w_clock w) = inr t /\ w' = tick_clock w.
Proof. unfold clock_Now. destruct (env_now _); [done|]. by intros [= <- <-]. Qed.

Lemma SelectPeriod_Ret w v b w' :
  cached w v -> Booking v = Some b ->
  SelectPeriod_Execute w = (Ret tt, w') ->
  exists now s all c w1,
    env_now (w_clock w) = inr now /\ w_state w = Some s /\ w_state w' = w_state w
    /\ w_http w' = w_http w ++ concat (map (cottage_requests now) (default [] (st_CottageNames s)))
    /\ fst (collect_cottages (default [] (st_CottageNames s)) now nightOptions w1) = Ret all
    /\ best_candidate all c /\ cottageName c ∈ default [] (st_CottageNames s)
    /\ candidate_ok now nightOptions (w_http w') c
    /\ cached w' (set_cv_Booking (Some (with_stay c b)) v)
    /\ cacheValue_exact (set_cv_Booking (Some (with_stay c b)) v).
Proof.
  intros Hc Hb. unfold SelectPeriod_Execute. intros H.
  go_inv H. apply clock_Now_Ret in Hrun as [Hnow ->].
  assert (Hc1 : cached (tick_clock w) v) by exact Hc.
  go_inv H. destruct (Load_Ret _ _ _ Hrun) as [Hcl Hfr]. specialize (Hcl (cached_owned _ _ Hc1)).
  destruct (Load_cached _ _ _ _ Hc1 Hrun) as [-> Hst]. rewrite Hb in H.
  go_inv H. unfold deref_state in Hrun0.
  destruct (w_state w0) as [s|] eqn:Es; [|done]. injection Hrun0 as <- <-.
  go_inv H. apply guard_inv in Hrun0 as [_ <-].
  go_inv H. fold nightOptions in Hrun0.
  apply collectStayCandidates_Ret in Hrun0 as (s' & all & Hs' & Hall & ->).
  rewrite Es in Hs'. injection Hs' as <-.
  destruct (take _ _) as [|c rest] eqn:Et; [done|].
  apply elem_of_take_head in Et as (rest' & Hu).
  destruct (collect_cottages_Ret _ _ _ _ _ _ Hall) as [-> Hok].
  assert (Hbest : best_candidate all c).
  { eapply selected_least; [|exact Hu]. intros x Hx. apply (Hok x Hx). }
  destruct Hbest as [Hin Hleast]. destruct (Hok c Hin) as [Hcok Hname].
  exists v0, s, all, c, w0. simpl in Hst. 
  destruct Hfr as [Hfh _ _ _ _]. simpl in Hfh.
  assert (Hex : cacheValue_exact (set_cv_Booking (Some (with_stay c b)) v)).
  { destruct (candidate_ok_wf _ _ _ _ Hcok) as [Hm1 Hm2].
    eapply Save_period_exact; [exact H|reflexivity|reflexivity|exact Hm1|exact Hm2]. }
  destruct (Save_Ret _ _ _ H) as ([Hh _ _ _ (s2 & Hs2 & Hs2')] & Hcached & _).
  cbn [w_state set_http] in Hs2. rewrite Es in Hs2. injection Hs2 as <-.
  split; [done|]. split; [congruence|].
  split.
  { rewrite Hs2', <- Hst. rewrite set_RedisKey_same; [done|].
    destruct Hcl as (s3 & ? & ? & Hs3 & _ & [Hk _] & _). congruence. }
  rewrite Hh. cbn [w_http set_http]. rewrite Hfh.
  split; [done|]. split; [by rewrite Hall|]. split; [by split|]. split; [done|].
  split; [|split; [exact (Hcached (cached_owned _ _ Hcl) Hex)|done]].
  cbn [w_http set_http] in Hcok. by rewrite Hfh in Hcok.
Qed.

(** C14: when [SelectPeriodStep.Execute] succeeds, the seven requests of every known
    cottage were sent in order and nothing else; the stay now cached was offered by the
    cottage manager for that cottage, respects the lead time and one of the night
    options, and no other collected stay is better; the booking id, the guest and the
    invoice of the cached value are kept. *)
Theorem SelectPeriod_success w v b w' :
  cached w v -> Booking v = Some b ->
  SelectPeriod_Execute w = (Ret tt, w') ->
  exists now s all c w1,
    env_now (w_clock w) = inr now /\ w_state w = Some s /\ w_state w' = w_state w
    /\ w_http w' = w_http w ++ concat (map (cottage_requests now) (default [] (st_CottageNames s)))
    /\ fst (collect_cottages (default [] (st_CottageNames s)) now nightOptions w1) = Ret all
    /\ best_candidate all c /\ cottageName c ∈ default [] (st_CottageNames s)
    /\ candidate_ok now nightOptions (w_http w') c
    /\ cached w' (set_cv_Booking (Some (with_stay c b)) v).
Proof.
  intros Hc Hb H.
  destruct (SelectPeriod_Ret w v b w' Hc Hb H)
    as (now & s & all & c & w1 & H1 & H2 & H3 & H4 & H5 & H6 & H7 & H8 & H9 & _).
  by exists now, s, all, c, w1.
Qed.

(** The answer to the last request of [h] offers [p]. *)
Definition answer_offers (h : list HttpRequest) (p : Period) : Prop :=
  exists st body dto, env_http h = HttpResponse false st (Some body)
    /\ decode_AvailablePeriodDTO (mkAvailablePeriodDTO "" []) body = Some dto
    /\ p ∈ ToPeriods dto.

(** No period offered since the history was [h0] long is long enough. *)
Definition no_offer_fits (now : Time) (opts : list Z) (h0 h : list HttpRequest) : Prop :=
  forall k p n, (length h0 < k <= length h)%nat -> answer_offers (take k h) p ->
    n ∈ opts -> ~ fits now n p.

Lemma no_offer_fits_refl now opts h : no_offer_fits now opts h h.
Proof. intros k p n Hk. lia. Qed.

Lemma no_offer_fits_trans now opts h0 h1 h2 :
  no_offer_fits now opts h0 (h0 ++ h1) ->
  no_offer_fits now opts (h0 ++ h1) ((h0 ++ h1) ++ h2) ->
  no_offer_fits now opts h0 ((h0 ++ h1) ++ h2).
Proof.
  intros H1 H2 k p n Hk Hp. destruct (decide (k <= length (h0 ++ h1))%nat) as [Hle|Hle].
  - rewrite take_app_le in Hp by done. apply (H1 k p n); [lia|done].
  - apply (H2 k p n); [lia|done].
Qed.

Lemma loadAvailablePeriods_answer cottage now days w ps w' p :
  loadAvailablePeriods cottage now days w = (Ret ps, w') ->
  answer_offers (w_http w') p -> p ∈ ps.
Proof.
  unfold loadAvailablePeriods, do_http. intros H (st' & body' & dto' & Ha & Hd & Hp). go_inv H.
  destruct (env_http _) as [e|ie st b] eqn:Eh; [done|].
  injection Hrun as <- <-. go_inv H. apply guard_inv in Hrun as [-> <-].
  destruct (b ≫= _) as [dto|] eqn:Ed; [|done]. apply ret_inv in H as [<- <-].
  cbn [w_http set_http] in Ha. rewrite Eh in Ha. injection Ha as -> ->.
  simpl in Ed. rewrite Ed in Hd. by injection Hd as ->.
Qed.

Lemma collect_windows_none cottage now opts windows w w' :
  collect_windows cottage now opts windows w = (Ret [], w') ->
  no_offer_fits now opts (w_http w) (w_http w').
Proof.
  revert w w'. induction windows as [|days windows IH]; intros w w' H; simpl in H.
  - apply ret_inv in H as [_ <-]. apply no_offer_fits_refl.
  - go_inv H. go_inv H. apply ret_inv in H as [Hn <-].
    destruct (first_fitting _ _ _ _) eqn:Ef; [done|]. subst v0.
    destruct (collect_windows_Ret _ _ _ _ _ _ _ Hrun0) as [Hw1 _].
    apply IH in Hrun0.
    pose proof (fun p => loadAvailablePeriods_answer _ _ _ _ _ _ p Hrun) as Ha. apply loadAvailablePeriods_Ret in Hrun as [Hw0 _].
    subst w1 w0. cbn [w_http set_http] in *.
    apply no_offer_fits_trans; [|done].
    intros k p n Hk Hp Hn'. rewrite length_app in Hk. simpl in Hk.
    rewrite take_ge in Hp by (rewrite length_app; simpl; lia).
    apply (proj1 (first_fitting_None _ _ _ _) Ef n p Hn'). by apply Ha.
Qed.

Lemma collect_cottages_none cottages now opts w w' :
  collect_cottages cottages now opts w = (Ret [], w') ->
  no_offer_fits now opts (w_http w) (w_http w').
Proof.
  revert w w'. induction cottages as [|cot cottages IH]; intros w w' H; cbn [collect_cottages] in H.
  - apply ret_inv in H as [_ <-]. apply no_offer_fits_refl.
  - go_inv H. go_inv H. apply ret_inv in H as [Hn <-].
    apply app_eq_nil in Hn as [-> ->].
    destruct (collect_windows_Ret _ _ _ _ _ _ _ Hrun) as [Hw0 _].
    destruct (collect_cottages_Ret _ _ _ _ _ _ Hrun0) as [Hw1 _].
    apply collect_windows_none in Hrun. apply IH in Hrun0. subst w1 w0.
    cbn [w_http set_http] in *. by apply no_offer_fits_trans.
Qed.

(** C15: once every request is answered, the step either saves the best of the collected
    candidates, or none of the offered periods is long enough for any number of nights
    and it ends with [ErrNoSuitablePeriod], the cached value left as it was. *)
Theorem SelectPeriod_complete w v b w1 now s all w2 :
  cached w v -> Booking v = Some b -> env_now (w_clock w) = inr now ->
  Load (tick_clock w) = (Ret v, w1) ->
  w_state w = Some s -> default [] (st_CottageNames s) <> [] ->
  collect_cottages (default [] (st_CottageNames s)) now nightOptions w1 = (Ret all, w2) ->
  (all = [] /\ no_offer_fits now nightOptions (w_http w1) (w_http w2)
   /\ SelectPeriod_Execute w = (Err ErrNoSuitablePeriod, w2) /\ cached w2 v)
  \/ (exists c, best_candidate all c
       /\ SelectPeriod_Execute w = Save (set_cv_Booking (Some (with_stay c b)) v) w2).
Proof.
  intros Hc Hb Hnow Hl Hs Hne Hall.
  destruct (Load_Ret _ _ _ Hl) as [Hcl _]. specialize (Hcl (cached_owned _ _ Hc)).
  destruct (Load_cached (tick_clock w) _ _ _ Hc Hl) as [_ Hst]. cbn [w_state tick_clock] in Hst. rewrite Hs in Hst.
  assert (Hex : SelectPeriod_Execute w =
    match take maxPeriodAttempts (uniqueStayCandidates (stable_sort candidate_less all)) with
    | [] => throw ErrNoSuitablePeriod
    | selected :: _ => Save (set_cv_Booking (Some (with_stay selected b)) v)
    end w2).
  { unfold SelectPeriod_Execute.
    erewrite bind_Ret by (unfold clock_Now; by rewrite Hnow).
    erewrite bind_Ret by exact Hl. rewrite Hb.
    erewrite bind_Ret by (unfold deref_state; by rewrite Hst).
    destruct (default [] (st_CottageNames s)) as [|c0 cs0] eqn:Ecs; [done|].
    rewrite bind_guard_false. fold nightOptions. cbv zeta.
    erewrite bind_Ret; [reflexivity|].
    unfold collectStayCandidates. erewrite bind_Ret by (unfold deref_state; by rewrite Hst).
    rewrite Ecs. erewrite bind_Ret by exact Hall. by destruct all. }
  destruct (take _ _) as [|c rest] eqn:Et.
  - left.
    assert (all = []) as ->.
    { destruct all as [|a all']; [done|]. exfalso.
      assert (Hin : a ∈ stable_sort candidate_less (a :: all'))
        by (apply elem_of_stable_sort; by left).
      destruct (stable_sort _ _) as [|x l]; [by apply not_elem_of_nil in Hin|].
      destruct (uniqueStayCandidates_head x l) as (r & Hr). by rewrite Hr in Et. }
    split; [done|]. split; [by apply collect_cottages_none in Hall|]. split; [done|].
    by destruct (collect_cottages_Ret _ _ _ _ _ _ Hall) as [-> _].
  - right. apply elem_of_take_head in Et as (rest' & Hu).
    destruct (collect_cottages_Ret _ _ _ _ _ _ Hall) as [_ Hok].
    exists c. split; [|done]. eapply selected_least; [|exact Hu]. intros x Hx. apply (Hok x Hx).
Qed.
End StepSpec.

(** ** Concrete runs *)

Section Witnesses.
#[local] Existing Instances sample_lib sample_redis sample_redis_laws.

(** Aspen is free from the day after tomorrow, Birch not at all. *)
#[local] Instance period_env : Env :=
  sample_env
    [(GET, "/cottage/Aspen/available-dates",
       HttpResponse false "200 OK"
         (Some (JObj [("cottage_name", JStr "Aspen");
                      ("available_periods",
                        JArr [JObj [("check_in", JStr "2025-03-12T00:00:00Z");
                                    ("check_out", JStr "2025-03-19T10:00:00Z")]])])));
     (GET, "/cottage/Birch/available-dates",
       HttpResponse false "200 OK"
         (Some (JObj [("cottage_name", JStr "Birch"); ("available_periods", JNull)])))]
    sample_now.

(** The journey of the sample has picked a cottage. *)
Definition period_world : World := sample_world sample_chosen.

Lemma uniqueStayCandidates_correct_witness :
  let c := mkCandidate "Aspen" sample_period 0 3 in
  uniqueStayCandidates [c; c] = [c]
  /\ sublist (uniqueStayCandidates [c; c]) [c; c].
Proof.
  split; [vm_compute; reflexivity|].
  apply uniqueStayCandidates_correct. repeat constructor; vm_compute; done.
Defined.

Lemma SelectPeriod_success_witness :
  exists w', SelectPeriod_Execute period_world = (Ret tt, w')
    /\ exists b, cached w' (set_cv_Booking (Some b) sample_chosen).
Proof.
  assert (H : fst (SelectPeriod_Execute period_world) = Ret tt) by (vm_compute; reflexivity).
  apply run_ok in H. revert H. generalize (snd (SelectPeriod_Execute period_world)).
  intros w' H. exists w'. split; [exact H|].
  destruct (SelectPeriod_success period_world sample_chosen _ w' sample_chosen_cached eq_refl H)
    as (now & s & all & c & w1 & _ & _ & _ & _ & _ & _ & _ & _ & Hc).
  eexists. exact Hc.
Defined.

Lemma SelectPeriod_complete_witness :
  exists w1 all w2,
    Load (tick_clock period_world) = (Ret sample_chosen, w1)
    /\ collect_cottages ["Birch"; "Aspen"] sample_now nightOptions w1 = (Ret all, w2)
    /\ (all = [] \/ exists c, best_candidate all c).
Proof.
  assert (Hl : fst (Load (tick_clock period_world)) = Ret sample_chosen)
    by (vm_compute; reflexivity).
  apply run_ok in Hl.
  assert (Ha : exists all, fst (collect_cottages ["Birch"; "Aspen"] sample_now nightOptions
                                 (snd (Load (tick_clock period_world)))) = Ret all)
    by (eexists; vm_compute; reflexivity).
  destruct Ha as (all & Ha). apply run_ok in Ha. revert Hl Ha.
  generalize (snd (Load (tick_clock period_world))) as w1. intros w1 Hl.
  generalize (snd (collect_cottages ["Birch"; "Aspen"] sample_now nightOptions w1)) as w2.
  intros w2 Ha. exists w1, all, w2. split; [exact Hl|]. split; [exact Ha|].
  assert (Hnow : env_now (w_clock period_world) = inr sample_now) by reflexivity.
  destruct (SelectPeriod_complete period_world sample_chosen _ w1 sample_now sample_state all w2
              sample_chosen_cached eq_refl Hnow Hl eq_refl ltac:(discriminate) Ha)
    as [[H _]|(c & H & _)]; [by left|right; eauto].
Defined.
End Witnesses.
