(* ===== verification/Steps.v ===== *)
(** * The steps that talk to the HTTP services

    [steps/step.go], [steps/noop.go], [steps/end.go] and the steps of
    [booking_step], [register_guest_step] and [payment_step] except the choice of a stay
    ([SelectPeriod]). A step is a name, a validation and an execution over the shared
    [World]. *)

From Stdlib Require Import ZArith Lia.
From stdpp Require Import base tactics list option strings gmap.
From S2P Require Import Prelude GoEffects GoTime GoText Domain Json World Samples SelectPeriod.
Open Scope Z_scope.

Section Steps.
Context {G : GoLib} {R : RedisServer} {E : Env}.

(** [steps.Step] *)
Record Step := mkStep {
  Name : string;
  Validate : go World unit;
  Execute : go World unit
}.

Definition NewNoopStep : Step := mkStep "GuestJourneyNoopStep" (mret tt) (mret tt).
Definition NewEndStep : Step := mkStep "EndStep" (mret tt) (mret tt).

Definition NewSelectPeriodStep : Step :=
  mkStep "SelectPeriodStep" SelectPeriod_Validate SelectPeriod_Execute.

(** The guards [state == nil] and [cache == nil] that most validations start with. *)
Definition require_state : go World unit :=
  n ← state_is_nil; guard_err n err_state_nil.
Definition require_cache : go World unit :=
  n ← cache_is_nil; guard_err n err_cache_nil.
Definition require_guestId : go World unit :=
  s ← deref_state; guard_err (String.eqb (st_GuestId s) "") err_guestId_empty.

(** [if resp.IsError() { return fmt.Errorf("error: %s", ...) }] *)
Definition err_status (text : string) : error := Errorf "error: %s" [text].

(** *** [list_cottages.go] *)

Definition ListCottages_Execute (client : option HttpClient) : go World unit :=
  '(isErr, status, body) ← do_http client GET "/cottages" [] None;
  _ ← guard_err isErr (err_status status);
  match body ≫= decode_Cottages [] with
  | None => throw err_json
  | Some cottages => update_state (set_CottageNames (Some (map Cottage_Name cottages)))
  end.

Definition NewListCottagesStep (client : option HttpClient) : Step :=
  mkStep "ListCottagesStep" require_state (ListCottages_Execute client).

(** *** [select_cottage.go] *)

Definition SelectCottage_Validate : go World unit :=
  _ ← require_state;
  _ ← require_cache;
  s ← deref_state;
  guard_err (match st_CottageNames s with Some [] => true | _ => false end)
    (Errorf "invalid state, cottageNames is empty" []).

Definition SelectCottage_Execute : go World unit :=
  s ← deref_state;
  let names := default [] (st_CottageNames s) in
  i ← rand_Intn (Z.of_nat (length names));
  match names !! Z.to_nat i with
  | None => go_panic "index out of range"
  | Some selectedCottage =>
      cacheValue ← Load;
      let b := default zeroBooking (Booking cacheValue) in
      Save (set_cv_Booking (Some (mkBooking (BookingID b) selectedCottage (SelectedPeriod b)))
              cacheValue)
  end.

Definition NewSelectCottageStep : Step :=
  mkStep "SelectCottageStep" SelectCottage_Validate SelectCottage_Execute.

(** *** [book_cottage.go] *)

Definition BookCottage_Validate : go World unit :=
  _ ← require_state;
  _ ← require_cache;
  require_guestId.

Definition bookingRequest (guestId : string) (guest : Guest) (p : Period) : BookingRequest :=
  mkBookingRequest guestId 1 (FormatDate (Start p)) (FormatDate (End_ p))
    (GivenNames guest +:+ " " +:+ Surname guest)
    (Email guest) (DocumentId guest) (BillingAddress guest).

Definition err_guest_context : error := Errorf "invalid cached guest context" [].
Definition err_booking_context : error := Errorf "invalid cached booking context" [].

Definition BookCottage_Execute (client : option HttpClient) : go World unit :=
  cacheValue ← Load;
  match PersonalInfo cacheValue with
  | None => throw err_guest_context
  | Some guest =>
  match Booking cacheValue with
  | None => throw err_booking_context
  | Some selected =>
  if String.eqb (SelectedCottage selected) "" then throw err_booking_context else
  match SelectedPeriod selected with
  | None => throw err_booking_context
  | Some p =>
      _ ← guard_err (negb (String.eqb (BookingID selected) ""))
            (Errorf "booking already created for this journey: %s" [BookingID selected]);
      s ← deref_state;
      '(isErr, status, body) ← do_http client POST
          ("/cottage/" +:+ SelectedCottage selected +:+ "/booking") []
          (Some (encode_BookingRequest (bookingRequest (st_GuestId s) guest p)));
      _ ← guard_err isErr (err_status status);
      match body ≫= decode_Confirmation "" with
      | None => throw err_json
      | Some id =>
          Save (set_cv_Booking
                  (Some (mkBooking id (SelectedCottage selected) (SelectedPeriod selected)))
                  cacheValue)
      end
  end end end.

Definition NewBookCottageStep (client : option HttpClient) : Step :=
  mkStep "BookCottageStep" BookCottage_Validate (BookCottage_Execute client).

(** *** [register_guest.go] *)

Definition RegisterGuest_Validate (client : option HttpClient) : go World unit :=
  _ ← guard_err (is_nil client) (Errorf "invalid guest client" []);
  _ ← require_state;
  require_cache.

Definition RegisterGuest_Execute (client : option HttpClient) : go World unit :=
  cacheValue ← Load;
  match PersonalInfo cacheValue with
  | None => throw err_guest_context
  | Some guest =>
      _ ← update_state (set_Guest (Some guest));
      '(isErr, status, body) ← do_http client POST "/guest" [] (Some (encode_Guest guest));
      (* the error shown is [resp.Error()], which no caller sets *)
      _ ← guard_err isErr (err_status "%!s(<nil>)");
      match body ≫= decode_string "" with
      | None => throw err_json
      | Some guestId =>
          _ ← update_state (set_GuestId guestId);
          Save (set_cv_PersonalInfo (Some guest) (set_cv_GuestID guestId cacheValue))
      end
  end.

Definition NewRegisterGuestStep (client : option HttpClient) : Step :=
  mkStep "RegisterGuestStep" (RegisterGuest_Validate client) (RegisterGuest_Execute client).

(** *** [retrieve_guest.go]: the validation reads the state without a nil check *)

Definition RetrieveGuest_Execute (client : option HttpClient) : go World unit :=
  s ← deref_state;
  '(isErr, status, _) ← do_http client GET ("/guest/" +:+ st_GuestId s) [] None;
  guard_err isErr (err_status status).

Definition NewRetrieveGuestStep (client : option HttpClient) : Step :=
  mkStep "RetrieveGuestStep" require_guestId (RetrieveGuest_Execute client).

(** *** [pay_invoice.go] *)

Definition PayInvoice_Validate (client : option HttpClient) : go World unit :=
  _ ← require_state;
  _ ← require_guestId;
  _ ← require_cache;
  guard_err (is_nil client) (Errorf "invalid payment client" []).

Definition holderName (g : Guest) : string := TrimSpace (GivenNames g +:+ " " +:+ Surname g).

Definition payWithCard (g : Guest) : PayWithCardRequest :=
  mkPayWithCardRequest "4111111111111111" "VISA" 12 2030 "123" (holderName g).

(** The booking of a journey that may be paid for. *)
Definition payable_booking (b : option GuestJourneyBooking) : bool :=
  match b with
  | None => false
  | Some b => negb (String.eqb (BookingID b) "" || String.eqb (SelectedCottage b) ""
                    || is_nil (SelectedPeriod b))
  end.

Definition err_invoice_context : error := Errorf "invalid cached invoice context" [].

Definition PayInvoice_Execute (client : option HttpClient) : go World unit :=
  _ ← PayInvoice_Validate client;
  cacheValue ← Load;
  match PersonalInfo cacheValue with
  | None => throw err_guest_context
  | Some guest =>
      _ ← guard_err (negb (payable_booking (Booking cacheValue))) err_booking_context;
      match Invoice cacheValue with
      | None => throw err_invoice_context
      | Some invoice =>
          _ ← guard_err (String.eqb (InvoiceNumber invoice) "") err_invoice_context;
          '(isErr, status, body) ← do_http client POST
              ("/v1/payments/invoice/" +:+ InvoiceNumber invoice) []
              (Some (encode_PayWithCardRequest (payWithCard guest)));
          _ ← guard_err isErr (Errorf "pay invoice %s: %s" [InvoiceNumber invoice; status]);
          match body ≫= decode_PayWithCardResponse (mkPayWithCardResponse "" "" "") with
          | None => throw err_json
          | Some resp =>
              _ ← guard_err (negb (String.eqb (pay_Status resp) "PAYMENT_STATUS_SUCCEEDED"))
                    (Errorf "payment for invoice %s returned status %s"
                       [InvoiceNumber invoice; pay_Status resp]);
              Save (set_cv_Invoice
                      (Some (mkInvoice (InvoiceNumber invoice) (pay_ReceiptNumber resp)))
                      cacheValue)
          end
      end
  end.

Definition NewPayInvoiceStep (client : option HttpClient) : Step :=
  mkStep "PayInvoiceStep" (PayInvoice_Validate client) (PayInvoice_Execute client).
End Steps.

(** ** What the steps do *)

Section StepSpecs.
Context {G : GoLib} {R : RedisServer} {RL : RedisLaws R} {E : Env}.

(** Saving a journey whose key is set leaves its state as it is. *)
Lemma saved_state w v w' s v' :
  cached w v -> w_state w = Some s -> Save v' w = (Ret tt, w') -> w_state w' = Some s.
Proof.
  intros (s0 & db & j & Hs0 & _ & [Hk _] & _) Hs H. destruct (Save_Ret _ _ _ H) as (Hf & _).
  destruct (frame_state _ _ Hf) as (s1 & Hs1 & ->). simplify_eq. by rewrite set_RedisKey_same.
Qed.

(** The booking request of a journey. *)
Definition book_request (cl : HttpClient) (guestId : string) (g : Guest)
    (b : GuestJourneyBooking) (p : Period) : HttpRequest :=
  mkHttpRequest cl POST ("/cottage/" +:+ SelectedCottage b +:+ "/booking") []
    (Some (encode_BookingRequest (bookingRequest guestId g p))).

(** A cached value a booking may be made from. *)
Definition bookable (v : GuestJourneyCacheValue) (g : Guest) (b : GuestJourneyBooking)
    (p : Period) : Prop :=
  PersonalInfo v = Some g /\ Booking v = Some b /\ SelectedCottage b <> ""
  /\ SelectedPeriod b = Some p /\ BookingID b = "".

(** The rest of [BookCottage] after a context it accepts. *)
Lemma BookCottage_cases client w v :
  cached w v ->
  let w' := snd (BookCottage_Execute client w) in
  (w_http w' = w_http w /\ fst (BookCottage_Execute client w) <> Ret tt)
  \/ exists g b p s w1, bookable v g b p /\ w_state w = Some s
       /\ w_state w1 = Some s /\ w_http w1 = w_http w /\ cached w1 v
       /\ BookCottage_Execute client w =
           ('(isErr, status, body) ← do_http client POST
               ("/cottage/" +:+ SelectedCottage b +:+ "/booking") []
               (Some (encode_BookingRequest (bookingRequest (st_GuestId s) g p)));
            _ ← guard_err isErr (err_status status);
            match body ≫= decode_Confirmation "" with
            | None => throw err_json
            | Some id =>
                Save (set_cv_Booking
                        (Some (mkBooking id (SelectedCottage b) (SelectedPeriod b))) v)
            end) w1.
Proof.
  intros Hc. cbv zeta. destruct (Load_any w v Hc) as (w1 & Hh & Hs & [[El Hc1]|[e El]]);
    unfold BookCottage_Execute; [|left; by rewrite (bind_Err _ _ _ _ _ El)].
  rewrite (bind_Ret _ _ _ _ _ El).
  destruct (PersonalInfo v) as [g|] eqn:Eg; [|by left].
  destruct (Booking v) as [b|] eqn:Eb; [|by left].
  destruct (String.eqb (SelectedCottage b) "") eqn:Ec; [by left|].
  destruct (SelectedPeriod b) as [p|] eqn:Ep; [|by left].
  destruct (String.eqb (BookingID b) "") eqn:Ei; [|by left].
  destruct Hc as (s & db & j & Hs' & _).
  right. exists g, b, p, s, w1. apply String.eqb_neq in Ec. apply String.eqb_eq in Ei.
  split; [done|]. split; [done|]. split; [congruence|]. split; [done|]. split; [done|].
  simpl negb. rewrite bind_guard_false. rewrite Ep.
  erewrite bind_Ret; [reflexivity|]. unfold deref_state. by rewrite Hs, Hs'.
Qed.

Lemma BookCottage_requests client w v :
  cached w v ->
  let w' := snd (BookCottage_Execute client w) in
  w_http w' = w_http w
  \/ exists cl s g b p, client = Some cl /\ w_state w = Some s /\ bookable v g b p
       /\ w_http w' = w_http w ++ [book_request cl (st_GuestId s) g b p].
Proof.
  intros Hc. cbv zeta. destruct (BookCottage_cases client w v Hc)
    as [[H _]|(g & b & p & s & w1 & Hb & Hs & Hs1 & Hh & Hc1 & ->)]; [by left|].
  destruct (do_http client POST ("/cottage/" +:+ SelectedCottage b +:+ "/booking") []
              (Some (encode_BookingRequest (bookingRequest (st_GuestId s) g p))) w1)
    as [r w2] eqn:Ed. pose proof Ed as Ed'.
  apply do_http_any in Ed' as [(-> & -> & ->)|(cl & -> & -> & Hr)].
  - left. by rewrite (bind_Panic _ _ _ _ _ Ed).
  - right. exists cl, s, g, b, p. split; [done|]. split; [done|]. split; [done|].
    rewrite <- Hh.
    destruct r as [[[ie st] body]|e|q|]; try by destruct (env_http _).
    + rewrite (bind_Ret _ _ _ _ _ Ed). destruct ie; [done|].
      rewrite bind_guard_false. destruct (body ≫= _) as [id|]; [|done].
      destruct (Save _ _) as [r' w3] eqn:Es. apply Save_http in Es. cbn [snd]. by rewrite Es.
    + by rewrite (bind_Err _ _ _ _ _ Ed).
Qed.

Lemma BookCottage_Ret client w v w' :
  cached w v -> cacheValue_exact v ->
  BookCottage_Execute client w = (Ret tt, w') ->
  exists cl s g b p st body id,
    client = Some cl /\ w_state w = Some s /\ bookable v g b p
    /\ w_http w' = w_http w ++ [book_request cl (st_GuestId s) g b p]
    /\ env_http (w_http w') = HttpResponse false st (Some body)
    /\ decode_Confirmation "" body = Some id
    /\ w_state w' = Some s
    /\ cached w' (set_cv_Booking (Some (mkBooking id (SelectedCottage b) (Some p))) v).
Proof.
  intros Hc Hex Hx. destruct (BookCottage_cases client w v Hc)
    as [[_ H]|(g & b & p & s & w1 & Hb & Hs & Hs1 & Hh & Hc1 & E1)]; [by rewrite Hx in H|].
  rewrite E1 in Hx. clear E1. go_inv Hx. destruct v0 as [[ie st] body].
  apply do_http_Ret in Hrun as (cl & -> & -> & He).
  go_inv Hx. apply guard_inv in Hrun as [-> <-].
  destruct body as [body|]; [|done]. simpl in Hx.
  destruct (decode_Confirmation "" body) as [id|] eqn:Ed; [|done].
  destruct (Save_Ret _ _ _ Hx) as (Hf & Hcached & _). pose proof (frame_http _ _ Hf) as Hh'.
  exists cl, s, g, b, p, st, body, id. rewrite Hh'. cbn [w_http set_http].
  rewrite Hh. cbn [w_http set_http] in He. rewrite Hh in He.
  destruct Hb as (Hg & Hb & Hne & Hp & Hi). rewrite Hp in Hcached.
  do 6 (split; [done|]). split; [exact (saved_state (set_http _ w1) v w' s _ Hc1 Hs1 Hx)|]. apply (Hcached (cached_owned _ _ Hc1)).
  intros b' p' [= <-] [= <-]. by apply (Hex b p).
Qed.

(** C12: whatever its outcome, [BookCottageStep] sends at most one request, the booking of
    the cached stay for the cached guest, and only when the journey has a guest, a chosen
    cottage and period and no booking yet. When it succeeds it sent that request, the
    service accepted it, and the identifier it answered with is the cached one, the rest of
    the cached value and the state unchanged. *)
Theorem BookCottage_correct client w v :
  cached w v ->
  let w' := snd (BookCottage_Execute client w) in
  (w_http w' = w_http w
   \/ exists cl s g b p, client = Some cl /\ w_state w = Some s /\ bookable v g b p
        /\ w_http w' = w_http w ++ [book_request cl (st_GuestId s) g b p])
  /\ (cacheValue_exact v -> fst (BookCottage_Execute client w) = Ret tt ->
      exists cl s g b p st body id,
        client = Some cl /\ w_state w = Some s /\ bookable v g b p
        /\ w_http w' = w_http w ++ [book_request cl (st_GuestId s) g b p]
        /\ env_http (w_http w') = HttpResponse false st (Some body)
        /\ decode_Confirmation "" body = Some id
        /\ w_state w' = Some s
        /\ cached w' (set_cv_Booking (Some (mkBooking id (SelectedCottage b) (Some p))) v)).
Proof.
  intros Hc. split; [by apply BookCottage_requests|]. intros Hex Hr.
  apply (BookCottage_Ret client w v); [done|done|]. by rewrite <- Hr, <- surjective_pairing.
Qed.

(** A cached value an invoice may be paid from. *)
Definition payable (v : GuestJourneyCacheValue) (g : Guest) (i : GuestJourneyInvoice) : Prop :=
  PersonalInfo v = Some g
  /\ (exists b p, Booking v = Some b /\ BookingID b <> "" /\ SelectedCottage b <> ""
        /\ SelectedPeriod b = Some p)
  /\ Invoice v = Some i /\ InvoiceNumber i <> "".

Definition pay_request (cl : HttpClient) (g : Guest) (i : GuestJourneyInvoice) : HttpRequest :=
  mkHttpRequest cl POST ("/v1/payments/invoice/" +:+ InvoiceNumber i) []
    (Some (encode_PayWithCardRequest (payWithCard g))).

Lemma PayInvoice_Validate_any client w s c :
  w_state w = Some s -> w_cache w = Some c ->
  PayInvoice_Validate client w =
    (if String.eqb (st_GuestId s) "" then Err err_guestId_empty
     else match client with None => Err (Errorf "invalid payment client" []) | Some _ => Ret tt end,
     w).
Proof.
  intros Hs Hc. unfold PayInvoice_Validate, require_state, require_guestId, require_cache,
    state_is_nil, cache_is_nil, deref_state, gets, guard_err, mbind, go_bind, mret, go_ret, throw.
  do 3 (cbn; rewrite ?Hs, ?Hc). destruct (String.eqb _ ""); cbn; [done|].
  rewrite ?Hc. cbn. by destruct client.
Qed.

Lemma payable_booking_true ob :
  payable_booking ob = true ->
  exists b p, ob = Some b /\ BookingID b <> "" /\ SelectedCottage b <> "" /\ SelectedPeriod b = Some p.
Proof.
  destruct ob as [b|]; [|done]. unfold payable_booking. intros H.
  apply negb_true_iff in H. apply orb_false_iff in H as [H Hp]. apply orb_false_iff in H as [Hi Hc].
  apply String.eqb_neq in Hi, Hc. destruct (SelectedPeriod b) as [p|] eqn:Ep; [|done].
  by exists b, p.
Qed.

Lemma PayInvoice_cases client w v :
  cached w v ->
  let w' := snd (PayInvoice_Execute client w) in
  (w_http w' = w_http w /\ fst (PayInvoice_Execute client w) <> Ret tt)
  \/ exists cl g i w1, client = Some cl /\ payable v g i
       /\ w_http w1 = w_http w /\ w_state w1 = w_state w /\ cached w1 v
       /\ PayInvoice_Execute client w =
           ('(isErr, status, body) ← do_http (Some cl) POST
              ("/v1/payments/invoice/" +:+ InvoiceNumber i) []
              (Some (encode_PayWithCardRequest (payWithCard g)));
            _ ← guard_err isErr (Errorf "pay invoice %s: %s" [InvoiceNumber i; status]);
            match body ≫= decode_PayWithCardResponse (mkPayWithCardResponse "" "" "") with
            | None => throw err_json
            | Some resp =>
                _ ← guard_err (negb (String.eqb (pay_Status resp) "PAYMENT_STATUS_SUCCEEDED"))
                      (Errorf "payment for invoice %s returned status %s"
                         [InvoiceNumber i; pay_Status resp]);
                Save (set_cv_Invoice (Some (mkInvoice (InvoiceNumber i) (pay_ReceiptNumber resp))) v)
            end) w1.
Proof.
  intros Hc. cbv zeta. pose proof Hc as (s & db & j & Hs & Hdb & _).
  pose proof (PayInvoice_Validate_any client w s _ Hs Hdb) as Hv.
  unfold PayInvoice_Execute.
  destruct (String.eqb (st_GuestId s) ""); [left; by rewrite (bind_Err _ _ _ _ _ Hv)|].
  destruct client as [cl|]; [|left; by rewrite (bind_Err _ _ _ _ _ Hv)].
  rewrite (bind_Ret _ _ _ _ _ Hv).
  destruct (Load_any w v Hc) as (w1 & Hh & Hst & [[El Hc1]|[e El]]);
    [|left; by rewrite (bind_Err _ _ _ _ _ El)].
  rewrite (bind_Ret _ _ _ _ _ El).
  destruct (PersonalInfo v) as [g|] eqn:Eg; [|by left].
  destruct (payable_booking (Booking v)) eqn:Eb; [|by left].
  simpl negb. rewrite bind_guard_false.
  destruct (Invoice v) as [i|] eqn:Ei; [|by left].
  destruct (String.eqb (InvoiceNumber i) "") eqn:En; [by left|].
  right. apply String.eqb_neq in En. exists cl, g, i, w1. rewrite bind_guard_false.
  apply payable_booking_true in Eb. unfold payable. rewrite Eg, Ei. done.
Qed.

Lemma PayInvoice_requests client w v :
  cached w v ->
  let w' := snd (PayInvoice_Execute client w) in
  w_http w' = w_http w
  \/ exists cl g i, client = Some cl /\ payable v g i
       /\ w_http w' = w_http w ++ [pay_request cl g i].
Proof.
  intros Hc. cbv zeta. destruct (PayInvoice_cases client w v Hc)
    as [[H _]|(cl & g & i & w1 & -> & Hp & Hh & Hst & Hc1 & ->)]; [by left|].
  destruct (do_http (Some cl) POST ("/v1/payments/invoice/" +:+ InvoiceNumber i) []
              (Some (encode_PayWithCardRequest (payWithCard g))) w1) as [r w2] eqn:Ed.
  pose proof Ed as Ed'.
  apply do_http_any in Ed' as [(? & _ & _)|(cl' & [= <-] & -> & Hr)]; [done|].
  right. exists cl, g, i. split; [done|]. split; [done|]. rewrite <- Hh.
  destruct r as [[[ie st] body]|e|q|]; try by destruct (env_http _).
  - rewrite (bind_Ret _ _ _ _ _ Ed). destruct ie; [done|].
    rewrite bind_guard_false. destruct (body ≫= _) as [resp|]; [|done].
    destruct (negb _); [done|]. rewrite bind_guard_false.
    destruct (Save _ _) as [r' w3] eqn:Es. apply Save_http in Es. cbn [snd]. by rewrite Es.
  - by rewrite (bind_Err _ _ _ _ _ Ed).
Qed.

Lemma PayInvoice_Ret client w v w' :
  cached w v -> cacheValue_exact v ->
  PayInvoice_Execute client w = (Ret tt, w') ->
  exists cl g i st body resp,
    client = Some cl /\ payable v g i
    /\ w_http w' = w_http w ++ [pay_request cl g i]
    /\ env_http (w_http w') = HttpResponse false st (Some body)
    /\ decode_PayWithCardResponse (mkPayWithCardResponse "" "" "") body = Some resp
    /\ pay_Status resp = "PAYMENT_STATUS_SUCCEEDED"
    /\ w_state w' = w_state w
    /\ cached w' (set_cv_Invoice (Some (mkInvoice (InvoiceNumber i) (pay_ReceiptNumber resp))) v).
Proof.
  intros Hc Hex Hx. destruct (PayInvoice_cases client w v Hc)
    as [[_ H]|(cl & g & i & w1 & -> & Hp & Hh & Hst1 & Hc1 & E1)]; [by rewrite Hx in H|].
  rewrite E1 in Hx. clear E1. go_inv Hx. destruct v0 as [[ie st] body].
  apply do_http_Ret in Hrun as (? & [= <-] & -> & He).
  go_inv Hx. apply guard_inv in Hrun as [-> <-].
  destruct body as [body|]; [|done]. simpl in Hx.
  destruct (decode_PayWithCardResponse _ body) as [resp|] eqn:Ed; [|done].
  go_inv Hx. apply guard_inv in Hrun as [Hst <-].
  apply negb_false_iff, String.eqb_eq in Hst.
  destruct (Save_Ret _ _ _ Hx) as (Hf & Hcached & _). pose proof (frame_http _ _ Hf) as Hh'.
  exists cl, g, i, st, body, resp. rewrite Hh'. cbn [w_http set_http].
  rewrite Hh. cbn [w_http set_http] in He. rewrite Hh in He.
  do 6 (split; [done|]). split; [|by apply (Hcached (cached_owned _ _ Hc1))].
  pose proof Hc as (s & _ & _ & Hs & _). rewrite Hs.
  refine (saved_state (set_http _ w1) v w' s _ Hc1 _ Hx). cbn. congruence.
Qed.

(** C13: whatever its outcome, [PayInvoiceStep] sends at most one request, the payment of the
    cached invoice with the guest's trimmed name, and only for a journey that has a guest,
    a complete booking and an invoice number. It succeeds only when it sent that request
    and the payment service answered with [PAYMENT_STATUS_SUCCEEDED]; the receipt it gave
    is then the cached one. *)
Theorem PayInvoice_correct client w v :
  cached w v ->
  let w' := snd (PayInvoice_Execute client w) in
  (w_http w' = w_http w
   \/ exists cl g i, client = Some cl /\ payable v g i
        /\ w_http w' = w_http w ++ [pay_request cl g i])
  /\ (cacheValue_exact v -> fst (PayInvoice_Execute client w) = Ret tt ->
      exists cl g i st body resp,
        client = Some cl /\ payable v g i
        /\ w_http w' = w_http w ++ [pay_request cl g i]
        /\ env_http (w_http w') = HttpResponse false st (Some body)
        /\ decode_PayWithCardResponse (mkPayWithCardResponse "" "" "") body = Some resp
        /\ pay_Status resp = "PAYMENT_STATUS_SUCCEEDED"
        /\ w_state w' = w_state w
        /\ cached w' (set_cv_Invoice (Some (mkInvoice (InvoiceNumber i) (pay_ReceiptNumber resp))) v)).
Proof.
  intros Hc. split; [by apply PayInvoice_requests|]. intros Hex Hr.
  apply (PayInvoice_Ret client w v); [done|done|]. by rewrite <- Hr, <- surjective_pairing.
Qed.

Lemma update_state_Ret f w u w' :
  update_state f w = (Ret u, w') ->
  exists s, w_state w = Some s /\ w' = set_state (Some (f s)) w.
Proof. unfold update_state. destruct (w_state w) as [s|]; [|done]. intros [= _ <-]. eauto. Qed.

Lemma deref_state_Ret w s w' :
  deref_state w = (Ret s, w') -> w_state w = Some s /\ w' = w.
Proof. unfold deref_state. destruct (w_state w); [|done]. by intros [= <- <-]. Qed.

Lemma cached_set_state f w v s :
  cached w v -> w_state w = Some s -> st_RedisKey (f s) = st_RedisKey s ->
  cached (set_state (Some (f s)) w) v.
Proof.
  intros (s' & db & j & Hs & Hdb & Hk & Hv & Hd) Hs' Hf. simplify_eq.
  exists (f s'), db, j. by rewrite Hf.
Qed.

(** When [RegisterGuestStep] succeeds, the cached guest was registered with one
    request; the identifier the service answered with is the journey's, in the shared
    state and in the cached value alike, and the state now holds the guest. *)
Lemma RegisterGuest_success client w v w' :
  cached w v -> cacheValue_exact v ->
  RegisterGuest_Execute client w = (Ret tt, w') ->
  exists cl s g st body id,
    client = Some cl /\ w_state w = Some s /\ PersonalInfo v = Some g
    /\ w_http w' = w_http w ++ [mkHttpRequest cl POST "/guest" [] (Some (encode_Guest g))]
    /\ env_http (w_http w') = HttpResponse false st (Some body)
    /\ decode_string "" body = Some id
    /\ w_state w' = Some (set_GuestId id (set_Guest (Some g) s))
    /\ cached w' (set_cv_GuestID id v).
Proof.
  intros Hc Hex Hx. unfold RegisterGuest_Execute in Hx. go_inv Hx.
  destruct (Load_cached _ _ _ _ Hc Hrun) as [-> Hst].
  destruct (Load_Ret _ _ _ Hrun) as [_ [Hh _ _ _ _]].
  destruct Hc as (s & db & j & Hs & Hdb & [Hk Ho] & _).
  destruct (PersonalInfo v) as [g|] eqn:Eg; [|done].
  go_inv Hx. apply update_state_Ret in Hrun0 as (s0 & Hs0 & ->).
  rewrite Hst, Hs in Hs0. injection Hs0 as <-.
  go_inv Hx. destruct v1 as [[ie st] body].
  apply do_http_Ret in Hrun0 as (cl & -> & -> & He).
  go_inv Hx. apply guard_inv in Hrun0 as [-> <-].
  destruct body as [body|]; [|done]. simpl in Hx.
  destruct (decode_string "" body) as [id|] eqn:Ed; [|done].
  go_inv Hx. apply update_state_Ret in Hrun0 as (s1 & [= <-] & ->).
  destruct (Save_Ret _ _ _ Hx) as ([Hh' _ _ _ (s2 & [= <-] & Hs2')] & Hcached & _).
  exists cl, s, g, st, body, id. rewrite Hh', Hs2'. cbn [w_http set_http set_state] in He |- *.
  rewrite Hh in He |- *. repeat (split; [done|]).
  split; [by rewrite set_RedisKey_same|].
  replace (set_cv_GuestID id v) with (set_cv_PersonalInfo (Some g) (set_cv_GuestID id v))
    by (unfold set_cv_PersonalInfo; simpl; by rewrite <- Eg).
  apply Hcached; [|done]. eexists. split; [done|]. by rewrite cache_key_set.
Qed.

(** [ListCottagesStep] sends one request and replaces the names by those of the
    answer, in order; nothing else of the state changes, and a failed call changes
    nothing of it. *)
Lemma ListCottages_correct client w s :
  w_state w = Some s ->
  let w' := snd (ListCottages_Execute client w) in
  match fst (ListCottages_Execute client w) with
  | Ret _ => exists cl st body cottages, client = Some cl
      /\ w_http w' = w_http w ++ [mkHttpRequest cl GET "/cottages" [] None]
      /\ env_http (w_http w') = HttpResponse false st (Some body)
      /\ decode_Cottages [] body = Some cottages
      /\ w_state w' = Some (set_CottageNames (Some (map Cottage_Name cottages)) s)
  | Panic _ => client = None
  | Err _ => w_state w' = Some s
  | Stuck => False
  end.
Proof.
  intros Hs. cbv zeta. unfold ListCottages_Execute.
  destruct (do_http client GET "/cottages" [] None w) as [r w1] eqn:Ed. pose proof Ed as Ed'.
  apply do_http_any in Ed' as [(-> & -> & ->)|(cl & -> & -> & Hr)];
    [by rewrite (bind_Panic _ _ _ _ _ Ed)|].
  destruct r as [[[ie st] body]|e|p|]; try by destruct (env_http _).
  - rewrite (bind_Ret _ _ _ _ _ Ed). destruct ie; [done|]. rewrite bind_guard_false.
    destruct body as [body|]; [|done]. simpl.
    destruct (decode_Cottages [] body) as [cottages|] eqn:Ec; [|done].
    unfold update_state. simpl. rewrite Hs. simpl. exists cl, st, body, cottages.
    repeat (split; [done|]). split; [|done]. cbn [w_http set_http] in Hr.
    destruct (env_http _) eqn:Ee; [done|]. by simplify_eq.
  - by rewrite (bind_Err _ _ _ _ _ Ed).
Qed.

(** With a listed, non-empty set of cottages [SelectCottageStep] never panics, sends
    nothing, and a success caches one of the names and keeps the booking identifier and
    the period; before any listing its validation accepts a state on which its execution
    panics. *)
Theorem SelectCottage_correct w v s :
  cached w v -> cacheValue_exact v -> w_state w = Some s ->
  match st_CottageNames s with
  | None => SelectCottage_Validate w = (Ret tt, w)
            /\ exists why, SelectCottage_Execute w = (Panic why, w)
  | Some [] => exists e, SelectCottage_Validate w = (Err e, w)
  | Some names =>
      SelectCottage_Validate w = (Ret tt, w)
      /\ w_http (snd (SelectCottage_Execute w)) = w_http w
      /\ match fst (SelectCottage_Execute w) with
         | Ret _ => exists name, name ∈ names
             /\ let b := default zeroBooking (Booking v) in
                cached (snd (SelectCottage_Execute w))
                  (set_cv_Booking (Some (mkBooking (BookingID b) name (SelectedPeriod b))) v)
         | Err _ => True
         | Panic _ | Stuck => False
         end
  end.
Proof.
  intros Hc Hex Hs. pose proof Hc as (s' & db & j & Hs' & Hdb & Hk & _). simplify_eq.
  assert (Hval : SelectCottage_Validate w =
    (if match st_CottageNames s with Some [] => true | _ => false end
     then Err (Errorf "invalid state, cottageNames is empty" []) else Ret tt, w)).
  { unfold SelectCottage_Validate, require_state, require_cache, state_is_nil, cache_is_nil,
      deref_state, gets, guard_err, mbind, go_bind, mret, go_ret, throw.
    do 4 (cbn; rewrite ?Hs, ?Hdb). by destruct (st_CottageNames s) as [[|]|]. }
  destruct (st_CottageNames s) as [names|] eqn:En; [|split; [done|]].
  - destruct names as [|n0 names0] eqn:Enames; [eauto|]. rewrite <- Enames in *.
    replace (match names with [] => true | _ => false end) with false in Hval
      by (by rewrite Enames).
    split; [by rewrite Hval|].
    unfold SelectCottage_Execute.
    erewrite bind_Ret by (unfold deref_state; by rewrite Hs). cbv zeta. rewrite En. simpl default.
    set (k := Z.of_nat (length names)).
    assert (0 < k) by (unfold k; rewrite Enames; simpl; lia).
    assert (Hr : rand_Intn k w = (Ret (env_rand (w_rand w) mod k), tick_rand w)).
    { unfold rand_Intn. by replace (k <=? 0) with false by (symmetry; apply Z.leb_gt; lia). }
    rewrite (bind_Ret _ _ _ _ _ Hr).
    pose proof (Z.mod_pos_bound (env_rand (w_rand w)) k ltac:(lia)) as Hb.
    destruct (lookup_lt_is_Some_2 names (Z.to_nat (env_rand (w_rand w) mod k))) as [name Hname];
      [unfold k in *; lia|]. rewrite Hname.
    destruct (Load_any (tick_rand w) v Hc) as (w1 & Hh & Hst & [[El Hc1]|[e El]]);
      [|by rewrite (bind_Err _ _ _ _ _ El)].
    rewrite (bind_Ret _ _ _ _ _ El). 
    destruct (Save _ w1) as [r w2] eqn:Es. cbn [fst snd].
    split; [rewrite (Save_http _ _ _ _ Es); by rewrite Hh|].
    pose proof (Save_total _ _ _ _ _ Hc1 Es) as Ht.
    destruct r as [[]|e|p|]; try done.
    exists name. split; [by eapply list_elem_of_lookup_2|].
    apply (Save_Ret _ _ _ Es); [by eapply cached_owned|]. intros b p [= <-] Hp. simpl in Hp.
    destruct (Booking v) as [b'|] eqn:Eb; simpl in Hp; [|done]. by apply (Hex b').
  - unfold SelectCottage_Execute.
    erewrite bind_Ret by (unfold deref_state; by rewrite Hs). cbv zeta. rewrite En. simpl. eauto.
Qed.
End StepSpecs.

(** ** Concrete runs *)

Section Witnesses.
#[local] Existing Instances sample_lib sample_redis sample_redis_laws.

#[local] Instance steps_env : Env :=
  sample_env
    [(POST, "/cottage/Aspen/booking",
       HttpResponse false "201 Created" (Some (JObj [("bookingId", JStr "b-1")])));
     (POST, "/v1/payments/invoice/inv-1",
       HttpResponse false "200 OK"
         (Some (JObj [("receiptNumber", JStr "r-1"); ("status", JStr "PAYMENT_STATUS_SUCCEEDED")])));
     (POST, "/guest", HttpResponse false "201 Created" (Some (JStr "g-9")));
     (GET, "/cottages", HttpResponse false "200 OK" (Some (JArr [JObj [("name", JStr "Aspen")]])))]
    sample_now.

Lemma BookCottage_correct_witness :
  cached (sample_world sample_chosen) sample_chosen
  /\ exists b, cached (snd (BookCottage_Execute (Some CottageManager) (sample_world sample_chosen)))
                (set_cv_Booking (Some b) sample_chosen).
Proof.
  split; [exact sample_chosen_cached|].
  assert (H : fst (BookCottage_Execute (Some CottageManager) (sample_world sample_chosen)) = Ret tt)
    by (vm_compute; reflexivity).
  destruct (BookCottage_correct (Some CottageManager) _ _ sample_chosen_cached) as [_ K].
  destruct (K (sample_exact _ ltac:(right; left)) H)
    as (cl & s & g & b & p & st & body & id & _ & _ & _ & _ & _ & _ & _ & Hc).
  eexists. exact Hc.
Defined.

Lemma PayInvoice_correct_witness :
  cached (sample_world sample_booked) sample_booked
  /\ exists i, cached (snd (PayInvoice_Execute (Some PaymentSimulator) (sample_world sample_booked)))
                (set_cv_Invoice (Some i) sample_booked).
Proof.
  split; [exact sample_booked_cached|].
  assert (H : fst (PayInvoice_Execute (Some PaymentSimulator) (sample_world sample_booked)) = Ret tt)
    by (vm_compute; reflexivity).
  destruct (PayInvoice_correct (Some PaymentSimulator) _ _ sample_booked_cached) as [_ K].
  destruct (K (sample_exact _ ltac:(right; right; left)) H)
    as (cl & g & i & st & body & resp & _ & _ & _ & _ & _ & _ & _ & Hc).
  eexists. exact Hc.
Defined.

Lemma RegisterGuest_success_witness :
  exists w', RegisterGuest_Execute (Some GuestManager) (sample_world sample_fresh) = (Ret tt, w')
    /\ exists id, cached w' (set_cv_GuestID id sample_fresh).
Proof.
  assert (H : fst (RegisterGuest_Execute (Some GuestManager) (sample_world sample_fresh)) = Ret tt)
    by (vm_compute; reflexivity).
  apply run_ok in H. revert H.
  generalize (snd (RegisterGuest_Execute (Some GuestManager) (sample_world sample_fresh))).
  intros w' H. exists w'. split; [exact H|].
  destruct (RegisterGuest_success _ _ _ _ sample_fresh_cached (sample_exact _ ltac:(left)) H)
    as (cl & s & g & st & body & id & _ & _ & _ & _ & _ & _ & _ & Hc).
  eexists. exact Hc.
Defined.

Lemma ListCottages_correct_witness :
  exists w', ListCottages_Execute (Some CottageManager) (sample_world sample_fresh) = (Ret tt, w')
    /\ w_state w' = Some (set_CottageNames (Some ["Aspen"]) sample_state).
Proof.
  pose proof (ListCottages_correct (Some CottageManager) (sample_world sample_fresh) sample_state
                eq_refl) as H.
  assert (E : fst (ListCottages_Execute (Some CottageManager) (sample_world sample_fresh)) = Ret tt)
    by (vm_compute; reflexivity).
  cbv zeta in H. rewrite E in H. apply run_ok in E. eexists. split; [exact E|].
  destruct H as (cl & st & body & cs & _ & Hh & He & Hd & ->).
  rewrite Hh in He. vm_compute in He. injection He as _ <-.
  vm_compute in Hd. injection Hd as <-. reflexivity.
Defined.

Lemma SelectCottage_correct_witness :
  cached (sample_world sample_chosen) sample_chosen
  /\ w_http (snd (SelectCottage_Execute (sample_world sample_chosen))) = [].
Proof.
  split; [exact sample_chosen_cached|].
  destruct (SelectCottage_correct _ _ sample_state sample_chosen_cached
              (sample_exact _ ltac:(right; left)) eq_refl) as (_ & H & _).
  exact H.
Defined.
End Witnesses.
