(* ===== verification/Flow.v ===== *)
(** * Step graphs: [flows/flow.go], [services/step_selector_service.go], [config/*_flow.go]

    A flow walks a graph of steps; the next step is drawn among weighted transitions.
    Steps are objects compared by identity: a graph is over any type [T] of step
    identities with an interpretation as [Step]s. *)

From Stdlib Require Import ZArith Lia Floats.SpecFloat.
From stdpp Require Import base tactics list option strings gmap.
From S2P Require Import Prelude GoEffects GoTime GoText Domain Json World Samples SelectPeriod Steps.
Open Scope Z_scope.

(** ** [float64] *)

Definition f64 : Type := spec_float.
Definition f64_add : f64 -> f64 -> f64 := SFadd 53 1024.
Definition f64_sub : f64 -> f64 -> f64 := SFsub 53 1024.
Definition f64_mul : f64 -> f64 -> f64 := SFmul 53 1024.
Definition f64_zero : f64 := S754_zero false.
Definition f64_of_Z (z : Z) : f64 := binary_normalize 53 1024 z 0 false.
(** The constant [n/d], correctly rounded. *)
Definition f64_const (n d : Z) : f64 := SFdiv 53 1024 (f64_of_Z n) (f64_of_Z d).
Definition f64_positive (x : f64) : bool := SFltb f64_zero x.
Definition f64_le_zero (x : f64) : bool := SFleb x f64_zero.

(** [domain.WeightedTuple] *)
Record WeightedTuple (T : Type) := mkWeighted { Value : T; Weight : f64 }.
Arguments mkWeighted {T}.
Arguments Value {T}.
Arguments Weight {T}.

(** The sum of the positive weights. *)
Definition total_weight {T} (l : list (WeightedTuple T)) : f64 :=
  fold_left (fun total item => if f64_positive (Weight item) then f64_add total (Weight item) else total)
    l f64_zero.

(** The loop that subtracts the weights from the target. *)
Fixpoint pick_loop {T} (target : f64) (l : list (WeightedTuple T)) : option T :=
  match l with
  | [] => None
  | item :: rest =>
      if f64_le_zero (Weight item) then pick_loop target rest
      else
        let target := f64_sub target (Weight item) in
        if f64_le_zero target then Some (Value item) else pick_loop target rest
  end.

(** ** The configured graphs *)

Record BookingSteps (T : Type) := mkBookingSteps {
  bs_ListCottages : T;
  bs_SelectCottage : T;
  bs_SelectPeriod : T;
  bs_BookCottage : T;
  bs_End : T
}.
Arguments mkBookingSteps {T}.
Arguments bs_ListCottages {T}.
Arguments bs_SelectCottage {T}.
Arguments bs_SelectPeriod {T}.
Arguments bs_BookCottage {T}.
Arguments bs_End {T}.

(** A graph: its first step and its transitions; a step the map lacks has none. *)
Record FlowDef (T : Type) := mkFlowDef {
  flow_Start : T;
  flow_StateMap : T -> option (list (WeightedTuple T))
}.
Arguments mkFlowDef {T}.
Arguments flow_Start {T}.
Arguments flow_StateMap {T}.

Section Configs.
Context {T : Type} `{EqDecision T}.

(** A map literal over distinct keys. *)
Fixpoint map_literal {V} (kvs : list (T * V)) (k : T) : option V :=
  match kvs with
  | [] => None
  | (k', v) :: rest => if decide (k = k') then Some v else map_literal rest k
  end.

Definition ListCottagesTransitions (flow : BookingSteps T) : list (WeightedTuple T) :=
  [mkWeighted (bs_SelectCottage flow) (f64_const 80 100); mkWeighted (bs_End flow) (f64_const 20 100)].
Definition SelectCottageTransitions (flow : BookingSteps T) : list (WeightedTuple T) :=
  [mkWeighted (bs_SelectPeriod flow) (f64_const 60 100);
   mkWeighted (bs_ListCottages flow) (f64_const 30 100);
   mkWeighted (bs_End flow) (f64_const 10 100)].
Definition SelectPeriodTransitions (flow : BookingSteps T) : list (WeightedTuple T) :=
  [mkWeighted (bs_SelectPeriod flow) (f64_const 30 100);
   mkWeighted (bs_SelectCottage flow) (f64_const 20 100);
   mkWeighted (bs_ListCottages flow) (f64_const 5 100);
   mkWeighted (bs_BookCottage flow) (f64_const 40 100);
   mkWeighted (bs_End flow) (f64_const 5 100)].
Definition BookCottageTransitions (flow : BookingSteps T) : list (WeightedTuple T) :=
  [mkWeighted (bs_End flow) (f64_of_Z 1)].

(** [DefaultBookingFlow] with [BookingFlow.StateMap] *)
Definition DefaultBookingFlow (flow : BookingSteps T) : FlowDef T :=
  mkFlowDef (bs_ListCottages flow)
    (map_literal [(bs_ListCottages flow, ListCottagesTransitions flow);
                  (bs_SelectCottage flow, SelectCottageTransitions flow);
                  (bs_SelectPeriod flow, SelectPeriodTransitions flow);
                  (bs_BookCottage flow, BookCottageTransitions flow)]).

Definition DefaultGuestRegisterFlow (RegisterGuest RetrieveGuest End_ : T) : FlowDef T :=
  mkFlowDef RegisterGuest
    (map_literal [(RegisterGuest, [mkWeighted RetrieveGuest (f64_of_Z 1)]);
                  (RetrieveGuest, [mkWeighted End_ (f64_of_Z 1)])]).

Definition DefaultPaymentFlow (PayInvoice End_ : T) : FlowDef T :=
  mkFlowDef PayInvoice (map_literal [(PayInvoice, [mkWeighted End_ (f64_of_Z 1)])]).
End Configs.

(** ** Walking a graph *)

Section Run.
Context {G : GoLib} {R : RedisServer} {E : Env}.

(** [services.PickRandomWeighted]: the last item when rounding exhausts the list; an
    empty list is indexed at [-1]. *)
Definition PickRandomWeighted {T} (l : list (WeightedTuple T)) : go World T :=
  u ← rand_Float64;
  match pick_loop (f64_mul u (total_weight l)) l with
  | Some v => mret v
  | None =>
      match last l with
      | Some item => mret (Value item)
      | None => go_panic "index out of range [-1]"
      end
  end.

Section Graph.
Context {T : Type}.
Variable steps : T -> Step.
Variable stateMap : T -> option (list (WeightedTuple T)).

(** The [for] loop of [runStepGraph]; the walk is unbounded in the code, [fuel] bounds
    the steps executed. *)
Fixpoint run_from (fuel : nat) (step : T) : go World unit :=
  match fuel with
  | O => stuck
  | S fuel =>
      cancelled ← ctx_Err;
      match cancelled with
      | Some _ => mret tt
      | None =>
          _ ← Validate (steps step);
          _ ← Execute (steps step);
          match stateMap step with
          | None => mret tt
          | Some nextStep =>
              next ← PickRandomWeighted nextStep;
              run_from fuel next
          end
      end
  end.
End Graph.

Definition runStepGraph {T} (fuel : nat) (zeroStep : Step) (steps : T -> Step)
    (firstStep : T) (stateMap : T -> option (list (WeightedTuple T))) : go World unit :=
  _ ← Execute zeroStep;
  run_from steps stateMap fuel firstStep.

(** [flows.Flow] and [Flow.Start] *)
Record Flow := mkFlow {
  flow_T : Type;
  zeroStep : Step;
  flow_steps : flow_T -> Step;
  flow_def : FlowDef flow_T
}.

Definition Flow_Start (fuel : nat) (f : Flow) : go World unit :=
  runStepGraph fuel (zeroStep f) (flow_steps f) (flow_Start (flow_def f)) (flow_StateMap (flow_def f)).
End Run.

(** ** The flows of a journey *)

Inductive BookingStepId := ListCottagesId | SelectCottageId | SelectPeriodId | BookCottageId | BookingEndId.
#[export] Instance BookingStepId_eq_dec : EqDecision BookingStepId.
Proof. solve_decision. Defined.

Inductive RegisterStepId := RegisterGuestId | RetrieveGuestId | RegisterEndId.
#[export] Instance RegisterStepId_eq_dec : EqDecision RegisterStepId.
Proof. solve_decision. Defined.

Inductive PaymentStepId := PayInvoiceId | PaymentEndId.
#[export] Instance PaymentStepId_eq_dec : EqDecision PaymentStepId.
Proof. solve_decision. Defined.

Section Flows.
Context {G : GoLib} {R : RedisServer} {E : Env}.

Definition booking_steps (k : BookingStepId) : Step :=
  match k with
  | ListCottagesId => NewListCottagesStep (Some CottageManager)
  | SelectCottageId => NewSelectCottageStep
  | SelectPeriodId => NewSelectPeriodStep
  | BookCottageId => NewBookCottageStep (Some CottageManager)
  | BookingEndId => NewEndStep
  end.

Definition booking_def : FlowDef BookingStepId :=
  DefaultBookingFlow
    (mkBookingSteps ListCottagesId SelectCottageId SelectPeriodId BookCottageId BookingEndId).

Definition NewBookingFlow : Flow := mkFlow BookingStepId NewNoopStep booking_steps booking_def.

Definition register_steps (k : RegisterStepId) : Step :=
  match k with
  | RegisterGuestId => NewRegisterGuestStep (Some GuestManager)
  | RetrieveGuestId => NewRetrieveGuestStep (Some GuestManager)
  | RegisterEndId => NewEndStep
  end.

Definition register_def : FlowDef RegisterStepId :=
  DefaultGuestRegisterFlow RegisterGuestId RetrieveGuestId RegisterEndId.

Definition NewGuestRegisterFlowWithState : Flow :=
  mkFlow RegisterStepId NewNoopStep register_steps register_def.

Definition payment_steps (k : PaymentStepId) : Step :=
  match k with
  | PayInvoiceId => NewPayInvoiceStep (Some PaymentSimulator)
  | PaymentEndId => NewEndStep
  end.

Definition payment_def : FlowDef PaymentStepId := DefaultPaymentFlow PayInvoiceId PaymentEndId.

Definition NewPaymentFlowWithState : Flow :=
  mkFlow PaymentStepId NewNoopStep payment_steps payment_def.
End Flows.

(** ** The steps do not panic *)

Section StepSafety.
Context {G : GoLib} {R : RedisServer} {E : Env}.

Lemma require_state_safe t b : safe t (ready b) require_state (fun _ => ready b).
Proof.
  unfold require_state. safe_seq @safe_gets as ?.
  eapply safe_weaken; [apply safe_guard| |]; [by intros ? H; exact H|by intros ? ? [? _]].
Qed.

Lemma require_cache_safe t b : safe t (ready b) require_cache (fun _ => ready b).
Proof.
  unfold require_cache. safe_seq @safe_gets as ?.
  eapply safe_weaken; [apply safe_guard| |]; [by intros ? H; exact H|by intros ? ? [? _]].
Qed.

Lemma safe_guard_last t b c e : safe t (ready b) (guard_err c e) (fun _ => ready b).
Proof. intros w Hw. unfold guard_err. by destruct c. Qed.

(** The state read is the one the journey keeps; what is known of it is dropped. *)
Lemma deref_state_safe' t b : safe t (ready b) deref_state (fun _ => ready b).
Proof.
  eapply safe_weaken; [apply deref_state_safe| |]; [by intros ? H; exact H|by intros ? ? [? _]].
Qed.

Lemma require_guestId_safe t b : safe t (ready b) require_guestId (fun _ => ready b).
Proof. unfold require_guestId. safe_seq deref_state_safe' as ?. apply safe_guard_last. Qed.

Lemma ListCottages_safe t b cl :
  safe t (ready b) (ListCottages_Execute (Some cl)) (fun _ => ready true).
Proof.
  unfold ListCottages_Execute. safe_seq do_http_safe as [[ie st] body].
  safe_seq safe_guard_last as ?. destruct (body ≫= _) as [cs|]; [|apply safe_throw].
  intros w (s & c & Hs & Hc & _). unfold update_state. rewrite Hs.
  by exists (set_CottageNames (Some (map Cottage_Name cs)) s), c.
Qed.

(** Cottages are listed and there is one. *)
Definition some_cottage (w : World) : Prop :=
  ready true w /\ forall s, w_state w = Some s -> default [] (st_CottageNames s) <> [].

Lemma SelectCottage_Validate_safe t :
  safe t (ready true) SelectCottage_Validate (fun _ => some_cottage).
Proof.
  unfold SelectCottage_Validate. safe_seq require_state_safe as ?. safe_seq require_cache_safe as ?.
  eapply safe_bind; [apply deref_state_safe|intros s]. cbv beta.
  intros w [Hr Hs]. unfold guard_err.
  destruct (st_CottageNames s) as [[|n l]|] eqn:En; simpl; [done|..].
  - split; [done|]. intros s' Hs'. simplify_eq. by rewrite En.
  - destruct Hr as (s' & c & Hs' & _ & Hn). simplify_eq. by destruct (Hn eq_refl).
Qed.

Lemma SelectCottage_Execute_safe t :
  safe t some_cottage SelectCottage_Execute (fun _ => ready true).
Proof.
  intros w [Hr Hne]. pose proof Hr as (s & c & Hs & _). specialize (Hne s Hs).
  unfold SelectCottage_Execute.
  erewrite bind_Ret by (unfold deref_state; by rewrite Hs). cbv zeta.
  set (names := default [] (st_CottageNames s)) in *.
  clear Hs. revert w Hr.
  match goal with |- forall w, ready true w -> match ?m w with _ => _ end =>
    change (safe t (ready true) m (fun _ => ready true)) end.
  assert (0 < Z.of_nat (length names)) by (destruct names; [done|simpl; lia]).
  eapply safe_bind; [by apply rand_Intn_safe|intros i]. cbv beta. apply safe_pure. intros Hi.
  destruct (lookup_lt_is_Some_2 names (Z.to_nat i)) as [name ->]; [lia|].
  safe_seq Load_safe as v. apply Save_safe.
Qed.

Lemma loadAvailablePeriods_safe t b c now d :
  safe t (ready b) (loadAvailablePeriods c now d) (fun _ => ready b).
Proof.
  unfold loadAvailablePeriods. safe_seq do_http_safe as [[ie st] body].
  safe_seq safe_guard_last as ?.
  destruct (body ≫= _); [by apply safe_ret|apply safe_throw].
Qed.

Lemma collect_windows_safe t b c now opts ws :
  safe t (ready b) (collect_windows c now opts ws) (fun _ => ready b).
Proof.
  induction ws as [|d ws IH]; cbn [collect_windows]; [by apply safe_ret|].
  safe_seq loadAvailablePeriods_safe as ps. safe_seq IH as more. by apply safe_ret.
Qed.

Lemma collect_cottages_safe t b cs now opts :
  safe t (ready b) (collect_cottages cs now opts) (fun _ => ready b).
Proof.
  induction cs as [|c cs IH]; cbn [collect_cottages]; [by apply safe_ret|].
  safe_seq collect_windows_safe as here. safe_seq IH as more. by apply safe_ret.
Qed.

Lemma collectStayCandidates_safe t b now opts :
  safe t (ready b) (collectStayCandidates now opts) (fun _ => ready b).
Proof.
  unfold collectStayCandidates. safe_seq deref_state_safe' as s.
  safe_seq collect_cottages_safe as l. destruct l; by apply safe_ret.
Qed.

Lemma SelectPeriod_Validate_safe t b : safe t (ready b) SelectPeriod_Validate (fun _ => ready b).
Proof.
  unfold SelectPeriod_Validate. safe_seq @safe_gets as ?. safe_seq safe_guard_last as ?.
  safe_seq @safe_gets as ?. apply safe_guard_last.
Qed.

Lemma SelectPeriod_Execute_safe t b : safe t (ready b) SelectPeriod_Execute (fun _ => ready b).
Proof.
  unfold SelectPeriod_Execute. safe_seq clock_Now_safe as now. safe_seq Load_safe as v.
  destruct (Booking v) as [bk|]; [|apply safe_throw].
  safe_seq deref_state_safe' as s. safe_seq safe_guard_last as ?. cbv zeta.
  safe_seq collectStayCandidates_safe as cs.
  destruct (take _ cs); [apply safe_throw|apply Save_safe].
Qed.

Lemma BookCottage_Validate_safe t b : safe t (ready b) BookCottage_Validate (fun _ => ready b).
Proof.
  unfold BookCottage_Validate. safe_seq require_state_safe as ?. safe_seq require_cache_safe as ?.
  apply require_guestId_safe.
Qed.

Lemma BookCottage_Execute_safe t b cl :
  safe t (ready b) (BookCottage_Execute (Some cl)) (fun _ => ready b).
Proof.
  unfold BookCottage_Execute. safe_seq Load_safe as v.
  destruct (PersonalInfo v) as [g|]; [|apply safe_throw].
  destruct (Booking v) as [bk|]; [|apply safe_throw].
  destruct (String.eqb _ _); [apply safe_throw|].
  destruct (SelectedPeriod bk) as [p|]; [|apply safe_throw].
  safe_seq safe_guard_last as ?. safe_seq deref_state_safe' as s.
  safe_seq do_http_safe as [[ie st] body]. safe_seq safe_guard_last as ?.
  destruct (body ≫= _); [apply Save_safe|apply safe_throw].
Qed.

Lemma RegisterGuest_Validate_safe t b cl :
  safe t (ready b) (RegisterGuest_Validate cl) (fun _ => ready b).
Proof.
  unfold RegisterGuest_Validate. safe_seq safe_guard_last as ?. safe_seq require_state_safe as ?.
  apply require_cache_safe.
Qed.

Lemma RegisterGuest_Execute_safe t b cl :
  safe t (ready b) (RegisterGuest_Execute (Some cl)) (fun _ => ready b).
Proof.
  unfold RegisterGuest_Execute. safe_seq Load_safe as v.
  destruct (PersonalInfo v) as [g|]; [|apply safe_throw].
  eapply safe_bind; [by apply update_state_safe|intros ?].
  safe_seq do_http_safe as [[ie st] body]. safe_seq safe_guard_last as ?.
  destruct (body ≫= _); [|apply safe_throw].
  eapply safe_bind; [by apply update_state_safe|intros ?]. apply Save_safe.
Qed.

Lemma RetrieveGuest_Execute_safe t b cl :
  safe t (ready b) (RetrieveGuest_Execute (Some cl)) (fun _ => ready b).
Proof.
  unfold RetrieveGuest_Execute. safe_seq deref_state_safe' as s.
  safe_seq do_http_safe as [[ie st] body]. apply safe_guard_last.
Qed.

Lemma PayInvoice_Validate_safe t b cl :
  safe t (ready b) (PayInvoice_Validate cl) (fun _ => ready b).
Proof.
  unfold PayInvoice_Validate. safe_seq require_state_safe as ?. safe_seq require_guestId_safe as ?.
  safe_seq require_cache_safe as ?. apply safe_guard_last.
Qed.

Lemma PayInvoice_Execute_safe t b cl :
  safe t (ready b) (PayInvoice_Execute (Some cl)) (fun _ => ready b).
Proof.
  unfold PayInvoice_Execute. safe_seq PayInvoice_Validate_safe as ?. safe_seq Load_safe as v.
  destruct (PersonalInfo v) as [g|]; [|apply safe_throw]. safe_seq safe_guard_last as ?.
  destruct (Invoice v) as [i|]; [|apply safe_throw]. safe_seq safe_guard_last as ?.
  safe_seq do_http_safe as [[ie st] body]. safe_seq safe_guard_last as ?.
  destruct (body ≫= _); [|apply safe_throw]. safe_seq safe_guard_last as ?. apply Save_safe.
Qed.
End StepSafety.

(** ** The bookings a step may send *)

Section StepPosts.
Context {G : GoLib} {R : RedisServer} {E : Env}.

Lemma posts_le_seq {A B} n (m : go World A) (f : A -> go World B) :
  posts_le 0 m -> (forall a, posts_le n (f a)) -> posts_le n (m ≫= f).
Proof. apply (posts_le_bind 0 n). Qed.

Lemma posts_le_gets {A} (f : World -> A) : posts_le 0 (gets f).
Proof. by apply posts_le_quiet. Qed.

Lemma posts_le_GET c path q : posts_le 0 (do_http c GET path q None).
Proof. apply (posts_le_http c GET path q None). Qed.

Hint Resolve posts_le_gets posts_le_GET : guest.

(** A computation made of guards, cache operations and reads. *)
Ltac quiet :=
  repeat (first [ progress auto with guest
                | apply posts_le_seq; [solve [auto with guest]|intros ?]
                | case_match_goal ]).

Lemma posts_le_ListCottages cl : posts_le 0 (ListCottages_Execute cl).
Proof.
  unfold ListCottages_Execute. apply posts_le_seq; [auto with guest|intros [[ie st] body]].
  quiet.
Qed.

Lemma posts_le_SelectCottage : posts_le 0 SelectCottage_Execute.
Proof.
  unfold SelectCottage_Execute. apply posts_le_seq; [auto with guest|intros s]. cbv zeta.
  apply posts_le_seq; [auto with guest|intros i]. destruct (_ !! _); [|by apply posts_le_quiet].
  quiet.
Qed.

Lemma posts_le_loadAvailablePeriods c now d : posts_le 0 (loadAvailablePeriods c now d).
Proof.
  unfold loadAvailablePeriods. cbv zeta.
  apply posts_le_seq; [auto with guest|intros [[ie st] body]]. quiet.
Qed.

Lemma posts_le_collect_windows c now opts ws : posts_le 0 (collect_windows c now opts ws).
Proof.
  induction ws as [|d ws IH]; cbn [collect_windows]; [apply posts_le_ret|].
  apply posts_le_seq; [apply posts_le_loadAvailablePeriods|intros ps].
  apply posts_le_seq; [exact IH|intros more]. apply posts_le_ret.
Qed.

Lemma posts_le_collect_cottages cs now opts : posts_le 0 (collect_cottages cs now opts).
Proof.
  induction cs as [|c cs IH]; cbn [collect_cottages]; [apply posts_le_ret|].
  apply posts_le_seq; [apply posts_le_collect_windows|intros here].
  apply posts_le_seq; [exact IH|intros more]. apply posts_le_ret.
Qed.

Lemma posts_le_SelectPeriod : posts_le 0 SelectPeriod_Execute.
Proof.
  unfold SelectPeriod_Execute. apply posts_le_seq; [auto with guest|intros now].
  apply posts_le_seq; [auto with guest|intros v]. destruct (Booking v); [|auto with guest].
  apply posts_le_seq; [auto with guest|intros s]. apply posts_le_seq; [auto with guest|intros _].
  cbv zeta. apply posts_le_seq.
  - unfold collectStayCandidates. apply posts_le_seq; [auto with guest|intros s'].
    apply posts_le_seq; [apply posts_le_collect_cottages|intros cs]. destruct cs; auto with guest.
  - intros cs. destruct (take _ cs); auto with guest.
Qed.

Lemma posts_le_BookCottage cl : posts_le 1 (BookCottage_Execute cl).
Proof.
  unfold BookCottage_Execute. apply posts_le_seq; [auto with guest|intros v].
  assert (H0 : forall e, posts_le 1 (@throw World unit e))
    by (intros e; apply (posts_le_weaken 0); [lia|apply posts_le_throw]).
  destruct (PersonalInfo v); [|auto]. destruct (Booking v); [|auto].
  destruct (String.eqb _ _); [auto|]. destruct (SelectedPeriod _); [|auto].
  apply posts_le_seq; [auto with guest|intros _]. apply posts_le_seq; [auto with guest|intros s].
  apply (posts_le_bind 1 0); [apply (posts_le_http _ POST)|intros [[ie st] body]].
  apply posts_le_seq; [auto with guest|intros _].
  destruct (body ≫= _); auto with guest.
Qed.
End StepPosts.

(** ** Drawing a transition *)

Section PickSpec.
Context {G : GoLib} {R : RedisServer} {E : Env} {T : Type}.
Implicit Types l : list (WeightedTuple T).

Lemma pick_loop_Some target l v :
  pick_loop target l = Some v ->
  exists item, item ∈ l /\ v = Value item /\ f64_le_zero (Weight item) = false.
Proof.
  revert target. induction l as [|x l IH]; intros target; simpl; [done|].
  destruct (f64_le_zero (Weight x)) eqn:Ew.
  - intros H. destruct (IH _ H) as (i & Hi & Hv). exists i. split; [by right|done].
  - cbv zeta. destruct (f64_le_zero (f64_sub target (Weight x))).
    + intros H. injection H as <-. exists x. split; [by left|done].
    + intros H. destruct (IH _ H) as (i & Hi & Hv). exists i. split; [by right|done].
Qed.

Lemma last_elem l x : last l = Some x -> x ∈ l.
Proof. intros H. apply last_Some in H as [l' ->]. apply elem_of_app. right. by left. Qed.

(** The draw uses one random number and gives an item that is not weightless, or the
    last item when rounding exhausts the list. *)
Lemma Pick_spec l w :
  l <> [] ->
  exists item, PickRandomWeighted l w = (Ret (Value item), tick_rand w) /\ item ∈ l
    /\ (f64_le_zero (Weight item) = false \/ last l = Some item).
Proof.
  intros Hl. unfold PickRandomWeighted, rand_Float64, mbind, go_bind.
  set (u := binary_normalize _ _ _ _ _).
  destruct (pick_loop (f64_mul u (total_weight l)) l) as [v|] eqn:Ep.
  - apply pick_loop_Some in Ep as (i & Hi & -> & Hw). exists i. auto.
  - destruct (last l) as [x|] eqn:El.
    + exists x. split; [done|]. split; [by apply last_elem|by right].
    + by apply last_None in El.
Qed.

Lemma Pick_empty w : exists why, PickRandomWeighted (@nil (WeightedTuple T)) w = (Panic why, tick_rand w).
Proof. by eexists. Qed.

Lemma posts_le_Pick l : posts_le 0 (PickRandomWeighted l).
Proof.
  apply posts_le_quiet. intros w. unfold PickRandomWeighted, rand_Float64, mbind, go_bind.
  destruct (pick_loop _ _); [by simpl; auto|]. destruct (last l); by simpl; auto.
Qed.

Lemma posts_le_ctx : posts_le 0 ctx_Err.
Proof. by apply posts_le_quiet. Qed.

Lemma Pick_rand l w : (w_rand w < w_rand (snd (PickRandomWeighted l w)))%nat.
Proof.
  unfold PickRandomWeighted, rand_Float64, mbind, go_bind.
  destruct (pick_loop _ _); [by simpl; auto|]. destruct (last l); by simpl; auto.
Qed.
End PickSpec.

(** [PickRandomWeighted] of a non-empty list uses one random number and returns the
    value of an item of positive weight, or the last item when float rounding leaves a
    rest; it panics on an empty list. *)
Theorem Pick_correct `{GoLib} `{R : RedisServer} `{Env} {T} (l : list (WeightedTuple T)) (w : World) :
  match l with
  | [] => exists why, fst (PickRandomWeighted l w) = Panic why
  | _ => exists item, PickRandomWeighted l w = (Ret (Value item), tick_rand w) /\ item ∈ l
           /\ (f64_le_zero (Weight item) = false \/ last l = Some item)
  end.
Proof. destruct l as [|x l]; [by eexists|]. by apply Pick_spec. Qed.

(** ** Walks *)

Section RunSpec.
Context {G : GoLib} {R : RedisServer} {E : Env} {T : Type}.
Variable steps : T -> Step.
Variable stateMap : T -> option (list (WeightedTuple T)).

(** More fuel does not change a finished walk. *)
Lemma run_from_more n k step w r w' :
  run_from steps stateMap n step w = (r, w') -> r <> Stuck ->
  run_from steps stateMap (n + k) step w = (r, w').
Proof.
  revert step w. induction n as [|n IH]; intros step w; simpl; [by intros [= <- <-]|].
  unfold mbind, go_bind. destruct (ctx_Err w) as [[[c|]|e|p|] w1]; try done.
  destruct (Validate _ w1) as [[[]|e|p|] w2]; try done.
  destruct (Execute _ w2) as [[[]|e|p|] w3]; try done.
  destruct (stateMap step) as [ts|]; [|done].
  destruct (PickRandomWeighted ts w3) as [[next|e|p|] w4]; try done. apply IH.
Qed.

Definition run_step (k : T) : go World unit := _ ← Validate (steps k); Execute (steps k).

Lemma run_from_S n k w :
  run_from steps stateMap (S n) k w =
  match env_ctx (w_polls w) with
  | Some _ => (Ret tt, tick_polls w)
  | None =>
      match run_step k (tick_polls w) with
      | (Ret _, w') =>
          match stateMap k with
          | None => (Ret tt, w')
          | Some ts =>
              match PickRandomWeighted ts w' with
              | (Ret next, w'') => run_from steps stateMap n next w''
              | (Err e, w'') => (Err e, w'')
              | (Panic p, w'') => (Panic p, w'')
              | (Stuck, w'') => (Stuck, w'')
              end
          end
      | (Err e, w') => (Err e, w')
      | (Panic p, w') => (Panic p, w')
      | (Stuck, w') => (Stuck, w')
      end
  end.
Proof.
  simpl. unfold run_step, mbind, go_bind. simpl. destruct (env_ctx _); [done|].
  destruct (Validate _ _) as [[[]|e|p|] w2]; try done.
  destruct (Execute _ _) as [[[]|e|p|] w3]; try done.
  destruct (stateMap k) as [ts|]; [|done]. by destruct (PickRandomWeighted ts w3) as [[]].
Qed.

(** A walk panics only if a step does: [Inv] says where a step may be executed, [Q] what
    holds wherever the walk ends. *)
Lemma run_from_safe (Inv : T -> World -> Prop) (Q : World -> Prop) :
  (forall k w, Inv k w -> Inv k (tick_polls w) /\ Q (tick_polls w)) ->
  (forall k, stateMap k <> Some []) ->
  (forall k, safe false (Inv k) (run_step k)
               (fun _ w => Q w /\ forall ts item, stateMap k = Some ts -> item ∈ ts ->
                                    Inv (Value item) (tick_rand w))) ->
  forall fuel k, safe false (Inv k) (run_from steps stateMap fuel k) (fun _ => Q).
Proof.
  intros Hpoll Hne Hstep. induction fuel as [|fuel IH]; intros k w Hw; [done|].
  destruct (Hpoll k w Hw) as [Hw1 Hq].
  rewrite run_from_S. destruct (env_ctx _); [done|].
  specialize (Hstep k (tick_polls w) Hw1).
  destruct (run_step _ _) as [[[]|e|p|] w3]; try done. destruct Hstep as [Hq3 Hstep].
  destruct (stateMap k) as [ts|] eqn:Es; [|done].
  destruct (decide (ts = [])) as [->|Hts]; [by destruct (Hne k)|].
  destruct (Pick_spec ts w3 Hts) as (item & -> & Hi & _).
  apply IH. by apply (Hstep ts item).
Qed.

(** Every step is charged its requests against a potential that the transitions do not
    increase. *)
Lemma run_from_posts (phi : T -> nat) :
  (forall k, posts_le (phi k) (run_step k)) ->
  (forall k ts item, stateMap k = Some ts -> item ∈ ts ->
     exists n, posts_le n (run_step k) /\ (n + phi (Value item) <= phi k)%nat) ->
  (forall k, stateMap k <> Some []) ->
  forall fuel k, posts_le (phi k) (run_from steps stateMap fuel k).
Proof.
  intros Hlast Hphi Hne. induction fuel as [|fuel IH]; intros k w.
  - assert (H0 : posts_le (phi k) (@stuck World unit)); [|exact (H0 w)].
    apply (posts_le_weaken 0); [lia|]. by apply posts_le_quiet.
  - rewrite run_from_S. destruct (env_ctx _);
      [exact (posts_le_weaken 0 _ (mret tt) (Nat.le_0_l _) (posts_le_ret tt) (tick_polls w))|].
    pose proof (Hlast k (tick_polls w)) as H0.
    destruct (run_step k (tick_polls w)) as [[[]|e|p|] w3] eqn:Ee; try exact H0.
    destruct (stateMap k) as [ts|] eqn:Es; [|exact H0].
    destruct (decide (ts = [])) as [->|Hts]; [by destruct (Hne k)|].
    destruct (Pick_spec ts w3 Hts) as (item & -> & Hi & _).
    destruct (Hphi k ts item Es Hi) as (n & Hn & Hle).
    specialize (Hn (tick_polls w)). rewrite Ee in Hn.
    destruct Hn as (Hr & l1 & Hl1 & Hn).
    destruct (IH (Value item) (tick_rand w3)) as (Hr' & l2 & Hl2 & Hn2).
    cbn [snd w_http w_rand tick_polls tick_rand] in *.
    split; [lia|]. exists (l1 ++ l2).
    rewrite Hl2, Hl1, <- app_assoc, filter_app, length_app. split; [done|lia].
Qed.
End RunSpec.

(** ** The default flows *)

Section FlowSpecs.
Context {G : GoLib} {R : RedisServer} {E : Env}.

Lemma booking_edges_nonempty k : flow_StateMap booking_def k <> Some [].
Proof. destruct k; vm_compute; discriminate. Qed.

(** Where a step of the booking flow is executed. *)
Definition booking_inv (k : BookingStepId) (w : World) : Prop :=
  match k with
  | ListCottagesId | BookingEndId => ready false w
  | SelectCottageId | SelectPeriodId | BookCottageId => ready true w
  end.

Lemma booking_inv_next k ts item w :
  flow_StateMap booking_def k = Some ts -> item ∈ ts -> ready true w ->
  booking_inv (Value item) (tick_rand w).
Proof.
  intros _ _ Hr. assert (ready true (tick_rand w)) by exact Hr.
  destruct (Value item); simpl; eauto using ready_weaken.
Qed.

Lemma booking_step_safe t k :
  safe t (booking_inv k) (run_step booking_steps k)
    (fun _ w => match k with BookingEndId => ready false w | _ => ready true w end).
Proof.
  unfold run_step. destruct k; simpl.
  - safe_seq require_state_safe as ?. apply ListCottages_safe.
  - safe_seq SelectCottage_Validate_safe as ?. apply SelectCottage_Execute_safe.
  - safe_seq SelectPeriod_Validate_safe as ?. apply SelectPeriod_Execute_safe.
  - safe_seq BookCottage_Validate_safe as ?. apply BookCottage_Execute_safe.
  - by intros w' Hw'.
Qed.

Definition booking_cost (k : BookingStepId) : nat :=
  match k with BookCottageId => 1%nat | _ => 0%nat end.

Lemma booking_step_posts k : posts_le (booking_cost k) (run_step booking_steps k).
Proof.
  assert (Hrs : posts_le 0 require_state)
    by (apply posts_le_seq; [by apply posts_le_gets|intros ?; auto with guest]).
  assert (Hrc : posts_le 0 require_cache)
    by (apply posts_le_seq; [by apply posts_le_gets|intros ?; auto with guest]).
  unfold run_step. destruct k; simpl.
  - apply posts_le_seq; [exact Hrs|intros _]. apply posts_le_ListCottages.
  - apply posts_le_seq; [|intros _; apply posts_le_SelectCottage].
    apply posts_le_seq; [exact Hrs|intros _]. apply posts_le_seq; [exact Hrc|intros _].
    apply posts_le_seq; [auto with guest|intros s]. auto with guest.
  - apply posts_le_seq; [|intros _; apply posts_le_SelectPeriod].
    apply posts_le_seq; [apply posts_le_gets|intros ?].
    apply posts_le_seq; [auto with guest|intros _].
    apply posts_le_seq; [apply posts_le_gets|intros ?]. auto with guest.
  - apply posts_le_seq; [|intros _; apply posts_le_BookCottage].
    apply posts_le_seq; [exact Hrs|intros _]. apply posts_le_seq; [exact Hrc|intros _].
    apply posts_le_seq; [auto with guest|intros s]. auto with guest.
  - apply posts_le_seq; [apply posts_le_ret|intros _; apply posts_le_ret].
Qed.

(** In a journey with a state and a cache the booking flow never panics, whatever the
    services answer and however the draws fall: a cottage is only selected once cottages
    are listed. *)
Lemma booking_flow_safe fuel :
  safe false (ready false) (Flow_Start fuel NewBookingFlow) (fun _ => ready false).
Proof.
  change (safe false (booking_inv ListCottagesId)
    (run_from booking_steps (flow_StateMap booking_def) fuel ListCottagesId)
    (fun _ => ready false)).
  apply (run_from_safe booking_steps (flow_StateMap booking_def) booking_inv (ready false)).
  - intros k w Hk. assert (ready false (tick_polls w)) by (destruct k; eauto using ready_weaken).
    split; [by destruct k|done].
  - exact booking_edges_nonempty.
  - intros k. eapply safe_weaken; [apply booking_step_safe|done|].
    intros [] w' Hq. split; [destruct k; eauto using ready_weaken|].
    intros ts item Hts Hi.
    destruct k; try exact (booking_inv_next _ ts item w' Hts Hi Hq). by vm_compute in Hts.
Qed.

(** C11: whatever the draws and the services do, one run of the booking flow sends at most one
    post (which one, [BookCottage_correct] says). *)
Theorem booking_flow_books_at_most_once fuel : posts_le 1 (Flow_Start fuel NewBookingFlow).
Proof.
  unfold Flow_Start, runStepGraph. apply posts_le_seq; [apply posts_le_ret|intros _].
  pose (phi := fun k => match k with BookingEndId => 0%nat | _ => 1%nat end).
  apply (run_from_posts booking_steps (flow_StateMap booking_def) phi).
  - intros k. apply (posts_le_weaken (booking_cost k)); [destruct k; simpl; lia|].
    apply booking_step_posts.
  - intros k ts item Hts Hi. exists (booking_cost k). split; [apply booking_step_posts|].
    destruct k; vm_compute in Hts; try (by destruct (Value item); simpl; lia); [|done].
    injection Hts as <-. apply list_elem_of_singleton in Hi as ->. simpl. lia.
  - apply booking_edges_nonempty.
Qed.

(** The greatest number [rand.Float64] can draw takes the last transition, to the end. *)
Lemma top_draw_ends k ts w :
  env_rand (w_rand w) mod 2 ^ 53 = 2 ^ 53 - 1 -> flow_StateMap booking_def k = Some ts ->
  PickRandomWeighted ts w = (Ret BookingEndId, tick_rand w).
Proof.
  intros Hd Hts. unfold PickRandomWeighted, rand_Float64, mbind, go_bind. rewrite Hd.
  assert (Hp : forall u, u = binary_normalize 53 1024 (2 ^ 53 - 1) (-53) false ->
               pick_loop (f64_mul u (total_weight ts)) ts = Some BookingEndId).
  { intros u ->. destruct k; vm_compute in Hts; try done; injection Hts as <-;
      vm_compute; reflexivity. }
  by rewrite Hp.
Qed.

Lemma booking_walk_ends N w :
  ready false w ->
  (forall n, (N <= n)%nat -> env_rand n mod 2 ^ 53 = 2 ^ 53 - 1) ->
  fst (Flow_Start (N + 2) NewBookingFlow w) <> Stuck.
Proof.
  intros Hw Hdraw. change (Flow_Start (N + 2) NewBookingFlow w) with
    (run_from booking_steps (flow_StateMap booking_def) (N + 2) ListCottagesId w).
  assert (H : forall fuel k w, booking_inv k w -> (N <= w_rand w + fuel)%nat ->
    fst (run_from booking_steps (flow_StateMap booking_def) (S (S fuel)) k w) <> Stuck);
    [|replace (N + 2)%nat with (S (S N)) by lia; apply H; [exact Hw|lia]].
  clear w Hw. induction fuel as [|fuel IH]; intros k w Hw Hn;
    rewrite run_from_S; (destruct (env_ctx _); [done|]);
    pose proof (booking_step_safe true k (tick_polls w) ltac:(by destruct k)) as Hs;
    destruct (booking_step_posts k (tick_polls w)) as (Hr & _);
    destruct (run_step booking_steps k (tick_polls w)) as [[[]|e|p|] w3]; try done;
    destruct (flow_StateMap booking_def k) as [ts|] eqn:Ets; try done;
    cbn [snd w_rand tick_polls] in Hr.
  - rewrite (top_draw_ends k ts w3 ltac:(apply Hdraw; lia) Ets).
    rewrite run_from_S. destruct (env_ctx _); done.
  - destruct (decide (N <= w_rand w3)%nat) as [Hle|Hgt].
    + rewrite (top_draw_ends k ts w3 ltac:(apply Hdraw; lia) Ets).
      rewrite run_from_S. destruct (env_ctx _); done.
    + destruct (decide (ts = [])) as [->|Hts]; [by destruct (booking_edges_nonempty k)|].
      destruct (Pick_spec ts w3 Hts) as (item & -> & Hi & _).
      apply IH; [|simpl; lia].
      destruct k; try exact (booking_inv_next _ ts item w3 Ets Hi Hs). by vm_compute in Ets.
Qed.

(** the walk of the booking flow is not bounded, but it ends: if the draws are the
    greatest ones from the [N]-th on, [N + 2] steps are enough, whatever the services
    answer. *)
Theorem booking_flow_ends N w :
  ready false w ->
  (forall n, (N <= n)%nat -> env_rand n mod 2 ^ 53 = 2 ^ 53 - 1) ->
  fst (Flow_Start (N + 2) NewBookingFlow w) <> Stuck.
Proof. apply booking_walk_ends. Qed.

(** The same with more fuel. *)
Lemma booking_flow_total N fuel w :
  ready false w ->
  (forall n, (N <= n)%nat -> env_rand n mod 2 ^ 53 = 2 ^ 53 - 1) -> (N + 2 <= fuel)%nat ->
  fst (Flow_Start fuel NewBookingFlow w) <> Stuck.
Proof.
  intros Hw Hdraw Hf. pose proof (booking_walk_ends N w Hw Hdraw) as Hn.
  destruct (Flow_Start (N + 2) NewBookingFlow w) as [r w'] eqn:Er. cbn [fst] in Hn.
  replace fuel with (N + 2 + (fuel - (N + 2)))%nat by lia.
  pose proof (run_from_more booking_steps (flow_StateMap booking_def) (N + 2) (fuel - (N + 2))
    ListCottagesId w r w' Er Hn) as H.
  change (fst (run_from booking_steps (flow_StateMap booking_def) (N + 2 + (fuel - (N + 2)))
    ListCottagesId w) <> Stuck). by rewrite H.
Qed.

(** Two worlds that differ only in the random numbers and context polls used. *)
Definition same_effects (w1 w2 : World) : Prop :=
  w_state w1 = w_state w2 /\ w_cache w1 = w_cache w2 /\ w_http w1 = w_http w2
  /\ w_clock w1 = w_clock w2.

(** The payment flow is the payment step: two steps of fuel are enough, and unless
    the context is already cancelled its outcome and its effects are those of validating
    and executing [PayInvoiceStep]; a cancelled context makes it succeed without
    paying. *)
Theorem payment_flow_is_step n w :
  let pay := _ ← PayInvoice_Validate (Some PaymentSimulator);
             PayInvoice_Execute (Some PaymentSimulator) in
  match env_ctx (w_polls w) with
  | Some _ => Flow_Start (2 + n) NewPaymentFlowWithState w = (Ret tt, tick_polls w)
  | None =>
      fst (Flow_Start (2 + n) NewPaymentFlowWithState w) = fst (pay (tick_polls w))
      /\ same_effects (snd (Flow_Start (2 + n) NewPaymentFlowWithState w)) (snd (pay (tick_polls w)))
  end.
Proof.
  cbv zeta. change (Flow_Start (2 + n) NewPaymentFlowWithState w) with
    (run_from payment_steps (flow_StateMap payment_def) (2 + n) PayInvoiceId w).
  change (2 + n)%nat with (S (S n)). rewrite run_from_S.
  destruct (env_ctx (w_polls w)) as [c|]; [done|].
  change (run_step payment_steps PayInvoiceId) with
    (_ ← PayInvoice_Validate (Some PaymentSimulator);
     PayInvoice_Execute (Some PaymentSimulator)).
  destruct ((_ ← PayInvoice_Validate (Some PaymentSimulator);
             PayInvoice_Execute (Some PaymentSimulator)) (tick_polls w))
    as [[[]|e|p|] w3]; try done.
  change (flow_StateMap payment_def PayInvoiceId) with
    (Some [mkWeighted PaymentEndId (f64_of_Z 1)]).
  destruct (Pick_spec [mkWeighted PaymentEndId (f64_of_Z 1)] w3 ltac:(discriminate))
    as (item & -> & Hi & _).
  apply list_elem_of_singleton in Hi as ->. rewrite run_from_S. simpl.
  destruct (env_ctx _); done.
Qed.

(** The register flow, one step after the other. *)
Lemma register_flow_Ret n w w' :
  Flow_Start (3 + n) NewGuestRegisterFlowWithState w = (Ret tt, w') ->
  env_ctx (w_polls w) = None ->
  exists w2 w3, run_step register_steps RegisterGuestId (tick_polls w) = (Ret tt, w2)
    /\ same_effects w2 w3
    /\ (env_ctx (w_polls w2) = None ->
        exists w4, run_step register_steps RetrieveGuestId w3 = (Ret tt, w4) /\ same_effects w4 w').
Proof.
  change (Flow_Start (3 + n) NewGuestRegisterFlowWithState w) with
    (run_from register_steps (flow_StateMap register_def) (3 + n) RegisterGuestId w).
  change (3 + n)%nat with (S (S (S n))). rewrite run_from_S. intros H Hc. rewrite Hc in H.
  destruct (run_step register_steps RegisterGuestId _) as [[[]|e|p|] w2]; try done.
  change (flow_StateMap register_def RegisterGuestId) with
    (Some [mkWeighted RetrieveGuestId (f64_of_Z 1)]) in H.
  cbv match in H.
  destruct (Pick_spec [mkWeighted RetrieveGuestId (f64_of_Z 1)] w2 ltac:(discriminate))
    as (item & Hp & Hi & _). rewrite Hp in H.
  apply list_elem_of_singleton in Hi as ->. rewrite run_from_S in H. cbn [Value w_polls tick_rand] in H.
  exists w2, (tick_polls (tick_rand w2)). split; [done|]. split; [done|].
  intros Hc2. rewrite Hc2 in H.
  destruct (run_step register_steps RetrieveGuestId _) as [[[]|e|p|] w4]; try done.
  exists w4. split; [done|].
  change (flow_StateMap register_def RetrieveGuestId) with
    (Some [mkWeighted RegisterEndId (f64_of_Z 1)]) in H.
  cbv match in H.
  destruct (Pick_spec [mkWeighted RegisterEndId (f64_of_Z 1)] w4 ltac:(discriminate))
    as (item & Hp2 & Hi & _). rewrite Hp2 in H.
  apply list_elem_of_singleton in Hi as ->. rewrite run_from_S in H.
  cbn [Value] in H. simpl in H. destruct (env_ctx _); by injection H as <-.
Qed.

Lemma register_steps_safe t k :
  safe t (ready false) (run_step register_steps k) (fun _ => ready false).
Proof.
  unfold run_step. destruct k; simpl.
  - safe_seq RegisterGuest_Validate_safe as ?. apply RegisterGuest_Execute_safe.
  - safe_seq require_guestId_safe as ?. apply RetrieveGuest_Execute_safe.
  - by intros w Hw.
Qed.

Lemma payment_steps_safe t k :
  safe t (ready false) (run_step payment_steps k) (fun _ => ready false).
Proof.
  unfold run_step. destruct k; simpl.
  - safe_seq PayInvoice_Validate_safe as ?. apply PayInvoice_Execute_safe.
  - by intros w Hw.
Qed.

(** A walk whose steps all keep the state and the cache. *)
Lemma ready_walk_safe {T} (steps : T -> Step) stateMap fuel k :
  (forall k, stateMap k <> Some []) ->
  (forall k, safe false (ready false) (run_step steps k) (fun _ => ready false)) ->
  safe false (ready false) (run_from steps stateMap fuel k) (fun _ => ready false).
Proof.
  intros Hne Hs. apply (run_from_safe steps stateMap (fun _ => ready false)); [done|done|].
  intros k'. eapply safe_weaken; [apply Hs|done|]. by intros [] w Hw.
Qed.

Lemma register_flow_safe fuel :
  safe false (ready false) (Flow_Start fuel NewGuestRegisterFlowWithState) (fun _ => ready false).
Proof.
  apply (ready_walk_safe register_steps (flow_StateMap register_def) fuel RegisterGuestId);
    [by intros []; vm_compute|apply register_steps_safe].
Qed.

Lemma payment_flow_safe fuel :
  safe false (ready false) (Flow_Start fuel NewPaymentFlowWithState) (fun _ => ready false).
Proof.
  apply (ready_walk_safe payment_steps (flow_StateMap payment_def) fuel PayInvoiceId);
    [by intros []; vm_compute|apply payment_steps_safe].
Qed.

(** The register flow always ends within three steps of fuel, without a panic. *)
Lemma register_flow_ends n :
  safe true (ready false) (Flow_Start (3 + n) NewGuestRegisterFlowWithState) (fun _ _ => True).
Proof.
  intros w Hw. change (Flow_Start (3 + n) NewGuestRegisterFlowWithState w) with
    (run_from register_steps (flow_StateMap register_def) (S (S (S n))) RegisterGuestId w).
  pose proof (register_steps_safe true RegisterGuestId) as H1.
  pose proof (register_steps_safe true RetrieveGuestId) as H2.
  rewrite run_from_S. destruct (env_ctx _); [done|]. specialize (H1 (tick_polls w) Hw).
  destruct (run_step _ _ (tick_polls w)) as [[[]|e|p|] w2]; try done.
  change (flow_StateMap register_def RegisterGuestId) with
    (Some [mkWeighted RetrieveGuestId (f64_of_Z 1)]).
  destruct (Pick_spec [mkWeighted RetrieveGuestId (f64_of_Z 1)] w2 ltac:(discriminate))
    as (item & -> & Hi & _). apply list_elem_of_singleton in Hi as ->.
  rewrite run_from_S. destruct (env_ctx _); [done|].
  specialize (H2 (tick_polls (tick_rand w2)) H1). cbn [Value].
  destruct (run_step _ RetrieveGuestId _) as [[[]|e|p|] w3]; try done.
  change (flow_StateMap register_def RetrieveGuestId) with
    (Some [mkWeighted RegisterEndId (f64_of_Z 1)]).
  destruct (Pick_spec [mkWeighted RegisterEndId (f64_of_Z 1)] w3 ltac:(discriminate))
    as (item & -> & Hi & _). apply list_elem_of_singleton in Hi as ->.
  rewrite run_from_S. cbn [Value]. simpl. by destruct (env_ctx _).
Qed.

(** The payment flow within two. *)
Lemma payment_flow_ends n w :
  ready false w -> fst (Flow_Start (2 + n) NewPaymentFlowWithState w) <> Stuck.
Proof.
  intros Hw. pose proof (payment_flow_is_step n w) as H. cbv zeta in H.
  destruct (env_ctx (w_polls w)); [by rewrite H|]. destruct H as [-> _].
  pose proof (payment_steps_safe true PayInvoiceId (tick_polls w) Hw) as Hs.
  change (run_step payment_steps PayInvoiceId) with
    (_ ← PayInvoice_Validate (Some PaymentSimulator);
     PayInvoice_Execute (Some PaymentSimulator)) in Hs.
  by destruct ((_ ← PayInvoice_Validate (Some PaymentSimulator);
     PayInvoice_Execute (Some PaymentSimulator)) (tick_polls w)) as [[[]|e|p|] w'].
Qed.
End FlowSpecs.

Section RegisterSpec.
Context {G : GoLib} {R : RedisServer} {RL : RedisLaws R} {E : Env}.

Lemma safe_steps_state w w' :
  @require_guestId R w = (Ret tt, w') -> exists s, w_state w = Some s /\ st_GuestId s <> "" /\ w' = w.
Proof.
  unfold require_guestId. intros H. go_inv H. apply deref_state_Ret in Hrun as [Hs ->].
  apply guard_inv in H as [Hg <-]. exists v. split; [done|]. split; [|done].
  by apply String.eqb_neq.
Qed.

(** a register flow that succeeds without being cancelled registered the cached
    guest and then read the account back: it sent these two requests and no other, both
    were answered without an error, and the non-empty identifier of the answer is the
    one in the state and in the cached value. *)
Theorem register_flow_success n w v w' :
  cached w v -> cacheValue_exact v -> (forall k, env_ctx k = None) ->
  Flow_Start (3 + n) NewGuestRegisterFlowWithState w = (Ret tt, w') ->
  exists g s id,
    PersonalInfo v = Some g /\ w_state w = Some s /\ id <> ""
    /\ w_state w' = Some (set_GuestId id (set_Guest (Some g) s))
    /\ w_http w' = w_http w ++
         [mkHttpRequest GuestManager POST "/guest" [] (Some (encode_Guest g));
          mkHttpRequest GuestManager GET ("/guest/" +:+ id) [] None]
    /\ cached w' (set_cv_GuestID id v).
Proof.
  intros Hc Hex Hctx H.
  destruct (register_flow_Ret n w w' H (Hctx _)) as (w2 & w3 & H1 & (Es & Ec & Eh & Ek) & H2).
  destruct (H2 (Hctx _)) as (w4 & H4 & (Es4 & Ec4 & Eh4 & Ek4)). clear H H2.
  unfold run_step in H1, H4. simpl in H1, H4.
  go_inv H1. assert (w0 = tick_polls w) as ->.
  { revert Hrun. unfold RegisterGuest_Validate, require_state, require_cache, state_is_nil,
      cache_is_nil, gets, guard_err, mbind, go_bind, mret, go_ret, throw. simpl.
    destruct (w_state w); simpl; [|done]. destruct (w_cache w); simpl; [|done].
    by intros [= _ <-]. }
  destruct (RegisterGuest_success (Some GuestManager) (tick_polls w) v w2 Hc Hex H1)
    as (cl & s & g & st & body & id & [= <-] & Hs & Hg & Hh & _ & _ & Hst & Hcach).
  go_inv H4. destruct v1. apply safe_steps_state in Hrun0 as (s1 & Hs1 & Hne & ->).
  rewrite <- Es, Hst in Hs1. injection Hs1 as <-. simpl in Hne.
  unfold RetrieveGuest_Execute in H4. go_inv H4. apply deref_state_Ret in Hrun0 as [Hs1 ->].
  rewrite <- Es, Hst in Hs1. injection Hs1 as <-.
  go_inv H4. destruct v1 as [[ie st'] body'].
  apply do_http_Ret in Hrun0 as (cl & [= <-] & -> & _). apply guard_inv in H4 as [_ <-].
  cbn [w_state w_cache w_http set_http tick_polls st_GuestId set_GuestId] in *.
  exists g, s, id. split; [done|]. split; [done|]. split; [done|].
  split; [by rewrite <- Es4, <- Es|].
  split; [rewrite <- Eh4, <- Eh, Hh, <- app_assoc; done|].
  destruct Hcach as (s' & db & j & Hs' & Hdb & Hk & Hv & Hd).
  exists s', db, j. rewrite <- Es4, <- Es, <- Ec4, <- Ec. done.
Qed.
End RegisterSpec.

(** ** Concrete runs *)

Section Witnesses.
#[local] Existing Instances sample_lib sample_redis sample_redis_laws.

(** Guests are registered, cottages cannot be listed, and every draw is the greatest. *)
#[local] Instance flow_env : Env := {|
  env_http := @env_http (sample_env
    [(POST, "/guest", HttpResponse false "201 Created" (Some (JStr "g-9")));
     (GET, "/guest/g-9", HttpResponse false "200 OK" None);
     (GET, "/cottages", HttpResponse false "200 OK" (Some (JArr [JObj [("name", JStr "Aspen")]])))]
    sample_now);
  env_now _ := inr sample_now;
  env_rand _ := 2 ^ 53 - 1;
  env_ctx _ := None
|}.

Lemma booking_flow_ends_witness :
  ready false (sample_world sample_fresh)
  /\ fst (Flow_Start (0 + 2) NewBookingFlow (sample_world sample_fresh)) <> Stuck.
Proof.
  assert (H : ready false (sample_world sample_fresh))
    by (exists sample_state, (Some (sample_db sample_fresh)); done).
  split; [exact H|]. apply (booking_flow_ends 0 _ H). intros n _. vm_compute. reflexivity.
Defined.

Lemma register_flow_success_witness :
  exists w', Flow_Start (3 + 0) NewGuestRegisterFlowWithState (sample_world sample_fresh) = (Ret tt, w')
    /\ exists id, id <> "" /\ cached w' (set_cv_GuestID id sample_fresh).
Proof.
  assert (H : fst (Flow_Start (3 + 0) NewGuestRegisterFlowWithState (sample_world sample_fresh)) = Ret tt)
    by (vm_compute; reflexivity).
  apply run_ok in H. revert H.
  generalize (snd (Flow_Start (3 + 0) NewGuestRegisterFlowWithState (sample_world sample_fresh))).
  intros w' H. exists w'. split; [exact H|].
  destruct (register_flow_success 0 _ _ _ sample_fresh_cached (sample_exact _ ltac:(left))
              (fun _ => eq_refl) H) as (g & s & id & _ & _ & Hid & _ & _ & Hc).
  exists id. split; [exact Hid|exact Hc].
Defined.
End Witnesses.
