(* ===== verification/Kept.v ===== *)
(** * What every step keeps

    A step, a flow or a cache operation does three things to a journey's world: it calls
    services and draws numbers, it fills in the state without touching the journey's key,
    and it accesses the cache under that key. An invariant these keep ([KeptBy]) holds
    after every step, whatever it ends with: the state and the cache are still there, what
    the cleanup after an error relies on ([ready_kept]), and the server has only seen
    commands on the journey's key ([commands_kept], what the other journeys rely on). *)

From Stdlib Require Import ZArith Lia.
From stdpp Require Import base tactics list option strings gmap relations.
From S2P Require Import Prelude GoEffects GoTime GoText Domain Json World SelectPeriod Steps Flow.
Open Scope Z_scope.

(** [I] looks at the state and the cache only, and survives what the steps do to them. *)
Class KeptBy `{G : GoLib} {R : RedisServer} {E : Env} (I : World -> Prop) := {
  kept_outside w w' : w_state w' = w_state w -> w_cache w' = w_cache w -> I w -> I w';
  kept_update f : (forall s, st_RedisKey (f s) = st_RedisKey s) -> keeps I (update_state f);
  kept_Load : keeps I Load;
  kept_Save v : keeps I (Save v);
  kept_Log : keeps I LogStateCache;
  kept_Delete : keeps I DeleteStateCache
}.

(** ** The state and the cache stay in place *)

Section Ready.
Context {G : GoLib} {R : RedisServer} {E : Env}.

Lemma EnsureKey_keeps : keeps (ready false) EnsureKey.
Proof. unfold EnsureKey, state_is_nil. keeps_auto. Qed.

#[local] Hint Resolve EnsureKey_keeps : guest.

#[export] Instance ready_kept : KeptBy (ready false).
Proof.
  split.
  - intros w w' Hs Hc (s & c & H). exists s, c. by rewrite Hs, Hc.
  - intros f _. apply update_state_keeps.
  - unfold Load, check_redis, Cache_Get. keeps_auto.
  - intros v. unfold Save, check_redis, Cache_Set. keeps_auto.
  - unfold LogStateCache, service_guards, state_is_nil, cache_is_nil, Cache_Get. keeps_auto.
  - unfold DeleteStateCache, service_guards, state_is_nil, cache_is_nil, Cache_Del. keeps_auto.
Qed.
End Ready.

(** ** The server sees commands on the journey's key *)

Section Commands.
Context {G : GoLib} {R : RedisServer} {E : Env}.

(** A command on a key, and what it leaves of the server. *)
Inductive Command := CmdGet | CmdSet (value : json) | CmdDel.

Definition exec_command (key : string) (c : Command) (db : redis_db) : redis_db :=
  match c with
  | CmdGet => snd (redis_GET key db)
  | CmdSet value => snd (redis_SET key value db)
  | CmdDel => snd (redis_DEL key db)
  end.

Definition command_on (key : string) (db db' : redis_db) : Prop :=
  exists c, db' = exec_command key c db.

(** The journey's key is [key], and since [db0] its server has seen commands on it only. *)
Definition commands (key : string) (db0 : redis_db) (w : World) : Prop :=
  exists s db, w_state w = Some s /\ w_cache w = Some (Some db) /\ st_RedisKey s = key
    /\ rtc (command_on key) db0 db.

Lemma commands_exec key db0 w s db c :
  w_state w = Some s -> st_RedisKey s = key -> rtc (command_on key) db0 db ->
  commands key db0 (set_cache (Some (Some (exec_command key c db))) w).
Proof.
  intros Hs Hk Hr. exists s, (exec_command key c db). do 3 (split; [done|]).
  eapply rtc_r; [exact Hr|by exists c].
Qed.

(** A command of the journey's cache. *)
Lemma redis_call_commands {A} key db0 (cmd : redis_db -> (error + A) * redis_db) c :
  (forall db, snd (cmd db) = exec_command key c db) -> keeps (commands key db0) (redis_call cmd).
Proof.
  intros He w (s & db & Hs & Hdb & Hk & Hr). unfold redis_call. rewrite Hdb.
  specialize (He db). destruct (cmd db) as [r db']. cbn [snd] in *. subst db'.
  by eapply commands_exec.
Qed.

(** [LogStateCache] and [DeleteStateCache] give their command the key of the state. *)
Lemma guarded_commands {A} key db0 (f : State -> go World A) :
  (forall s, st_RedisKey s = key -> keeps (commands key db0) (f s)) ->
  keeps (commands key db0) (s ← service_guards;
    _ ← guard_err (String.eqb (st_RedisKey s) "") (Errorf "invalid state, redisKey is empty" []);
    f s).
Proof.
  intros Hf w Hw. pose proof Hw as (s & db & Hs & Hdb & Hk & _).
  unfold service_guards, state_is_nil, cache_is_nil, gets, guard_err, deref_state, throw,
    mbind, go_bind, mret, go_ret. cbn. rewrite Hs. cbn. rewrite Hdb. cbn. rewrite Hs.
  destruct (String.eqb (st_RedisKey s) ""); [exact Hw|]. by apply (Hf s Hk w Hw).
Qed.

#[export] Instance commands_kept key db0 (Hkey : key <> "") : KeptBy (commands key db0).
Proof.
  split.
  - intros w w' Hs Hc (s & db & H). exists s, db. by rewrite Hs, Hc.
  - intros f Hf w (s & db & Hs & Hdb & Hk & Hr). unfold update_state. rewrite Hs.
    exists (f s), db. cbn. by rewrite Hf.
  - intros w (s & db & Hs & Hdb & Hk & Hr). rewrite (Load_eq w s db Hs Hdb) by congruence.
    rewrite Hk. destruct (redis_GET key db) as [r db'] eqn:Eg.
    replace db' with (exec_command key CmdGet db) by (cbn; by rewrite Eg). by eapply commands_exec.
  - intros v w Hw. pose proof Hw as (s & db & Hs & Hdb & Hk & Hr).
    rewrite (Save_eq v w s db Hs Hdb) by congruence. destruct (encode_CacheValue v) as [j|]; [|exact Hw].
    rewrite Hk. destruct (redis_SET key j db) as [r db'] eqn:Eg.
    replace db' with (exec_command key (CmdSet j) db) by (cbn; by rewrite Eg). by eapply commands_exec.
  - apply guarded_commands. intros s ->. apply keeps_bind; [|intros j; apply keeps_ret].
    by apply (redis_call_commands _ _ _ CmdGet).
  - apply guarded_commands. intros s ->. by apply (redis_call_commands _ _ _ CmdDel).
Qed.
End Commands.

(** ** Every step *)

Section Kept.
Context {G : GoLib} {R : RedisServer} {E : Env} (I : World -> Prop) {K : KeptBy I}.

Lemma deref_state_kept : keeps I deref_state.
Proof. intros w Hw. unfold deref_state. by destruct (w_state w). Qed.

Lemma do_http_kept c m path q body : keeps I (do_http c m path q body).
Proof.
  intros w Hw. unfold do_http. destruct c; [|done].
  destruct (env_http _); by apply (kept_outside w).
Qed.

Lemma clock_Now_kept : keeps I clock_Now.
Proof. intros w Hw. unfold clock_Now. destruct (env_now _); by apply (kept_outside w). Qed.

Lemma rand_Intn_kept n : keeps I (rand_Intn n).
Proof. intros w Hw. unfold rand_Intn. destruct (n <=? 0); [done|]. by apply (kept_outside w). Qed.

Lemma rand_Float64_kept : keeps I rand_Float64.
Proof. intros w Hw. by apply (kept_outside w). Qed.

Lemma ctx_Err_kept : keeps I ctx_Err.
Proof. intros w Hw. by apply (kept_outside w). Qed.

Lemma update_Guest_kept g : keeps I (update_state (set_Guest g)).
Proof. by apply kept_update. Qed.

Lemma update_GuestId_kept id : keeps I (update_state (set_GuestId id)).
Proof. by apply kept_update. Qed.

Lemma update_CottageNames_kept l : keeps I (update_state (set_CottageNames l)).
Proof. by apply kept_update. Qed.

Lemma update_Queue_kept q r : keeps I (update_state (set_Queue q r)).
Proof. by apply kept_update. Qed.

#[local] Hint Resolve kept_Load kept_Save kept_Log kept_Delete deref_state_kept do_http_kept
  clock_Now_kept rand_Intn_kept rand_Float64_kept ctx_Err_kept update_Guest_kept
  update_GuestId_kept update_CottageNames_kept update_Queue_kept : guest.

Lemma service_guards_keeps : keeps I service_guards.
Proof. unfold service_guards, state_is_nil, cache_is_nil. keeps_auto. Qed.

#[local] Hint Resolve service_guards_keeps : guest.

Lemma InitializeStateCache_keeps : keeps I InitializeStateCache.
Proof. unfold InitializeStateCache. keeps_auto. Qed.

Lemma SyncStateCache_keeps stepName : keeps I (SyncStateCache stepName).
Proof. unfold SyncStateCache. keeps_auto. Qed.

(** *** The steps *)

Lemma require_state_keeps : keeps I require_state.
Proof. unfold require_state, state_is_nil. keeps_auto. Qed.

Lemma require_cache_keeps : keeps I require_cache.
Proof. unfold require_cache, cache_is_nil. keeps_auto. Qed.

Lemma require_guestId_keeps : keeps I require_guestId.
Proof. unfold require_guestId. keeps_auto. Qed.

#[local] Hint Resolve require_state_keeps require_cache_keeps require_guestId_keeps : guest.

Lemma loadAvailablePeriods_keeps c now d : keeps I (loadAvailablePeriods c now d).
Proof. unfold loadAvailablePeriods. keeps_auto. Qed.

#[local] Hint Resolve loadAvailablePeriods_keeps : guest.

Lemma collect_windows_keeps c now opts ws : keeps I (collect_windows c now opts ws).
Proof. induction ws as [|d ws IH]; cbn [collect_windows]; keeps_auto. Qed.

#[local] Hint Resolve collect_windows_keeps : guest.

Lemma collect_cottages_keeps cs now opts : keeps I (collect_cottages cs now opts).
Proof. induction cs as [|c cs IH]; cbn [collect_cottages]; keeps_auto. Qed.

#[local] Hint Resolve collect_cottages_keeps : guest.

Lemma booking_steps_keep k : keeps I (run_step booking_steps k).
Proof.
  unfold run_step. destruct k; simpl; keeps_auto.
  - unfold ListCottages_Execute. keeps_auto.
  - unfold SelectCottage_Validate. keeps_auto.
  - unfold SelectCottage_Execute. keeps_auto.
  - unfold SelectPeriod_Validate, state_is_nil, cache_is_nil. keeps_auto.
  - unfold SelectPeriod_Execute, collectStayCandidates. keeps_auto.
  - unfold BookCottage_Validate. keeps_auto.
  - unfold BookCottage_Execute. keeps_auto.
Qed.

Lemma register_steps_keep k : keeps I (run_step register_steps k).
Proof.
  unfold run_step. destruct k; simpl; keeps_auto.
  - unfold RegisterGuest_Validate. keeps_auto.
  - unfold RegisterGuest_Execute. keeps_auto.
  - unfold RetrieveGuest_Execute. keeps_auto.
Qed.

Lemma payment_steps_keep k : keeps I (run_step payment_steps k).
Proof.
  unfold run_step. destruct k; simpl; keeps_auto; unfold PayInvoice_Validate, PayInvoice_Execute, PayInvoice_Validate; keeps_auto.
Qed.

(** *** The flows *)

Lemma Pick_keeps {T} (l : list (WeightedTuple T)) : keeps I (PickRandomWeighted l).
Proof. unfold PickRandomWeighted. keeps_auto. Qed.

#[local] Hint Resolve Pick_keeps : guest.

Lemma run_from_keeps {T} (steps : T -> Step) stateMap fuel k :
  (forall k, keeps I (run_step steps k)) ->
  keeps I (run_from steps stateMap fuel k).
Proof.
  intros Hs. revert k. induction fuel as [|fuel IH]; intros k w Hw; [done|].
  rewrite run_from_S. destruct (env_ctx _); [by apply (kept_outside w)|].
  specialize (Hs k (tick_polls w) (kept_outside w (tick_polls w) eq_refl eq_refl Hw)).
  destruct (run_step _ _) as [[[]|e|p|] w3]; try done.
  destruct (stateMap k) as [ts|]; [|done].
  pose proof (Pick_keeps ts w3 Hs) as Hp.
  destruct (PickRandomWeighted ts w3) as [[next|e|p|] w4]; try done. by apply IH.
Qed.

Lemma booking_flow_keeps fuel : keeps I (Flow_Start fuel NewBookingFlow).
Proof.
  apply (run_from_keeps booking_steps (flow_StateMap booking_def) fuel ListCottagesId booking_steps_keep).
Qed.

Lemma register_flow_keeps fuel : keeps I (Flow_Start fuel NewGuestRegisterFlowWithState).
Proof.
  apply (run_from_keeps register_steps (flow_StateMap register_def) fuel RegisterGuestId register_steps_keep).
Qed.

Lemma payment_flow_keeps fuel : keeps I (Flow_Start fuel NewPaymentFlowWithState).
Proof.
  apply (run_from_keeps payment_steps (flow_StateMap payment_def) fuel PayInvoiceId payment_steps_keep).
Qed.
End Kept.

#[export] Hint Resolve deref_state_kept update_Queue_kept update_Guest_kept ctx_Err_kept
  kept_Load kept_Save kept_Log kept_Delete
  service_guards_keeps InitializeStateCache_keeps SyncStateCache_keeps
  require_state_keeps require_cache_keeps booking_flow_keeps register_flow_keeps
  payment_flow_keeps : guest.
#[export] Hint Extern 1 (KeptBy _) => typeclasses eauto : guest.

(** ** The cache operations neither panic nor lose the state *)

Section Robust.
Context {G : GoLib} {R : RedisServer} {E : Env}.

Lemma Load_robust t : robust t (ready false) Load.
Proof. eapply robust_intro; [apply Load_safe|apply kept_Load]. Qed.

Lemma Save_robust t v : robust t (ready false) (Save v).
Proof. eapply robust_intro; [apply Save_safe|apply kept_Save]. Qed.

Lemma deref_robust t : robust t (ready false) deref_state.
Proof. eapply robust_intro; [apply deref_state_safe|apply deref_state_keeps]. Qed.

Lemma update_robust t f : robust t (ready false) (update_state f).
Proof.
  intros w Hw. split; [by apply update_state_keeps|]. unfold update_state.
  destruct Hw as (s & c & -> & _). done.
Qed.

Lemma redis_call_robust {T} t (cmd : redis_db -> (error + T) * redis_db) :
  robust t (ready false) (redis_call cmd).
Proof. eapply robust_intro; [apply redis_call_safe|apply redis_call_keeps]. Qed.

#[local] Hint Resolve Load_robust Save_robust deref_robust update_robust redis_call_robust : guest.

Lemma service_guards_robust t : robust t (ready false) service_guards.
Proof. unfold service_guards, state_is_nil, cache_is_nil. robust_auto. Qed.

#[local] Hint Resolve service_guards_robust : guest.

Lemma InitializeStateCache_robust t : robust t (ready false) InitializeStateCache.
Proof. unfold InitializeStateCache. robust_auto. Qed.

Lemma SyncStateCache_robust t stepName : robust t (ready false) (SyncStateCache stepName).
Proof. unfold SyncStateCache. robust_auto. Qed.

Lemma LogStateCache_robust t : robust t (ready false) LogStateCache.
Proof. unfold LogStateCache, Cache_Get. robust_auto. Qed.

Lemma DeleteStateCache_robust t : robust t (ready false) DeleteStateCache.
Proof. unfold DeleteStateCache, Cache_Del. robust_auto. Qed.

End Robust.

#[export] Hint Resolve Load_robust Save_robust deref_robust update_robust
  InitializeStateCache_robust SyncStateCache_robust LogStateCache_robust
  DeleteStateCache_robust : guest.

