(* ===== verification/Bus.v ===== *)
(** * The guest communication bus: [journey_services/guest_communication_bus.go]

    Messages of three kinds arrive on one queue and are handed to the waiting step, or
    kept until one waits. The three kinds are three instances of [Topic]. The message
    codec is the class [ProtoLib]. *)

From Stdlib Require Import ZArith Lia.
From stdpp Require Import base tactics list option strings gmap fin_maps.
From S2P Require Import Prelude GoEffects GoTime GoText Domain.
Open Scope Z_scope.

(** ** A topic: subscribers' channels and the messages nobody took *)

(** Channels are identified by numbers; [buffers] is what each channel holds. *)
Record Topic (M : Type) := mkTopic {
  channels : gset nat;
  pending : list M;
  buffers : gmap nat (list M)
}.
Arguments mkTopic {M}.
Arguments channels {M}.
Arguments pending {M}.
Arguments buffers {M}.

(** [make(chan T, 1)] *)
Definition channel_cap : nat := 1.

Section Topic.
Context {M : Type}.
Implicit Types (t : Topic M) (m : M) (ch : nat).

Definition emptyTopic : Topic M := mkTopic NewSet [] ∅.

Definition buffer_of (b : gmap nat (list M)) ch : list M := default [] (b !! ch).

(** [select { case ch <- msg: ...; default: ... }] *)
Definition has_room (b : gmap nat (list M)) ch : bool :=
  Nat.ltb (length (buffer_of b ch)) channel_cap.

Definition notify_step m (acc : bool * gmap nat (list M)) ch : bool * gmap nat (list M) :=
  let '(delivered, b) := acc in
  if has_room b ch then (true, <[ch := buffer_of b ch ++ [m]]> b) else (delivered, b).

(** [notify...Subscribers] over the channels in the order [Values] gave. *)
Definition notifySubscribers (values : list nat) m (b : gmap nat (list M))
  : bool * gmap nat (list M) :=
  fold_left (notify_step m) values (false, b).

(** [publish...]; [values] is the enumeration of the map the language happens to use. *)
Definition publish_with (values : list nat) m t : Topic M :=
  let '(delivered, b) := notifySubscribers values m (buffers t) in
  if delivered then mkTopic (channels t) (pending t) b
  else mkTopic (channels t) (pending t ++ [m]) b.

Definition publish m t : Topic M := publish_with (elements (channels t)) m t.

(** [subscribe...]: a new channel, its number not used before, is made and added. *)
Definition subscribe ch t : Topic M :=
  mkTopic (Set_Add (channels t) ch) (pending t) (<[ch := []]> (buffers t)).

(** The function [subscribe...] returns: the channel leaves the set, what it holds is
    no longer read by anyone. *)
Definition unsubscribe ch t : Topic M :=
  mkTopic (Set_Remove (channels t) ch) (pending t) (buffers t).

Definition takePending t : option (M * Topic M) :=
  match pending t with
  | [] => None
  | m :: rest => Some (m, mkTopic (channels t) rest (buffers t))
  end.

(** [<-ch] *)
Definition receive ch t : option (M * Topic M) :=
  match buffer_of (buffers t) ch with
  | [] => None
  | m :: rest => Some (m, mkTopic (channels t) (pending t) (<[ch := rest]> (buffers t)))
  end.

(** *** What publishing does *)

(** The buffers after a message was offered to the channels of [values]. *)
Lemma notify_spec values m b d :
  NoDup values ->
  let r := fold_left (notify_step m) values (d, b) in
  (fst r = true <-> d = true \/ exists ch, ch ∈ values /\ has_room b ch = true)
  /\ forall ch, snd r !! ch =
       if decide (ch ∈ values /\ has_room b ch = true) then Some (buffer_of b ch ++ [m])
       else b !! ch.
Proof.
  intros Hnd. revert b d. induction Hnd as [|x l Hx Hnd IH]; intros b d; cbn [fold_left fst snd].
  - split; [split; [by left|by intros [?|(ch & []%not_elem_of_nil & _)]]|]. intros ch. rewrite decide_False; [done|]. by intros [[]%not_elem_of_nil _].
  - set (b' := if has_room b x then <[x := buffer_of b x ++ [m]]> b else b).
    set (d' := if has_room b x then true else d).
    assert (Hstep : notify_step m (d, b) x = (d', b'))
      by (unfold notify_step, d', b'; by destruct (has_room b x)).
    rewrite Hstep. specialize (IH b' d'). destruct IH as [IH1 IH2].
    assert (Hother : forall ch, ch ∈ l -> b' !! ch = b !! ch).
    { intros ch Hch. unfold b'. destruct (has_room b x); [|done].
      rewrite lookup_insert_ne; [done|]. by intros ->. }
    assert (Hroom : forall ch, ch ∈ l -> has_room b' ch = has_room b ch)
      by (intros ch Hch; unfold has_room, buffer_of; by rewrite Hother).
    split.
    + rewrite IH1. unfold d'. destruct (has_room b x) eqn:Er.
      * split; [|by left]. intros _. right. exists x. split; [by left|done].
      * split.
        -- intros [?|(ch & Hch & Hr)]; [by left|]. right. exists ch.
           rewrite <- Hroom by done. split; [by right|done].
        -- intros [?|(ch & [->|Hch]%elem_of_cons & Hr)]; [by left|congruence|].
           right. exists ch. by rewrite Hroom.
    + intros ch. rewrite IH2. destruct (decide (ch = x)) as [->|Hne].
      * rewrite (decide_False (P := x ∈ l /\ _)) by (by intros [? _]).
        unfold b'. destruct (has_room b x) eqn:Er.
        -- rewrite lookup_insert_eq. rewrite decide_True; [done|]. split; [by left|done].
        -- rewrite decide_False; [done|]. by intros [_ ?].
      * assert (Hb' : b' !! ch = b !! ch)
          by (unfold b'; destruct (has_room b x); [by rewrite lookup_insert_ne|done]).
        assert (Hr' : has_room b' ch = has_room b ch) by (unfold has_room, buffer_of; by rewrite Hb').
        unfold buffer_of. rewrite Hr', Hb'.
        destruct (decide (ch ∈ l /\ has_room b ch = true)) as [[H1 H2]|Hn].
        -- rewrite decide_True; [done|]. split; [by right|done].
        -- rewrite decide_False; [done|].
           intros [[?|?]%elem_of_cons ?]; [done|]. by apply Hn.
Qed.

(** Some subscriber can take a message. *)
Definition listening t : Prop := exists ch, ch ∈ channels t /\ has_room (buffers t) ch = true.

(** Every subscriber with room gets the message behind what it holds, and the message is
    kept as pending exactly when no subscriber had room. *)
Lemma publish_effect values m t :
  Set_Values (channels t) values ->
  let t' := publish_with values m t in
  channels t' = channels t
  /\ (listening t -> pending t' = pending t)
  /\ (~ listening t -> pending t' = pending t ++ [m])
  /\ forall ch, buffers t' !! ch =
       if decide (ch ∈ channels t /\ has_room (buffers t) ch = true)
       then Some (buffer_of (buffers t) ch ++ [m]) else buffers t !! ch.
Proof.
  intros [Hnd Hv]. cbv zeta. unfold publish_with, notifySubscribers.
  destruct (notify_spec values m (buffers t) false Hnd) as [H1 H2].
  destruct (fold_left _ _ _) as [d b]. cbn [fst snd] in *.
  assert (Hl : d = true <-> listening t).
  { rewrite H1. unfold listening. split.
    - intros [?|(ch & Hch & Hr)]; [done|]. exists ch. by rewrite <- Hv.
    - intros (ch & Hch & Hr). right. exists ch. by rewrite Hv. }
  assert (Hb : forall ch, b !! ch =
    if decide (ch ∈ channels t /\ has_room (buffers t) ch = true)
    then Some (buffer_of (buffers t) ch ++ [m]) else buffers t !! ch).
  { intros ch. rewrite H2. apply decide_ext. by rewrite Hv. }
  destruct d; cbn [channels pending buffers]; (split; [done|]); (split; [|split; [|done]]).
  - done.
  - intros Hn. destruct Hn. by apply Hl.
  - intros Hli. by apply Hl in Hli.
  - done.
Qed.

Lemma publish_values values m t :
  Set_Values (channels t) values -> publish_with values m t = publish m t.
Proof.
  intros [Hnd Hv]. unfold publish, publish_with, notifySubscribers.
  destruct (notify_spec values m (buffers t) false Hnd) as [H1 H2].
  destruct (notify_spec (elements (channels t)) m (buffers t) false (NoDup_elements _)) as [K1 K2].
  destruct (fold_left _ values _) as [d1 b1], (fold_left _ (elements _) _) as [d2 b2].
  cbn [fst snd] in *.
  assert (d1 = d2) as ->.
  { apply eq_bool_prop_intro. rewrite !Is_true_true, H1, K1.
    setoid_rewrite Hv. by setoid_rewrite elem_of_elements. }
  assert (b1 = b2) as ->.
  { apply map_eq. intros ch. rewrite H2, K2. apply decide_ext. by rewrite Hv, elem_of_elements. }
  done.
Qed.

(** C27: publishing does not depend on the order in which Go enumerates the
    subscribers: every subscriber with room gets the message behind what it holds, every
    other channel keeps its contents, and the message is kept as pending, behind the
    others, exactly when no subscriber had room. *)
Theorem publish_correct values m t :
  Set_Values (channels t) values ->
  publish_with values m t = publish m t
  /\ channels (publish m t) = channels t
  /\ (pending (publish m t) = pending t /\ listening t
      \/ pending (publish m t) = pending t ++ [m] /\ ~ listening t)
  /\ forall ch, buffer_of (buffers (publish m t)) ch =
       if decide (ch ∈ channels t /\ has_room (buffers t) ch = true)
       then buffer_of (buffers t) ch ++ [m] else buffer_of (buffers t) ch.
Proof.
  intros Hv. split; [by apply publish_values|].
  destruct (publish_effect _ m t (Set_Values_elements (channels t))) as (H1 & H2 & H3 & H4).
  fold (publish m t) in *. split; [done|]. split.
  - destruct (decide (Exists (fun ch => has_room (buffers t) ch = true) (elements (channels t)))) as [He|He].
    + assert (Hl : listening t).
      { apply Exists_exists in He as (ch & Hch & Hr). exists ch. by rewrite <- elem_of_elements. }
      left. auto.
    + assert (Hl : ~ listening t).
      { intros (ch & Hch & Hr). apply He, Exists_exists. exists ch. by rewrite elem_of_elements. }
      right. auto.
  - intros ch. unfold buffer_of at 1. rewrite H4. by destruct (decide _).
Qed.
End Topic.

(** ** The bus *)

(** [proto.Unmarshal] for the three messages: its error or the message. *)
Class ProtoLib := {
  unmarshal_PaymentRequest : string -> error + PaymentRequest;
  unmarshal_BookingConfirmed : string -> error + BookingConfirmedNotificationEvent;
  unmarshal_CheckInToday : string -> error + CheckInTodayNotification
}.

(** A value of [amqp.Table]; one that is neither text nor bytes is known by what
    [fmt.Sprint] prints for it. *)
Inductive HeaderValue := HString (s : string) | HBytes (s : string) | HNil | HOther (printed : string).

Record Delivery := mkDelivery {
  Headers : option (gmap string HeaderValue);
  RoutingKey : string;
  Body : string;
  DeliveryTag : nat
}.

Definition deliveryHeader (d : Delivery) (key : string) : string :=
  match Headers d with
  | None => ""
  | Some h =>
      match h !! key with
      | None | Some HNil => ""
      | Some (HString s) | Some (HBytes s) | Some (HOther s) => s
      end
  end.

Definition paymentRequestMessageType : string := "paymentSimulator.payment.v1.PaymentRequest".
Definition bookingConfirmationMessageType : string :=
  "cottageManager.invoice.BookingConfirmedNotificationEvent".
Definition checkinTodayMessageType : string := "lodging.v1.CheckInTodayNotification".

(** The [done] channels are numbered; [closed] are those closed so far. *)
Record Bus := mkBus {
  bus_HasConsumer : bool;
  paymentRequests : Topic PaymentRequest;
  bookingConfirmations : Topic BookingConfirmedNotificationEvent;
  checkinTodays : Topic CheckInTodayNotification;
  bus_done : nat;
  bus_closed : gset nat;
  bus_err : option error
}.

Definition set_paymentRequests t (b : Bus) : Bus :=
  mkBus (bus_HasConsumer b) t (bookingConfirmations b) (checkinTodays b) (bus_done b) (bus_closed b) (bus_err b).
Definition set_bookingConfirmations t (b : Bus) : Bus :=
  mkBus (bus_HasConsumer b) (paymentRequests b) t (checkinTodays b) (bus_done b) (bus_closed b) (bus_err b).
Definition set_checkinTodays t (b : Bus) : Bus :=
  mkBus (bus_HasConsumer b) (paymentRequests b) (bookingConfirmations b) t (bus_done b) (bus_closed b) (bus_err b).
Definition set_bus_Consumer c (b : Bus) : Bus :=
  mkBus c (paymentRequests b) (bookingConfirmations b) (checkinTodays b) (bus_done b) (bus_closed b) (bus_err b).

Definition NewGuestCommunicationBus : Bus :=
  mkBus false emptyTopic emptyTopic emptyTopic 0 ∅ None.

(** The goroutine of [Start] keeps the [done] channel made here. *)
Definition bus_Start (b : Bus) : Bus :=
  mkBus (bus_HasConsumer b) (paymentRequests b) (bookingConfirmations b) (checkinTodays b)
    (S (bus_done b)) (bus_closed b) None.

Definition bus_Reset (b : Bus) : Bus :=
  mkBus (bus_HasConsumer b) emptyTopic emptyTopic emptyTopic (S (bus_done b)) (bus_closed b) None.

(** [Done()] is ready. *)
Definition bus_is_done (b : Bus) : bool := bool_decide (bus_done b ∈ bus_closed b).

Definition publishPaymentRequest m (b : Bus) : Bus :=
  set_paymentRequests (publish m (paymentRequests b)) b.
Definition publishBookingConfirmation m (b : Bus) : Bus :=
  set_bookingConfirmations (publish m (bookingConfirmations b)) b.
Definition publishCheckinToday m (b : Bus) : Bus :=
  set_checkinTodays (publish m (checkinTodays b)) b.

(** Calls on the delivery's acknowledger; their errors are only logged. *)
Inductive AckCall := CallAck (tag : nat) (multiple : bool) | CallNack (tag : nat) (multiple requeue : bool).

Definition ackDelivery (d : Delivery) : AckCall := CallAck (DeliveryTag d) false.
Definition nackDelivery (d : Delivery) : AckCall := CallNack (DeliveryTag d) false false.

Inductive BusEvent := BusCtxDone (e : error) | BusClosed | BusDelivery (d : Delivery).

Section BusLoop.
Context {P : ProtoLib}.

Definition handleDelivery (d : Delivery) (b : Bus) : error + Bus :=
  let kind := deliveryHeader d "message_type" in
  if String.eqb kind paymentRequestMessageType then
    match unmarshal_PaymentRequest (Body d) with
    | inl e => inl (Wrapf "unmarshal payment request: %w" [] e)
    | inr msg => inr (publishPaymentRequest msg b)
    end
  else if String.eqb kind bookingConfirmationMessageType then
    match unmarshal_BookingConfirmed (Body d) with
    | inl e => inl (Wrapf "unmarshal booking confirmation: %w" [] e)
    | inr msg => inr (publishBookingConfirmation msg b)
    end
  else if String.eqb kind checkinTodayMessageType then
    match unmarshal_CheckInToday (Body d) with
    | inl e => inl (Wrapf "unmarshal checkin today: %w" [] e)
    | inr msg => inr (publishCheckinToday msg b)
    end
  else inl (Errorf "unsupported message_type %q" [kind]).

(** [b.err = err] and the deferred [close(done)] of the goroutine. *)
Definition bus_stop (done : nat) (err : error) (b : Bus) : Bus :=
  mkBus (bus_HasConsumer b) (paymentRequests b) (bookingConfirmations b) (checkinTodays b)
    (bus_done b) ({[done]} ∪ bus_closed b) (Some err).

(** One turn of the goroutine's loop: the bus, the acknowledgement, and whether the loop
    goes on. *)
Definition bus_turn (done : nat) (ev : BusEvent) (b : Bus) : Bus * list AckCall * bool :=
  match ev with
  | BusCtxDone e => (bus_stop done e b, [], false)
  | BusClosed => (bus_stop done (Errorf "guest communication channel closed" []) b, [], false)
  | BusDelivery d =>
      match handleDelivery d b with
      | inl _ => (b, [nackDelivery d], true)
      | inr b' => (b', [ackDelivery d], true)
      end
  end.

Fixpoint bus_loop (done : nat) (evs : list BusEvent) (b : Bus) : Bus * list AckCall * bool :=
  match evs with
  | [] => (b, [], true)
  | ev :: rest =>
      let '(b1, acks1, goes_on) := bus_turn done ev b in
      if goes_on then
        let '(b2, acks2, g) := bus_loop done rest b1 in (b2, acks1 ++ acks2, g)
      else (b1, acks1, false)
  end.

(** *** What the loop promises *)

(** The message of a delivery, by its declared type. *)
Inductive BusMessage :=
| MsgPayment (m : PaymentRequest)
| MsgConfirmed (m : BookingConfirmedNotificationEvent)
| MsgCheckin (m : CheckInTodayNotification).

Definition right_of {A} (r : error + A) : option A :=
  match r with inl _ => None | inr a => Some a end.

Definition message_of (d : Delivery) : option BusMessage :=
  let kind := deliveryHeader d "message_type" in
  if decide (kind = paymentRequestMessageType)
  then MsgPayment <$> right_of (unmarshal_PaymentRequest (Body d))
  else if decide (kind = bookingConfirmationMessageType)
  then MsgConfirmed <$> right_of (unmarshal_BookingConfirmed (Body d))
  else if decide (kind = checkinTodayMessageType)
  then MsgCheckin <$> right_of (unmarshal_CheckInToday (Body d))
  else None.

Definition publish_message (m : BusMessage) (b : Bus) : Bus :=
  match m with
  | MsgPayment m => publishPaymentRequest m b
  | MsgConfirmed m => publishBookingConfirmation m b
  | MsgCheckin m => publishCheckinToday m b
  end.

(** The specification of the loop: publish what can be read, acknowledge it, refuse the
    rest without requeueing. *)
Definition spec_acks (d : Delivery) : AckCall :=
  match message_of d with
  | Some _ => CallAck (DeliveryTag d) false
  | None => CallNack (DeliveryTag d) false false
  end.

Definition spec_bus (ds : list Delivery) (b : Bus) : Bus :=
  fold_left (fun b m => publish_message m b) (omap message_of ds) b.

Lemma handleDelivery_message d b :
  match handleDelivery d b with
  | inr b' => exists m, message_of d = Some m /\ b' = publish_message m b
  | inl _ => message_of d = None
  end.
Proof.
  unfold handleDelivery, message_of. cbv zeta.
  set (kind := deliveryHeader d "message_type"). clearbody kind.
  destruct (String.eqb kind paymentRequestMessageType) eqn:E1; reflect_ineqs.
  { rewrite decide_True by done. destruct (unmarshal_PaymentRequest _); simpl; eauto. }
  rewrite (decide_False (P := kind = paymentRequestMessageType)) by done.
  destruct (String.eqb kind bookingConfirmationMessageType) eqn:E2; reflect_ineqs.
  { rewrite decide_True by done. destruct (unmarshal_BookingConfirmed _); simpl; eauto. }
  rewrite (decide_False (P := kind = bookingConfirmationMessageType)) by done.
  destruct (String.eqb kind checkinTodayMessageType) eqn:E3; reflect_ineqs.
  { rewrite decide_True by done. destruct (unmarshal_CheckInToday _); simpl; eauto. }
  by rewrite decide_False.
Qed.

(** C26: the loop of the bus implements its specification: every delivery is settled
    exactly once and in order, acknowledged and published on its topic exactly when its
    type is known and its body can be read, otherwise refused without requeueing; a
    cancelled context or a closed queue ends it with the error set and the [done]
    channel closed, and nothing after is processed. *)
Theorem bus_loop_refines done ds ending rest b :
  (match ending with BusDelivery _ => False | _ => True end) ->
  bus_loop done (map BusDelivery ds) b = (spec_bus ds b, map spec_acks ds, true)
  /\ exists e, bus_loop done (map BusDelivery ds ++ ending :: rest) b
               = (bus_stop done e (spec_bus ds b), map spec_acks ds, false).
Proof.
  intros Hend. revert b. induction ds as [|d ds IH]; intros b.
  - split; [done|]. destruct ending; [by eexists..|done].
  - cbn [map app bus_loop bus_turn]. pose proof (handleDelivery_message d b) as Hm.
    unfold spec_bus, spec_acks. cbn [omap list_omap].
    destruct (handleDelivery d b) as [e|b'].
    + rewrite Hm. destruct (IH b) as [-> (e' & ->)]. split; [done|]. by exists e'.
    + destruct Hm as (m & -> & ->). destruct (IH (publish_message m b)) as [-> (e' & ->)].
      split; [done|]. by exists e'.
Qed.
End BusLoop.

(** A stopped bus reports it to those who wait, until it is reset. *)
Lemma bus_stop_done b e : bus_is_done (bus_stop (bus_done b) e b) = true.
Proof. unfold bus_is_done, bus_stop. simpl. apply bool_decide_eq_true_2. set_solver. Qed.

(** ** Concrete runs *)

Section Witnesses.
Lemma publish_correct_witness :
  let t := subscribe 7%nat (publish "a" (@emptyTopic string)) in
  Set_Values (channels t) [7%nat]
  /\ listening t /\ pending (publish_with [7%nat] "b" t) = pending t.
Proof.
  cbv zeta. set (t := subscribe 7%nat (publish "a" (@emptyTopic string))).
  assert (Hv : Set_Values (channels t) [7%nat]).
  { split; [repeat constructor; set_solver|]. intros x. unfold t. cbn [channels subscribe].
    unfold Set_Add, publish, publish_with. cbn. set_solver. }
  split; [exact Hv|]. assert (Hl : listening t).
  { exists 7%nat. split; [apply Hv; set_solver|vm_compute; reflexivity]. }
  split; [exact Hl|].
  destruct (publish_correct [7%nat] "b" t Hv) as (-> & _ & [[Hp _]|[_ []]] & _); [exact Hp|exact Hl].
Defined.

#[local] Instance sample_proto : ProtoLib := {|
  unmarshal_PaymentRequest _ := inl (LibError "proto: cannot parse");
  unmarshal_BookingConfirmed _ := inl (LibError "proto: cannot parse");
  unmarshal_CheckInToday body := inr (mkCheckInToday body "g-1" "Aspen" None None 1 None)
|}.

Lemma bus_loop_refines_witness :
  let d := mkDelivery (Some {["message_type" := HString checkinTodayMessageType]}) "guest.g-1" "b-1" 1 in
  let bad := mkDelivery None "guest.g-1" "x" 2 in
  bus_loop 1 (map BusDelivery [d; bad]) NewGuestCommunicationBus
  = (spec_bus [d; bad] NewGuestCommunicationBus, [CallAck 1 false; CallNack 2 false false], true).
Proof.
  cbv zeta. destruct (bus_loop_refines 1
    [mkDelivery (Some {["message_type" := HString checkinTodayMessageType]}) "guest.g-1" "b-1" 1;
     mkDelivery None "guest.g-1" "x" 2] BusClosed [] NewGuestCommunicationBus I) as [-> _].
  vm_compute. reflexivity.
Defined.
End Witnesses.
