(* ===== verification/Waits.v ===== *)
(** * Waiting for a message: [journey_services/wait_*.go]

    The three predicates a message is matched with, and the waiting loop the three files
    share, as a transition system in which the bus publishes, the context is cancelled
    and the bus stops between any two turns of the loop. *)

From Stdlib Require Import ZArith Lia.
From stdpp Require Import base tactics list option strings gmap.
From S2P Require Import Prelude GoEffects GoTime GoText Domain Enums Json World Samples SelectPeriod Flow Kept Bus.
Open Scope Z_scope.

(** ** Matching *)

Section Match.
Context {G : GoLib} {R : RedisServer} {E : Env}.

Definition empty (s : string) : bool := String.eqb s "".

(** [msg.GetTotal()] and what is asked of it *)
Definition valid_total (m : PaymentRequest) : bool :=
  match pr_Total m with
  | None => false
  | Some t => negb ((Amount t <=? 0) || empty (TrimSpace (Currency t)))
  end.

Definition total_cottage (m : PaymentRequest) : option string := sum_CottageName <$> pr_Booking m.

Definition payer_is (m : PaymentRequest) (email : string) : bool :=
  match pr_Payer m with
  | None => false
  | Some p => EqualFold (TrimSpace (payer_Email p)) (TrimSpace email)
  end.

Definition matchPaymentRequest (msg : option PaymentRequest) : go World unit :=
  match msg with
  | None => throw (Errorf "payment request is nil" [])
  | Some m =>
      cacheValue ← Load;
      _ ← guard_err (empty (TrimSpace (pr_InvoiceNumber m)))
            (Errorf "payment request missing invoiceNumber" []);
      _ ← guard_err (negb (valid_total m)) (Errorf "payment request has invalid total" []);
      _ ← guard_err (match total_cottage m with None => true | Some c => empty (TrimSpace c) end)
            (Errorf "payment request missing booking summary" []);
      match PersonalInfo cacheValue with
      | None => throw (Errorf "cached guest context is empty" [])
      | Some g =>
          match Booking cacheValue with
          | None => throw (Errorf "cached booking context is empty" [])
          | Some b =>
              _ ← guard_err (empty (SelectedCottage b))
                    (Errorf "cached booking context is empty" []);
              _ ← guard_err (negb (payer_is m (Email g)))
                    (Errorf "payment request payer does not match guest email" []);
              _ ← guard_err (negb (String.eqb (default "" (total_cottage m)) (SelectedCottage b)))
                    (Errorf "payment request cottage %q does not match selected cottage %q"
                       [default "" (total_cottage m); SelectedCottage b]);
              let i := default zeroInvoice (Invoice cacheValue) in
              Save (set_cv_Invoice
                      (Some (mkInvoice (TrimSpace (pr_InvoiceNumber m)) (ReceiptNumber i)))
                      cacheValue)
          end
      end
  end.

Definition matchBookingConfirmation (msg : option BookingConfirmedNotificationEvent)
  : go World unit :=
  match msg with
  | None => throw (Errorf "booking confirmation is nil" [])
  | Some m =>
      cacheValue ← Load;
      match Booking cacheValue with
      | None => throw (Errorf "cached booking context is empty" [])
      | Some b =>
          _ ← guard_err (negb (String.eqb (bc_BookingId m) (BookingID b)))
                (Errorf "booking confirmation bookingId %q does not match cache %q"
                   [bc_BookingId m; BookingID b]);
          _ ← guard_err (negb (bool_decide (bc_BookingStatus m = BOOKING_STATUS_CONFIRMED)))
                (Errorf "booking confirmation status %q is not confirmed"
                   [EnumString (bc_BookingStatus m)]);
          s ← deref_state;
          guard_err (match bc_Guest m with
                     | None => true
                     | Some g => negb (String.eqb (ng_GuestId g) (st_GuestId s))
                     end)
            (Errorf "booking confirmation guestId does not match guest" [])
      end
  end.

Definition matchCheckinToday (msg : option CheckInTodayNotification) : go World unit :=
  match msg with
  | None => throw (Errorf "checkin today notification is nil" [])
  | Some m =>
      cacheValue ← Load;
      match Booking cacheValue with
      | None => throw (Errorf "cached booking context is empty" [])
      | Some b =>
          match SelectedPeriod b with
          | None => throw (Errorf "cached booking context is empty" [])
          | Some p =>
              _ ← guard_err (negb (String.eqb (ct_BookingId m) (BookingID b)))
                    (Errorf "checkin today bookingId %q does not match cache %q"
                       [ct_BookingId m; BookingID b]);
              s ← deref_state;
              _ ← guard_err (negb (String.eqb (ct_GuestId m) (st_GuestId s)))
                    (Errorf "checkin today guestId %q does not match state %q"
                       [ct_GuestId m; st_GuestId s]);
              _ ← guard_err (negb (String.eqb (ct_CottageName m) (SelectedCottage b)))
                    (Errorf "checkin today cottage %q does not match selected cottage %q"
                       [ct_CottageName m; SelectedCottage b]);
              guard_err (match ct_CheckIn m with
                         | None => true
                         | Some t => negb (Equal (UTC t) (UTC (Start p)))
                         end)
                (Errorf "checkin today checkIn does not match selected period start %s"
                   [FormatRFC3339Nano (UTC (Start p))])
          end
      end
  end.
End Match.

(** ** The loop *)

Section Wait.
Context {G : GoLib} {R : RedisServer} {E : Env} {M : Type}.
(** The match function of the topic and the waiter's channel *)
Variable matches : option M -> go World unit.
Variable ch : nat.

(** Where the waiting goroutine is: at the head of the loop, blocked in [select], or
    back from the call. *)
Inductive WaitPc := AtPending | AtSelect | Returned (r : outcome unit).

(** [wt_consumed] and [wt_published] are history variables. *)
Record WaitCfg := mkWait {
  wt_topic : Topic M;
  wt_world : World;
  wt_ctx : option error;
  wt_stopped : option error;
  wt_pc : WaitPc;
  wt_consumed : list M;
  wt_published : list M
}.

(** Turns of the waiter and of its environment. *)
Inductive WaitLabel :=
| WTake
| WCtxDone
| WBusDone
| WReceive
| EPublish (m : M)
| ECancel (e : error)
| EStop (e : error).

Definition is_waiter (l : WaitLabel) : bool :=
  match l with WTake | WCtxDone | WBusDone | WReceive => true | _ => false end.

(** A return runs the deferred [unsubscribe]. *)
Definition wait_return (r : outcome unit) (c : WaitCfg) : WaitCfg :=
  mkWait (unsubscribe ch (wt_topic c)) (wt_world c) (wt_ctx c) (wt_stopped c) (Returned r)
    (wt_consumed c) (wt_published c).

(** The message is matched: a nil error returns, another one goes on at [next]. *)
Definition wait_match (m : M) (t : Topic M) (next : WaitPc) (c : WaitCfg) : WaitCfg :=
  let '(r, w) := matches (Some m) (wt_world c) in
  let c' := mkWait t w (wt_ctx c) (wt_stopped c) next (wt_consumed c ++ [m]) (wt_published c) in
  match r with
  | Ret _ => wait_return (Ret tt) c'
  | Err _ => c'
  | Panic p => wait_return (Panic p) c'
  | Stuck => wait_return Stuck c'
  end.

Definition err_bus_closed : error := Errorf "guest communication channel closed" [].

(** [if err := bus.Err(); err != nil && !errors.Is(err, context.Canceled)] *)
Definition bus_done_err (e : error) : error :=
  if errors_Is_Canceled e then err_bus_closed else e.

Definition wait_step (l : WaitLabel) (c : WaitCfg) : option WaitCfg :=
  match l, wt_pc c with
  | WTake, AtPending =>
      match takePending (wt_topic c) with
      | None => Some (mkWait (wt_topic c) (wt_world c) (wt_ctx c) (wt_stopped c) AtSelect
                        (wt_consumed c) (wt_published c))
      | Some (m, t) => Some (wait_match m t AtSelect c)
      end
  | WCtxDone, AtSelect =>
      match wt_ctx c with Some e => Some (wait_return (Err e) c) | None => None end
  | WBusDone, AtSelect =>
      match wt_stopped c with
      | Some e => Some (wait_return (Err (bus_done_err e)) c)
      | None => None
      end
  | WReceive, AtSelect =>
      match receive ch (wt_topic c) with
      | Some (m, t) => Some (wait_match m t AtPending c)
      | None => None
      end
  | EPublish m, _ =>
      match wt_stopped c with
      | None => Some (mkWait (publish m (wt_topic c)) (wt_world c) (wt_ctx c) (wt_stopped c)
                        (wt_pc c) (wt_consumed c) (wt_published c ++ [m]))
      | Some _ => None
      end
  | ECancel e, _ =>
      match wt_ctx c with
      | None => Some (mkWait (wt_topic c) (wt_world c) (Some e) (wt_stopped c) (wt_pc c)
                        (wt_consumed c) (wt_published c))
      | Some _ => None
      end
  | EStop e, _ =>
      match wt_stopped c with
      | None => Some (mkWait (wt_topic c) (wt_world c) (wt_ctx c) (Some e) (wt_pc c)
                        (wt_consumed c) (wt_published c))
      | Some _ => None
      end
  | _, _ => None
  end.

Definition wait_rel (c : WaitCfg) (l : WaitLabel) (c' : WaitCfg) : Prop := wait_step l c = Some c'.

(** The call: subscribe, then the loop. *)
Definition wait_start (t : Topic M) (w : World) (ctx stopped : option error) : WaitCfg :=
  mkWait (subscribe ch t) w ctx stopped AtPending [] [].

(** Run a schedule until the call returns; a turn that is not enabled is skipped. *)
Fixpoint wait_run (sched : list WaitLabel) (c : WaitCfg) : WaitCfg :=
  match sched, wt_pc c with
  | _, Returned _ | [], _ => c
  | l :: rest, _ => wait_run rest (default c (wait_step l c))
  end.

(** *** Invariants *)

(** The topic has no other subscriber. *)
Record wait_inv (p0 : list M) (c : WaitCfg) : Prop := {
  inv_channels : channels (wt_topic c) =
                 match wt_pc c with Returned _ => ∅ | _ => {[ch]} end;
  inv_cap : (length (buffer_of (buffers (wt_topic c)) ch) <= channel_cap)%nat;
  inv_conserved : p0 ++ wt_published c ≡ₚ
                  wt_consumed c ++ pending (wt_topic c) ++ buffer_of (buffers (wt_topic c)) ch;
  inv_result : match wt_pc c with
               | Returned (Ret _) => exists m w, m ∈ wt_consumed c
                                       /\ matches (Some m) w = (Ret tt, wt_world c)
               | Returned (Err e) => wt_ctx c = Some e
                                     \/ exists e', wt_stopped c = Some e' /\ e = bus_done_err e'
               | _ => True
               end
}.

Lemma wait_inv_start t w ctx stopped :
  channels t = ∅ -> wait_inv (pending t) (wait_start t w ctx stopped).
Proof.
  intros Ht. split; cbn.
  - rewrite Ht. unfold Set_Add. set_solver.
  - unfold buffer_of. rewrite lookup_insert_eq. simpl. lia.
  - unfold buffer_of. rewrite lookup_insert_eq. simpl. by rewrite !app_nil_r.
  - done.
Qed.

Lemma publish_one_subscriber m (t : Topic M) :
  channels t = {[ch]} -> (length (buffer_of (buffers t) ch) <= channel_cap)%nat ->
  channels (publish m t) = {[ch]}
  /\ (length (buffer_of (buffers (publish m t)) ch) <= channel_cap)%nat
  /\ pending (publish m t) ++ buffer_of (buffers (publish m t)) ch
     ≡ₚ (pending t ++ buffer_of (buffers t) ch) ++ [m].
Proof.
  intros Hc Hcap.
  destruct (publish_effect _ m t (Set_Values_elements (channels t))) as (H1 & H2 & H3 & H4).
  fold (publish m t) in *. split; [congruence|].
  specialize (H4 ch). unfold buffer_of at 1 2. rewrite H4. rewrite Hc.
  destruct (has_room (buffers t) ch) eqn:Er.
  - rewrite decide_True by (split; [set_solver|done]). cbn [from_option id].
    assert (Hl : listening t) by (exists ch; rewrite Hc; split; [set_solver|done]).
    rewrite H2 by done. unfold has_room in Er. apply Nat.ltb_lt in Er.
    rewrite length_app. simpl. split; [lia|]. by rewrite app_assoc.
  - rewrite decide_False by (by intros [_ ?]).
    rewrite H3; [|intros (x & Hx & Hr); rewrite Hc in Hx; apply elem_of_singleton in Hx as ->; congruence].
    fold (buffer_of (buffers t) ch). split; [done|].
    rewrite <- !app_assoc. apply Permutation_app_head. apply Permutation_app_comm.
Qed.

Lemma publish_no_subscriber m (t : Topic M) :
  channels t = ∅ ->
  channels (publish m t) = ∅ /\ pending (publish m t) = pending t ++ [m]
  /\ buffer_of (buffers (publish m t)) ch = buffer_of (buffers t) ch.
Proof.
  intros Hc.
  destruct (publish_effect _ m t (Set_Values_elements (channels t))) as (H1 & H2 & H3 & H4).
  fold (publish m t) in *. rewrite Hc in *. split; [done|].
  split; [apply H3; intros (x & Hx & _); rewrite Hc in Hx; set_solver|].
  unfold buffer_of. rewrite H4. rewrite decide_False; [done|set_solver].
Qed.

Lemma wait_match_inv p0 m t next c :
  match next with Returned _ => False | _ => True end ->
  channels t = {[ch]} ->
  (length (buffer_of (buffers t) ch) <= channel_cap)%nat ->
  p0 ++ wt_published c ≡ₚ (wt_consumed c ++ [m]) ++ pending t ++ buffer_of (buffers t) ch ->
  wait_inv p0 (wait_match m t next c).
Proof.
  intros Hnext Hch Hcap Hcons. unfold wait_match.
  destruct (matches (Some m) (wt_world c)) as [r w] eqn:Em.
  assert (Hun : channels t ∖ {[ch]} = ∅) by (rewrite Hch; set_solver).
  destruct r as [[]|e|p|]; split; cbn; unfold Set_Remove; try done.
  - exists m, (wt_world c). split; [set_solver|done].
  - by destruct next.
  - by destruct next.
Qed.

(** Every turn keeps the invariant. *)
Lemma wait_inv_step p0 c l c' : wait_inv p0 c -> wait_rel c l c' -> wait_inv p0 c'.
Proof.
  intros [Hch Hcap Hcons Hres] Hstep. unfold wait_rel, wait_step in Hstep.
  destruct l.
  - destruct (wt_pc c) eqn:Epc; try done. unfold takePending in Hstep.
    destruct (pending (wt_topic c)) as [|m rest] eqn:Ep.
    + injection Hstep as <-. split; cbn; try done; by rewrite ?Ep.
    + injection Hstep as <-. apply wait_match_inv; cbn; try done.
      rewrite Hcons. by rewrite <- !app_assoc.
  - destruct (wt_pc c) eqn:Epc; try done. destruct (wt_ctx c) as [e|] eqn:Ec; [|done].
    injection Hstep as <-. split; cbn; try done; [|by left].
    unfold Set_Remove. rewrite Hch. set_solver.
  - destruct (wt_pc c) eqn:Epc; try done. destruct (wt_stopped c) as [e|] eqn:Ec; [|done].
    injection Hstep as <-. split; cbn; try done; [|right; eauto].
    unfold Set_Remove. rewrite Hch. set_solver.
  - destruct (wt_pc c) eqn:Epc; try done. unfold receive in Hstep.
    destruct (buffer_of _ ch) as [|m rest] eqn:Eb; [done|]. injection Hstep as <-.
    apply wait_match_inv; cbn; try done; unfold buffer_of; rewrite lookup_insert_eq; cbn.
    + simpl in Hcap. lia.
    + rewrite Hcons. rewrite <- app_assoc. apply Permutation_app_head.
      symmetry. simpl. apply Permutation_middle.
  - destruct (wt_stopped c) eqn:Es; [done|]. injection Hstep as <-.
    destruct (wt_pc c) as [| |r] eqn:Epc.
    1-2: destruct (publish_one_subscriber m _ Hch Hcap) as (H1 & H2 & H3); split; cbn; try done;
      rewrite H3, app_assoc, app_assoc, Hcons; by rewrite <- !app_assoc.
    destruct (publish_no_subscriber m _ Hch) as (H1 & H2 & H3). split; cbn; try done.
    + by rewrite H3.
    + rewrite H2, H3, app_assoc, Hcons, <- !app_assoc. do 2 apply Permutation_app_head.
      apply Permutation_app_comm.
  - destruct (wt_ctx c) eqn:Es; [done|]. injection Hstep as <-. split; cbn; try done.
    destruct (wt_pc c) as [| |[]]; try done. destruct Hres as [?|?]; [done|by right].
  - destruct (wt_stopped c) eqn:Es; [done|]. injection Hstep as <-. split; cbn; try done.
    destruct (wt_pc c) as [| |[]]; try done. destruct Hres as [?|(? & ? & _)]; [by left|done].
Qed.

Lemma wait_reachable t w ctx stopped ls c :
  channels t = ∅ -> run wait_rel (wait_start t w ctx stopped) ls c -> wait_inv (pending t) c.
Proof.
  intros Ht Hrun. eapply (run_invariant wait_rel (wait_inv (pending t)));
    [intros c0 l c0' H H'; by eapply wait_inv_step|exact Hrun|by apply wait_inv_start].
Qed.
End Wait.

(** ** What a wait promises *)

Section WaitSpec.
Context {G : GoLib} {R : RedisServer} {E : Env} {M : Type}.
Variable matches : option M -> go World unit.
Variable ch : nat.

(** C24: whatever the interleaving of the waiter with the bus, no message is lost or
    duplicated while it waits: what was pending and what was published is what the
    waiter matched, what is still pending and what its channel holds, a channel that
    never holds more than one message. *)
Theorem wait_conserves t w ctx stopped ls c :
  channels t = ∅ -> run (wait_rel matches ch) (wait_start ch t w ctx stopped) ls c ->
  pending t ++ wt_published c ≡ₚ
    wt_consumed c ++ pending (wt_topic c) ++ buffer_of (buffers (wt_topic c)) ch
  /\ (length (buffer_of (buffers (wt_topic c)) ch) <= 1)%nat
  /\ channels (wt_topic c) = match wt_pc c with Returned _ => ∅ | _ => {[ch]} end.
Proof. intros Ht Hrun. by destruct (wait_reachable _ _ _ _ _ _ _ _ Ht Hrun). Qed.

(** C22: a wait succeeds only with a message that was pending or published and that the
    match function accepted last; it fails only with the error of its context, or of a
    stopped bus. *)
Theorem wait_result t w ctx stopped ls c :
  channels t = ∅ -> run (wait_rel matches ch) (wait_start ch t w ctx stopped) ls c ->
  match wt_pc c with
  | Returned (Ret _) => exists m w', m ∈ pending t ++ wt_published c
                          /\ matches (Some m) w' = (Ret tt, wt_world c)
  | Returned (Err e) => wt_ctx c = Some e
                        \/ exists e', wt_stopped c = Some e' /\ e = bus_done_err e'
  | _ => True
  end.
Proof.
  intros Ht Hrun. destruct (wait_reachable _ _ _ _ _ _ _ _ Ht Hrun) as [_ _ Hcons Hres].
  destruct (wt_pc c) as [| |[[]|e|p|]]; try done.
  destruct Hres as (m & w' & Hm & Hmatch). exists m, w'. split; [|done].
  rewrite Hcons. set_solver.
Qed.

(** The waiter has a turn to take. *)
Definition can_move (c : WaitCfg) : Prop :=
  exists l c', is_waiter l = true /\ wait_rel matches ch c l c'.

(** The waiter is blocked exactly in its [select], with a live context, a running
    bus and an empty channel: pending messages do not wake it. *)
Lemma wait_blocked_iff (c : WaitCfg) :
  ~ can_move c <->
  match wt_pc c with
  | Returned _ => True
  | AtPending => False
  | AtSelect => wt_ctx c = None /\ wt_stopped c = None
                /\ buffer_of (buffers (wt_topic c)) ch = []
  end.
Proof.
  unfold can_move, wait_rel. split.
  - intros Hn. destruct (wt_pc c) eqn:Epc; [|repeat split|done].
    + apply Hn. exists WTake. unfold wait_step. rewrite Epc.
      destruct (takePending _) as [[m t]|]; eauto.
    + destruct (wt_ctx c) eqn:Ec; [|done]. destruct Hn. exists WCtxDone.
      unfold wait_step. rewrite Epc, Ec. eauto.
    + destruct (wt_stopped c) eqn:Ec; [|done]. destruct Hn. exists WBusDone.
      unfold wait_step. rewrite Epc, Ec. eauto.
    + destruct (buffer_of _ ch) eqn:Eb; [done|]. destruct Hn. exists WReceive.
      unfold wait_step, receive. rewrite Epc, Eb. eauto.
  - intros H (l & c' & Hl & Hstep). unfold wait_step in Hstep.
    destruct (wt_pc c) eqn:Epc; [done| |by destruct l].
    destruct H as (H1 & H2 & H3). unfold receive in Hstep. rewrite H1, H2, H3 in Hstep.
    by destruct l.
Qed.

(** C31: The loop takes one pending message per turn and then waits for its channel, so
    a message that was pending behind one that does not match is not looked at: the
    waiter is blocked although a message it would accept is pending. *)
Theorem wait_stalls t w m1 m2 rest e w1 :
  pending t = m1 :: m2 :: rest ->
  matches (Some m1) w = (Err e, w1) ->
  exists c, run (wait_rel matches ch) (wait_start ch t w None None) [WTake] c
    /\ pending (wt_topic c) = m2 :: rest /\ wt_world c = w1 /\ ~ can_move c.
Proof.
  intros Hp Hm. eexists. split.
  - apply run_one. unfold wait_rel, wait_step, wait_start, takePending. cbn. rewrite Hp.
    unfold wait_match. cbn. rewrite Hm. reflexivity.
  - split; [done|]. split; [done|]. apply wait_blocked_iff. cbn.
    split; [done|]. split; [done|]. unfold buffer_of. by rewrite lookup_insert_eq.
Qed.

(** A schedule is a run of the system. *)
Lemma wait_run_reachable sched c :
  exists ls, run (wait_rel matches ch) c ls (wait_run matches ch sched c).
Proof.
  revert c. induction sched as [|l sched IH]; intros c; cbn [wait_run].
  - exists []. destruct (wt_pc c); constructor.
  - destruct (wt_pc c) eqn:Epc; [| |exists []; constructor];
      (destruct (wait_step matches ch l c) as [c'|] eqn:Es; cbn [default from_option id];
       [destruct (IH c') as (ls & Hls); exists (l :: ls); by econstructor|apply IH]).
Qed.

(** The waiter has not returned. *)
Definition working (pc : WaitPc) : Prop := match pc with Returned _ => False | _ => True end.

(** Besides matching a message a step leaves the world and what was consumed; the waiter
    may block, or return an error. *)
Lemma wait_run_invariant (J : WaitCfg (M := M) -> Prop) sched c :
  (forall c m t next, working (wt_pc c) -> working next -> J c -> J (wait_match matches ch m t next c)) ->
  (forall c c', wt_world c' = wt_world c -> wt_consumed c' = wt_consumed c ->
     wt_pc c' = wt_pc c
     \/ working (wt_pc c) /\ (wt_pc c' = AtSelect \/ exists e, wt_pc c' = Returned (Err e)) ->
     J c -> J c') ->
  J c -> J (wait_run matches ch sched c).
Proof.
  intros Hm Hq Hc. destruct (wait_run_reachable sched c) as (ls & Hrun).
  apply (run_invariant (wait_rel matches ch) J) in Hrun; [exact Hrun| |exact Hc].
  clear - Hm Hq. intros c l c' HJ Hstep. unfold wait_rel, wait_step in Hstep. destruct l.
  1-4: destruct (wt_pc c) eqn:Epc; try done.
  - destruct (takePending _) as [[m t]|]; injection Hstep as <-; [apply Hm; [by rewrite Epc|done..]|].
    apply (Hq c); [done..| |done]. right. rewrite Epc. split; [done|cbn; eauto].
  - destruct (wt_ctx c); [|done]. injection Hstep as <-. apply (Hq c); [done..| |done].
    right. rewrite Epc. split; [done|cbn; eauto].
  - destruct (wt_stopped c); [|done]. injection Hstep as <-. apply (Hq c); [done..| |done].
    right. rewrite Epc. split; [done|cbn; eauto].
  - destruct (receive _ _) as [[m t]|]; [|done]. injection Hstep as <-. apply Hm; [by rewrite Epc|done..].
  - destruct (wt_stopped c); [done|]. injection Hstep as <-. apply (Hq c); [done..|by left|done].
  - destruct (wt_ctx c); [done|]. injection Hstep as <-. apply (Hq c); [done..|by left|done].
  - destruct (wt_stopped c); [done|]. injection Hstep as <-. apply (Hq c); [done..|by left|done].
Qed.

(** A wait that succeeds has just matched a message, in a world that has what the match
    function keeps. *)
Lemma wait_run_matched I sched c :
  (forall m, keeps I (matches (Some m))) -> I (wt_world c) ->
  match wt_pc c with Returned _ => False | _ => True end ->
  wt_pc (wait_run matches ch sched c) = Returned (Ret tt) ->
  let c' := wait_run matches ch sched c in
  exists m w, I w /\ m ∈ wt_consumed c' /\ matches (Some m) w = (Ret tt, wt_world c').
Proof.
  intros Hm HI Hpc.
  pose (J (c : WaitCfg (M := M)) := match wt_pc c with
               | Returned (Ret _) => exists m w, I w /\ m ∈ wt_consumed c
                                       /\ matches (Some m) w = (Ret tt, wt_world c)
               | Returned _ => True
               | _ => I (wt_world c)
               end).
  assert (Hrun : J (wait_run matches ch sched c)).
  2: { intros Hr. unfold J in Hrun. by rewrite Hr in Hrun. }
  apply wait_run_invariant; [| |unfold J; by destruct (wt_pc c)]; clear - Hm; unfold J.
  - intros c m t next Hc Hnext HJ. assert (HI : I (wt_world c)) by (by destruct (wt_pc c)).
    unfold wait_match. pose proof (Hm m (wt_world c) HI) as Hk.
    destruct (matches (Some m) (wt_world c)) as [[[]|e|p|] w] eqn:Em; cbn in *;
      [|by destruct next|done|done]. exists m, (wt_world c). split; [done|]. split; [set_solver|done].
  - intros c c' Hw Hcon [Hp|[Hwork [Hp|(e & Hp)]]]; rewrite Hp, ?Hw, ?Hcon; [done| |done].
    by destruct (wt_pc c).
Qed.

(** Only the schedule publishes. *)
Lemma wait_run_published sched c m :
  m ∈ wt_published (wait_run matches ch sched c) -> m ∈ wt_published c \/ EPublish m ∈ sched.
Proof.
  revert c. induction sched as [|l sched IH]; intros c; cbn [wait_run];
    [destruct (wt_pc c); by left|].
  assert (Hm : forall x t next, wt_published (wait_match matches ch x t next c) = wt_published c)
    by (intros x t next; unfold wait_match; by destruct (matches _ _) as [[[]|e|p|] w]).
  assert (Hl : forall c', wait_step matches ch l c = Some c' -> m ∈ wt_published c' ->
    m ∈ wt_published c \/ l = EPublish m).
  { intros c' Hs Hin. unfold wait_step in Hs.
    destruct l; repeat case_match; simplify_eq; rewrite ?Hm in Hin; cbn in Hin; auto;
      apply elem_of_app in Hin as [Hin|Hin%list_elem_of_singleton]; subst; auto. }
  destruct (wt_pc c); [| |by left];
    (intros Hin; apply IH in Hin as [Hin|Hin]; [|right; by right];
     destruct (wait_step matches ch l c) as [c'|] eqn:Es; cbn in Hin; [|by left];
     destruct (Hl c' eq_refl Hin) as [?| ->]; [by left|right; by left]).
Qed.

(** A wait keeps what its match function keeps, *)
Lemma wait_run_keeps I sched c :
  (forall m, keeps I (matches (Some m))) -> I (wt_world c) ->
  I (wt_world (wait_run matches ch sched c)).
Proof.
  intros Hm HI. apply (wait_run_invariant (fun c => I (wt_world c))); [| |exact HI]; clear - Hm.
  - intros c m t next _ _ HI. unfold wait_match. specialize (Hm m (wt_world c) HI).
    by destruct (matches (Some m) (wt_world c)) as [[[]|e|p|] w].
  - by intros c c' -> _ _.
Qed.

(** and neither panics nor blocks in it if that does not. *)
Lemma wait_run_robust I sched c :
  (forall m, robust true I (matches (Some m))) ->
  I (wt_world c) -> match wt_pc c with Returned (Panic _) | Returned Stuck => False | _ => True end ->
  let c' := wait_run matches ch sched c in
  I (wt_world c') /\ match wt_pc c' with Returned (Panic _) | Returned Stuck => False | _ => True end.
Proof.
  intros Hm HI Hpc. apply (wait_run_invariant (fun c => I (wt_world c)
    /\ match wt_pc c with Returned (Panic _) | Returned Stuck => False | _ => True end)); [| |done]; clear - Hm.
  - intros c m t next _ Hnext [HI Hpc]. unfold wait_match. destruct (Hm m (wt_world c) HI) as [H1 H2].
    destruct (matches (Some m) (wt_world c)) as [[[]|e|p|] w]; try done.
    split; [exact H1|]. by destruct next.
  - intros c c' -> _ [->|[_ [->|(e & ->)]]] [HI Hpc]; done.
Qed.
Lemma wait_run_app ls1 ls2 k :
  wait_run matches ch (ls1 ++ ls2) k = wait_run matches ch ls2 (wait_run matches ch ls1 k).
Proof.
  revert k. induction ls1 as [|l ls1 IH]; intros k; cbn [app wait_run].
  - by destruct (wt_pc k).
  - destruct (wt_pc k) eqn:Ep; [apply IH..|]. destruct ls2; cbn [wait_run]; by rewrite Ep.
Qed.

(** A schedule that cancels the wait, or stops the bus, and lets the waiter see it. *)
Definition ends_wait (sched : list (WaitLabel (M := M))) : Prop :=
  exists pre e, sched = pre ++ [ECancel e; WTake; WCtxDone] \/ sched = pre ++ [EStop e; WTake; WBusDone].

(** After its turn at the pending messages the waiter blocks or has returned. *)
Lemma take_turn c :
  working (wt_pc c) ->
  let c' := default c (wait_step matches ch WTake c) in
  (exists r, wt_pc c' = Returned r)
  \/ wt_pc c' = AtSelect /\ wt_ctx c' = wt_ctx c /\ wt_stopped c' = wt_stopped c.
Proof.
  intros Hc. unfold wait_step. destruct (wt_pc c) eqn:Ep; [|by right|done].
  destruct (takePending _) as [[m t]|]; cbn; [|by right].
  unfold wait_match. destruct (matches _ _) as [[[]|e|p|] w]; cbn; eauto.
Qed.

Lemma wait_run_cons l sched c :
  working (wt_pc c) ->
  wait_run matches ch (l :: sched) c = wait_run matches ch sched (default c (wait_step matches ch l c)).
Proof. intros H. cbn [wait_run]. by destruct (wt_pc c). Qed.

Lemma wait_run_returned sched c r : wt_pc c = Returned r -> wait_run matches ch sched c = c.
Proof. intros H. destruct sched; cbn [wait_run]; by rewrite H. Qed.

(** [x] makes the waiter's turn [y] possible, also after its turn at the pending messages. *)
Lemma freed_by (x y : WaitLabel) (Q : WaitCfg (M := M) -> Prop) k :
  (forall c, working (wt_pc c) -> let c' := default c (wait_step matches ch x c) in
     wt_pc c' = wt_pc c /\ Q c') ->
  (forall c c', wt_ctx c' = wt_ctx c -> wt_stopped c' = wt_stopped c -> Q c -> Q c') ->
  (forall c, wt_pc c = AtSelect -> Q c -> exists c' r, wait_step matches ch y c = Some c' /\ wt_pc c' = Returned r) ->
  exists r, wt_pc (wait_run matches ch [x; WTake; y] k) = Returned r.
Proof.
  intros Hx Hq Hy. assert (Hk : working (wt_pc k) \/ exists r, wt_pc k = Returned r)
    by (destruct (wt_pc k) as [| |r]; cbn; eauto).
  destruct Hk as [Hk|(r & Hr)]; [|exists r; by rewrite (wait_run_returned _ _ _ Hr)].
  destruct (Hx k Hk) as [Hp Hk1]. rewrite wait_run_cons by done.
  set (k1 := default k _) in *. assert (Hw1 : working (wt_pc k1)) by (by rewrite Hp).
  rewrite wait_run_cons by done. destruct (take_turn k1 Hw1) as [(r & Hr)|(Hs & Hc & Ht)].
  { exists r. by rewrite (wait_run_returned _ _ _ Hr). }
  set (k2 := default k1 _) in *. rewrite wait_run_cons by (by rewrite Hs).
  destruct (Hy k2 Hs (Hq k1 k2 Hc Ht Hk1)) as (k3 & r & -> & Hr). exists r. cbn. by rewrite Hr.
Qed.

(** Such a wait returns. *)
Lemma wait_run_ends sched c :
  ends_wait sched -> exists r, wt_pc (wait_run matches ch sched c) = Returned r.
Proof.
  intros (pre & e & [-> | ->]); rewrite wait_run_app; generalize (wait_run matches ch pre c); intros k.
  - apply (freed_by _ _ (fun c => is_nil (wt_ctx c) = false)).
    + intros k' Hk. unfold wait_step. by destruct (wt_pc k') eqn:Ep, (wt_ctx k') eqn:Ex; cbn; rewrite ?Ex, ?Ep.
    + by intros k1 k2 ->.
    + intros k' Hs Hx. unfold wait_step. rewrite Hs. destruct (wt_ctx k'); [|done]. by eexists _, _.
  - apply (freed_by _ _ (fun c => is_nil (wt_stopped c) = false)).
    + intros k' Hk. unfold wait_step. by destruct (wt_pc k') eqn:Ep, (wt_stopped k') eqn:Ex; cbn; rewrite ?Ex, ?Ep.
    + by intros k1 k2 _ ->.
    + intros k' Hs Hx. unfold wait_step. rewrite Hs. destruct (wt_stopped k'); [|done]. by eexists _, _.
Qed.
End WaitSpec.

(** ** The three waits *)

Section Waits.
Context {G : GoLib} {R : RedisServer} {RL : RedisLaws R} {E : Env}.

Definition WaitPaymentRequestMessage (ch : nat) := wait_start (M := PaymentRequest) ch.
Definition WaitBookingConfirmationMessage (ch : nat) :=
  wait_start (M := BookingConfirmedNotificationEvent) ch.
Definition WaitCheckinTodayMessage (ch : nat) := wait_start (M := CheckInTodayNotification) ch.

(** A payment request that belongs to a journey. *)
Definition payment_for (v : GuestJourneyCacheValue) (m : PaymentRequest) : Prop :=
  exists g b, PersonalInfo v = Some g /\ Booking v = Some b
    /\ TrimSpace (pr_InvoiceNumber m) <> "" /\ valid_total m = true
    /\ payer_is m (Email g) = true
    /\ total_cottage m = Some (SelectedCottage b) /\ SelectedCottage b <> "".

Definition with_invoice (v : GuestJourneyCacheValue) (m : PaymentRequest) : GuestJourneyCacheValue :=
  set_cv_Invoice (Some (mkInvoice (TrimSpace (pr_InvoiceNumber m))
                          (ReceiptNumber (default zeroInvoice (Invoice v))))) v.

Lemma matchPaymentRequest_Ret m w w' :
  matchPaymentRequest (Some m) w = (Ret tt, w') ->
  exists v w1, Load w = (Ret v, w1) /\ payment_for v m /\ Save (with_invoice v m) w1 = (Ret tt, w').
Proof.
  unfold matchPaymentRequest. intros H. go_inv H. exists v, w0. split; [done|].
  apply bind_inv_Ret in H as ([] & w2 & H1 & H). apply guard_inv in H1 as [Hi <-].
  apply bind_inv_Ret in H as ([] & w2 & H1 & H). apply guard_inv in H1 as [Ht <-].
  apply bind_inv_Ret in H as ([] & w2 & H1 & H). apply guard_inv in H1 as [Hb <-].
  destruct (PersonalInfo v) as [g|] eqn:Eg; [|done].
  destruct (Booking v) as [b|] eqn:Eb; [|done].
  apply bind_inv_Ret in H as ([] & w2 & H1 & H). apply guard_inv in H1 as [Hs <-].
  apply bind_inv_Ret in H as ([] & w2 & H1 & H). apply guard_inv in H1 as [Hp <-].
  apply bind_inv_Ret in H as ([] & w2 & H1 & H). apply guard_inv in H1 as [Hc <-].
  cbv zeta in H. fold (with_invoice v m) in H. unfold empty in *.
  apply negb_false_iff in Ht, Hp, Hc. apply String.eqb_eq in Hc. reflect_ineqs. split.
  - exists g, b. repeat (split; [done|]). split; [|done].
    destruct (total_cottage m); [|done]. simpl in Hc. by rewrite Hc.
  - exact H.
Qed.

(** when the wait for a payment request succeeds, a message that was pending or
    published carries a positive total, the guest's email and the selected cottage of
    the cached journey, and its trimmed, non-empty invoice number is now the cached one,
    with the receipt and the rest of the journey unchanged. *)
Theorem wait_payment_success ch t w ctx stopped ls c :
  channels t = ∅ ->
  run (wait_rel matchPaymentRequest ch) (WaitPaymentRequestMessage ch t w ctx stopped) ls c ->
  wt_pc c = Returned (Ret tt) ->
  exists m v, m ∈ pending t ++ wt_published c /\ payment_for v m
    /\ (owned (wt_world c) -> cacheValue_exact v -> cached (wt_world c) (with_invoice v m)).
Proof.
  intros Ht Hrun Hpc. destruct (wait_reachable _ _ _ _ _ _ _ _ Ht Hrun) as [_ _ Hcons Hres].
  rewrite Hpc in Hres. destruct Hres as (m & w' & Hm & Hmatch).
  apply matchPaymentRequest_Ret in Hmatch as (v & w1 & _ & Hv & Hs). exists m, v.
  split; [rewrite Hcons; set_solver|]. split; [done|]. intros Ho Hex.
  destruct (Save_Ret _ _ _ Hs) as (Hf & Hc & _). by apply Hc; [eapply cache_frame_owned|].
Qed.

(** A cached value that can be loaded is what both predicates look at. *)
Lemma Load_state w v s :
  cached w v -> w_state w = Some s -> fst (Load w) = Ret v ->
  exists w1, Load w = (Ret v, w1) /\ cached w1 v /\ deref_state w1 = (Ret s, w1).
Proof.
  intros Hc Hs Hl. destruct (Load_any w v Hc) as (w1 & _ & Hst & [[El Hc1]|[e El]]);
    [|by rewrite El in Hl].
  exists w1. do 2 (split; [done|]). unfold deref_state. by rewrite Hst, Hs.
Qed.

Lemma matchBookingConfirmation_spec w v s m :
  cached w v -> w_state w = Some s -> fst (Load w) = Ret v ->
  cached (snd (matchBookingConfirmation (Some m) w)) v
  /\ (fst (matchBookingConfirmation (Some m) w) = Ret tt <->
      exists b g, Booking v = Some b /\ bc_BookingId m = BookingID b
        /\ bc_BookingStatus m = BOOKING_STATUS_CONFIRMED
        /\ bc_Guest m = Some g /\ ng_GuestId g = st_GuestId s).
Proof.
  intros Hc Hs Hl. destruct (Load_state w v s Hc Hs Hl) as (w1 & El & Hc1 & Hd).
  unfold matchBookingConfirmation. rewrite (bind_Ret _ _ _ _ _ El).
  destruct (Booking v) as [b|]; [|split; [exact Hc1|]; split; [done|naive_solver]].
  destruct (String.eqb (bc_BookingId m) _) eqn:E1; cbn [negb];
    [|split; [exact Hc1|]; split; [done|]; reflect_ineqs; naive_solver]. rewrite bind_guard_false.
  case_bool_decide as E2; cbn [negb]; [|split; [exact Hc1|]; split; [done|naive_solver]].
  rewrite bind_guard_false, (bind_Ret _ _ _ _ _ Hd).
  destruct (bc_Guest m) as [g|]; [|split; [exact Hc1|]; split; [done|naive_solver]].
  destruct (String.eqb (ng_GuestId g) _) eqn:E3; reflect_ineqs; cbn; (split; [exact Hc1|]);
    split; try done; naive_solver.
Qed.

Lemma matchCheckinToday_spec w v s m :
  cached w v -> w_state w = Some s -> fst (Load w) = Ret v ->
  let r := fst (matchCheckinToday (Some m) w) in
  cached (snd (matchCheckinToday (Some m) w)) v
  /\ (r = Ret tt \/ exists e, r = Err e)
  /\ (r = Ret tt <->
      exists b p ci, Booking v = Some b /\ SelectedPeriod b = Some p /\ ct_CheckIn m = Some ci
        /\ ct_BookingId m = BookingID b /\ ct_GuestId m = st_GuestId s
        /\ ct_CottageName m = SelectedCottage b /\ unixNano ci = unixNano (Start p)).
Proof.
  intros Hc Hs Hl. cbv zeta. destruct (Load_state w v s Hc Hs Hl) as (w1 & El & Hc1 & Hd).
  unfold matchCheckinToday. rewrite (bind_Ret _ _ _ _ _ El).
  assert (Herr : forall (P : Prop) e, (P -> False) ->
    cached w1 v /\ (Err e = Ret tt \/ exists e', Err e = Err (A := unit) e') /\ (Err e = Ret tt <-> P))
    by (intros P e HP; split; [exact Hc1|]; split; [right; by exists e|]; split; [done|by intros H; apply HP in H]).
  destruct (Booking v) as [b|]; [|apply Herr; naive_solver].
  destruct (SelectedPeriod b) as [p|] eqn:Ep; [|apply Herr; naive_solver].
  destruct (String.eqb (ct_BookingId m) _) eqn:E1; cbn [negb];
    [|apply Herr; reflect_ineqs; naive_solver].
  rewrite bind_guard_false, (bind_Ret _ _ _ _ _ Hd).
  destruct (String.eqb (ct_GuestId m) _) eqn:E2; cbn [negb];
    [|apply Herr; reflect_ineqs; naive_solver]. rewrite bind_guard_false.
  destruct (String.eqb (ct_CottageName m) _) eqn:E3; cbn [negb];
    [|apply Herr; reflect_ineqs; naive_solver]. rewrite bind_guard_false.
  destruct (ct_CheckIn m) as [ci|]; [|apply Herr; naive_solver].
  unfold Equal. cbn [UTC unixNano]. destruct (unixNano ci =? _) eqn:E4; reflect_ineqs.
  - split; [exact Hc1|]. split; [by left|]. split; [|done]. intros _. by exists b, p, ci.
  - apply Herr. naive_solver.
Qed.

(** C25: [matchBookingConfirmation] accepts exactly the confirmed booking of the journey's
    own guest, and [matchCheckinToday] exactly the journey's booking, guest, cottage and
    the very instant its stay starts; neither writes the cache. The README asks for the
    start date only: a notice that is right in everything and names the date the stay
    starts on, but another time of that day, is refused. *)
Theorem confirmations_match_correct w v s :
  cached w v -> w_state w = Some s -> fst (Load w) = Ret v ->
  (forall m, fst (matchBookingConfirmation (Some m) w) = Ret tt <->
     exists b g, Booking v = Some b /\ bc_BookingId m = BookingID b
       /\ bc_BookingStatus m = BOOKING_STATUS_CONFIRMED
       /\ bc_Guest m = Some g /\ ng_GuestId g = st_GuestId s)
  /\ (forall m, fst (matchCheckinToday (Some m) w) = Ret tt <->
     exists b p ci, Booking v = Some b /\ SelectedPeriod b = Some p /\ ct_CheckIn m = Some ci
       /\ ct_BookingId m = BookingID b /\ ct_GuestId m = st_GuestId s
       /\ ct_CottageName m = SelectedCottage b /\ unixNano ci = unixNano (Start p))
  /\ (forall m b p ci, Booking v = Some b -> SelectedPeriod b = Some p -> ct_CheckIn m = Some ci ->
     startOfUTCDay ci = startOfUTCDay (Start p) -> unixNano ci <> unixNano (Start p) ->
     exists e, fst (matchCheckinToday (Some m) w) = Err e)
  /\ forall m m', cached (snd (matchBookingConfirmation (Some m) w)) v
                  /\ cached (snd (matchCheckinToday (Some m') w)) v.
Proof.
  intros Hc Hs Hl.
  assert (Hb : forall m, _) by (intros m; exact (matchBookingConfirmation_spec w v s m Hc Hs Hl)).
  assert (Hi : forall m, _) by (intros m; exact (matchCheckinToday_spec w v s m Hc Hs Hl)).
  split; [apply Hb|]. split; [apply Hi|]. split; [|intros m m'; split; [apply Hb|apply Hi]].
  intros m b p ci Hbk Hp Hci _ Hne. destruct (Hi m) as (_ & [Hr|He] & Hiff); [|done].
  apply Hiff in Hr as (b' & p' & ci' & Hb' & Hp' & Hci' & _ & _ & _ & Heq). exfalso. congruence.
Qed.
End Waits.

Section MatchRobust.
Context {G : GoLib} {R : RedisServer} {E : Env}.

Lemma matchPaymentRequest_robust t m : robust t (ready false) (matchPaymentRequest (Some m)).
Proof. unfold matchPaymentRequest. robust_auto. Qed.

Lemma matchBookingConfirmation_robust t m :
  robust t (ready false) (matchBookingConfirmation (Some m)).
Proof. unfold matchBookingConfirmation. robust_auto. Qed.

Lemma matchCheckinToday_robust t m : robust t (ready false) (matchCheckinToday (Some m)).
Proof. unfold matchCheckinToday. robust_auto. Qed.
End MatchRobust.

(** ** Concrete runs *)

Section Witnesses.
#[local] Existing Instances sample_lib sample_redis sample_redis_laws.
#[local] Instance wait_env : Env := sample_env [] sample_now.

Definition sample_payment (cottage : string) : PaymentRequest :=
  mkPaymentRequest " inv-1 " "" (Some (mkMoney 300 "EUR")) None None
    (Some (mkBookingSummary cottage 3 1)) (Some (mkPayerSummary "Ada" "ADA@example.org ")) [].

Definition payment_start (t : Topic PaymentRequest) : WaitCfg :=
  WaitPaymentRequestMessage 1 t (sample_world sample_chosen) None None.

(** The bus publishes while the step waits. *)
Definition payment_schedule : list (WaitLabel (M := PaymentRequest)) :=
  [WTake; EPublish (sample_payment "Aspen"); WReceive].

Definition payment_end : WaitCfg :=
  wait_run matchPaymentRequest 1 payment_schedule (payment_start emptyTopic).

Lemma wait_conserves_witness :
  wt_published payment_end ≡ₚ
    wt_consumed payment_end ++ pending (wt_topic payment_end)
      ++ buffer_of (buffers (wt_topic payment_end)) 1.
Proof.
  destruct (wait_run_reachable matchPaymentRequest 1 payment_schedule (payment_start emptyTopic))
    as (ls & Hrun).
  destruct (wait_conserves matchPaymentRequest 1 emptyTopic (sample_world sample_chosen) None None
              ls payment_end eq_refl Hrun) as (H & _). exact H.
Defined.

Lemma wait_result_witness :
  wt_pc payment_end = Returned (Ret tt)
  /\ exists m w', m ∈ wt_published payment_end
       /\ matchPaymentRequest (Some m) w' = (Ret tt, wt_world payment_end).
Proof.
  assert (Hpc : wt_pc payment_end = Returned (Ret tt)) by (vm_compute; reflexivity).
  split; [exact Hpc|].
  destruct (wait_run_reachable matchPaymentRequest 1 payment_schedule (payment_start emptyTopic))
    as (ls & Hrun).
  pose proof (wait_result matchPaymentRequest 1 emptyTopic (sample_world sample_chosen) None None
              ls payment_end eq_refl Hrun) as H.
  fold payment_end in H. rewrite Hpc in H. exact H.
Defined.

Lemma wait_stalls_witness :
  exists c, pending (wt_topic c) = [sample_payment "Aspen"]
    /\ fst (matchPaymentRequest (Some (sample_payment "Aspen")) (wt_world c)) = Ret tt
    /\ ~ can_move matchPaymentRequest 1 c.
Proof.
  destruct (matchPaymentRequest (Some (sample_payment "Birch")) (sample_world sample_chosen))
    as [r w1] eqn:Em.
  assert (Hr : exists e, r = Err e) by (apply (f_equal fst) in Em; vm_compute in Em; eauto).
  destruct Hr as (e & ->).
  destruct (wait_stalls matchPaymentRequest 1
              (mkTopic ∅ [sample_payment "Birch"; sample_payment "Aspen"] ∅)
              (sample_world sample_chosen) _ _ _ e w1 eq_refl Em)
    as (c & _ & Hp & Hw & Hn).
  exists c. split; [exact Hp|]. split; [|exact Hn]. rewrite Hw.
  apply (f_equal snd) in Em. simpl snd in Em at 2. rewrite <- Em. vm_compute. reflexivity.
Defined.

Lemma wait_payment_success_witness :
  wt_pc payment_end = Returned (Ret tt)
  /\ exists m v, payment_for v m
       /\ (owned (wt_world payment_end) -> cacheValue_exact v ->
           cached (wt_world payment_end) (with_invoice v m)).
Proof.
  assert (Hpc : wt_pc payment_end = Returned (Ret tt)) by (vm_compute; reflexivity).
  split; [exact Hpc|].
  destruct (wait_run_reachable matchPaymentRequest 1 payment_schedule (payment_start emptyTopic))
    as (ls & Hrun).
  destruct (wait_payment_success 1 emptyTopic (sample_world sample_chosen) None None ls
              payment_end eq_refl Hrun Hpc) as (m & v & _ & H1 & H2).
  exists m, v. split; [exact H1|exact H2].
Defined.

Lemma confirmations_match_correct_witness :
  fst (Load (sample_world sample_booked)) = Ret sample_booked
  /\ fst (matchBookingConfirmation
            (Some (mkBookingConfirmed "" "b-1" BOOKING_STATUS_CONFIRMED
                     (Some (mkNotifiedGuest "g-1" "" "" "")) None None))
            (sample_world sample_booked)) = Ret tt
  /\ exists e, fst (matchCheckinToday
            (Some (mkCheckInToday "b-1" "g-1" "Aspen" (Some (Date 2025 3 20 15 0 0 0 0)) None 1 None))
            (sample_world sample_booked)) = Err e.
Proof.
  assert (Hl : fst (Load (sample_world sample_booked)) = Ret sample_booked)
    by (vm_compute; reflexivity).
  split; [exact Hl|].
  destruct (confirmations_match_correct (sample_world sample_booked) sample_booked sample_state
              sample_booked_cached eq_refl Hl) as (H & _ & Hd & _). split.
  - apply H. exists (mkBooking "b-1" "Aspen" (Some sample_period)), (mkNotifiedGuest "g-1" "" "" "").
    repeat split.
  - apply (Hd _ (mkBooking "b-1" "Aspen" (Some sample_period)) sample_period (Date 2025 3 20 15 0 0 0 0));
      [reflexivity..|vm_compute; reflexivity|vm_compute; discriminate].
Defined.
End Witnesses.
