(* ===== verification/BusWait.v ===== *)
(** * A wait on the whole bus

    While a step waits on its topic of the bus, the bus goroutine goes on: it receives
    deliveries of every kind, settles them, and may stop. This file models the two together,
    over the one bus they share, and shows that the wait is the one of [Waits] on its own
    topic: what arrives for the other topics can be handled before it. *)

From Stdlib Require Import ZArith Lia.
From stdpp Require Import base tactics list option strings gmap.
From S2P Require Import Prelude GoEffects GoTime GoText Domain Json World Samples Bus Waits.
Open Scope Z_scope.

(** ** The topics of the bus *)

(** What a topic's functions lock and change, and the messages that are published on it. *)
Record BusTopic (M : Type) := mkBusTopic {
  topic : Bus -> Topic M;
  set_topic : Topic M -> Bus -> Bus;
  own_message : BusMessage -> option M
}.
Arguments mkBusTopic {M}.
Arguments topic {M}.
Arguments set_topic {M}.
Arguments own_message {M}.

Definition payment_topic : BusTopic PaymentRequest :=
  mkBusTopic paymentRequests set_paymentRequests
    (fun m => match m with MsgPayment m => Some m | _ => None end).
Definition confirmation_topic : BusTopic BookingConfirmedNotificationEvent :=
  mkBusTopic bookingConfirmations set_bookingConfirmations
    (fun m => match m with MsgConfirmed m => Some m | _ => None end).
Definition checkin_topic : BusTopic CheckInTodayNotification :=
  mkBusTopic checkinTodays set_checkinTodays
    (fun m => match m with MsgCheckin m => Some m | _ => None end).

(** A topic is a part of the bus of its own: the rest of the bus does not see it change,
    and it does not see the rest change. *)
Class TopicLaws {M} (T : BusTopic M) := {
  topic_set t b : topic T (set_topic T t b) = t;
  set_topic_topic b : set_topic T (topic T b) b = b;
  set_set_topic t t' b : set_topic T t' (set_topic T t b) = set_topic T t' b;
  set_topic_done t b : bus_done (set_topic T t b) = bus_done b;
  set_topic_closed t b : bus_closed (set_topic T t b) = bus_closed b;
  set_topic_err t b : bus_err (set_topic T t b) = bus_err b;
  set_topic_stop t n e b : bus_stop n e (set_topic T t b) = set_topic T t (bus_stop n e b);
  publish_own msg m b :
    own_message T msg = Some m -> publish_message msg b = set_topic T (publish m (topic T b)) b;
  publish_foreign msg t b :
    own_message T msg = None ->
    publish_message msg (set_topic T t b) = set_topic T t (publish_message msg b)
}.

(** The laws of a field of the bus. *)
Ltac bus_topic :=
  split; first [done|by intros []|by intros [x|x|x] m b [= <-]|by intros [x|x|x] t b].

#[export] Instance payment_laws : TopicLaws payment_topic.
Proof. bus_topic. Qed.
#[export] Instance confirmation_laws : TopicLaws confirmation_topic.
Proof. bus_topic. Qed.
#[export] Instance checkin_laws : TopicLaws checkin_topic.
Proof. bus_topic. Qed.

(** *** The functions of a topic, on the bus *)

Section OnBus.
Context {M : Type} (T : BusTopic M).

Definition subscribe_on (ch : nat) (b : Bus) : Bus := set_topic T (subscribe ch (topic T b)) b.
Definition unsubscribe_on (ch : nat) (b : Bus) : Bus := set_topic T (unsubscribe ch (topic T b)) b.
Definition takePending_on (b : Bus) : option (M * Bus) :=
  match takePending (topic T b) with
  | Some (m, t) => Some (m, set_topic T t b)
  | None => None
  end.
Definition receive_on (ch : nat) (b : Bus) : option (M * Bus) :=
  match receive ch (topic T b) with
  | Some (m, t) => Some (m, set_topic T t b)
  | None => None
  end.
End OnBus.

Definition notifyPaymentRequestSubscribers := notifySubscribers (M := PaymentRequest).
Definition notifyBookingConfirmationSubscribers := notifySubscribers (M := BookingConfirmedNotificationEvent).
Definition notifyCheckinTodaySubscribers := notifySubscribers (M := CheckInTodayNotification).

Definition subscribePaymentRequest := subscribe_on payment_topic.
Definition takePendingPaymentRequest := takePending_on payment_topic.
Definition subscribeBookingConfirmation := subscribe_on confirmation_topic.
Definition takePendingBookingConfirmation := takePending_on confirmation_topic.
Definition subscribeCheckinToday := subscribe_on checkin_topic.
Definition takePendingCheckinToday := takePending_on checkin_topic.

(** ** The bus goroutine around a wait *)

Section Receives.
Context {P : ProtoLib} {R : RedisServer}.

(** The goroutine of [Start] handles events until it has stopped. *)
Definition bus_receives (evs : list BusEvent) (b : Bus) : Bus :=
  if bus_is_done b then b else fst (fst (bus_loop (bus_done b) evs b)).

(** [bus.Err()] once [bus.Done()] is closed; a nil error is reported like a cancelled
    one. *)
Definition bus_stopped (b : Bus) : option error :=
  if bus_is_done b then Some (default ContextCanceled (bus_err b)) else None.

(** The bus after a wait on a topic: the topic, and whether the goroutine has stopped
    meanwhile. *)
Definition bus_after {M} (set_topic : Topic M -> Bus -> Bus) (c : WaitCfg (M := M)) (b : Bus) : Bus :=
  let b' := set_topic (wt_topic c) b in
  match wt_stopped c with
  | Some e => if bus_is_done b then b' else bus_stop (bus_done b) e b'
  | None => b'
  end.

Definition wait_outcome {M} (c : WaitCfg (M := M)) : outcome unit :=
  match wt_pc c with Returned r => r | _ => Stuck end.
End Receives.

(** *** The waiter and the goroutine *)

Section BusWait.
Context {G : GoLib} {R : RedisServer} {E : Env} {P : ProtoLib} {M : Type}.
Variable T : BusTopic M.
Variable matches : option M -> go World unit.
Variable ch : nat.

Record BusWait := mkBusWait {
  bw_bus : Bus;
  bw_world : World;
  bw_ctx : option error;
  bw_pc : WaitPc;
  bw_consumed : list M
}.

(** Turns of the waiter, of the bus goroutine and of the context. *)
Inductive BusLabel :=
| BTake
| BCtxDone
| BBusDone
| BReceive
| BEvent (ev : BusEvent)
| BCancel (e : error).

(** A return runs the deferred function. *)
Definition bus_wait_return (r : outcome unit) (c : BusWait) : BusWait :=
  mkBusWait (unsubscribe_on T ch (bw_bus c)) (bw_world c) (bw_ctx c) (Returned r) (bw_consumed c).

Definition bus_wait_match (m : M) (b : Bus) (next : WaitPc) (c : BusWait) : BusWait :=
  let '(r, w) := matches (Some m) (bw_world c) in
  let c' := mkBusWait b w (bw_ctx c) next (bw_consumed c ++ [m]) in
  match r with
  | Ret _ => bus_wait_return (Ret tt) c'
  | Err _ => c'
  | Panic p => bus_wait_return (Panic p) c'
  | Stuck => bus_wait_return Stuck c'
  end.

(** The [select] of a [Wait...Message] function, and one turn of the goroutine of
    [Start]; the call is over once it has returned. *)
Definition bus_wait_step (l : BusLabel) (c : BusWait) : option BusWait :=
  match l, bw_pc c with
  | _, Returned _ => None
  | BTake, AtPending =>
      match takePending_on T (bw_bus c) with
      | None => Some (mkBusWait (bw_bus c) (bw_world c) (bw_ctx c) AtSelect (bw_consumed c))
      | Some (m, b) => Some (bus_wait_match m b AtSelect c)
      end
  | BCtxDone, AtSelect =>
      match bw_ctx c with Some e => Some (bus_wait_return (Err e) c) | None => None end
  | BBusDone, AtSelect =>
      match bus_stopped (bw_bus c) with
      | Some e => Some (bus_wait_return (Err (bus_done_err e)) c)
      | None => None
      end
  | BReceive, AtSelect =>
      match receive_on T ch (bw_bus c) with
      | Some (m, b) => Some (bus_wait_match m b AtPending c)
      | None => None
      end
  | BEvent ev, pc =>
      if bus_is_done (bw_bus c) then None
      else Some (mkBusWait (fst (fst (bus_turn (bus_done (bw_bus c)) ev (bw_bus c))))
                   (bw_world c) (bw_ctx c) pc (bw_consumed c))
  | BCancel e, pc =>
      match bw_ctx c with
      | None => Some (mkBusWait (bw_bus c) (bw_world c) (Some e) pc (bw_consumed c))
      | Some _ => None
      end
  | _, _ => None
  end.

Definition bus_wait_rel (c : BusWait) (l : BusLabel) (c' : BusWait) : Prop :=
  bus_wait_step l c = Some c'.

Definition bus_wait_start (b : Bus) (w : World) (ctx : option error) : BusWait :=
  mkBusWait (subscribe_on T ch b) w ctx AtPending [].
End BusWait.

(** ** The wait on the bus is the wait on its topic *)

Section Refinement.
Context {G : GoLib} {R : RedisServer} {E : Env} {P : ProtoLib} {M : Type}.
Context (T : BusTopic M) {TL : TopicLaws T}.
Variable matches : option M -> go World unit.
Variable ch : nat.

(** The message of a delivery for the topic. *)
Definition own_delivery (d : Delivery) : option M := m ← message_of d; own_message T m.

(** What a turn is for the wait on the topic. *)
Definition own_turn (l : BusLabel) : list (WaitLabel (M := M)) :=
  match l with
  | BTake => [WTake]
  | BCtxDone => [WCtxDone]
  | BBusDone => [WBusDone]
  | BReceive => [WReceive]
  | BEvent (BusCtxDone e) => [EStop e]
  | BEvent BusClosed => [EStop (Errorf "guest communication channel closed" [])]
  | BEvent (BusDelivery d) => match own_delivery d with Some m => [EPublish m] | None => [] end
  | BCancel e => [ECancel e]
  end.

(** What arrives for the others, or for nobody. *)
Definition foreign_event (l : BusLabel) : list BusEvent :=
  match l with
  | BEvent (BusDelivery d) =>
      match own_delivery d with Some _ => [] | None => [BusDelivery d] end
  | _ => []
  end.

Definition own_turns (ls : list BusLabel) : list (WaitLabel (M := M)) := concat (map own_turn ls).
Definition foreign_events (ls : list BusLabel) : list BusEvent := concat (map foreign_event ls).

(** *** Lens algebra *)

Lemma is_done_set t b : bus_is_done (set_topic T t b) = bus_is_done b.
Proof. unfold bus_is_done. by rewrite set_topic_done, set_topic_closed. Qed.

Lemma stopped_set t b : bus_stopped (set_topic T t b) = bus_stopped b.
Proof. unfold bus_stopped. by rewrite is_done_set, set_topic_err. Qed.

Lemma topic_stop n e b : topic T (bus_stop n e b) = topic T b.
Proof. rewrite <- (set_topic_topic b) at 1. by rewrite set_topic_stop, topic_set. Qed.

Lemma stopped_stop e b : bus_stopped (bus_stop (bus_done b) e b) = Some e.
Proof. unfold bus_stopped. by rewrite bus_stop_done. Qed.

(** A delivery publishes the message it carries, if any. *)
Definition delivered (d : Delivery) (b : Bus) : Bus :=
  match message_of d with Some msg => publish_message msg b | None => b end.

Lemma turn_delivered n d b : fst (fst (bus_turn n (BusDelivery d) b)) = delivered d b.
Proof.
  unfold delivered. cbn [bus_turn]. pose proof (handleDelivery_message d b) as H.
  destruct (handleDelivery d b) as [e|b1]; [by rewrite H|]. destruct H as (m & -> & ->). done.
Qed.

Lemma delivered_life d b :
  bus_is_done (delivered d b) = bus_is_done b /\ bus_stopped (delivered d b) = bus_stopped b
  /\ bus_done (delivered d b) = bus_done b.
Proof. unfold delivered. by destruct (message_of d) as [[]|]. Qed.

Lemma receives_nil b : bus_receives [] b = b.
Proof. unfold bus_receives. by destruct (bus_is_done b). Qed.

Lemma receives_delivery d evs b :
  bus_is_done b = false -> bus_receives (BusDelivery d :: evs) b = bus_receives evs (delivered d b).
Proof.
  intros Hb. destruct (delivered_life d b) as (Hd & _ & Hn). unfold bus_receives. rewrite Hd, Hb, Hn.
  rewrite <- (turn_delivered (bus_done b)). cbn [bus_loop bus_turn].
  destruct (handleDelivery d b) as [e|b1]; cbn [fst]; by destruct (bus_loop _ evs _) as [[b2 a2] g2].
Qed.

(** One for another topic, or for nobody, commutes with the topic. *)
Lemma delivered_foreign d t b :
  own_delivery d = None -> delivered d (set_topic T t b) = set_topic T t (delivered d b).
Proof.
  unfold own_delivery, delivered. intros Hd. destruct (message_of d) as [msg|]; [|done].
  by apply publish_foreign.
Qed.

Lemma delivered_topic d b : own_delivery d = None -> topic T (delivered d b) = topic T b.
Proof.
  intros Hd. rewrite <- (set_topic_topic b) at 1. by rewrite (delivered_foreign _ _ _ Hd), topic_set.
Qed.

(** *** The simulation *)

(** The wait [k] on the topic, after the bus [f], is the wait [c] on the bus. *)
Record simulates (c : BusWait (M := M)) (k : WaitCfg (M := M)) (f : Bus) : Prop := {
  sim_bus : bw_bus c = bus_after (set_topic T) k f;
  sim_stopped : wt_stopped k = bus_stopped (bw_bus c);
  sim_world : wt_world k = bw_world c;
  sim_ctx : wt_ctx k = bw_ctx c;
  sim_pc : wt_pc k = bw_pc c;
  sim_consumed : wt_consumed k = bw_consumed c
}.

Lemma after_topic (k : WaitCfg (M := M)) f : topic T (bus_after (set_topic T) k f) = wt_topic k.
Proof.
  unfold bus_after. destruct (wt_stopped k); [|apply topic_set].
  destruct (bus_is_done f); rewrite ?topic_stop; apply topic_set.
Qed.

Lemma after_set t (k k' : WaitCfg (M := M)) f :
  wt_topic k' = t -> wt_stopped k' = wt_stopped k ->
  set_topic T t (bus_after (set_topic T) k f) = bus_after (set_topic T) k' f.
Proof.
  intros <- Hs. unfold bus_after. rewrite Hs. destruct (wt_stopped k); [|apply set_set_topic].
  destruct (bus_is_done f); [apply set_set_topic|]. by rewrite <- set_topic_stop, set_set_topic.
Qed.

(** The waiter's own moves change the topic and nothing else of the bus. *)
Lemma simulates_move c k f t w ctx pc con pub :
  simulates c k f ->
  simulates (mkBusWait (set_topic T t (bw_bus c)) w ctx pc con)
    (mkWait t w ctx (wt_stopped k) pc con pub) f.
Proof.
  intros [Hb Hs _ _ _ _]. split; try done; cbn.
  - rewrite Hb. by apply after_set.
  - by rewrite stopped_set.
Qed.

Lemma simulates_return c k f r :
  simulates c k f -> simulates (bus_wait_return T ch r c) (wait_return ch r k) f.
Proof.
  intros Hc. pose proof Hc as [Hb Hs Hw Hx Hp Hn]. unfold bus_wait_return, wait_return, unsubscribe_on.
  rewrite Hb, after_topic, <- Hb, <- Hw, <- Hx, <- Hn. by apply simulates_move.
Qed.

Lemma simulates_match c k f m t next :
  simulates c k f ->
  simulates (bus_wait_match T matches ch m (set_topic T t (bw_bus c)) next c)
    (wait_match matches ch m t next k) f.
Proof.
  intros Hc. pose proof Hc as [Hb Hs Hw Hx Hp Hn]. unfold bus_wait_match, wait_match. rewrite Hw.
  destruct (matches (Some m) (bw_world c)) as [r w].
  assert (Hm : simulates (mkBusWait (set_topic T t (bw_bus c)) w (bw_ctx c) next (bw_consumed c ++ [m]))
    (mkWait t w (wt_ctx k) (wt_stopped k) next (wt_consumed k ++ [m]) (wt_published k)) f)
    by (rewrite Hx, Hn; by apply simulates_move).
  destruct r; first [exact Hm|by apply simulates_return].
Qed.

(** An event of the goroutine that stops it. *)
Lemma simulates_stop c k f e :
  simulates c k f -> bus_is_done (bw_bus c) = false ->
  simulates (mkBusWait (bus_stop (bus_done (bw_bus c)) e (bw_bus c)) (bw_world c) (bw_ctx c)
               (bw_pc c) (bw_consumed c))
    (mkWait (wt_topic k) (wt_world k) (wt_ctx k) (Some e) (wt_pc k) (wt_consumed k) (wt_published k)) f.
Proof.
  intros [Hb Hs Hw Hx Hp Hn] Hd. split; try done; cbn; [|by rewrite stopped_stop].
  assert (Hk : wt_stopped k = None) by (rewrite Hs; unfold bus_stopped; by rewrite Hd).
  unfold bus_after in *. rewrite Hk in Hb. rewrite Hb, is_done_set in Hd. cbn. rewrite Hd, Hb.
  by rewrite set_topic_done.
Qed.

Lemma run_one_turn k x k' :
  wait_step matches ch x k = Some k' -> working (wt_pc k) -> wait_run matches ch [x] k = k'.
Proof. intros Hk Hwk. cbn. rewrite Hk. destruct (wt_pc k); [| |done]; cbn; by destruct (wt_pc k'). Qed.

(** One turn of the goroutine. *)
Lemma simulates_event c k f ev :
  simulates c k f -> working (wt_pc k) -> bus_is_done (bw_bus c) = false ->
  simulates (mkBusWait (fst (fst (bus_turn (bus_done (bw_bus c)) ev (bw_bus c)))) (bw_world c)
               (bw_ctx c) (bw_pc c) (bw_consumed c))
    (wait_run matches ch (own_turn (BEvent ev)) k) (bus_receives (foreign_event (BEvent ev)) f).
Proof.
  intros Hc Hwork Hd. pose proof Hc as [Hb Hs Hw Hx Hp Hn].
  assert (Hk : wt_stopped k = None) by (rewrite Hs; unfold bus_stopped; by rewrite Hd).
  assert (Hf : bw_bus c = set_topic T (wt_topic k) f) by (rewrite Hb; unfold bus_after; by rewrite Hk).
  destruct ev as [e| |d]; cbn [own_turn foreign_event]; rewrite ?receives_nil.
  1-2: erewrite run_one_turn; [|unfold wait_step; rewrite Hk; reflexivity|exact Hwork];
    by apply simulates_stop.
  destruct (own_delivery d) as [m|] eqn:Eo.
  - erewrite run_one_turn; [|unfold wait_step; rewrite Hk; reflexivity|exact Hwork].
    rewrite receives_nil, turn_delivered. pose proof (simulates_move c k f (publish m (wt_topic k))
      (bw_world c) (bw_ctx c) (bw_pc c) (bw_consumed c) (wt_published k ++ [m]) Hc) as Hm.
    rewrite Hk in Hm. rewrite Hw, Hx, Hp, Hn.
    replace (delivered d (bw_bus c)) with (set_topic T (publish m (wt_topic k)) (bw_bus c)); [exact Hm|].
    unfold own_delivery in Eo. unfold delivered. destruct (message_of d) as [msg|]; [|done]. cbn in Eo.
    by rewrite (publish_own _ _ _ Eo), Hf, topic_set.
  - assert (Hfd : bus_is_done f = false) by (by rewrite Hf, is_done_set in Hd).
    rewrite receives_delivery, receives_nil, Hf, turn_delivered, delivered_foreign by done.
    replace (wait_run matches ch [] k) with k by (cbn; by destruct (wt_pc k)).
    split; try done; cbn; [unfold bus_after; by rewrite Hk|].
    rewrite stopped_set, Hs, Hf, stopped_set. symmetry. apply delivered_life.
Qed.

(** One turn of the bus-level wait. *)
Lemma simulates_step c l c' k f :
  simulates c k f -> bus_wait_rel T matches ch c l c' ->
  simulates c' (wait_run matches ch (own_turn l) k) (bus_receives (foreign_event l) f).
Proof.
  intros Hc Hstep. pose proof Hc as [Hb Hs Hw Hx Hp Hn]. unfold bus_wait_rel, bus_wait_step in Hstep.
  pose proof (run_one_turn k) as Hone. pose proof (receives_nil f) as Hr.
  assert (Htop : topic T (bw_bus c) = wt_topic k) by (by rewrite Hb, after_topic).
  assert (Hself : set_topic T (wt_topic k) (bw_bus c) = bw_bus c) by (by rewrite <- Htop, set_topic_topic).
  assert (Hwork : working (bw_pc c)) by (destruct l; by destruct (bw_pc c)).
  rewrite <- Hp in Hwork.
  assert (Hmove : forall pc ctx,
    simulates (mkBusWait (bw_bus c) (bw_world c) ctx pc (bw_consumed c))
      (mkWait (wt_topic k) (wt_world k) ctx (wt_stopped k) pc (wt_consumed k) (wt_published k)) f).
  { intros pc ctx. rewrite <- Hself, Hw, Hn. by apply simulates_move. }
  destruct l as [| | | |ev|e]; cbn [own_turn foreign_event]; rewrite ?Hr.
  - destruct (bw_pc c) eqn:Epc; try done. unfold takePending_on in Hstep. rewrite Htop in Hstep.
    destruct (takePending (wt_topic k)) as [[m t]|] eqn:Et; injection Hstep as <-;
      (erewrite Hone; [|unfold wait_step; rewrite Hp, Et; reflexivity|by rewrite Hp]).
    + by apply simulates_match.
    + rewrite <- Hx. apply Hmove.
  - destruct (bw_pc c) eqn:Epc; try done. destruct (bw_ctx c) as [e|] eqn:Ex; [|done].
    injection Hstep as <-. erewrite Hone; [|unfold wait_step; rewrite Hp, Hx; reflexivity|by rewrite Hp].
    by apply simulates_return.
  - destruct (bw_pc c) eqn:Epc; try done. rewrite <- Hs in Hstep.
    destruct (wt_stopped k) as [e|] eqn:Es; [|done].
    injection Hstep as <-. erewrite Hone; [|unfold wait_step; rewrite Hp, Es; reflexivity|by rewrite Hp].
    by apply simulates_return.
  - destruct (bw_pc c) eqn:Epc; try done. unfold receive_on in Hstep. rewrite Htop in Hstep.
    destruct (receive ch (wt_topic k)) as [[m t]|] eqn:Et; [|done]. injection Hstep as <-.
    erewrite Hone; [|unfold wait_step; rewrite Hp, Et; reflexivity|by rewrite Hp]. by apply simulates_match.
  - assert (Hev : bus_is_done (bw_bus c) = false /\ c' = mkBusWait
      (fst (fst (bus_turn (bus_done (bw_bus c)) ev (bw_bus c)))) (bw_world c) (bw_ctx c) (bw_pc c) (bw_consumed c)).
    { destruct (bw_pc c); [| |done]; (destruct (bus_is_done (bw_bus c)); [done|]); by injection Hstep as <-. }
    destruct Hev as [Hd ->]. by apply simulates_event.
  - assert (Hev : bw_ctx c = None /\ c' = mkBusWait (bw_bus c) (bw_world c) (Some e) (bw_pc c) (bw_consumed c)).
    { destruct (bw_pc c); [| |done]; (destruct (bw_ctx c); [done|]); by injection Hstep as <-. }
    destruct Hev as [Hc0 ->]. erewrite Hone; [|unfold wait_step; rewrite Hx, Hc0; reflexivity|exact Hwork].
    rewrite <- Hp. apply Hmove.
Qed.

Lemma receives_app l ls f :
  bus_receives (foreign_event l ++ foreign_events ls) f
  = bus_receives (foreign_events ls) (bus_receives (foreign_event l) f).
Proof.
  destruct l as [| | | |[e| |d]|e]; cbn [foreign_event app]; rewrite ?receives_nil; try done.
  destruct (own_delivery d) eqn:Eo; cbn [app]; rewrite ?receives_nil; [done|].
  destruct (bus_is_done f) eqn:Ed.
  - assert (He : forall evs, bus_receives evs f = f) by (intros evs; unfold bus_receives; by rewrite Ed).
    by rewrite !He.
  - by rewrite !receives_delivery, receives_nil.
Qed.

Lemma simulates_run c ls c' k f :
  simulates c k f -> run (bus_wait_rel T matches ch) c ls c' ->
  simulates c' (wait_run matches ch (own_turns ls) k) (bus_receives (foreign_events ls) f).
Proof.
  intros Hc Hrun. revert k f Hc. induction Hrun as [c|c l c1 ls c' Hstep _ IH]; intros k f Hc.
  - rewrite receives_nil. unfold own_turns. cbn. by destruct (wt_pc k).
  - unfold own_turns, foreign_events. cbn [map concat]. rewrite (wait_run_app matches ch).
    fold (own_turns ls). fold (foreign_events ls). rewrite receives_app.
    apply IH. by eapply simulates_step.
Qed.

(** Foreign events leave the topic and the life of the goroutine alone. *)
Lemma receives_foreign ls f :
  topic T (bus_receives (foreign_events ls) f) = topic T f
  /\ bus_stopped (bus_receives (foreign_events ls) f) = bus_stopped f.
Proof.
  revert f. induction ls as [|l ls IH]; intros f; unfold foreign_events; cbn [map concat].
  { by rewrite receives_nil. }
  fold (foreign_events ls). rewrite receives_app. destruct (IH (bus_receives (foreign_event l) f)) as [-> ->].
  destruct l as [| | | |[e| |d]|e]; cbn [foreign_event]; rewrite ?receives_nil; try done.
  destruct (own_delivery d) eqn:Eo; [by rewrite receives_nil|].
  destruct (bus_is_done f) eqn:Ed; [unfold bus_receives; by rewrite Ed|].
  rewrite receives_delivery, receives_nil by done. split; [by apply delivered_topic|apply delivered_life].
Qed.

(** Whatever turns the waiter and the goroutine take over the one bus, the call is where
    the wait on its topic is after the foreign deliveries were handled first, in their
    order, and so is all of the bus. *)
Lemma bus_wait_refines b w ctx ls c :
  run (bus_wait_rel T matches ch) (bus_wait_start T ch b w ctx) ls c ->
  let b1 := bus_receives (foreign_events ls) b in
  let k := wait_run matches ch (own_turns ls) (wait_start ch (topic T b1) w ctx (bus_stopped b1)) in
  bw_pc c = wt_pc k /\ bw_world c = wt_world k /\ bw_consumed c = wt_consumed k
  /\ bw_bus c = bus_after (set_topic T) k b1.
Proof.
  intros Hrun. cbv zeta. destruct (receives_foreign ls b) as [-> ->].
  set (k0 := wait_start ch (topic T b) w ctx (bus_stopped b)).
  assert (H0 : simulates (bus_wait_start T ch b w ctx) k0 b).
  { split; try done; cbn.
    - unfold bus_after, subscribe_on. cbn. unfold bus_stopped. by destruct (bus_is_done b).
    - unfold subscribe_on. by rewrite stopped_set. }
  destruct (simulates_run _ _ _ _ _ H0 Hrun) as [Hb _ Hw _ Hp Hn]. done.
Qed.
End Refinement.
