(* ===== verification/TimeEvents.v ===== *)
(** * Hour events and waiting for an hour

    [services/time_event_service.go], [services/hour_notification_service.go] and
    [waitUntil] of [lodging_step/run_lodging.go], the latter as a transition system of
    three goroutines: the event service, the hour notification and the waiting step. *)

From Stdlib Require Import ZArith Lia.
From stdpp Require Import base tactics list option strings gmap.
From S2P Require Import Prelude GoEffects GoTime GoText Domain Bus.
Open Scope Z_scope.

(** [proto.Unmarshal] of an [event.TimeEvent] *)
Class TimeProto := { unmarshal_TimeEvent : string -> error + TimeEvent }.

Definition TimeEventHourChange : string := "hour_change".

(** ** The event service *)

Record TimeEventService := mkTimeEventService {
  hourChangeChannels : gset nat;
  hourChangeBuffers : gmap nat (list Time);
  currentTime : Time;
  hasCurrentTime : bool
}.

(** [NewTimeEventService]: the consumer is nil or not; nobody is registered and no time is
    known. *)
Definition NewTimeEventService {C} (hourChangeClient : option C) : error + TimeEventService :=
  match hourChangeClient with
  | None => inl (Errorf "hourChangeClient is nil" [])
  | Some _ => inr (mkTimeEventService NewSet ∅ (mkTime 0 0) false)
  end.

(** A nil channel is [None]; other event types are ignored. *)
Definition Register (eventType : string) (ch : option nat) (s : TimeEventService) : TimeEventService :=
  match ch with
  | None => s
  | Some ch =>
      if String.eqb eventType TimeEventHourChange
      then mkTimeEventService (Set_Add (hourChangeChannels s) ch) (hourChangeBuffers s)
             (currentTime s) (hasCurrentTime s)
      else s
  end.

Definition Unregister (eventType : string) (ch : option nat) (s : TimeEventService) : TimeEventService :=
  match ch with
  | None => s
  | Some ch =>
      if String.eqb eventType TimeEventHourChange
      then mkTimeEventService (Set_Remove (hourChangeChannels s) ch) (hourChangeBuffers s)
             (currentTime s) (hasCurrentTime s)
      else s
  end.

Definition CurrentTime (s : TimeEventService) : option Time :=
  if hasCurrentTime s then Some (currentTime s) else None.

(** [notifyHourChange] in its two critical sections. *)
Definition setCurrentTime (t : Time) (s : TimeEventService) : TimeEventService :=
  mkTimeEventService (hourChangeChannels s) (hourChangeBuffers s) t true.

Definition notify (t : Time) (values : list nat) (s : TimeEventService) : TimeEventService :=
  mkTimeEventService (hourChangeChannels s) (snd (notifySubscribers values t (hourChangeBuffers s)))
    (currentTime s) (hasCurrentTime s).

Definition notifyHourChange (t : Time) (s : TimeEventService) : TimeEventService :=
  notify t (elements (hourChangeChannels s)) (setCurrentTime t s).

(** Settling a delivery; an error of the broker is logged and changes nothing. *)
Definition hour_ackDelivery (d : Delivery) : AckCall := CallAck (DeliveryTag d) false.
Definition hour_nackDelivery (d : Delivery) : AckCall := CallNack (DeliveryTag d) false false.

(** A turn of the loop of [Start]. *)
Inductive TimeFeed := TimeCtxDone | TimeClosed | TimeDelivery (d : Delivery).

Section TimeLoop.
Context {P : TimeProto}.

Definition unmarshalTimeEvent (body : string) : error + Time :=
  match unmarshal_TimeEvent body with
  | inl e => inl e
  | inr ev =>
      match te_Time ev with
      | None => inl (Errorf "time event payload missing time" [])
      | Some t => inr t
      end
  end.

Definition time_turn (ev : TimeFeed) (s : TimeEventService)
  : TimeEventService * list AckCall * bool :=
  match ev with
  | TimeCtxDone | TimeClosed => (s, [], false)
  | TimeDelivery d =>
      match unmarshalTimeEvent (Body d) with
      | inl _ => (s, [hour_nackDelivery d], true)
      | inr t => (notifyHourChange t s, [hour_ackDelivery d], true)
      end
  end.

Fixpoint time_loop (evs : list TimeFeed) (s : TimeEventService) : TimeEventService * list AckCall :=
  match evs with
  | [] => (s, [])
  | ev :: rest =>
      let '(s1, acks1, goes_on) := time_turn ev s in
      if goes_on then let '(s2, acks2) := time_loop rest s1 in (s2, acks1 ++ acks2)
      else (s1, acks1)
  end.

(** [Start]: consuming has to begin before anything is read. *)
Definition TimeEvents_Start (consume : option error) (evs : list TimeFeed) (s : TimeEventService)
  : TimeEventService * list AckCall :=
  match consume with Some _ => (s, []) | None => time_loop evs s end.

Definition time_of (d : Delivery) : option Time :=
  match unmarshalTimeEvent (Body d) with inl _ => None | inr t => Some t end.

(** The time service settles every hour event once and in order, acknowledging the
    readable ones and refusing the others; the current time is the one of the last
    readable event and only registered channels are written. When consuming does not begin
    it does nothing. *)
Theorem time_loop_correct ds s :
  (forall e evs, TimeEvents_Start (Some e) evs s = (s, []))
  /\ let r := TimeEvents_Start None (map TimeDelivery ds) s in
  snd r = map (fun d => match time_of d with
                        | Some _ => CallAck (DeliveryTag d) false
                        | None => CallNack (DeliveryTag d) false false
                        end) ds
  /\ CurrentTime (fst r) = match last (omap time_of ds) with
                           | Some t => Some t
                           | None => CurrentTime s
                           end
  /\ hourChangeChannels (fst r) = hourChangeChannels s
  /\ forall ch, ch ∉ hourChangeChannels s ->
       hourChangeBuffers (fst r) !! ch = hourChangeBuffers s !! ch.
Proof.
  split; [done|]. unfold TimeEvents_Start.
  cbv zeta. revert s. induction ds as [|d ds IH]; intros s; [done|].
  cbn [map time_loop time_turn]. unfold time_of. cbn [omap list_omap].
  destruct (unmarshalTimeEvent (Body d)) as [e|t] eqn:Eu.
  - specialize (IH s). destruct (time_loop _ s) as [s2 acks]. cbn [fst snd] in *.
    destruct IH as (-> & H2 & H3 & H4). done.
  - specialize (IH (notifyHourChange t s)). destruct (time_loop _ (notifyHourChange t s)) as [s2 acks].
    cbn [fst snd] in *. destruct IH as (-> & H2 & H3 & H4). split; [done|]. split; [|split].
    + rewrite H2. fold time_of. unfold time_of at 2. rewrite last_cons.
      by destruct (last _).
    + rewrite H3. done.
    + intros ch Hch. rewrite H4 by done.
      unfold notifyHourChange, notify. cbn.
      destruct (notify_spec (elements (hourChangeChannels s)) t (hourChangeBuffers s) false
                  (NoDup_elements _)) as [_ Hb].
      unfold notifySubscribers. rewrite Hb. rewrite decide_False; [done|].
      intros [Hin _]. by apply elem_of_elements in Hin.
Qed.
End TimeLoop.

(** ** Waiting for an hour *)

Definition sameUTCDay (left right : Time) : bool :=
  (Year (UTC left) =? Year (UTC right)) && (Month (UTC left) =? Month (UTC right))
  && (Day (UTC left) =? Day (UTC right)).

Section WaitUntil.
Variable target : Time.
(** The channel [events] of the hour notification *)
Variable ch : nat.

(** The goroutine of [HourNotification]: not yet registered, in its [select], blocked on
    [timerCh <- eventTime], or gone. *)
Inductive HourPc := HStart | HSelect | HSend (t : Time) | HGone.

(** The waiting step: before its look at the current time, in its [select], returned. *)
Inductive UntilPc := UCheck | USelect | UReturned (r : outcome unit).

(** [uc_notifying] is the event between the two critical sections of
    [notifyHourChange]; [uc_events] is a history variable. *)
Record UntilCfg := mkUntil {
  uc_service : TimeEventService;
  uc_notifying : option Time;
  uc_hour : HourPc;
  uc_timer : list Time;
  uc_pc : UntilPc;
  uc_ctx : option error;
  uc_events : list Time
}.

Inductive UntilLabel :=
| TSet (t : Time)        (* the service takes an event and sets the current time *)
| TNotify                (* and then writes to the channels *)
| HRegister | HReceive | HPublish | HCtxDone
| UCheckTime | UReceive | UCtxDone
| UCancel (e : error).

Definition until_step (l : UntilLabel) (c : UntilCfg) : option UntilCfg :=
  match c with
  | mkUntil s n h timer pc ctx evs =>
    match l with
    | TSet t =>
        match n with
        | None => Some (mkUntil (setCurrentTime t s) (Some t) h timer pc ctx (evs ++ [t]))
        | Some _ => None
        end
    | TNotify =>
        match n with
        | Some t => Some (mkUntil (notify t (elements (hourChangeChannels s)) s) None h timer pc ctx evs)
        | None => None
        end
    | HRegister =>
        match h with
        | HStart => Some (mkUntil (Register TimeEventHourChange (Some ch) s) n HSelect timer pc ctx evs)
        | _ => None
        end
    | HReceive =>
        match h, buffer_of (hourChangeBuffers s) ch with
        | HSelect, t :: rest =>
            let s' := mkTimeEventService (hourChangeChannels s)
                        (<[ch := rest]> (hourChangeBuffers s)) (currentTime s) (hasCurrentTime s) in
            Some (mkUntil s' n (if Hour t =? Hour target then HSend t else HSelect) timer pc ctx evs)
        | _, _ => None
        end
    | HPublish =>
        match h, timer with
        | HSend t, [] => Some (mkUntil s n HSelect [t] pc ctx evs)
        | _, _ => None
        end
    | HCtxDone =>
        match h, ctx with
        | HSelect, Some _ | HSend _, Some _ =>
            Some (mkUntil (Unregister TimeEventHourChange (Some ch) s) n HGone timer pc ctx evs)
        | _, _ => None
        end
    | UCheckTime =>
        match pc with
        | UCheck =>
            match CurrentTime s with
            | Some now =>
                if negb (Before (UTC now) target)
                then Some (mkUntil s n h timer (UReturned (Ret tt)) ctx evs)
                else Some (mkUntil s n h timer USelect ctx evs)
            | None => Some (mkUntil s n h timer USelect ctx evs)
            end
        | _ => None
        end
    | UReceive =>
        match pc, timer with
        | USelect, t :: rest =>
            if sameUTCDay t target && negb (Before (UTC t) target)
            then Some (mkUntil s n h rest (UReturned (Ret tt)) ctx evs)
            else Some (mkUntil s n h rest USelect ctx evs)
        | _, _ => None
        end
    | UCtxDone =>
        match pc, ctx with
        | USelect, Some e => Some (mkUntil s n h timer (UReturned (Err e)) ctx evs)
        | _, _ => None
        end
    | UCancel e =>
        match ctx with
        | None => Some (mkUntil s n h timer pc (Some e) evs)
        | Some _ => None
        end
    end
  end.

Definition until_rel (c : UntilCfg) (l : UntilLabel) (c' : UntilCfg) : Prop := until_step l c = Some c'.

(** The call, with the service in any state. *)
Definition until_start (s : TimeEventService) : UntilCfg :=
  mkUntil s None HStart [] UCheck None [].

(** An event that can wake the step: in the target's hour, on its day, not before it. *)
Definition wakes (t : Time) : Prop :=
  Hour t = Hour target /\ sameUTCDay t target = true /\ Before (UTC t) target = false.

(** The times known before the call. *)
Definition known (s : TimeEventService) : list Time :=
  match CurrentTime s with Some t => [t] | None => [] end.

Record until_inv (s0 : TimeEventService) (c : UntilCfg) : Prop := {
  ui_current : forall t, CurrentTime (uc_service c) = Some t -> t ∈ known s0 ++ uc_events c;
  ui_buffer : forall t, t ∈ buffer_of (hourChangeBuffers (uc_service c)) ch -> t ∈ uc_events c;
  ui_notifying : forall t, uc_notifying c = Some t -> t ∈ uc_events c;
  ui_hour : forall t, uc_hour c = HSend t -> t ∈ uc_events c /\ Hour t = Hour target;
  ui_timer : forall t, t ∈ uc_timer c -> t ∈ uc_events c /\ Hour t = Hour target;
  ui_result : match uc_pc c with
              | UReturned (Ret _) =>
                  exists t, t ∈ known s0 ++ uc_events c /\ Before (UTC t) target = false
              | UReturned (Err e) => uc_ctx c = Some e
              | UReturned _ => False
              | _ => True
              end
}.

Lemma until_inv_start s : buffer_of (hourChangeBuffers s) ch = [] -> until_inv s (until_start s).
Proof.
  intros Hb. split; cbn; try done.
  - intros t Ht. unfold known. rewrite Ht. by left.
  - intros t. rewrite Hb. by intros []%not_elem_of_nil.
  - by intros t []%not_elem_of_nil.
Qed.

Lemma notify_buffer_elem t t' s values :
  NoDup values ->
  t ∈ buffer_of (snd (notifySubscribers values t' (hourChangeBuffers s))) ch ->
  t = t' \/ t ∈ buffer_of (hourChangeBuffers s) ch.
Proof.
  intros Hnd. destruct (notify_spec values t' (hourChangeBuffers s) false Hnd) as [_ Hb].
  unfold buffer_of at 1. unfold notifySubscribers. rewrite Hb.
  destruct (decide _) as [_|_]; cbn [from_option id]; [|by right].
  intros [H|H]%elem_of_app; [by right|left]. by apply list_elem_of_singleton in H.
Qed.

Lemma until_inv_step s0 c l c' : until_inv s0 c -> until_rel c l c' -> until_inv s0 c'.
Proof.
  intros [Hcur Hbuf Hnot Hhour Htim Hres] Hstep. destruct c as [s n h timer pc ctx evs].
  unfold until_rel in Hstep. cbn in *. destruct l; cbn in Hstep.
  - destruct n; [done|]. injection Hstep as <-. split; cbn.
    + intros t' [= <-]. set_solver.
    + intros t' Ht'. apply elem_of_app. left. auto.
    + intros t' [= <-]. set_solver.
    + intros t' Ht'. destruct (Hhour _ Ht'). split; [set_solver|done].
    + intros t' Ht'. destruct (Htim _ Ht'). split; [set_solver|done].
    + destruct pc as [| |[]]; try done. destruct Hres as (t' & Ht' & ?). exists t'.
      split; [set_solver|done].
  - destruct n as [t|]; [|done]. injection Hstep as <-. split; cbn; try done.
    intros t' [->|Ht']%notify_buffer_elem; [by apply Hnot|auto|apply NoDup_elements].
  - destruct h; try done. injection Hstep as <-. by split; cbn.
  - destruct h; try done. destruct (buffer_of _ ch) as [|t rest] eqn:Eb; [done|].
    injection Hstep as <-. split; cbn; try done.
    + intros t'. unfold buffer_of. rewrite lookup_insert_eq. cbn. intros Ht'.
      apply Hbuf. by right.
    + intros t'. destruct (Hour t =? Hour target) eqn:Eh; [|done]. intros [= <-].
      reflect_ineqs. split; [|done]. apply Hbuf. by left.
  - destruct h; try done. destruct timer; [|done]. injection Hstep as <-. split; cbn; try done.
    intros t' ->%list_elem_of_singleton. by apply Hhour.
  - destruct h; try done; destruct ctx; try done; injection Hstep as <-; by split; cbn.
  - destruct pc; try done. pose proof Hcur as Hcur'.
    destruct (CurrentTime s) as [now|] eqn:Ec.
    + destruct (Before (UTC now) target) eqn:Eb; cbn in Hstep; injection Hstep as <-;
        split; cbn; try done; try (intros t' Ht'; apply Hcur; congruence).
      exists now. split; [by apply Hcur|done].
    + injection Hstep as <-. split; cbn; try done. intros t' Ht'. congruence.
  - destruct pc; try done. destruct timer as [|t rest]; [done|].
    assert (Hrest : forall t', t' ∈ rest -> t' ∈ evs /\ Hour t' = Hour target)
      by (intros t' Ht'; apply Htim; by right).
    destruct (sameUTCDay t target && _) eqn:Ew; injection Hstep as <-; split; cbn; try done.
    apply andb_true_iff in Ew as [_ Eb%negb_true_iff]. exists t.
    destruct (Htim t) as [Hin _]; [by left|]. split; [set_solver|done].
  - destruct pc; try done. destruct ctx; [|done]. injection Hstep as <-. by split; cbn.
  - destruct ctx eqn:Ec; [done|]. injection Hstep as <-. split; cbn; try done.
    by destruct pc as [| |[]].
Qed.

(** What the result of a wait says. *)
Lemma until_result s ls c :
  buffer_of (hourChangeBuffers s) ch = [] ->
  run until_rel (until_start s) ls c ->
  match uc_pc c with
  | UReturned (Ret _) => exists t, t ∈ known s ++ uc_events c
                                   /\ unixNano target <= unixNano t
  | UReturned (Err e) => uc_ctx c = Some e
  | UReturned _ => False
  | _ => True
  end.
Proof.
  intros Hb Hrun.
  assert (Hi : until_inv s c) by (eapply (run_invariant until_rel (until_inv s));
    [intros; by eapply until_inv_step|exact Hrun|by apply until_inv_start]).
  destruct Hi as [_ _ _ _ _ Hres]. destruct (uc_pc c) as [| |[]]; try done.
  destruct Hres as (t & Ht & Hbf). exists t. split; [done|].
  unfold Before in Hbf. simpl in Hbf. reflect_ineqs. done.
Qed.

(** The goroutine of a wait goes away only when the context ends. *)
Definition stays (tr : list UntilLabel) (c : UntilCfg) : Prop :=
  (forall e, UCancel e ∉ tr) ->
  uc_ctx c = None /\ uc_hour c <> HGone
  /\ (HRegister ∈ tr -> uc_hour c <> HStart /\ ch ∈ hourChangeChannels (uc_service c)).

Lemma until_goroutine_stays s ls c :
  run until_rel (until_start s) ls c -> (forall e, UCancel e ∉ ls) ->
  uc_ctx c = None /\ uc_hour c <> HGone
  /\ (HRegister ∈ ls -> ch ∈ hourChangeChannels (uc_service c)).
Proof.
  intros Hrun Hno.
  assert (HI : stays ([] ++ ls) c).
  2:{ destruct (HI Hno) as (H1 & H2 & H3). split; [done|]. split; [done|]. by intros [_ H]%H3. }
  clear Hno. refine (run_invariant_trace until_rel stays _ _ _ _ Hrun [] _).
  - intros tr c0 l c1 HI Hstep Hno. unfold until_rel in Hstep. destruct c0 as [s0 n h timer pc ctx evs].
    assert (Hno' : forall e, UCancel e ∉ tr) by (intros e He; apply (Hno e), elem_of_app; by left).
    destruct (HI Hno') as (Hctx & Hg & Hreg). cbn in Hctx, Hg, Hreg. subst ctx.
    assert (Hl : forall e, l <> UCancel e) by (intros e ->; apply (Hno e), elem_of_app; right; by left).
    assert (Hreg' : HRegister ∈ tr ++ [l] -> l <> HRegister -> h <> HStart /\ ch ∈ hourChangeChannels s0).
    { intros [H|H%list_elem_of_singleton]%elem_of_app Hne; [by apply Hreg|congruence]. }
    destruct l; cbn in Hstep; try (by destruct (Hl e));
      repeat (case_match; try done); simplify_eq; cbn in *;
      (split; [done|]; split; [try congruence; repeat case_match; congruence|]);
      intros Hin; first [by split; [done|set_solver]|destruct (Hreg' Hin ltac:(done)); repeat case_match; by split].
  - intros Hno. split; [done|]. split; [done|]. by intros []%not_elem_of_nil.
Qed.

(** C20: no guest acts before its hour: when [waitUntil] succeeds the service has told a
    time that is not before the target, and it fails only with the error of its
    context. But as long as that context lives, the goroutine the wait has started outlives
    it, and the channel it has registered stays registered. *)
Theorem waitUntil_safe s ls c :
  buffer_of (hourChangeBuffers s) ch = [] ->
  run until_rel (until_start s) ls c ->
  match uc_pc c with
  | UReturned (Ret _) => exists t, t ∈ known s ++ uc_events c
                                   /\ unixNano target <= unixNano t
  | UReturned (Err e) => uc_ctx c = Some e
  | UReturned _ => False
  | _ => True
  end
  /\ ((forall e, UCancel e ∉ ls) ->
      uc_hour c <> HGone /\ (HRegister ∈ ls -> ch ∈ hourChangeChannels (uc_service c))).
Proof.
  intros Hb Hrun. split; [by eapply until_result|].
  intros Hno. by destruct (until_goroutine_stays s ls c Hrun Hno).
Qed.

(** *** The lost hour *)

(** Everything on its way to the waiting step is unable to wake it. *)
Definition asleep (c : UntilCfg) : Prop :=
  uc_pc c = USelect /\ uc_ctx c = None
  /\ (forall t, uc_notifying c = Some t -> ~ wakes t)
  /\ (forall t, t ∈ buffer_of (hourChangeBuffers (uc_service c)) ch -> ~ wakes t)
  /\ (forall t, uc_hour c = HSend t -> ~ wakes t)
  /\ (forall t, t ∈ uc_timer c -> ~ wakes t /\ Hour t = Hour target)
  /\ (forall t, uc_hour c = HSend t -> Hour t = Hour target).

(** Turns that bring no new chance to wake. *)
Definition no_chance (l : UntilLabel) : Prop :=
  match l with TSet t => ~ wakes t | UCancel _ => False | _ => True end.

Lemma asleep_step c l c' : no_chance l -> asleep c -> until_rel c l c' -> asleep c'.
Proof.
  intros Hl (Hpc & Hctx & Hn & Hb & Hh & Ht & Hhh) Hstep. destruct c as [s n h timer pc ctx evs].
  unfold until_rel in Hstep. cbn in *. subst pc ctx. destruct l; cbn in Hstep; try done.
  - destruct n; [done|]. injection Hstep as <-. repeat split; cbn; try done.
    + by intros t' [= <-].
    + by apply Ht.
    + by apply Ht.
  - destruct n as [t|]; [|done]. injection Hstep as <-. repeat split; cbn; try done.
    + intros t' [->|Ht']%notify_buffer_elem; [by apply Hn|by apply Hb|apply NoDup_elements].
    + by apply Ht.
    + by apply Ht.
  - destruct h; try done. injection Hstep as <-. repeat split; cbn; try done; by apply Ht.
  - destruct h; try done. destruct (buffer_of _ ch) as [|t rest] eqn:Eb; [done|].
    injection Hstep as <-. repeat split; cbn; try done; try by apply Ht.
    + intros t'. unfold buffer_of. rewrite lookup_insert_eq. cbn. intros Ht'. apply Hb. by right.
    + intros t'. destruct (_ =? _); [|done]. intros [= <-]. apply Hb. by left.
    + intros t'. destruct (Hour t =? Hour target) eqn:E; [|done]. intros [= <-].
      by reflect_ineqs.
  - destruct h as [| |t|]; try done. destruct timer; [|done]. injection Hstep as <-.
    split; [done|]. split; [done|]. split; [done|]. split; [done|]. split; [done|].
    split; [|done]. cbn. intros t' ->%list_elem_of_singleton. auto.
  - by destruct h.
  - destruct timer as [|t rest]; [done|]. destruct (sameUTCDay t target && _) eqn:Ew.
    + destruct (Ht t ltac:(by left)) as [Hw Hhr]. destruct Hw.
      apply andb_true_iff in Ew as [E1 E2%negb_true_iff]. done.
    + injection Hstep as <-. split; [done|]. split; [done|]. split; [done|]. split; [done|].
      split; [done|]. split; [|done]. cbn. intros t' Ht'. apply Ht. by right.
Qed.

(** C21: the wake-up can be lost. If the step looks at the clock before the target's
    event and the notification goroutine registers only after the event was handed out,
    the step stays blocked through every later event that is not in the target's own
    hour of its own day, however the goroutines interleave, until its context ends. *)
Theorem waitUntil_lost_wakeup s :
  buffer_of (hourChangeBuffers s) ch = [] -> ch ∉ hourChangeChannels s ->
  (forall now, CurrentTime s = Some now -> Before (UTC now) target = true) ->
  exists c, run until_rel (until_start s) [UCheckTime; TSet target; TNotify; HRegister] c
    /\ forall ls c', run until_rel c ls c' -> Forall no_chance ls -> uc_pc c' = USelect.
Proof.
  intros Hb Hch Hc. eexists. split.
  - eapply (run_cons _ _ _ (mkUntil s None HStart [] USelect None [])).
    { unfold until_rel, until_start. cbn [until_step]. destruct (CurrentTime s) as [now|]; [|done].
      by rewrite (Hc now eq_refl). }
    do 3 (eapply run_cons; [reflexivity|]). constructor.
  - match goal with |- forall ls c', run _ ?c ls c' -> _ => assert (Ha : asleep c) end.
    { split; [done|]. split; [done|]. split; [done|]. split; [|split; [done|split; [|done]]].
      - intros t. cbn. destruct (notify_spec (elements (hourChangeChannels s)) target
          (hourChangeBuffers s) false (NoDup_elements _)) as [_ Hbuf].
        unfold notifySubscribers, buffer_of. rewrite Hbuf. rewrite decide_False.
        + fold (buffer_of (hourChangeBuffers s) ch). rewrite Hb.
          by intros []%not_elem_of_nil.
        + intros [Hin _]. by apply elem_of_elements in Hin.
      - by intros t []%not_elem_of_nil. }
    intros ls c' Hrun Hall. revert Ha Hall. induction Hrun as [c|c l c1 ls c2 H1 _ IH];
      intros Ha Hall; [apply Ha|]. inversion Hall as [|? ? Hl Hls]; subst.
    apply IH; [|done]. by eapply asleep_step.
Qed.
End WaitUntil.

(** ** Concrete runs *)

Section Witnesses.
Definition quiet_service : TimeEventService := mkTimeEventService ∅ ∅ (mkTime 0 0) false.

(** 15:00 on the first day of 1970. *)
Definition three_o_clock : Time := mkTime (15 * 3600 * nsPerSec) 0.

Lemma waitUntil_safe_witness :
  exists c, run (until_rel three_o_clock 1) (until_start quiet_service)
              [UCheckTime; HRegister; TSet three_o_clock; TNotify; HReceive; HPublish; UReceive] c
    /\ uc_pc c = UReturned (Ret tt)
    /\ exists t, t ∈ uc_events c /\ unixNano three_o_clock <= unixNano t.
Proof.
  assert (Hrun : exists c, run (until_rel three_o_clock 1) (until_start quiet_service)
              [UCheckTime; HRegister; TSet three_o_clock; TNotify; HReceive; HPublish; UReceive] c
              /\ uc_pc c = UReturned (Ret tt)).
  { eexists. split; [do 7 (eapply run_cons; [vm_compute; reflexivity|]); constructor|reflexivity]. }
  destruct Hrun as (c & Hrun & Hpc). exists c. split; [exact Hrun|]. split; [exact Hpc|].
  pose proof (waitUntil_safe three_o_clock 1 quiet_service _ c eq_refl Hrun) as H.
  rewrite Hpc in H. exact (proj1 H).
Defined.

Lemma waitUntil_lost_wakeup_witness :
  exists c, run (until_rel three_o_clock 1) (until_start quiet_service)
              [UCheckTime; TSet three_o_clock; TNotify; HRegister] c
    /\ wakes three_o_clock three_o_clock /\ uc_pc c = USelect.
Proof.
  destruct (waitUntil_lost_wakeup three_o_clock 1 quiet_service eq_refl
              ltac:(by intros []%not_elem_of_empty) ltac:(discriminate)) as (c & Hrun & H).
  exists c. split; [exact Hrun|]. split; [vm_compute; repeat split|].
  exact (H [] c (run_nil _ c) (List.Forall_nil _)).
Defined.
End Witnesses.
