(* ===== verification/Chat.v ===== *)
(** * The lodging chat client: [infra/websocket/lodging_chat.go]

    A reader goroutine and the calling goroutine share three channels. The connection, the
    message codec, identifiers and trace contexts are what the labels bring in. *)

From Stdlib Require Import ZArith Lia.
From stdpp Require Import base tactics list option strings sets gmap.
From S2P Require Import Prelude GoEffects Domain.
Open Scope Z_scope.

Definition protocolVersion : string := "lodging.v1".
Definition inbound_cap : nat := 32.
Definition ack_cap : nat := 32.
Definition err_cap : nat := 1.

(** The trace context [write] puts into a message: what the propagator injects. A nil map
    and an empty one are both the empty list. *)
Definition with_trace (carrier : list (string * string)) (m : ChatMessage) : ChatMessage :=
  mkChatMessage (MessageId m) (CorrelationId m) (ChatSender m) (ProtocolVersion m) carrier
    (ChatMessagePayload m).

(** The rest of [write]: the message is marshalled, the connection's write deadline set and
    the frame written; what each reports. *)
Record Wire := mkWire {
  wire_Marshal : option error;
  wire_SetWriteDeadline : option error;
  wire_WriteMessage : option error
}.
Definition wire_ok : Wire := mkWire None None None.

Definition write (w : Wire) : option error :=
  match wire_Marshal w with
  | Some e => Some e
  | None => match wire_SetWriteDeadline w with Some e => Some e | None => wire_WriteMessage w end
  end.

(** The messages the client builds, as [write] sends them; [id] and [corr] are fresh
    identifiers and [trace] is what the propagator injects. *)
Definition actionMessage (id corr : string) (trace : list (string * string)) (a : GuestAction) : ChatMessage :=
  with_trace trace (mkChatMessage id corr SENDER_GUEST protocolVersion [] (Payload_GuestAction a)).

Definition replyMessage (id : string) (trace : list (string * string)) (request : ChatMessage)
    (r : GuestResponse) : ChatMessage :=
  with_trace trace
    (mkChatMessage id (CorrelationId request) SENDER_GUEST protocolVersion [] (Payload_GuestResponse r)).

Definition ackMessage (id : string) (trace : list (string * string)) (m : ChatMessage) : ChatMessage :=
  with_trace trace
    (mkChatMessage id (MessageId m) SENDER_GUEST protocolVersion []
       (Payload_Ack (mkAck (MessageId m) ACK_STATUS_ACCEPTED ERROR_CODE_NONE))).

(** The filter of [WaitForNextSystemMessage]. *)
Definition is_system (m : ChatMessage) : bool :=
  negb (bool_decide (GetSystemNotification m = SYSTEM_NOTIFICATION_UNSPECIFIED))
  || negb (bool_decide (GetSystemRequest m = SYSTEM_REQUEST_UNSPECIFIED)).

Definition is_ack (m : ChatMessage) : bool := negb (is_nil (GetAck m)).

(** [ack.GetAck() != nil && ...GetAcknowledgedMessageId() == msg.GetMessageId()] *)
Definition acknowledges (ack msg : ChatMessage) : bool :=
  match GetAck ack with
  | None => false
  | Some a => String.eqb (AcknowledgedMessageId a) (MessageId msg)
  end.

(** The reader: in [ReadMessage], with an ack to hand over, with a message to acknowledge,
    with a message to hand over, or gone. *)
Inductive ReaderPc := RRead | RPushAck (m : ChatMessage) | RSendAck (m : ChatMessage)
                    | RPushInbound (m : ChatMessage) | RGone.

(** The caller: between calls, waiting for the ack of [msg], at the head of
    [nextMessage], in its [select]. *)
Inductive CallerPc := CIdle | CWaitAck (msg : ChatMessage) | CNextHead | CNextSelect.

(** The last four fields are history variables: the frames read that are not acks, the
    acks read, the messages [nextMessage] returned, and the frames whose acknowledgement
    could not be written. *)
Record ChatCfg := mkChat {
  inboundCh : list ChatMessage;
  ackCh : list ChatMessage;
  errCh : list error;
  chat_pending : list ChatMessage;
  reader : ReaderPc;
  caller : CallerPc;
  call_result : option (outcome (option ChatMessage));
  written : list ChatMessage;
  frames_read : list ChatMessage;
  acks_read : list ChatMessage;
  handed : list ChatMessage;
  ack_failed : list ChatMessage
}.

Definition chat_start : ChatCfg := mkChat [] [] [] [] RRead CIdle None [] [] [] [] [].

(** [ClientFactory.NewClient]: the reader is started once the connection is dialled. *)
Definition NewClient (dial : option error) : error + ChatCfg :=
  match dial with Some e => inl e | None => inr chat_start end.

(** What [SendAction] and [Reply] send. *)
Inductive Outgoing :=
| OutAction (id corr : string) (trace : list (string * string)) (a : GuestAction)
| OutReply (id : string) (trace : list (string * string)) (request : ChatMessage) (r : GuestResponse).

Definition outgoing_message (o : Outgoing) : ChatMessage :=
  match o with
  | OutAction id corr trace a => actionMessage id corr trace a
  | OutReply id trace request r => replyMessage id trace request r
  end.

Inductive ChatLabel :=
| LRead (m : ChatMessage)                          (* a frame arrives *)
| LReadError (e : error)                           (* the read or the decoding fails *)
| LSendAck (id : string) (trace : list (string * string)) (wire : Wire)
| LPush
| LSend (msg : Outgoing) (wire : Wire)            (* [sendAndWaitAck] writes *)
| LNext                                            (* [WaitForNextSystemMessage] *)
| LHead
| LCtxDone (e : error)
| LErr
| LAck
| LInbound.

Section Updates.
Variable c : ChatCfg.
Definition set_reader r : ChatCfg :=
  mkChat (inboundCh c) (ackCh c) (errCh c) (chat_pending c) r (caller c) (call_result c)
    (written c) (frames_read c) (acks_read c) (handed c) (ack_failed c).
Definition set_caller k r : ChatCfg :=
  mkChat (inboundCh c) (ackCh c) (errCh c) (chat_pending c) (reader c) k r
    (written c) (frames_read c) (acks_read c) (handed c) (ack_failed c).
Definition set_inbound l : ChatCfg :=
  mkChat l (ackCh c) (errCh c) (chat_pending c) (reader c) (caller c) (call_result c)
    (written c) (frames_read c) (acks_read c) (handed c) (ack_failed c).
Definition set_acks l : ChatCfg :=
  mkChat (inboundCh c) l (errCh c) (chat_pending c) (reader c) (caller c) (call_result c)
    (written c) (frames_read c) (acks_read c) (handed c) (ack_failed c).
Definition set_errs l : ChatCfg :=
  mkChat (inboundCh c) (ackCh c) l (chat_pending c) (reader c) (caller c) (call_result c)
    (written c) (frames_read c) (acks_read c) (handed c) (ack_failed c).
Definition set_pending l : ChatCfg :=
  mkChat (inboundCh c) (ackCh c) (errCh c) l (reader c) (caller c) (call_result c)
    (written c) (frames_read c) (acks_read c) (handed c) (ack_failed c).
Definition add_written m : ChatCfg :=
  mkChat (inboundCh c) (ackCh c) (errCh c) (chat_pending c) (reader c) (caller c) (call_result c)
    (written c ++ [m]) (frames_read c) (acks_read c) (handed c) (ack_failed c).
Definition add_frame m : ChatCfg :=
  mkChat (inboundCh c) (ackCh c) (errCh c) (chat_pending c) (reader c) (caller c) (call_result c)
    (written c) (frames_read c ++ [m]) (acks_read c) (handed c) (ack_failed c).
Definition add_ack m : ChatCfg :=
  mkChat (inboundCh c) (ackCh c) (errCh c) (chat_pending c) (reader c) (caller c) (call_result c)
    (written c) (frames_read c) (acks_read c ++ [m]) (handed c) (ack_failed c).
Definition add_handed m : ChatCfg :=
  mkChat (inboundCh c) (ackCh c) (errCh c) (chat_pending c) (reader c) (caller c) (call_result c)
    (written c) (frames_read c) (acks_read c) (handed c ++ [m]) (ack_failed c).
Definition add_ack_failed m : ChatCfg :=
  mkChat (inboundCh c) (ackCh c) (errCh c) (chat_pending c) (reader c) (caller c) (call_result c)
    (written c) (frames_read c) (acks_read c) (handed c) (ack_failed c ++ [m]).
End Updates.

(** [nextMessage] returned [m] to [WaitForNextSystemMessage]. *)
Definition hand_over (m : ChatMessage) (c : ChatCfg) : ChatCfg :=
  if is_system m then set_caller (add_handed c m) CIdle (Some (Ret (Some m)))
  else set_caller (add_handed c m) CNextHead (call_result c).

(** One turn of [readLoop]. *)
Definition read_step (l : ChatLabel) (c : ChatCfg) : option ChatCfg :=
  match l, reader c with
  | LRead m, RRead =>
      if is_ack m then Some (set_reader (add_ack c m) (RPushAck m))
      else Some (set_reader (add_frame c m) (RSendAck m))
  | LReadError e, RRead =>
      let c' := if Nat.ltb (length (errCh c)) err_cap then set_errs c (errCh c ++ [e]) else c in
      Some (set_reader c' RGone)
  | LSendAck id trace wire, RSendAck m =>
      if String.eqb (MessageId m) "" then Some (set_reader c (RPushInbound m))
      else match write wire with
           | Some _ => Some (set_reader (add_ack_failed c m) (RPushInbound m))
           | None => Some (set_reader (add_written c (ackMessage id trace m)) (RPushInbound m))
           end
  | LPush, RPushAck m =>
      if Nat.ltb (length (ackCh c)) ack_cap
      then Some (set_reader (set_acks c (ackCh c ++ [m])) RRead) else None
  | LPush, RPushInbound m =>
      if Nat.ltb (length (inboundCh c)) inbound_cap
      then Some (set_reader (set_inbound c (inboundCh c ++ [m])) RRead) else None
  | _, _ => None
  end.

(** One turn of [sendAndWaitAck] or of [WaitForNextSystemMessage] with [nextMessage]. *)
Definition call_step (l : ChatLabel) (c : ChatCfg) : option ChatCfg :=
  match l, caller c with
  | LSend msg wire, CIdle =>
      match write wire with
      | None => Some (set_caller (add_written c (outgoing_message msg)) (CWaitAck (outgoing_message msg)) None)
      | Some e => Some (set_caller c CIdle (Some (Err e)))
      end
  | LNext, CIdle => Some (set_caller c CNextHead None)
  | LHead, CNextHead =>
      match chat_pending c with
      | m :: rest => Some (hand_over m (set_pending c rest))
      | [] => Some (set_caller c CNextSelect (call_result c))
      end
  | LCtxDone e, CWaitAck _ | LCtxDone e, CNextSelect => Some (set_caller c CIdle (Some (Err e)))
  | LErr, CWaitAck _ | LErr, CNextSelect =>
      match errCh c with
      | e :: rest => Some (set_caller (set_errs c rest) CIdle (Some (Err e)))
      | [] => None
      end
  | LAck, CWaitAck msg =>
      match ackCh c with
      | a :: rest =>
          if acknowledges a msg then Some (set_caller (set_acks c rest) CIdle (Some (Ret None)))
          else Some (set_acks c rest)
      | [] => None
      end
  | LInbound, CWaitAck _ =>
      match inboundCh c with
      | m :: rest => Some (set_pending (set_inbound c rest) (chat_pending c ++ [m]))
      | [] => None
      end
  | LInbound, CNextSelect =>
      match inboundCh c with
      | m :: rest => Some (hand_over m (set_inbound c rest))
      | [] => None
      end
  | _, _ => None
  end.

Definition chat_step (l : ChatLabel) (c : ChatCfg) : option ChatCfg :=
  match l with
  | LRead _ | LReadError _ | LSendAck _ _ _ | LPush => read_step l c
  | _ => call_step l c
  end.

Definition chat_rel (c : ChatCfg) (l : ChatLabel) (c' : ChatCfg) : Prop := chat_step l c = Some c'.

(** ** Invariants *)

(** What the reader holds: a frame not acknowledged yet, a frame to hand over, an ack. *)
Definition unacked_in_reader (r : ReaderPc) : list ChatMessage :=
  match r with RSendAck m => [m] | _ => [] end.
Definition acked_in_reader (r : ReaderPc) : list ChatMessage :=
  match r with RPushInbound m => [m] | _ => [] end.
Definition ack_in_reader (r : ReaderPc) : list ChatMessage :=
  match r with RPushAck m => [m] | _ => [] end.

(** The frames the reader is done with, in the order in which they reach the caller. *)
Definition passed_on (c : ChatCfg) : list ChatMessage :=
  handed c ++ chat_pending c ++ inboundCh c ++ acked_in_reader (reader c).

(** The actions and replies written, in order. *)
Definition sent (l : list ChatMessage) : list ChatMessage := filter (fun m => is_ack m = false) l.

(** [m] needs no acknowledgement, or one was written, or writing it failed. *)
Definition settled (c : ChatCfg) (m : ChatMessage) : Prop :=
  MessageId m = "" \/ m ∈ ack_failed c \/ exists id trace, ackMessage id trace m ∈ written c.

Record chat_inv (c : ChatCfg) : Prop := {
  ci_fifo : frames_read c = passed_on c ++ unacked_in_reader (reader c);
  ci_caps : (length (inboundCh c) <= inbound_cap)%nat /\ (length (ackCh c) <= ack_cap)%nat
            /\ (length (errCh c) <= err_cap)%nat;
  ci_settled : forall m, m ∈ passed_on c -> settled c m;
  ci_sound : forall w, w ∈ written c -> is_ack w = true ->
             exists id trace m, m ∈ frames_read c /\ MessageId m <> "" /\ w = ackMessage id trace m;
  ci_acks : forall a, a ∈ ackCh c ++ ack_in_reader (reader c) -> a ∈ acks_read c;
  ci_caller : match caller c with
              | CIdle =>
                  match call_result c with
                  | Some (Ret None) => exists a o, a ∈ acks_read c
                      /\ last (sent (written c)) = Some (outgoing_message o)
                      /\ acknowledges a (outgoing_message o) = true
                  | Some (Ret (Some m)) => last (handed c) = Some m /\ is_system m = true
                  | _ => True
                  end
              | CWaitAck msg => (exists o, msg = outgoing_message o) /\ last (sent (written c)) = Some msg
              | CNextHead => True
              | CNextSelect => chat_pending c = []
              end
}.

Lemma chat_inv_start : chat_inv chat_start.
Proof.
  split; cbn; try done; [repeat split; lia|..]; intros ? H; by apply not_elem_of_nil in H.
Qed.

Lemma settled_mono c c' m :
  (forall w, w ∈ written c -> w ∈ written c') -> (forall x, x ∈ ack_failed c -> x ∈ ack_failed c') ->
  settled c m -> settled c' m.
Proof. intros H1 H2 [H|[H|(id & tr & H)]]; [by left|right; left; auto|right; right; eauto]. Qed.

Lemma outgoing_not_ack o : is_ack (outgoing_message o) = false.
Proof. by destruct o. Qed.

Lemma sent_ack l id trace m : sent (l ++ [ackMessage id trace m]) = sent l.
Proof. unfold sent. rewrite filter_app. by rewrite app_nil_r. Qed.

Lemma sent_outgoing l o : last (sent (l ++ [outgoing_message o])) = Some (outgoing_message o).
Proof.
  unfold sent. rewrite filter_app, filter_cons_True by apply outgoing_not_ack.
  by rewrite filter_nil, last_snoc.
Qed.

(** An inbound message is acknowledged, or its acknowledgement fails, or it has no identifier
    to acknowledge. *)
Lemma send_ack_inv c l c' sm :
  chat_inv c -> reader c = RSendAck sm -> read_step l c = Some c' -> chat_inv c'.
Proof.
  intros [Hf (Hi & Ha & He) Hset Hsound Hacks Hcall] Er Hstep.
  unfold passed_on in *. unfold read_step in Hstep. rewrite Er in *. destruct l; try done.
  assert (Hpass : forall c0 : ChatCfg,
    (forall w, w ∈ written c -> w ∈ written c0) ->
    (forall x, x ∈ ack_failed c -> x ∈ ack_failed c0) -> settled c0 sm ->
    forall m, m ∈ handed c ++ chat_pending c ++ inboundCh c ++ [sm] -> settled c0 m).
  { intros c0 H1 H2 H3 m Hm. rewrite !app_assoc in Hm.
    apply elem_of_app in Hm as [Hm| ->%list_elem_of_singleton]; [|done].
    apply (settled_mono c c0 m); [exact H1|exact H2|apply Hset]. cbn. rewrite app_nil_r. by rewrite app_assoc. }
  cbn in Hf. rewrite app_nil_r in Hf.
  assert (Hfifo : frames_read c = (handed c ++ chat_pending c ++ inboundCh c ++ [sm]) ++ [])
    by (rewrite Hf, app_nil_r, <- !app_assoc; done).
  destruct (String.eqb (MessageId sm) "") eqn:Eid; [|destruct (write wire)]; injection Hstep as <-;
    split; unfold passed_on; cbn; try done.
  - apply Hpass; cbn; try done. left. by reflect_ineqs.
  - apply Hpass; cbn; [done|intros x Hx; apply elem_of_app; by left|].
    right. left. cbn. apply elem_of_app. right. by left.
  - apply Hpass; cbn; [intros x Hx; apply elem_of_app; by left|done|].
    right. right. exists id, trace. cbn. apply elem_of_app. right. by left.
  - intros w [Hw| ->%list_elem_of_singleton]%elem_of_app Hwa; [by apply Hsound|].
    exists id, trace, sm. reflect_ineqs. split; [rewrite Hfifo, app_nil_r|done].
    rewrite !app_assoc. apply elem_of_app. right. by left.
  - destruct (caller c); try done.
    + destruct (call_result c) as [[[]|?|?|]|]; try done. by rewrite sent_ack.
    + by rewrite sent_ack.
Qed.

Lemma read_step_inv c l c' : chat_inv c -> read_step l c = Some c' -> chat_inv c'.
Proof.
  intros Hinv Hstep. destruct (reader c) as [|am|sm|im|] eqn:Er; [| |by eapply send_ack_inv| |];
    destruct Hinv as [Hf (Hi & Ha & He) Hset Hsound Hacks Hcall];
    unfold passed_on in *; unfold read_step in Hstep; rewrite Er in *; destruct l; try done.
  - destruct (is_ack m) eqn:Em; injection Hstep as <-; split; unfold passed_on; cbn in *; try done.
    + intros a [H| ->%list_elem_of_singleton]%elem_of_app; [|set_solver].
      apply elem_of_app. left. apply Hacks. set_solver.
    + destruct (caller c); try done. destruct (call_result c) as [[[]|?|?|]|]; try done.
      destruct Hcall as (a & o & H1 & H2 & H3). exists a, o. set_solver.
    + by rewrite Hf, !app_nil_r.
    + intros w Hw Hwa. destruct (Hsound w Hw Hwa) as (id & tr & x & Hx & ?). exists id, tr, x.
      set_solver.
  - injection Hstep as <-. destruct (Nat.ltb _ _) eqn:El; split; unfold passed_on; cbn in *; try done.
    split; [done|]. split; [done|]. apply Nat.leb_le in El. rewrite length_app. simpl.
    unfold err_cap. lia.
  - destruct (Nat.ltb _ _) eqn:El; [|done]. injection Hstep as <-.
    split; unfold passed_on; cbn in *; try done.
    + split; [done|]. split; [|done]. apply Nat.leb_le in El. rewrite length_app. simpl.
      unfold ack_cap, inbound_cap. lia.
    + intros a Ha'. apply Hacks. by rewrite app_nil_r in Ha'.
  - destruct (Nat.ltb _ _) eqn:El; [|done]. injection Hstep as <-.
    split; unfold passed_on; cbn in *; try done.
    + by rewrite Hf, !app_nil_r.
    + split; [|done]. apply Nat.leb_le in El. rewrite length_app. simpl.
      unfold ack_cap, inbound_cap. lia.
    + intros m Hm. apply (settled_mono c); [done|done|apply Hset]. by rewrite app_nil_r in Hm.
Qed.

(** [nextMessage] takes the first of the messages that wait for the caller. *)
Lemma hand_over_inv m c0 c :
  chat_inv c0 ->
  passed_on c = handed c0 ++ chat_pending c ++ inboundCh c ++ acked_in_reader (reader c0) ->
  passed_on c0 = handed c0 ++ m :: chat_pending c ++ inboundCh c ++ acked_in_reader (reader c0) ->
  handed c = handed c0 -> reader c = reader c0 -> written c = written c0 ->
  frames_read c = frames_read c0 -> acks_read c = acks_read c0 -> ackCh c = ackCh c0 ->
  errCh c = errCh c0 -> ack_failed c = ack_failed c0 ->
  (length (inboundCh c) <= inbound_cap)%nat ->
  chat_inv (hand_over m c).
Proof.
  intros [Hf (Hi & Ha & He) Hset Hsound Hacks Hcall] Hp Hp0 E1 E2 E3 E4 E5 E6 E7 E8 Hin.
  assert (Hpass : (handed c ++ [m]) ++ chat_pending c ++ inboundCh c ++ acked_in_reader (reader c)
                  = passed_on c0) by (rewrite E1, E2, Hp0, <- app_assoc; done).
  assert (Hs : forall c1, written c1 = written c0 -> ack_failed c1 = ack_failed c0 ->
               forall x, x ∈ passed_on c0 -> settled c1 x).
  { intros c1 W F x Hx. apply (settled_mono c0 c1 x); [by rewrite W|by rewrite F|by apply Hset]. }
  unfold hand_over. destruct (is_system m) eqn:Em; split; unfold passed_on; cbn;
    rewrite ?Hpass, ?E2, ?E3, ?E4, ?E5, ?E6, ?E7; try done; try (by apply Hs).
  split; [by rewrite last_snoc|done].
Qed.

Lemma call_step_inv c l c' : chat_inv c -> call_step l c = Some c' -> chat_inv c'.
Proof.
  intros Hinv Hstep. pose proof Hinv as [Hf (Hi & Ha & He) Hset Hsound Hacks Hcall].
  unfold passed_on in *. unfold call_step in Hstep.
  destruct l; try done; try (destruct (write wire)); destruct (caller c) as [|msg'| |] eqn:Ec; try done.
  - injection Hstep as <-. by split; unfold passed_on; cbn.
  - injection Hstep as <-. split; unfold passed_on; cbn; try done.
    + intros m Hm. apply (settled_mono c); [|done|by apply Hset].
      intros w Hw. apply elem_of_app. by left.
    + intros w [Hw| ->%list_elem_of_singleton]%elem_of_app Hwa; [by apply Hsound|].
      by rewrite outgoing_not_ack in Hwa.
    + split; [by exists msg|apply sent_outgoing].
  - injection Hstep as <-. by split; unfold passed_on; cbn.
  - destruct (chat_pending c) as [|m rest] eqn:Ep; injection Hstep as <-.
    + by split; unfold passed_on; cbn; rewrite ?Ep.
    + apply (hand_over_inv m c); unfold passed_on; cbn; try done. by rewrite Ep.
  - injection Hstep as <-. by split; unfold passed_on; cbn.
  - injection Hstep as <-. by split; unfold passed_on; cbn.
  - destruct (errCh c) as [|e rest] eqn:Ee; [done|]. injection Hstep as <-.
    split; unfold passed_on; cbn; try done. simpl in He. repeat split; [done|done|lia].
  - destruct (errCh c) as [|e rest] eqn:Ee; [done|]. injection Hstep as <-.
    split; unfold passed_on; cbn; try done. simpl in He. repeat split; [done|done|lia].
  - destruct (ackCh c) as [|a rest] eqn:Ea; [done|]. destruct Hcall as [(o & ->) Hw].
    assert (Hrest : forall x, x ∈ rest ++ ack_in_reader (reader c) -> x ∈ acks_read c)
      by (intros x Hx; apply Hacks; by right).
    destruct (acknowledges a _) eqn:Eack; injection Hstep as <-; split; unfold passed_on; cbn;
      try done; try (simpl in Ha; repeat split; [done|lia|done]).
    + exists a, o. split; [apply Hacks; by left|done].
    + rewrite Ec. split; [by exists o|done].
  - destruct (inboundCh c) as [|m rest] eqn:Ein; [done|]. injection Hstep as <-.
    split; unfold passed_on; cbn; try done.
    + rewrite Hf. by rewrite <- !app_assoc.
    + simpl in Hi. repeat split; [lia|done|done].
    + intros x Hx. apply (settled_mono c); [done|done|apply Hset]. by rewrite <- !app_assoc in Hx.
    + by rewrite Ec.
  - destruct (inboundCh c) as [|m rest] eqn:Ein; [done|]. injection Hstep as <-.
    apply (hand_over_inv m c); unfold passed_on; cbn; rewrite ?Hcall; cbn; try done.
    + by rewrite Ein.
    + simpl in Hi. lia.
Qed.

Lemma chat_reachable ls c : run chat_rel chat_start ls c -> chat_inv c.
Proof.
  intros Hrun. eapply (run_invariant chat_rel chat_inv); [|exact Hrun|exact chat_inv_start].
  intros c0 l c' Hc Hs. unfold chat_rel, chat_step in Hs.
  destruct l; first [by eapply read_step_inv|by eapply call_step_inv].
Qed.

(** ** What the client promises *)

(** C28: messages are never lost, duplicated or reordered: however the reader and the
    caller interleave, the frames read from the connection are, in order, those
    [nextMessage] handed out, those put aside while waiting for an ack, those in the
    inbound channel and the one in the reader's hands; the channels stay within their
    capacities. *)
Theorem chat_fifo ls c :
  run chat_rel chat_start ls c ->
  frames_read c = handed c ++ chat_pending c ++ inboundCh c
                  ++ acked_in_reader (reader c) ++ unacked_in_reader (reader c)
  /\ (length (inboundCh c) <= 32)%nat /\ (length (ackCh c) <= 32)%nat /\ (length (errCh c) <= 1)%nat.
Proof.
  intros Hrun. destruct (chat_reachable ls c Hrun) as [Hf Hc _ _ _ _]. split; [|done].
  rewrite Hf. unfold passed_on. by rewrite <- !app_assoc.
Qed.

(** C29: a message reaches the caller only after it was acknowledged, unless it has no
    identifier or its acknowledgement could not be written; and the client acknowledges
    nothing it has not read. *)
Theorem chat_acknowledges ls c :
  run chat_rel chat_start ls c ->
  (forall m, m ∈ handed c ->
     MessageId m = "" \/ m ∈ ack_failed c \/ exists id trace, ackMessage id trace m ∈ written c)
  /\ (forall w, w ∈ written c -> is_ack w = true ->
       exists id trace m, m ∈ frames_read c /\ MessageId m <> "" /\ w = ackMessage id trace m).
Proof.
  intros Hrun. destruct (chat_reachable ls c Hrun) as [_ _ Hset Hsound _ _]. split; [|done].
  intros m Hm. apply Hset. apply elem_of_app. by left.
Qed.

Lemma acknowledges_names a m :
  acknowledges a m = true ->
  exists k, GetAck a = Some k /\ AcknowledgedMessageId k = MessageId m.
Proof.
  unfold acknowledges. destruct (GetAck a) as [k|]; [|done]. intros H. exists k.
  by apply String.eqb_eq in H.
Qed.

Lemma rejected_ack_accepted o st code id corr trace :
  let a := mkChatMessage id corr SENDER_SYSTEM protocolVersion trace
             (Payload_Ack (mkAck (MessageId (outgoing_message o)) st code)) in
  exists c, run chat_rel chat_start [LSend o wire_ok; LRead a; LPush; LAck] c
    /\ acks_read c = [a] /\ caller c = CIdle /\ call_result c = Some (Ret None).
Proof.
  cbv zeta. set (a := mkChatMessage _ _ _ _ _ _).
  pose (m := outgoing_message o).
  exists (mkChat [] [] [] [] RRead CIdle (Some (Ret None)) [m] [] [a] [] []). split; [|done].
  eapply (run_cons _ _ _ (mkChat [] [] [] [] RRead (CWaitAck m) None [m] [] [] [] [])); [done|].
  eapply (run_cons _ _ _ (mkChat [] [] [] [] (RPushAck a) (CWaitAck m) None [m] [] [a] [] [])); [done|].
  eapply (run_cons _ _ _ (mkChat [] [a] [] [] RRead (CWaitAck m) None [m] [] [a] [] [])); [done|].
  eapply run_cons; [|constructor].
  unfold chat_rel, chat_step, call_step. cbn [caller ackCh].
  replace (acknowledges a m) with true; [done|].
  unfold acknowledges, a, m. simpl. by rewrite String.eqb_refl.
Qed.

(** C30: a call of [SendAction] or [Reply] that returns a nil error wrote its message, the
    last one written that is not an ack, and read an ack that names that message; but
    neither the status nor the code of the ack is looked at: for every message, an ack
    with any status and code makes the call succeed. *)
Theorem send_success_needs_ack :
  (forall ls c,
     run chat_rel chat_start ls c -> caller c = CIdle -> call_result c = Some (Ret None) ->
     exists a k o, a ∈ acks_read c /\ last (sent (written c)) = Some (outgoing_message o)
       /\ GetAck a = Some k /\ AcknowledgedMessageId k = MessageId (outgoing_message o))
  /\ (forall o st code, exists ls c k a,
     run chat_rel chat_start (LSend o wire_ok :: ls) c /\ acks_read c = [a] /\ GetAck a = Some k
     /\ Ack_Status k = st /\ Ack_Code k = code
     /\ caller c = CIdle /\ call_result c = Some (Ret None)).
Proof.
  split.
  - intros ls c Hrun Hc Hr. destruct (chat_reachable ls c Hrun) as [_ _ _ _ _ Hcall].
    rewrite Hc, Hr in Hcall. destruct Hcall as (a & o & Ha & Hw & Hack).
    apply acknowledges_names in Hack as (k & Hk & Hid). by exists a, k, o.
  - intros o st code. destruct (rejected_ack_accepted o st code "" "" []) as (c & Hrun & Ha & Hc & Hr).
    eexists _, c, _, _. split; [exact Hrun|]. split; [exact Ha|]. done.
Qed.

(** ** Concrete runs *)

Section Witnesses.
Definition sample_action : Outgoing := OutAction "m-1" "c-1" [] SHOW_FOR_CHECKIN.
Definition sample_rejection : ChatMessage :=
  mkChatMessage "s-2" "m-1" SENDER_SYSTEM protocolVersion []
    (Payload_Ack (mkAck "m-1" ACK_STATUS_REJECTED ERROR_CODE_UNSPECIFIED)).
Definition sample_request : ChatMessage :=
  mkChatMessage "s-1" "q-1" SENDER_SYSTEM protocolVersion []
    (Payload_SystemRequest REQUEST_DOCUMENT).

(** A request arrives while the client waits for an ack, which is a rejection. *)
Definition chat_labels : list ChatLabel :=
  [LSend sample_action wire_ok; LRead sample_request; LSendAck "m-2" [] wire_ok; LPush; LInbound;
   LRead sample_rejection; LPush; LAck; LNext; LHead].

Lemma chat_sample_run : exists c, run chat_rel chat_start chat_labels c
  /\ handed c = [sample_request] /\ caller c = CIdle.
Proof.
  eexists. split; [do 10 (eapply run_cons; [vm_compute; reflexivity|]); constructor|done].
Qed.

Lemma chat_fifo_witness :
  exists c, run chat_rel chat_start chat_labels c /\ frames_read c = [sample_request].
Proof.
  destruct chat_sample_run as (c & Hrun & Hh & _). exists c. split; [exact Hrun|].
  destruct (chat_fifo _ c Hrun) as [Hf _].
  assert (Hf2 : frames_read c = [sample_request]); [|exact Hf2].
  clear Hf Hh. repeat (inversion Hrun as [|? ? ? ? ? Hs Hrun']; subst; clear Hrun;
    vm_compute in Hs; injection Hs as <-; rename Hrun' into Hrun).
  inversion Hrun; subst. reflexivity.
Defined.

Lemma chat_acknowledges_witness :
  exists c m, run chat_rel chat_start chat_labels c /\ m ∈ handed c
    /\ (MessageId m = "" \/ m ∈ ack_failed c \/ exists id trace, ackMessage id trace m ∈ written c).
Proof.
  destruct chat_sample_run as (c & Hrun & Hh & _). exists c, sample_request.
  assert (Hin : sample_request ∈ handed c) by (rewrite Hh; by left).
  split; [exact Hrun|]. split; [exact Hin|].
  destruct (chat_acknowledges _ c Hrun) as [H _]. exact (H _ Hin).
Defined.

Lemma send_success_needs_ack_witness :
  exists c a k o, run chat_rel chat_start
      [LSend sample_action wire_ok; LRead sample_rejection; LPush; LAck] c
    /\ a ∈ acks_read c /\ GetAck a = Some k /\ AcknowledgedMessageId k = MessageId (outgoing_message o).
Proof.
  destruct (rejected_ack_accepted sample_action ACK_STATUS_REJECTED ERROR_CODE_UNSPECIFIED
              "s-2" "m-1" []) as (c & Hrun & _ & Hc & Hr).
  destruct (proj1 send_success_needs_ack _ c Hrun Hc Hr) as (a & k & o & Ha & _ & Hk).
  exists c, a, k, o. split; [exact Hrun|]. split; [exact Ha|exact Hk].
Defined.
End Witnesses.
