(* ===== verification/Lodging.v ===== *)
(** * The stay: [lodging_step/run_lodging.go], [config/lodging_flow.go], [flows/lodging_flow.go]

    The action plans, the gates before an action and the conversation with the lodging
    service. The chat client and the hour wait are used through their interface: every
    call is recorded and answered by the environment ([LodgingEnv]); [Chat] and
    [TimeEvents] model what is behind. *)

From Stdlib Require Import ZArith Lia.
From stdpp Require Import base tactics list option strings gmap sorting.
From S2P Require Import Prelude GoEffects GoTime GoText Domain Json World Samples SelectPeriod Steps Flow.
Open Scope Z_scope.

(** ** [config/lodging_flow.go] *)

Record LodgingActionGate := mkGate {
  HasNotBeforeHour : bool;
  NotBeforeHour : Z;
  gate_Notification : SystemNotification;
  gate_Request : SystemRequest;
  WaitForNotification : SystemNotification
}.

Definition noGate : LodgingActionGate :=
  mkGate false 0 SYSTEM_NOTIFICATION_UNSPECIFIED SYSTEM_REQUEST_UNSPECIFIED
    SYSTEM_NOTIFICATION_UNSPECIFIED.
Definition notBefore (hour : Z) : LodgingActionGate :=
  mkGate true hour SYSTEM_NOTIFICATION_UNSPECIFIED SYSTEM_REQUEST_UNSPECIFIED
    SYSTEM_NOTIFICATION_UNSPECIFIED.
Definition notBeforeAnd (hour : Z) (n : SystemNotification) : LodgingActionGate :=
  mkGate true hour n SYSTEM_REQUEST_UNSPECIFIED SYSTEM_NOTIFICATION_UNSPECIFIED.

Record LodgingPlannedAction := mkPlanned { Action : GuestAction; Gate : LodgingActionGate }.

Record LodgingFlow := mkLodgingFlow {
  ShowUp : list LodgingPlannedAction;
  ShowDocument_Request : SystemRequest;
  ShowBookingNumber_Request : SystemRequest;
  FirstDayStay : list LodgingPlannedAction;
  RecurringStay : list LodgingPlannedAction;
  Checkout : list LodgingPlannedAction
}.

Definition DefaultLodgingFlow : LodgingFlow :=
  mkLodgingFlow
    [mkPlanned SHOW_FOR_CHECKIN (notBefore 15)]
    REQUEST_DOCUMENT
    REQUEST_BOOKING_NUMBER
    [mkPlanned ENTER_COTTAGE noGate;
     mkPlanned GO_FOR_A_BATH (notBefore 16);
     mkPlanned GO_FOR_DINNER (notBeforeAnd 18 DINNER_READY);
     mkPlanned GO_TO_SLEEP (notBefore 22)]
    [mkPlanned WAKEUP (notBefore 7);
     mkPlanned GO_FOR_BREAKFAST (notBeforeAnd 8 BREAKFAST_READY);
     mkPlanned LEAVE_CLEANUP_NOTIFICATION (notBefore 10);
     mkPlanned ENJOY_RESORT (notBefore 11);
     mkPlanned GO_FOR_A_BATH (notBefore 16);
     mkPlanned GO_FOR_DINNER (notBeforeAnd 18 DINNER_READY);
     mkPlanned GO_TO_SLEEP (notBefore 22)]
    [mkPlanned WAKEUP (notBefore 7);
     mkPlanned LEAVE_COTTAGE (notBefore 9);
     mkPlanned PROCEED_TO_CHECKOUT noGate;
     mkPlanned RETURN_COTTAGE_KEY
       (mkGate false 0 SYSTEM_NOTIFICATION_UNSPECIFIED REQUEST_COTTAGE_KEY CHECK_OUT_COMPLETE)].

(** ** Plans *)

Record actionPlanStep := mkPlanStep {
  dayOffset : Z;
  action : GuestAction;
  gate : LodgingActionGate
}.

Definition expandPlan (offset : Z) (actions : list LodgingPlannedAction) : list actionPlanStep :=
  map (fun a => mkPlanStep offset (Action a) (Gate a)) actions.

Definition dayNs : Z := 24 * 3600 * nsPerSec.

(** [int(checkOut.Sub(checkIn) / (24 * time.Hour))] *)
Definition stayNights (p : Period) : Z :=
  Z.quot (Sub (startOfUTCDay (End_ p)) (startOfUTCDay (Start p))) dayNs.

Definition fullStayDays (p : Period) : Z :=
  let nights := stayNights p in if nights <=? 1 then 0 else nights - 1.

Definition checkoutDayOffset (p : Period) : Z :=
  let nights := stayNights p in if nights <? 0 then 0 else nights.

(** The integers from [lo] to [hi]. *)
Definition seqFromTo (lo hi : Z) : list Z :=
  map (fun k => lo + Z.of_nat k) (seq 0 (Z.to_nat (hi - lo + 1))).

Definition buildStayActionPlan (flow : LodgingFlow) (p : Period) : list actionPlanStep :=
  expandPlan 0 (FirstDayStay flow)
  ++ concat (map (fun offset => expandPlan offset (RecurringStay flow)) (seqFromTo 2 (fullStayDays p))).

Definition buildCheckoutActionPlan (flow : LodgingFlow) (p : Period) : list actionPlanStep :=
  expandPlan (checkoutDayOffset p) (Checkout flow).

(** The instant a gate waits for. *)
Definition gateTarget (p : Period) (step : actionPlanStep) : Time :=
  let day := AddDate (startOfUTCDay (Start p)) 0 0 (dayOffset step) in
  Date (Year (UTC day)) (Month (UTC day)) (Day (UTC day)) (NotBeforeHour (gate step)) 0 0 0 0.

(** ** Calls on the client and the hour wait *)

Inductive LodgingCall :=
| CallNewClient (url : string)
| CallWaitUntil (target : Time)
| CallSendAction (a : GuestAction)
| CallReply (request : ChatMessage) (r : GuestResponse)
| CallNext
| CallClose.

(** [AnswerNever]: the call does not return. *)
Inductive LodgingAnswer :=
| AnswerErr (e : error) | AnswerOk | AnswerMessage (m : ChatMessage) | AnswerNever.

(** The answer to the last call of a history, and the identifier drawn for the key. *)
Class LodgingEnv := {
  env_lodging : list LodgingCall -> LodgingAnswer;
  env_keyID : string
}.

Section Lodging.
Context {G : GoLib} {R : RedisServer} {E : Env} {L : LodgingEnv}.

Record LWorld := mkLWorld { lw_world : World; lw_calls : list LodgingCall }.

Definition record_call (c : LodgingCall) (w : LWorld) : LWorld :=
  mkLWorld (lw_world w) (lw_calls w ++ [c]).

(** A call whose result is an error or nothing. *)
Definition call (c : LodgingCall) : go LWorld unit := fun w =>
  (match env_lodging (lw_calls w ++ [c]) with
   | AnswerErr e => Err e
   | AnswerNever => Stuck
   | _ => Ret tt
   end,
   record_call c w).

(** [client.WaitForNextSystemMessage(ctx)] *)
Definition next_message : go LWorld ChatMessage := fun w =>
  (match env_lodging (lw_calls w ++ [CallNext]) with
   | AnswerErr e => Err e
   | AnswerMessage m => Ret m
   | AnswerOk | AnswerNever => Stuck
   end, record_call CallNext w).

(** [client.Reply]: a nil request is refused before anything is sent. *)
Definition reply (request : option ChatMessage) (r : GuestResponse) : go LWorld unit :=
  match request with
  | None => throw (Errorf "request is nil" [])
  | Some m => call (CallReply m r)
  end.

Definition on_world {A} (m : go World A) : go LWorld A :=
  zoom lw_world (fun w lw => mkLWorld w (lw_calls lw)) m.

Definition is_unspecified (n : SystemNotification) : bool :=
  bool_decide (n = SYSTEM_NOTIFICATION_UNSPECIFIED).
Definition is_no_request (r : SystemRequest) : bool :=
  bool_decide (r = SYSTEM_REQUEST_UNSPECIFIED).

Definition guestResponseShowDocument (documentID : string) : GuestResponse :=
  GuestResponse_ShowDocument documentID.
Definition guestResponseShowBookingNumber (bookingID : string) : GuestResponse :=
  GuestResponse_ShowBookingNumber bookingID.
Definition guestResponseReceiveCottageKey (keyID : string) : GuestResponse :=
  GuestResponse_ReceiveCottageKey keyID.
Definition guestResponseReturnCottageKey (keyID : string) : GuestResponse :=
  GuestResponse_ReturnCottageKey keyID.

(** The loops read until the message they want arrives; [fuel] bounds the messages. *)
Fixpoint expectNotification (fuel : nat) (n : SystemNotification) : go LWorld unit :=
  match fuel with
  | O => stuck
  | S fuel =>
      msg ← next_message;
      if bool_decide (GetSystemNotification msg = n) then mret tt else expectNotification fuel n
  end.

Fixpoint expectRequest (fuel : nat) (r : SystemRequest) : go LWorld ChatMessage :=
  match fuel with
  | O => stuck
  | S fuel =>
      msg ← next_message;
      if bool_decide (GetSystemRequest msg = r) then mret msg else expectRequest fuel r
  end.

Section Step.
Variable fuel : nat.
Variable flow : LodgingFlow.

(** [startOfUTCDay] of the booked period comes first: a cached value without one is
    refused by [loadCache]. *)
Definition waitForActionGate (p : Period) (step : actionPlanStep) : go LWorld (option ChatMessage) :=
  _ ← (if HasNotBeforeHour (gate step) then call (CallWaitUntil (gateTarget p step)) else mret tt);
  _ ← (if negb (is_unspecified (gate_Notification (gate step)))
       then expectNotification fuel (gate_Notification (gate step)) else mret tt);
  if negb (is_no_request (gate_Request (gate step)))
  then msg ← expectRequest fuel (gate_Request (gate step)); mret (Some msg)
  else mret None.

(** What follows a sent action. *)
Definition waitAfterAction (step : actionPlanStep) : go LWorld unit :=
  if negb (is_unspecified (WaitForNotification (gate step)))
  then expectNotification fuel (WaitForNotification (gate step)) else mret tt.

Definition executeAction (p : Period) (step : actionPlanStep) : go LWorld unit :=
  _ ← waitForActionGate p step;
  _ ← call (CallSendAction (action step));
  waitAfterAction step.

Definition executeActionPlan (p : Period) (plan : list actionPlanStep) : go LWorld unit :=
  forM_ plan (executeAction p).

Definition executeCheckoutAction (keyID : string) (p : Period) (step : actionPlanStep)
  : go LWorld unit :=
  msg ← waitForActionGate p step;
  _ ← (if bool_decide (gate_Request (gate step) = REQUEST_COTTAGE_KEY)
       then reply msg (guestResponseReturnCottageKey keyID) else mret tt);
  _ ← call (CallSendAction (action step));
  waitAfterAction step.

Definition executeCheckoutPlan (keyID : string) (p : Period) : go LWorld unit :=
  forM_ (buildCheckoutActionPlan flow p) (executeCheckoutAction keyID p).

Fixpoint finishCheckin (fuel : nat) (documentId bookingId : string) : go LWorld unit :=
  match fuel with
  | O => stuck
  | S fuel =>
      msg ← next_message;
      if bool_decide (GetSystemNotification msg = BOOKING_CHECKING)
      then finishCheckin fuel documentId bookingId
      else if bool_decide (GetSystemNotification msg = CHECK_IN_COMPLETE) then mret tt
      else if negb (is_no_request (ShowDocument_Request flow))
              && bool_decide (GetSystemRequest msg = ShowDocument_Request flow)
      then _ ← reply (Some msg) (guestResponseShowDocument documentId);
           finishCheckin fuel documentId bookingId
      else if negb (is_no_request (ShowBookingNumber_Request flow))
              && bool_decide (GetSystemRequest msg = ShowBookingNumber_Request flow)
      then _ ← reply (Some msg) (guestResponseShowBookingNumber bookingId);
           finishCheckin fuel documentId bookingId
      else finishCheckin fuel documentId bookingId
  end.

(** [loadCache], with the parts the step needs. *)
Definition loadCache : go LWorld (Guest * GuestJourneyBooking * Period) :=
  cacheValue ← on_world Load;
  match PersonalInfo cacheValue, Booking cacheValue with
  | None, _ => throw err_guest_context
  | Some _, None => throw err_booking_context
  | Some g, Some b =>
      if String.eqb (BookingID b) "" then throw err_booking_context
      else match SelectedPeriod b with
           | None => throw err_booking_context
           | Some p => mret (g, b, p)
           end
  end.

(** The conversation between [NewClient] and the deferred [Close]. *)
Definition conversation (g : Guest) (b : GuestJourneyBooking) (p : Period) : go LWorld unit :=
  _ ← executeActionPlan p (expandPlan 0 (ShowUp flow));
  _ ← finishCheckin fuel (DocumentId g) (BookingID b);
  msg ← expectRequest fuel GIVE_COTTAGE_KEY;
  _ ← reply (Some msg) (guestResponseReceiveCottageKey env_keyID);
  _ ← call (CallSendAction TAKE_COTTAGE_KEY);
  _ ← executeActionPlan p (buildStayActionPlan flow p);
  executeCheckoutPlan env_keyID p.

(** A deferred [Close] whose error is only logged: it runs on every return. *)
Definition with_close {A} (m : go LWorld A) : go LWorld A := fun w =>
  match m w with
  | (Stuck, w') => (Stuck, w')
  | (r, w') => (r, record_call CallClose w')
  end.

Definition RunLodging_Execute (chatURL : string) : go LWorld unit :=
  '(g, b, p) ← loadCache;
  _ ← call (CallNewClient chatURL);
  with_close (conversation g b p).

(** The factory and the notification service are nil or not. *)
Definition RunLodging_Validate (chatURL : string) (has_factory has_notifications : bool)
  : go LWorld unit :=
  _ ← on_world require_state;
  _ ← on_world require_cache;
  _ ← guard_err (negb has_factory) (Errorf "invalid lodging chat client factory" []);
  _ ← guard_err (negb has_notifications) (Errorf "invalid hour notification service" []);
  _ ← guard_err (String.eqb chatURL "") (Errorf "invalid lodging chat url" []);
  guard_err (match ShowUp flow with [] => true | _ => false end)
    (Errorf "invalid lodging flow, checkin show up plan is empty" []).
End Step.

(** [RunLodgingStep]; its state and its cache are the world's. *)
Record RunLodgingStep := mkRunLodgingStep {
  rl_chatURL : string;
  rl_has_factory : bool;
  rl_has_notifications : bool;
  rl_flow : LodgingFlow
}.

Definition NewRunLodgingStep (chatURL : string) (factory notifications : bool) (flow : LodgingFlow)
  : RunLodgingStep := mkRunLodgingStep chatURL factory notifications flow.

(** [flows.LodgingFlow], what of it [RunLodgingStayFlow] uses: the step, which may be nil. *)
Record LodgingStayFlow := mkStayFlow { lf_RunLodgingStep : option RunLodgingStep }.

Definition err_no_lodging_step : error := Errorf "failed to find RunLodgingStep in lodging flow" [].

(** The nil checks, then [runStepGraph] with the lodging step alone, from a fresh poll of
    the context. *)
Definition run_stay_flow (fuel : nat) (flow : option LodgingStayFlow) : go LWorld unit :=
  match flow ≫= lf_RunLodgingStep with
  | None => throw err_no_lodging_step
  | Some s =>
      cancelled ← on_world ctx_Err;
      match cancelled with
      | Some _ => mret tt
      | None =>
          _ ← RunLodging_Validate (rl_flow s) (rl_chatURL s) (rl_has_factory s) (rl_has_notifications s);
          RunLodging_Execute fuel (rl_flow s) (rl_chatURL s)
      end
  end.

(** The flow a journey is built with: the client factory of the websocket package, the
    notification service of the process and the default plan. *)
Definition stay_flow (chatURL : string) : LodgingStayFlow :=
  mkStayFlow (Some (NewRunLodgingStep chatURL true true DefaultLodgingFlow)).

(** [RunLodgingStayFlow] on the flow a journey is built with. *)
Definition RunLodgingStayFlow (fuel : nat) (chatURL : string) : go LWorld unit :=
  run_stay_flow fuel (Some (stay_flow chatURL)).

Lemma RunLodgingStayFlow_eq fuel chatURL :
  RunLodgingStayFlow fuel chatURL =
    (cancelled ← on_world ctx_Err;
     match cancelled with
     | Some _ => mret tt
     | None =>
         _ ← RunLodging_Validate DefaultLodgingFlow chatURL true true;
         RunLodging_Execute fuel DefaultLodgingFlow chatURL
     end).
Proof. reflexivity. Qed.
End Lodging.

(** ** The visit a guest makes *)

(** The calls an observer of the plan sees. *)
Inductive VisitEvent := VWait (target : Time) | VAct (a : GuestAction) | VKey (r : GuestResponse).

Definition visible (c : LodgingCall) : option VisitEvent :=
  match c with
  | CallWaitUntil t => Some (VWait t)
  | CallSendAction a => Some (VAct a)
  | CallReply _ (GuestResponse_ReceiveCottageKey k) => Some (VKey (GuestResponse_ReceiveCottageKey k))
  | CallReply _ (GuestResponse_ReturnCottageKey k) => Some (VKey (GuestResponse_ReturnCottageKey k))
  | _ => None
  end.

Definition is_conversation (c : LodgingCall) : Prop :=
  match c with CallNewClient _ | CallClose => False | _ => True end.

Definition gate_events (p : Period) (s : actionPlanStep) : list VisitEvent :=
  if HasNotBeforeHour (gate s) then [VWait (gateTarget p s)] else [].

Definition action_events (p : Period) (s : actionPlanStep) : list VisitEvent :=
  gate_events p s ++ [VAct (action s)].

Definition checkout_events (keyID : string) (p : Period) (s : actionPlanStep) : list VisitEvent :=
  gate_events p s
  ++ (if bool_decide (gate_Request (gate s) = REQUEST_COTTAGE_KEY)
      then [VKey (GuestResponse_ReturnCottageKey keyID)] else [])
  ++ [VAct (action s)].

(** The whole visit: show up, take the key, stay, check out. *)
Definition visit (flow : LodgingFlow) (keyID : string) (p : Period) : list VisitEvent :=
  concat (map (action_events p) (expandPlan 0 (ShowUp flow)))
  ++ [VKey (GuestResponse_ReceiveCottageKey keyID); VAct TAKE_COTTAGE_KEY]
  ++ concat (map (action_events p) (buildStayActionPlan flow p))
  ++ concat (map (checkout_events keyID p) (buildCheckoutActionPlan flow p)).

Definition accepted (a : LodgingAnswer) : Prop :=
  match a with AnswerErr _ | AnswerNever => False | _ => True end.

Section Traces.
Context {G : GoLib} {R : RedisServer} {E : Env} {L : LodgingEnv}.

(** After the history [h] every call of [new] is accepted; or all but the last. *)
Fixpoint all_accepted (h new : list LodgingCall) : Prop :=
  match new with
  | [] => True
  | c :: rest => accepted (env_lodging (h ++ [c])) /\ all_accepted (h ++ [c]) rest
  end.

Definition smooth (h new : list LodgingCall) : Prop :=
  exists n1 n2, new = n1 ++ n2 /\ (length n2 <= 1)%nat /\ all_accepted h n1.

Lemma all_accepted_app h n1 n2 : all_accepted h (n1 ++ n2) <-> all_accepted h n1 /\ all_accepted (h ++ n1) n2.
Proof.
  revert h. induction n1 as [|c n1 IH]; intros h; cbn; [rewrite app_nil_r; tauto|].
  rewrite IH, <- app_assoc. cbn. tauto.
Qed.

Lemma all_accepted_smooth h new : all_accepted h new -> smooth h new.
Proof. intros H. exists new, []. rewrite app_nil_r. repeat split; [cbn; lia|done]. Qed.

Lemma smooth_app h n1 n2 : all_accepted h n1 -> smooth (h ++ n1) n2 -> smooth h (n1 ++ n2).
Proof.
  intros H1 (a & b & -> & Hb & Ha). exists (n1 ++ a), b. rewrite app_assoc. repeat split; [done|].
  by apply all_accepted_app.
Qed.

Lemma smooth_one h c : smooth h [c].
Proof. by exists [], [c]. Qed.

(** [m] adds calls of the conversation whose visible events are a prefix of [l], and all
    of [l] when it returns; nothing follows a call that is not accepted; the rest of the
    world stays. *)
Definition traces {A} (l : list VisitEvent) (m : go LWorld A) : Prop :=
  forall w, lw_world (snd (m w)) = lw_world w
    /\ (match fst (m w) with Panic _ => False | _ => True end)
    /\ exists new, lw_calls (snd (m w)) = lw_calls w ++ new /\ Forall is_conversation new
         /\ smooth (lw_calls w) new
         /\ omap visible new `prefix_of` l
         /\ (forall a, fst (m w) = Ret a -> omap visible new = l /\ all_accepted (lw_calls w) new).

(** Nothing is called. *)
Lemma traces_silent {A} l (r : outcome A) :
  match r with Ret _ => l = [] | Panic _ => False | _ => True end -> traces l (fun w => (r, w)).
Proof.
  intros Hr w. split; [done|]. split; [by destruct r|]. exists []. rewrite app_nil_r.
  split; [done|]. split; [done|]. split; [by apply all_accepted_smooth|]. split; [apply prefix_nil|].
  cbn. by intros a ->.
Qed.

Lemma traces_ret {A} (a : A) : traces [] (mret a).
Proof. by apply (traces_silent [] (Ret a)). Qed.

Lemma traces_throw {A} l e : traces l (@throw LWorld A e).
Proof. by apply (traces_silent l (Err e)). Qed.

Lemma traces_stuck {A} l : traces l (@stuck LWorld A).
Proof. by apply (traces_silent l Stuck). Qed.

Lemma traces_bind {A B} l1 l2 (m : go LWorld A) (f : A -> go LWorld B) :
  traces l1 m -> (forall a, traces l2 (f a)) -> traces (l1 ++ l2) (m ≫= f).
Proof.
  intros Hm Hf w. destruct (Hm w) as (Hw & Hp & n1 & Hn1 & Hc1 & Hs1 & Hv1 & Hr1).
  unfold mbind, go_bind. destruct (m w) as [[a|e|q|] w1]; cbn [fst snd] in *.
  2-4: split; [done|]; split; [done|]; exists n1; (split; [done|]); (split; [done|]);
    (split; [done|]); (split; [by apply prefix_app_r|done]).
  destruct (Hf a w1) as (Hw' & Hp' & n2 & Hn2 & Hc2 & Hs2 & Hv2 & Hr2).
  destruct (Hr1 a eq_refl) as [Hl1 Ha1]. rewrite Hn1 in Hs2, Hr2.
  split; [by rewrite Hw', Hw|]. split; [done|]. exists (n1 ++ n2).
  split; [by rewrite Hn2, Hn1, app_assoc|]. split; [by apply Forall_app|].
  split; [by apply smooth_app|]. rewrite omap_app, Hl1.
  split; [by apply prefix_app|].
  intros b Hb. destruct (Hr2 b Hb) as [-> Ha2]. split; [done|]. by apply all_accepted_app.
Qed.

Lemma traces_seq {A B} l (m : go LWorld A) (f : A -> go LWorld B) :
  traces [] m -> (forall a, traces l (f a)) -> traces l (m ≫= f).
Proof. apply (traces_bind [] l). Qed.

(** One call, which returns only when it was accepted. *)
Lemma traces_one {A} c l (f : LodgingAnswer -> outcome A) :
  is_conversation c -> l = option_list (visible c) ->
  (forall a, match f a with Panic _ => False | Ret _ => accepted a | _ => True end) ->
  traces l (fun w => (f (env_lodging (lw_calls w ++ [c])), record_call c w)).
Proof.
  intros Hc -> Hf w. cbn [fst snd]. specialize (Hf (env_lodging (lw_calls w ++ [c]))).
  assert (Hv : omap visible [c] = option_list (visible c)) by (cbn; by destruct (visible c)).
  split; [done|]. split; [by destruct (f _)|]. exists [c].
  split; [done|]. split; [by repeat constructor|]. split; [apply smooth_one|].
  split; [by rewrite Hv|]. intros a Ha. rewrite Ha in Hf. by split.
Qed.

Lemma traces_call c l :
  is_conversation c -> l = option_list (visible c) -> traces l (call c).
Proof.
  intros Hc Hl. apply (traces_one c l (fun a => match a with
    | AnswerErr e => Err e | AnswerNever => Stuck | _ => Ret tt end)); [done|done|by intros []].
Qed.

Lemma traces_next : traces [] next_message.
Proof.
  apply (traces_one CallNext [] (fun a => match a with
    | AnswerErr e => Err e | AnswerMessage m => Ret m | AnswerOk | AnswerNever => Stuck end));
    [done|done|by intros []].
Qed.

Lemma traces_forM {A} (f : A -> go LWorld unit) (ev : A -> list VisitEvent) l :
  (forall x, traces (ev x) (f x)) -> traces (concat (map ev l)) (forM_ l f).
Proof.
  intros Hf. induction l as [|x l IH]; cbn [forM_ map concat]; [apply traces_ret|].
  apply traces_bind; [apply Hf|intros _; exact IH].
Qed.

Lemma traces_expectNotification fuel n : traces [] (expectNotification fuel n).
Proof.
  induction fuel as [|fuel IH]; simpl; [apply traces_stuck|].
  apply traces_seq; [apply traces_next|intros m]. case_bool_decide; [apply traces_ret|exact IH].
Qed.

Lemma traces_expectRequest fuel r : traces [] (expectRequest fuel r).
Proof.
  induction fuel as [|fuel IH]; simpl; [apply traces_stuck|].
  apply traces_seq; [apply traces_next|intros m]. case_bool_decide; [apply traces_ret|exact IH].
Qed.

Lemma traces_finishCheckin flow fuel d b : traces [] (finishCheckin flow fuel d b).
Proof.
  induction fuel as [|fuel IH]; simpl; [apply traces_stuck|].
  apply traces_seq; [apply traces_next|intros m].
  case_bool_decide; [exact IH|]. case_bool_decide; [apply traces_ret|].
  destruct (_ && _); [apply traces_seq; [by apply traces_call|intros _; exact IH]|].
  destruct (_ && _); [apply traces_seq; [by apply traces_call|intros _; exact IH]|]. exact IH.
Qed.

Lemma traces_gate fuel p s : traces (gate_events p s) (waitForActionGate fuel p s).
Proof.
  unfold waitForActionGate. rewrite <- (app_nil_r (gate_events p s)). apply traces_bind.
  - unfold gate_events. destruct (HasNotBeforeHour _); [by apply traces_call|apply traces_ret].
  - intros _. apply traces_seq.
    + destruct (negb _); [apply traces_expectNotification|apply traces_ret].
    + intros _. destruct (negb _); [|apply traces_ret].
      apply traces_seq; [apply traces_expectRequest|intros m; apply traces_ret].
Qed.

Lemma traces_after fuel s : traces [] (waitAfterAction fuel s).
Proof.
  unfold waitAfterAction. destruct (negb _); [apply traces_expectNotification|apply traces_ret].
Qed.

Lemma traces_executeAction fuel p s : traces (action_events p s) (executeAction fuel p s).
Proof.
  unfold executeAction, action_events. apply traces_bind; [apply traces_gate|intros _].
  rewrite <- (app_nil_r [VAct _]). apply traces_bind; [by apply traces_call|intros _].
  apply traces_after.
Qed.

Lemma traces_checkoutAction fuel k p s :
  traces (checkout_events k p s) (executeCheckoutAction fuel k p s).
Proof.
  unfold executeCheckoutAction, checkout_events. apply traces_bind; [apply traces_gate|intros msg].
  apply traces_bind.
  - case_bool_decide; [|apply traces_ret].
    destruct msg as [m|]; [by apply traces_call|apply traces_throw].
  - intros _. rewrite <- (app_nil_r [VAct _]). apply traces_bind; [by apply traces_call|intros _].
    apply traces_after.
Qed.

Lemma traces_conversation fuel flow g b p :
  traces (visit flow env_keyID p) (conversation fuel flow g b p).
Proof.
  unfold conversation, visit. apply traces_bind.
  { apply traces_forM. intros s. apply traces_executeAction. }
  intros _. apply traces_seq; [apply traces_finishCheckin|intros _].
  apply traces_seq; [apply traces_expectRequest|intros msg].
  apply (traces_bind [VKey _] (VAct _ :: _)); [by apply traces_call|intros _].
  apply (traces_bind [VAct _] _); [by apply traces_call|intros _].
  apply traces_bind.
  { apply traces_forM. intros s. apply traces_executeAction. }
  intros _. apply traces_forM. intros s. apply traces_checkoutAction.
Qed.
End Traces.

Section LodgingSpec.
Context {G : GoLib} {R : RedisServer} {RL : RedisLaws R} {E : Env} {L : LodgingEnv}.

(** A cached value a stay can be made from. *)
Definition lodgeable (v : GuestJourneyCacheValue) (g : Guest) (b : GuestJourneyBooking) (p : Period) : Prop :=
  PersonalInfo v = Some g /\ Booking v = Some b /\ BookingID b <> "" /\ SelectedPeriod b = Some p.

Lemma loadCache_cases v w :
  cached (lw_world w) v ->
  exists w', snd (loadCache w) = w' /\ lw_calls w' = lw_calls w
    /\ match fst (loadCache w) with
       | Ret (g, b, p) => lodgeable v g b p
       | Err _ => True
       | _ => False
       end.
Proof.
  intros Hc. exists (snd (loadCache w)). split; [done|].
  unfold loadCache, mbind, go_bind, on_world, zoom.
  destruct (Load_any (lw_world w) v Hc) as (w1 & _ & _ & [[El _]|[e El]]); rewrite El; [|done].
  destruct (PersonalInfo v) as [g|] eqn:Eg, (Booking v) as [b|] eqn:Eb; try done.
  destruct (String.eqb (BookingID b) "") eqn:Ei; [done|].
  destruct (SelectedPeriod b) as [p|] eqn:Ep; [|done]. by reflect_ineqs.
Qed.

(** A run of the step alone: its conversation is an initial segment of the planned visit. *)
Lemma RunLodging_traces fuel flow url v w :
  cached (lw_world w) v ->
  let r := fst (RunLodging_Execute fuel flow url w) in
  let calls := lw_calls (snd (RunLodging_Execute fuel flow url w)) in
  match r with Panic _ => False | _ => True end
  /\ (((r = Stuck \/ exists e, r = Err e)
       /\ (calls = lw_calls w \/ calls = lw_calls w ++ [CallNewClient url]))
      \/ exists g b p new, lodgeable v g b p
           /\ calls = lw_calls w ++ CallNewClient url :: new
                      ++ (match r with Stuck => [] | _ => [CallClose] end)
           /\ Forall is_conversation new
           /\ smooth (lw_calls w) (CallNewClient url :: new)
           /\ omap visible new `prefix_of` visit flow env_keyID p
           /\ (r = Ret tt -> omap visible new = visit flow env_keyID p
                            /\ all_accepted (lw_calls w) (CallNewClient url :: new))).
Proof.
  intros Hc. cbv zeta. destruct (loadCache_cases v w Hc) as (w' & Hw' & Hcalls & Hl).
  unfold RunLodging_Execute.
  destruct (loadCache w) as [r1 w1] eqn:El. cbn [fst snd] in Hw', Hl. subst w'.
  destruct r1 as [[[g b] p]|e|q|]; try done;
    [rewrite (bind_Ret _ _ _ _ _ El)|rewrite (bind_Err _ _ _ _ _ El);
                                      split; [done|left; eauto]].
  destruct (call (CallNewClient url) w1) as [r2 w2] eqn:Ec.
  assert (Hw2 : w2 = record_call (CallNewClient url) w1) by (by injection Ec as _ <-).
  assert (Hr2 : match r2 with Panic _ => False | _ => True end)
    by (injection Ec as <- _; by destruct (env_lodging _)).
  destruct r2 as [[]|e|q|]; try done.
  2:{ rewrite (bind_Err _ _ _ _ _ Ec). split; [done|]. left. split; [right; by exists e|].
      right. rewrite Hw2. cbn. by rewrite Hcalls. }
  2:{ rewrite (bind_Stuck _ _ _ _ Ec). split; [done|]. left. split; [by left|].
      right. rewrite Hw2. cbn. by rewrite Hcalls. }
  rewrite (bind_Ret _ _ _ _ _ Ec). subst w2. set (w2 := record_call (CallNewClient url) w1).
  destruct (traces_conversation fuel flow g b p w2) as (_ & Hp & new & Hn & Hconv & Hsm & Hpre & Hret).
  assert (Hacc : all_accepted (lw_calls w) [CallNewClient url]).
  { split; [|done]. rewrite <- Hcalls. unfold call in Ec. by destruct (env_lodging _). }
  assert (Hsm2 : smooth (lw_calls w) (CallNewClient url :: new)).
  { apply (smooth_app _ [CallNewClient url] new Hacc). unfold w2 in Hsm. cbn in Hsm.
    by rewrite Hcalls in Hsm. }
  assert (Hret2 : forall a, fst (conversation fuel flow g b p w2) = Ret a ->
    omap visible new = visit flow env_keyID p /\ all_accepted (lw_calls w) (CallNewClient url :: new)).
  { intros a Ha. destruct (Hret a Ha) as [-> Hnew]. split; [done|].
    apply (all_accepted_app _ [CallNewClient url] new). split; [exact Hacc|].
    unfold w2 in Hnew. cbn in Hnew. by rewrite Hcalls in Hnew. }
  clear Hsm Hret.
  assert (Hcalls2 : forall tl, (lw_calls w2 ++ new) ++ tl = lw_calls w ++ CallNewClient url :: new ++ tl)
    by (intros tl; unfold w2; cbn; rewrite Hcalls, <- !app_assoc; done).
  unfold with_close. destruct (conversation fuel flow g b p w2) as [[[]|e|q|] w3];
    cbn [fst snd] in *; try done; (split; [done|]); right; exists g, b, p, new;
    (split; [done|]).
  - split; [cbn; rewrite Hn; apply Hcalls2|]. split; [done|]. split; [done|]. split; [done|].
    intros _. by apply (Hret2 tt).
  - split; [cbn; rewrite Hn; apply Hcalls2|]. done.
  - split; [rewrite <- (app_nil_r (lw_calls w3)), Hn; apply Hcalls2|]. done.
Qed.

Lemma RunLodging_Validate_cases flow url f n w v :
  cached (lw_world w) v ->
  snd (RunLodging_Validate flow url f n w) = w
  /\ match fst (RunLodging_Validate flow url f n w) with Ret _ | Err _ => True | _ => False end.
Proof.
  intros (s & db & j & Hs & Hdb & _). destruct w as [w0 cs]. cbn [lw_world] in *.
  unfold RunLodging_Validate, on_world, zoom, require_state, require_cache, state_is_nil, cache_is_nil,
    gets, guard_err, throw, mbind, go_bind, mret, go_ret.
  cbn [lw_world lw_calls]. rewrite Hs. cbn. rewrite Hdb. cbn.
  destruct f, n; cbn; try done. destruct (String.eqb url ""); cbn; [done|].
  by destruct (ShowUp flow).
Qed.

(** A run of the whole flow. *)
Lemma LodgingStay_traces fuel url v w :
  cached (lw_world w) v ->
  let r := fst (RunLodgingStayFlow fuel url w) in
  let calls := lw_calls (snd (RunLodgingStayFlow fuel url w)) in
  match r with Panic _ => False | _ => True end
  /\ ((env_ctx (w_polls (lw_world w)) <> None /\ r = Ret tt /\ calls = lw_calls w)
      \/ ((r = Stuck \/ exists e, r = Err e)
          /\ (calls = lw_calls w \/ calls = lw_calls w ++ [CallNewClient url]))
      \/ exists g b p new, lodgeable v g b p
           /\ calls = lw_calls w ++ CallNewClient url :: new
                      ++ (match r with Stuck => [] | _ => [CallClose] end)
           /\ Forall is_conversation new
           /\ smooth (lw_calls w) (CallNewClient url :: new)
           /\ omap visible new `prefix_of` visit DefaultLodgingFlow env_keyID p
           /\ (r = Ret tt -> omap visible new = visit DefaultLodgingFlow env_keyID p
                            /\ all_accepted (lw_calls w) (CallNewClient url :: new))).
Proof.
  intros Hc. cbv zeta. set (w1 := mkLWorld (tick_polls (lw_world w)) (lw_calls w)).
  assert (Hc1 : cached (lw_world w1) v) by exact Hc.
  assert (Hctx : on_world ctx_Err w = (Ret (env_ctx (w_polls (lw_world w))), w1)) by done.
  rewrite RunLodgingStayFlow_eq, (bind_Ret _ _ _ _ _ Hctx).
  destruct (env_ctx _) as [e|]; [split; [done|]; by left|].
  destruct (RunLodging_Validate_cases DefaultLodgingFlow url true true w1 v Hc1) as [Hw Hr].
  destruct (RunLodging_Validate _ _ _ _ w1) as [[[]|e|q|] w2] eqn:Ev; try done;
    cbn [snd] in Hw; subst w2.
  - rewrite (bind_Ret _ _ _ _ _ Ev).
    destruct (RunLodging_traces fuel DefaultLodgingFlow url v w1 Hc1) as [Hp Hcases].
    split; [exact Hp|]. by right.
  - rewrite (bind_Err _ _ _ _ _ Ev). split; [done|]. right. left. split; [right; by exists e|by left].
Qed.

(** C9: every run of the lodging flow follows its plan. Unless the context is cancelled
    when it starts, and whatever the service answers and wherever the run ends, the
    waits, the actions and the key messages of the conversation are an initial segment of
    the visit planned for the booked period, in order, and the whole visit when the flow
    succeeds; no call follows one that was not accepted; the key that is returned is the one that was received; the client, once
    made, is closed exactly once, after everything else, unless a call never returns. *)
Theorem lodging_follows_plan fuel url v w :
  cached (lw_world w) v ->
  let r := fst (RunLodgingStayFlow fuel url w) in
  let calls := lw_calls (snd (RunLodgingStayFlow fuel url w)) in
  match r with Panic _ => False | _ => True end
  /\ ((env_ctx (w_polls (lw_world w)) <> None /\ r = Ret tt /\ calls = lw_calls w)
      \/ ((r = Stuck \/ exists e, r = Err e)
          /\ (calls = lw_calls w \/ calls = lw_calls w ++ [CallNewClient url]))
      \/ exists g b p new, lodgeable v g b p
           /\ calls = lw_calls w ++ CallNewClient url :: new
                      ++ (match r with Stuck => [] | _ => [CallClose] end)
           /\ Forall is_conversation new
           /\ smooth (lw_calls w) (CallNewClient url :: new)
           /\ omap visible new `prefix_of` visit DefaultLodgingFlow env_keyID p
           /\ (r = Ret tt -> omap visible new = visit DefaultLodgingFlow env_keyID p
                            /\ all_accepted (lw_calls w) (CallNewClient url :: new))).
Proof. exact (LodgingStay_traces fuel url v w). Qed.
End LodgingSpec.

(** ** The plans of a booked period *)

(** The day of an instant, counted from 1970 in UTC. *)
Definition dayOf (t : Time) : Z := unixNano t / nsPerDay.

Definition hourNs : Z := 3600 * nsPerSec.

(** The instant of a gate on the time line. *)
Lemma gateTarget_eq p s :
  gateTarget p s = mkTime ((dayOf (Start p) + dayOffset s) * nsPerDay + NotBeforeHour (gate s) * hourNs) 0.
Proof.
  unfold gateTarget. cbv zeta. rewrite Date_hour, startOfUTCDay_floor, AddDate_days.
  unfold wall, UTC. cbn [unixNano zoneOffset]. fold (dayOf (Start p)).
  rewrite Z.mul_0_l, Z.add_0_r.
  replace (dayOf (Start p) * nsPerDay + dayOffset s * nsPerDay)
    with ((dayOf (Start p) + dayOffset s) * nsPerDay) by lia.
  rewrite Z_div_mult by (pose proof nsPerDay_pos; lia). f_equal. unfold hourNs. lia.
Qed.

(** Periods of less than 292 years: the length in nights is the difference of the days. *)
Lemma stayNights_days p :
  Z.abs (dayOf (End_ p) - dayOf (Start p)) <= 106751 ->
  stayNights p = dayOf (End_ p) - dayOf (Start p).
Proof.
  intros Hb. unfold stayNights, Sub. rewrite !startOfUTCDay_floor. cbn [unixNano].
  fold (dayOf (End_ p)) (dayOf (Start p)).
  replace (dayOf (End_ p) * nsPerDay - dayOf (Start p) * nsPerDay)
    with ((dayOf (End_ p) - dayOf (Start p)) * nsPerDay) by lia.
  set (k := dayOf (End_ p) - dayOf (Start p)) in *.
  assert (Hk : - 2 ^ 63 <= k * nsPerDay <= 2 ^ 63 - 1) by (unfold nsPerDay, nsPerSec; lia).
  unfold minDuration, maxDuration. rewrite Z.min_r, Z.max_r by lia.
  replace dayNs with nsPerDay by (unfold dayNs, nsPerDay; lia).
  apply Z.quot_mul. pose proof nsPerDay_pos. lia.
Qed.

Lemma elem_of_seqFromTo lo hi d : d ∈ seqFromTo lo hi <-> lo <= d <= hi.
Proof.
  unfold seqFromTo. rewrite list_elem_of_fmap. setoid_rewrite elem_of_seq. split.
  - intros (k & -> & Hk). lia.
  - intros Hd. exists (Z.to_nat (d - lo)). lia.
Qed.

Lemma elem_of_expandPlan s offset l :
  s ∈ expandPlan offset l <-> exists a, a ∈ l /\ s = mkPlanStep offset (Action a) (Gate a).
Proof. unfold expandPlan. rewrite list_elem_of_fmap. naive_solver. Qed.

(** The days of a stay that get a plan. For a stay of [n] nights the guest has the
    first-day plan on day 0, the recurring plan on the days from 2 to [n - 1] and the
    check-out plan on day [n]: on day 1 of a stay of two nights or more nothing is
    planned, although [fullStayDays] counts it. *)
Lemma planned_days p n d :
  stayNights p = n -> 1 <= n ->
  ((exists s, s ∈ buildStayActionPlan DefaultLodgingFlow p /\ dayOffset s = d)
   <-> d = 0 \/ 2 <= d <= n - 1)
  /\ (forall s, s ∈ buildCheckoutActionPlan DefaultLodgingFlow p -> dayOffset s = n)
  /\ length (buildStayActionPlan DefaultLodgingFlow p) = (4 + 7 * Z.to_nat (n - 2))%nat
  /\ (2 <= n -> fullStayDays p = n - 1).
Proof.
  intros Hn H1.
  assert (Hfull : fullStayDays p = if n <=? 1 then 0 else n - 1)
    by (unfold fullStayDays; cbv zeta; by rewrite Hn).
  assert (Hrange : forall x, x ∈ seqFromTo 2 (fullStayDays p) <-> 2 <= x <= n - 1).
  { intros x. rewrite elem_of_seqFromTo, Hfull. destruct (n <=? 1) eqn:E; reflect_ineqs; lia. }
  split; [|split; [|split]].
  - unfold buildStayActionPlan. split.
    + intros (s & [Hs|Hs]%elem_of_app & <-).
      * apply elem_of_expandPlan in Hs as (a & _ & ->). by left.
      * right. apply list_elem_of_In, in_concat in Hs as (l & Hl & Hs).
        apply list_elem_of_In, list_elem_of_fmap in Hl as (x & -> & Hx).
        apply list_elem_of_In, elem_of_expandPlan in Hs as (a & _ & ->). cbn. by apply Hrange.
    + intros [->|Hd].
      * exists (mkPlanStep 0 ENTER_COTTAGE noGate). split; [|done]. apply elem_of_app. left.
        apply elem_of_expandPlan. eexists. split; [by left|done].
      * exists (mkPlanStep d WAKEUP (notBefore 7)). split; [|done]. apply elem_of_app. right.
        apply list_elem_of_In, in_concat. exists (expandPlan d (RecurringStay DefaultLodgingFlow)).
        split; apply list_elem_of_In.
        -- apply list_elem_of_fmap. exists d. split; [done|]. by apply Hrange.
        -- apply elem_of_expandPlan. eexists. split; [by left|done].
  - intros s Hs. unfold buildCheckoutActionPlan, checkoutDayOffset in Hs. cbv zeta in Hs.
    rewrite Hn in Hs. replace (n <? 0) with false in Hs by (symmetry; apply Z.ltb_ge; lia).
    by apply elem_of_expandPlan in Hs as (a & _ & ->).
  - unfold buildStayActionPlan. rewrite length_app.
    assert (Hlen : forall l : list Z, length (concat (map
      (fun o => expandPlan o (RecurringStay DefaultLodgingFlow)) l)) = (7 * length l)%nat).
    { induction l as [|x l IH]; [done|]. cbn [map concat]. rewrite length_app, IH.
      unfold expandPlan. cbn [length map RecurringStay DefaultLodgingFlow]. cbn [length]. lia. }
    rewrite Hlen. unfold seqFromTo. rewrite length_map, length_seq, Hfull.
    unfold expandPlan. cbn [length map FirstDayStay DefaultLodgingFlow].
    destruct (n <=? 1) eqn:E; reflect_ineqs; cbn; lia.
  - intros H2. rewrite Hfull. destruct (n <=? 1) eqn:E; reflect_ineqs; lia.
Qed.

(** ** The order of the gates *)

Definition wait_of (e : VisitEvent) : option Z :=
  match e with VWait t => Some (unixNano t) | _ => None end.

(** The instants the visit waits for. *)
Definition visit_waits (flow : LodgingFlow) (keyID : string) (p : Period) : list Z :=
  omap wait_of (visit flow keyID p).

(** The instants of one day's hours. *)
Definition at_hours (day : Z) (hours : list Z) : list Z := map (fun h => day * nsPerDay + h * hourNs) hours.

Definition gated_hours (l : list LodgingPlannedAction) : list Z :=
  omap (fun a => if HasNotBeforeHour (Gate a) then Some (NotBeforeHour (Gate a)) else None) l.

Lemma waits_app l1 l2 : omap wait_of (l1 ++ l2) = omap wait_of l1 ++ omap wait_of l2.
Proof. apply omap_app. Qed.

Lemma waits_plan p offset l (ev : actionPlanStep -> list VisitEvent) :
  (forall s, omap wait_of (ev s) = omap wait_of (gate_events p s)) ->
  omap wait_of (concat (map ev (expandPlan offset l))) = at_hours (dayOf (Start p) + offset) (gated_hours l).
Proof.
  intros Hev. induction l as [|a l IH]; [done|].
  unfold expandPlan in *. cbn [map concat]. rewrite waits_app, IH, Hev.
  unfold gate_events, at_hours, gated_hours. cbn [gate omap list_omap].
  destruct (HasNotBeforeHour (Gate a)) eqn:E; cbn [omap list_omap wait_of map app]; [|done].
  by rewrite gateTarget_eq.
Qed.

Lemma waits_action p s : omap wait_of (action_events p s) = omap wait_of (gate_events p s).
Proof. unfold action_events. rewrite waits_app. cbn. by rewrite app_nil_r. Qed.

Lemma waits_checkout k p s : omap wait_of (checkout_events k p s) = omap wait_of (gate_events p s).
Proof. unfold checkout_events. rewrite !waits_app. case_bool_decide; cbn; by rewrite app_nil_r. Qed.

Lemma waits_days p l days :
  omap wait_of (concat (map (action_events p) (concat (map (fun o => expandPlan o l) days))))
  = concat (map (fun d => at_hours (dayOf (Start p) + d) (gated_hours l)) days).
Proof.
  induction days as [|d days IH]; [done|]. cbn [map concat].
  rewrite map_app, concat_app, waits_app, IH. f_equal. apply waits_plan, waits_action.
Qed.

(** Hours that increase, within a day. *)
Definition day_hours (hours : list Z) : Prop :=
  StronglySorted Z.lt hours /\ Forall (fun h => 0 <= h < 24) hours.

Lemma at_hours_bounds day hours x :
  day_hours hours -> x ∈ at_hours day hours -> day * nsPerDay <= x < (day + 1) * nsPerDay.
Proof.
  intros [_ Hb] (h & -> & Hh)%list_elem_of_fmap. rewrite Forall_forall in Hb.
  specialize (Hb h Hh). unfold hourNs, nsPerDay, nsPerSec. nia.
Qed.

Lemma at_hours_sorted day hours : day_hours hours -> StronglySorted Z.lt (at_hours day hours).
Proof.
  intros [Hs _]. unfold at_hours. induction Hs as [|h l Hl IH Hh]; cbn; constructor; [done|].
  apply Forall_forall. intros x (h' & -> & Hx)%list_elem_of_fmap.
  rewrite Forall_forall in Hh. specialize (Hh h' Hx). unfold hourNs, nsPerSec. lia.
Qed.

Lemma sorted_app l1 l2 :
  StronglySorted Z.lt l1 -> StronglySorted Z.lt l2 ->
  (forall x y, x ∈ l1 -> y ∈ l2 -> x < y) -> StronglySorted Z.lt (l1 ++ l2).
Proof.
  intros H1 H2 Hlt. induction H1 as [|a l1 H1 IH Ha]; [done|]. cbn. constructor.
  - apply IH. intros x y Hx. apply Hlt. by right.
  - apply Forall_app. split; [done|]. apply Forall_forall. intros y Hy. apply Hlt; [by left|done].
Qed.

(** Consecutive days, one after the other. *)
Lemma range_sorted base hours lo n :
  day_hours hours ->
  let l := concat (map (fun d => at_hours (base + d) hours)
                     (map (fun i => lo + Z.of_nat i) (seq 0 n))) in
  StronglySorted Z.lt l
  /\ forall x, x ∈ l -> (base + lo) * nsPerDay <= x < (base + lo + Z.of_nat n) * nsPerDay.
Proof.
  intros Hh. cbv zeta. induction n as [|n [IH1 IH2]].
  - split; [constructor|]. by intros x []%not_elem_of_nil.
  - rewrite seq_S, !map_app, concat_app. cbn [map concat]. rewrite app_nil_r, Nat.add_0_l.
    assert (Hd : forall y, y ∈ at_hours (base + (lo + Z.of_nat n)) hours ->
      (base + lo + Z.of_nat n) * nsPerDay <= y < (base + lo + Z.of_nat n + 1) * nsPerDay).
    { intros y Hy. apply at_hours_bounds in Hy; [|done]. rewrite Z.add_assoc in Hy. done. }
    split.
    + apply sorted_app; [done|by apply at_hours_sorted|].
      intros x y Hx Hy. apply IH2 in Hx. apply Hd in Hy. lia.
    + intros x [Hx|Hx]%elem_of_app; [apply IH2 in Hx|apply Hd in Hx];
        pose proof nsPerDay_pos; nia.
Qed.

(** The instants of the default visit, day by day. *)
Lemma visit_waits_eq keyID p n :
  stayNights p = n -> 1 <= n ->
  visit_waits DefaultLodgingFlow keyID p
  = at_hours (dayOf (Start p) + 0) [15; 16; 18; 22]
    ++ concat (map (fun d => at_hours (dayOf (Start p) + d) [7; 8; 10; 11; 16; 18; 22])
                 (seqFromTo 2 (fullStayDays p)))
    ++ at_hours (dayOf (Start p) + n) [7; 9].
Proof.
  intros Hn H1.
  assert (Hco : checkoutDayOffset p = n).
  { unfold checkoutDayOffset. cbv zeta. rewrite Hn.
    by replace (n <? 0) with false by (symmetry; apply Z.ltb_ge; lia). }
  unfold visit_waits, visit. rewrite !waits_app.
  unfold buildStayActionPlan, buildCheckoutActionPlan. rewrite map_app, concat_app, waits_app.
  rewrite !(waits_plan p _ _ _ (waits_action p)), (waits_plan p _ _ _ (waits_checkout keyID p)).
  rewrite waits_days, Hco. generalize (dayOf (Start p)) (seqFromTo 2 (fullStayDays p)).
  intros base days.
  change (gated_hours (ShowUp _)) with [15]. change (gated_hours (FirstDayStay _)) with [16; 18; 22].
  change (gated_hours (RecurringStay _)) with [7; 8; 10; 11; 16; 18; 22].
  change (gated_hours (Checkout _)) with [7; 9]. rewrite <- !app_assoc. reflexivity.
Qed.

(** The gates of the default visit are in order: for a stay of at least one night,
    every instant the guest waits for is strictly after the one before, from 15:00 on the
    day of arrival to 9:00 on the day of departure. *)
Lemma visit_waits_increase keyID p n :
  stayNights p = n -> 1 <= n ->
  StronglySorted Z.lt (visit_waits DefaultLodgingFlow keyID p)
  /\ head (visit_waits DefaultLodgingFlow keyID p) = Some (dayOf (Start p) * nsPerDay + 15 * hourNs)
  /\ last (visit_waits DefaultLodgingFlow keyID p) = Some ((dayOf (Start p) + n) * nsPerDay + 9 * hourNs).
Proof.
  intros Hn H1. rewrite (visit_waits_eq keyID p n Hn H1).
  set (base := dayOf (Start p)). clearbody base.
  assert (D1 : day_hours [15; 16; 18; 22]) by (split; repeat constructor; lia).
  assert (D2 : day_hours [7; 8; 10; 11; 16; 18; 22]) by (split; repeat constructor; lia).
  assert (D3 : day_hours [7; 9]) by (split; repeat constructor; lia).
  set (k := Z.to_nat (fullStayDays p - 2 + 1)).
  destruct (range_sorted base _ 2 k D2) as [S2 B2].
  assert (Hk : (base + 2 + Z.of_nat k) * nsPerDay <= (base + n) * nsPerDay \/ k = 0%nat).
  { unfold k, fullStayDays. cbv zeta. rewrite Hn. destruct (n <=? 1) eqn:E; reflect_ineqs.
    - right. lia.
    - destruct (decide (n = 2)) as [->|]; [by right|]. left.
      apply Z.mul_le_mono_nonneg_r; [pose proof nsPerDay_pos; lia|]. lia. }
  split; [|split].
  - apply sorted_app; [by apply at_hours_sorted|apply sorted_app|].
    + exact S2.
    + by apply at_hours_sorted.
    + intros x y Hx Hy. apply at_hours_bounds in Hy; [|done].
      destruct Hk as [Hk|Hk].
      * apply B2 in Hx. lia.
      * unfold seqFromTo in Hx. fold k in Hx. rewrite Hk in Hx. by apply not_elem_of_nil in Hx.
    + intros x y Hx [Hy|Hy]%elem_of_app; apply at_hours_bounds in Hx; try done.
      * apply B2 in Hy. pose proof nsPerDay_pos. nia.
      * apply at_hours_bounds in Hy; [|done]. pose proof nsPerDay_pos. nia.
  - rewrite Z.add_0_r. reflexivity.
  - rewrite app_assoc, last_app. cbn. done.
Qed.

(** C39: the schedule of a stay of [n] nights. The first-day plan is for day 0, the recurring
    one for the days from 2 to [n - 1] and the check-out plan for day [n]; on day 1 of a stay
    of two nights or more nothing is planned, although [fullStayDays] counts it. The instants
    the guest waits for strictly increase, from 15:00 on the day of arrival to 9:00 on the
    day of departure. *)
Theorem visit_schedule keyID p n :
  stayNights p = n -> 1 <= n ->
  (forall d, (exists s, s ∈ buildStayActionPlan DefaultLodgingFlow p /\ dayOffset s = d)
             <-> d = 0 \/ 2 <= d <= n - 1)
  /\ (forall s, s ∈ buildCheckoutActionPlan DefaultLodgingFlow p -> dayOffset s = n)
  /\ length (buildStayActionPlan DefaultLodgingFlow p) = (4 + 7 * Z.to_nat (n - 2))%nat
  /\ (2 <= n -> fullStayDays p = n - 1)
  /\ StronglySorted Z.lt (visit_waits DefaultLodgingFlow keyID p)
  /\ head (visit_waits DefaultLodgingFlow keyID p) = Some (dayOf (Start p) * nsPerDay + 15 * hourNs)
  /\ last (visit_waits DefaultLodgingFlow keyID p) = Some ((dayOf (Start p) + n) * nsPerDay + 9 * hourNs).
Proof.
  intros Hn H1. pose proof (visit_waits_increase keyID p n Hn H1) as Hw.
  destruct (planned_days p n 0 Hn H1) as (_ & H2 & H3 & H4).
  split; [|by repeat (split; [done|])]. intros d. by apply planned_days.
Qed.

(** ** The check-in conversation *)

Section Checkin.
Context {G : GoLib} {R : RedisServer} {E : Env} {L : LodgingEnv}.
(** The document number and the booking number the guest shows *)
Variables documentId bookingId : string.

(** What the guest answers to a message of the check-in. *)
Definition checkin_reply (m : ChatMessage) : list LodgingCall :=
  if decide (GetSystemNotification m = BOOKING_CHECKING) then []
  else if decide (GetSystemRequest m = REQUEST_DOCUMENT)
  then [CallReply m (GuestResponse_ShowDocument documentId)]
  else if decide (GetSystemRequest m = REQUEST_BOOKING_NUMBER)
  then [CallReply m (GuestResponse_ShowBookingNumber bookingId)]
  else [].

Definition checkin_turn (m : ChatMessage) : list LodgingCall := CallNext :: checkin_reply m.

(** After the calls [h] the service sends [ms], in this order, accepting the replies, and
    then reports the check-in complete. *)
Fixpoint checkin_script (h : list LodgingCall) (ms : list ChatMessage) : Prop :=
  match ms with
  | [] => exists m, env_lodging (h ++ [CallNext]) = AnswerMessage m
                    /\ GetSystemNotification m = CHECK_IN_COMPLETE
  | m :: rest =>
      env_lodging (h ++ [CallNext]) = AnswerMessage m
      /\ GetSystemNotification m <> CHECK_IN_COMPLETE
      /\ (checkin_reply m <> [] -> accepted (env_lodging (h ++ checkin_turn m)))
      /\ checkin_script (h ++ checkin_turn m) rest
  end.

Lemma next_message_Ret w m :
  env_lodging (lw_calls w ++ [CallNext]) = AnswerMessage m ->
  next_message w = (Ret m, record_call CallNext w).
Proof. intros H. unfold next_message. by rewrite H. Qed.

Lemma call_Ret w c :
  accepted (env_lodging (lw_calls w ++ [c])) -> call c w = (Ret tt, record_call c w).
Proof. unfold accepted, call. by destruct (env_lodging _). Qed.

(** C40: the guest answers every document and booking-number request of the check-in, in
    order and with its own numbers, says nothing to any other message, and is done
    exactly when the check-in is reported complete; the fuel needed is one more than the
    number of messages before. *)
Theorem checkin_completes fuel ms w :
  checkin_script (lw_calls w) ms -> (length ms < fuel)%nat ->
  finishCheckin DefaultLodgingFlow fuel documentId bookingId w
  = (Ret tt, mkLWorld (lw_world w) (lw_calls w ++ concat (map checkin_turn ms) ++ [CallNext])).
Proof.
  revert fuel w. induction ms as [|m ms IH]; intros [|fuel] w Hs Hf; simpl in Hf; try lia.
  - destruct Hs as (m & Hm & Hc). cbn [finishCheckin]. rewrite (bind_Ret _ _ _ _ _ (next_message_Ret w m Hm)).
    rewrite (bool_decide_eq_false_2 (_ = BOOKING_CHECKING)) by (by rewrite Hc).
    by rewrite (bool_decide_eq_true_2 (_ = CHECK_IN_COMPLETE)).
  - destruct Hs as (Hm & Hnc & Hok & Hs). cbn [finishCheckin].
    rewrite (bind_Ret _ _ _ _ _ (next_message_Ret w m Hm)).
    unfold checkin_turn in Hs, Hok. cbn [map concat]. unfold checkin_turn at 1.
    assert (Hnext : forall w', lw_world w' = lw_world w -> lw_calls w' = lw_calls w ++ CallNext :: checkin_reply m ->
      finishCheckin DefaultLodgingFlow fuel documentId bookingId w'
      = (Ret tt, mkLWorld (lw_world w)
           (lw_calls w ++ (CallNext :: checkin_reply m) ++ concat (map checkin_turn ms) ++ [CallNext]))).
    { intros w' H1 H2. rewrite (IH fuel w'); [|by rewrite H2|lia]. rewrite H1, H2.
      by rewrite <- !app_assoc. }
    rewrite <- app_assoc.
    unfold checkin_reply in *.
    destruct (decide (GetSystemNotification m = BOOKING_CHECKING)) as [Hb|Hb].
    { rewrite bool_decide_eq_true_2 by done. by apply Hnext. }
    rewrite (bool_decide_eq_false_2 (_ = BOOKING_CHECKING)) by done.
    rewrite (bool_decide_eq_false_2 (_ = CHECK_IN_COMPLETE)) by done.
    cbn [ShowDocument_Request ShowBookingNumber_Request DefaultLodgingFlow].
    change (negb (is_no_request REQUEST_DOCUMENT)) with true.
    change (negb (is_no_request REQUEST_BOOKING_NUMBER)) with true. cbn [andb].
    destruct (decide (GetSystemRequest m = REQUEST_DOCUMENT)) as [Hd|Hd].
    { rewrite bool_decide_eq_true_2 by done. unfold reply.
      rewrite (bind_Ret _ _ _ _ _ (call_Ret (record_call CallNext w) _
        ltac:(cbn; rewrite <- app_assoc; by apply Hok))).
      apply Hnext; [done|]. cbn. by rewrite <- app_assoc. }
    rewrite (bool_decide_eq_false_2 (_ = REQUEST_DOCUMENT)) by done.
    destruct (decide (GetSystemRequest m = REQUEST_BOOKING_NUMBER)) as [Hn|Hn].
    { rewrite bool_decide_eq_true_2 by done. unfold reply.
      rewrite (bind_Ret _ _ _ _ _ (call_Ret (record_call CallNext w) _
        ltac:(cbn; rewrite <- app_assoc; by apply Hok))).
      apply Hnext; [done|]. cbn. by rewrite <- app_assoc. }
    rewrite (bool_decide_eq_false_2 (_ = REQUEST_BOOKING_NUMBER)) by done. by apply Hnext.
Qed.
End Checkin.

(** ** Concrete runs *)

Section Witnesses.
#[local] Existing Instances sample_lib sample_redis sample_redis_laws.
#[local] Instance lodging_env0 : Env := sample_env [] sample_now.

Definition system_message (p : ChatPayload) : ChatMessage :=
  mkChatMessage "s" "q" SENDER_SYSTEM "lodging.v1" [] p.

(** What the lodging service says during a stay of three nights. *)
Definition sample_messages : list ChatMessage :=
  map system_message
    [Payload_SystemNotification BOOKING_CHECKING; Payload_SystemRequest REQUEST_DOCUMENT;
     Payload_SystemRequest REQUEST_BOOKING_NUMBER; Payload_SystemNotification CHECK_IN_COMPLETE;
     Payload_SystemRequest GIVE_COTTAGE_KEY; Payload_SystemNotification DINNER_READY;
     Payload_SystemNotification BREAKFAST_READY; Payload_SystemNotification DINNER_READY;
     Payload_SystemRequest REQUEST_COTTAGE_KEY; Payload_SystemNotification CHECK_OUT_COMPLETE].

Definition is_next (c : LodgingCall) : bool := match c with CallNext => true | _ => false end.

(** The k-th message for the k-th wait, after those of [h0]. *)
Definition scripted (ms : list ChatMessage) : LodgingEnv := {|
  env_lodging h :=
    match last h with
    | Some CallNext =>
        match ms !! pred (length (List.filter is_next h)) with
        | Some m => AnswerMessage m
        | None => AnswerErr ContextCanceled
        end
    | _ => AnswerOk
    end;
  env_keyID := "key-1"
|}.

#[local] Instance lodging_script : LodgingEnv := scripted sample_messages.

Definition lodging_world : LWorld := mkLWorld (sample_world sample_booked) [].

Lemma lodging_follows_plan_witness :
  fst (RunLodgingStayFlow 10 "ws://guest-manager:1/lodging/chat" lodging_world) = Ret tt
  /\ exists new, omap visible new = visit DefaultLodgingFlow "key-1" sample_period.
Proof.
  assert (Hr : fst (RunLodgingStayFlow 10 "ws://guest-manager:1/lodging/chat" lodging_world) = Ret tt)
    by (vm_compute; reflexivity).
  split; [exact Hr|].
  destruct (lodging_follows_plan 10 "ws://guest-manager:1/lodging/chat"
              sample_booked lodging_world sample_booked_cached)
    as (_ & [(Hx & _)|[(He & _)|(g & b & p & new & Hl & _ & _ & _ & _ & H)]]).
  - destruct (Hx eq_refl).
  - rewrite Hr in He. destruct He as [He|(e & He)]; discriminate He.
  - exists new. rewrite (proj1 (H Hr)). destruct Hl as (_ & Hb & _ & Hp).
    injection Hb as <-. injection Hp as <-. reflexivity.
Defined.

Lemma visit_schedule_witness :
  stayNights sample_period = 3
  /\ ~ (exists s, s ∈ buildStayActionPlan DefaultLodgingFlow sample_period /\ dayOffset s = 1)
  /\ StronglySorted Z.lt (visit_waits DefaultLodgingFlow "key-1" sample_period).
Proof.
  assert (Hn : stayNights sample_period = 3) by (vm_compute; reflexivity).
  destruct (visit_schedule "key-1" sample_period 3 Hn ltac:(lia)) as (Hd & _ & _ & _ & Hw & _).
  split; [exact Hn|]. split; [|exact Hw]. intros H. apply Hd in H. lia.
Defined.

Lemma checkin_completes_witness :
  checkin_script "DOC-1" "b-1" [] (take 3 sample_messages)
  /\ fst (finishCheckin DefaultLodgingFlow 4 "DOC-1" "b-1" lodging_world) = Ret tt.
Proof.
  assert (Hs : checkin_script "DOC-1" "b-1" [] (take 3 sample_messages)).
  { cbn. split; [reflexivity|]. split; [discriminate|]. split; [by intros []|].
    split; [reflexivity|]. split; [discriminate|]. split; [done|].
    split; [reflexivity|]. split; [discriminate|]. split; [done|].
    eexists. split; reflexivity. }
  split; [exact Hs|].
  rewrite (checkin_completes "DOC-1" "b-1" 4 (take 3 sample_messages) lodging_world Hs
             ltac:(vm_compute; lia)). reflexivity.
Defined.
End Witnesses.
