(* ===== verification/Stay.v ===== *)
(** * The stay over the real client and the real clock

    [Lodging] proves the stay against its interface [LodgingEnv]. Here that interface is
    implemented: the chat calls by the chat client of [Chat] (its reader, its channels and
    its caller), the hour wait by the three goroutines of [TimeEvents]. What remains open
    is the schedule: what arrives on the socket, which hours are told, and how the
    goroutines interleave. *)

From Stdlib Require Import ZArith Lia.
From stdpp Require Import base tactics list option strings sets gmap.
From S2P Require Import Prelude GoEffects GoTime GoText Domain Json World Samples Bus.
From S2P Require Import SelectPeriod TimeEvents Chat Lodging.
Open Scope Z_scope.

(** ** Schedules *)

(** Around one call: the outcome of the dial; the identifiers, the trace context and the
    outcome of the write of an outgoing message; the turns of the reader before the call
    and of all goroutines while it runs; the hours told before it and the turns of the
    goroutines of an hour wait. *)
Record CallSchedule := mkSchedule {
  cs_dial : option error;
  cs_id : string;
  cs_corr : string;
  cs_trace : list (string * string);
  cs_write : Wire;
  cs_before : list ChatLabel;
  cs_during : list ChatLabel;
  cs_hours : list Time;
  cs_wait : list UntilLabel
}.

(** The schedule of the k-th call, and the identifier of the cottage key. *)
Class StaySchedule := { schedule : nat -> CallSchedule; schedule_keyID : string }.

Definition is_reader (l : ChatLabel) : bool :=
  match l with LRead _ | LReadError _ | LSendAck _ _ _ | LPush => true | _ => false end.
Definition is_start (l : ChatLabel) : bool :=
  match l with LSend _ _ | LNext => true | _ => false end.

(** ** The calls *)

(** How a call of the stay starts in the client. *)
Definition start_label (s : CallSchedule) (c : LodgingCall) : option ChatLabel :=
  match c with
  | CallSendAction a => Some (LSend (OutAction (cs_id s) (cs_corr s) (cs_trace s) a) (cs_write s))
  | CallReply m r => Some (LSend (OutReply (cs_id s) (cs_trace s) m r) (cs_write s))
  | CallNext => Some LNext
  | _ => None
  end.

(** What the caller has in its hands when its turns are over. *)
Definition chat_answer (c : ChatCfg) : LodgingAnswer :=
  match caller c, call_result c with
  | CIdle, Some (Ret None) => AnswerOk
  | CIdle, Some (Ret (Some m)) => AnswerMessage m
  | CIdle, Some (Err e) => AnswerErr e
  | _, _ => AnswerNever
  end.

Definition chat_call (s : CallSchedule) (l : ChatLabel) (c : ChatCfg) : ChatCfg :=
  let c1 := exec chat_step is_reader (cs_before s) c in
  match chat_step l c1 with
  | None => c1
  | Some c2 => exec chat_step (fun l => negb (is_start l)) (cs_during s) c2
  end.

(** A channel nobody uses: [make(chan time.Time, 1)]. *)
Definition new_channel (s : TimeEventService) : nat :=
  fresh (hourChangeChannels s ∪ dom (hourChangeBuffers s)).

Definition until_answer (c : UntilCfg) : LodgingAnswer :=
  match uc_pc c with
  | UReturned (Ret _) => AnswerOk
  | UReturned (Err e) => AnswerErr e
  | _ => AnswerNever
  end.

(** The service goes on to hand out the event it has in its hands. *)
Definition settle (c : UntilCfg) : TimeEventService :=
  match uc_notifying c with
  | Some t => notify t (elements (hourChangeChannels (uc_service c))) (uc_service c)
  | None => uc_service c
  end.

(** The client, if one was made; the time service; the hours it was told. *)
Record Outside := mkOutside {
  out_chat : option ChatCfg;
  out_service : TimeEventService;
  out_told : list Time
}.

Definition tell (ts : list Time) (o : Outside) : Outside :=
  mkOutside (out_chat o) (fold_left (fun s t => notifyHourChange t s) ts (out_service o))
    (out_told o ++ ts).

Definition perform (s : CallSchedule) (c : LodgingCall) (o : Outside) : LodgingAnswer * Outside :=
  let o := tell (cs_hours s) o in
  match c with
  | CallNewClient _ =>
      match NewClient (cs_dial s) with
      | inl e => (AnswerErr e, o)
      | inr client => (AnswerOk, mkOutside (Some client) (out_service o) (out_told o))
      end
  | CallWaitUntil target =>
      let ch := new_channel (out_service o) in
      let u := exec (until_step target ch) (fun _ => true) (cs_wait s) (until_start (out_service o)) in
      (until_answer u, mkOutside (out_chat o) (settle u) (out_told o ++ uc_events u))
  | CallClose => (AnswerOk, o)
  | _ =>
      match out_chat o, start_label s c with
      | Some cfg, Some l =>
          let cfg' := chat_call s l cfg in
          (chat_answer cfg', mkOutside (Some cfg') (out_service o) (out_told o))
      | _, _ => (AnswerNever, o)
      end
  end.

(** ** The client through a call *)

Definition reach (c : ChatCfg) : Prop := exists ls, run chat_rel chat_start ls c.

Lemma reach_step l c c' : reach c -> chat_step l c = Some c' -> reach c'.
Proof. intros (ls & Hr) Hs. exists (ls ++ [l]). eapply run_app; [exact Hr|]. by apply run_one. Qed.

Lemma reach_exec ok ls c : reach c -> reach (exec chat_step ok ls c).
Proof. apply exec_invariant. intros l c0 c' _. apply reach_step. Qed.

(** What has been sent so far, and which acks were read. *)
Definition extends (c c' : ChatCfg) (new : list ChatMessage) : Prop :=
  sent (written c') = sent (written c) ++ new /\ forall a, a ∈ acks_read c -> a ∈ acks_read c'.

Lemma extends_refl c : extends c c [].
Proof. split; [by rewrite app_nil_r|done]. Qed.

Lemma extends_trans c1 c2 c3 l1 l2 : extends c1 c2 l1 -> extends c2 c3 l2 -> extends c1 c3 (l1 ++ l2).
Proof. intros [H1 A1] [H2 A2]. split; [by rewrite H2, H1, app_assoc|auto]. Qed.

Lemma hand_over_extends m c : extends c (hand_over m c) [].
Proof. unfold hand_over. destruct (is_system m); (split; [by rewrite app_nil_r|done]). Qed.

(** Only the start of a call sends anything but acks. *)
Lemma step_extends l c c' : is_start l = false -> chat_step l c = Some c' -> extends c c' [].
Proof.
  intros Hl Hs. assert (Hsame : forall c0, written c0 = written c -> acks_read c0 = acks_read c ->
    extends c c0 []) by (intros c0 H1 H2; split; [by rewrite H1, app_nil_r|by rewrite H2]).
  destruct l; try done; cbn in Hs; unfold read_step, call_step in Hs;
    repeat (case_match; try done); simplify_eq; try (by apply Hsame).
  - split; [by rewrite app_nil_r|]. intros a Ha. cbn. apply elem_of_app. by left.
  - split; [cbn; by rewrite sent_ack, app_nil_r|done].
  - eapply (extends_trans c (set_pending c _) _ [] []); [by apply Hsame|apply hand_over_extends].
  - eapply (extends_trans c (set_inbound c _) _ [] []); [by apply Hsame|apply hand_over_extends].
Qed.

Lemma exec_extends ok ls c :
  (forall l, ok l = true -> is_start l = false) -> extends c (exec chat_step ok ls c) [].
Proof.
  intros Hok. apply (exec_invariant chat_step ok (fun c' => extends c c' [])); [|apply extends_refl].
  intros l c1 c2 Hl H1 H2. eapply (extends_trans _ _ _ [] []); [exact H1|]. eapply step_extends; eauto.
Qed.

(** Where the caller can be during a call of each kind, and with which results it ends. *)
Definition in_send (c : ChatCfg) : Prop :=
  match caller c with
  | CWaitAck _ => True
  | CIdle => match call_result c with Some (Ret (Some _)) => False | _ => True end
  | _ => False
  end.
Definition in_next (c : ChatCfg) : Prop :=
  match caller c with
  | CNextHead | CNextSelect => True
  | CIdle => match call_result c with Some (Ret None) => False | _ => True end
  | CWaitAck _ => False
  end.
Definition failed_with (e : error) (c : ChatCfg) : Prop :=
  caller c = CIdle /\ call_result c = Some (Err e).

Lemma read_step_caller l c c' :
  read_step l c = Some c' -> caller c' = caller c /\ call_result c' = call_result c.
Proof. unfold read_step. intros H. repeat (case_match; try done); by simplify_eq. Qed.

Lemma step_phase l c c' :
  is_start l = false -> chat_step l c = Some c' ->
  (in_send c -> in_send c') /\ (in_next c -> in_next c')
  /\ (forall e, failed_with e c -> failed_with e c').
Proof.
  intros Hl Hs. unfold in_send, in_next, failed_with.
  destruct l; try done; cbn [chat_step] in Hs;
    try (apply read_step_caller in Hs as [-> ->]; done);
    unfold call_step, hand_over in Hs; repeat (case_match; try done); simplify_eq; cbn in *;
    (split; [|split]); intros; destruct_conjs; simplify_eq; first [done|congruence].
Qed.

Lemma exec_phase ls c :
  let c' := exec chat_step (fun l => negb (is_start l)) ls c in
  (in_send c -> in_send c') /\ (in_next c -> in_next c') /\ (forall e, failed_with e c -> failed_with e c').
Proof.
  cbv zeta. apply (exec_invariant chat_step _ (fun c' => (in_send c -> in_send c') /\ (in_next c -> in_next c')
    /\ (forall e, failed_with e c -> failed_with e c'))); [|done].
  intros l c1 c2 Hl%negb_true_iff (H1 & H2 & H3) Hs.
  destruct (step_phase l c1 c2 Hl Hs) as (K1 & K2 & K3). auto.
Qed.

Lemma exec_reader_caller ls c :
  caller (exec chat_step is_reader ls c) = caller c.
Proof.
  apply (exec_invariant chat_step is_reader (fun c' => caller c' = caller c)); [|done].
  intros l c1 c2 Hl H1 Hs. destruct l; try done; cbn [chat_step] in Hs;
    apply read_step_caller in Hs as [-> _]; done.
Qed.

(** The message a call sends, when it is written. *)
Definition message_of (l : ChatLabel) : list ChatMessage :=
  match l with
  | LSend o wire => match write wire with None => [outgoing_message o] | Some _ => [] end
  | _ => []
  end.

Lemma accepted_idle c : accepted (chat_answer c) -> caller c = CIdle.
Proof. unfold chat_answer, accepted. by destruct (caller c). Qed.

(** A call, from an idle caller: it sends its message and nothing else; when it is accepted
    the caller is idle again and the message was written and acknowledged. *)
Lemma chat_call_spec s l c :
  reach c -> caller c = CIdle -> is_start l = true ->
  let c' := chat_call s l c in
  reach c' /\ extends c c' (message_of l)
  /\ (accepted (chat_answer c') -> caller c' = CIdle
      /\ forall m f, l = LSend m f -> write f = None
           /\ exists a, a ∈ acks_read c' /\ acknowledges a (outgoing_message m) = true).
Proof.
  intros Hr Hc Hl. cbv zeta. unfold chat_call.
  set (c1 := exec chat_step is_reader (cs_before s) c).
  assert (Hr1 : reach c1) by by apply reach_exec.
  assert (Hc1 : caller c1 = CIdle) by (unfold c1; by rewrite exec_reader_caller).
  assert (He1 : extends c c1 []) by (apply exec_extends; by intros []).
  assert (Hstart : exists c2, chat_step l c1 = Some c2 /\ extends c1 c2 (message_of l)
    /\ match l with
       | LSend _ wire => match write wire with None => in_send c2 | Some e => failed_with e c2 end
       | _ => in_next c2
       end).
  { destruct l as [| | | |m f| | | | | |]; try done; cbn; [destruct (write f) as [e|]|];
      rewrite Hc1; eexists;
      (split; [reflexivity|]); (split; [|done]); (split; [|done]); cbn; rewrite ?app_nil_r; try done.
    unfold sent. rewrite filter_app, filter_cons_True by apply outgoing_not_ack. done. }
  destruct Hstart as (c2 & Hs & He2 & Hph). rewrite Hs.
  set (c3 := exec chat_step _ (cs_during s) c2).
  assert (Hr3 : reach c3) by (apply reach_exec; by eapply reach_step).
  assert (He3 : extends c2 c3 []) by (apply exec_extends; intros l0; apply negb_true_iff).
  destruct (exec_phase (cs_during s) c2) as (P1 & P2 & P3). fold c3 in P1, P2, P3.
  split; [done|]. split.
  { rewrite <- (app_nil_r (message_of l)). eapply extends_trans; [|exact He3].
    rewrite <- (app_nil_l (message_of l)). by eapply extends_trans. }
  intros Ha. split; [by apply accepted_idle|]. intros m f ->.
  destruct (write f) as [e|] eqn:Ef.
  { destruct (P3 e Hph) as [E1 E2]. unfold chat_answer in Ha. by rewrite E1, E2 in Ha. }
  split; [done|]. specialize (P1 Hph). unfold in_send in P1. unfold chat_answer in Ha.
  destruct Hr3 as (ls & Hr3). destruct (chat_reachable ls c3 Hr3) as [_ _ _ _ _ Hcall].
  destruct (caller c3); try done. destruct (call_result c3) as [[[x|]|?|?|]|]; try done.
  destruct Hcall as (a & o & Hin & Hlast & Hack). exists a. split; [done|].
  destruct He3 as [Hw3 _], He2 as [Hw2 _]. rewrite Hw3, Hw2, app_nil_r in Hlast. cbn in Hlast.
  rewrite Ef in Hlast.
  rewrite last_snoc in Hlast. injection Hlast as ->. exact Hack.
Qed.

Section Stay.
Context {S : StaySchedule}.
(** The time service when the stay begins *)
Variable service0 : TimeEventService.

(** What the calls of a history leave. *)
Fixpoint outside_from (k : nat) (h : list LodgingCall) (o : Outside) : Outside :=
  match h with
  | [] => o
  | c :: h => outside_from (Datatypes.S k) h (snd (perform (schedule k) c o))
  end.

Definition outside (h : list LodgingCall) : Outside :=
  outside_from 0 h (mkOutside None service0 (known service0)).

(** The interface of the stay, implemented. *)
Definition real_env : LodgingEnv := {|
  env_lodging h :=
    match last h with
    | None => AnswerNever
    | Some c => fst (perform (schedule (pred (length h))) c (outside (removelast h)))
    end;
  env_keyID := schedule_keyID
|}.

Lemma outside_from_app k h1 h2 o :
  outside_from k (h1 ++ h2) o = outside_from (k + length h1) h2 (outside_from k h1 o).
Proof.
  revert k o. induction h1 as [|c h1 IH]; intros k o; cbn; [by rewrite Nat.add_0_r|].
  rewrite IH. f_equal. lia.
Qed.

Lemma outside_snoc h c : outside (h ++ [c]) = snd (perform (schedule (length h)) c (outside h)).
Proof. unfold outside. by rewrite outside_from_app. Qed.

Lemma real_env_snoc h c :
  @env_lodging real_env (h ++ [c]) = fst (perform (schedule (length h)) c (outside h)).
Proof. cbn. by rewrite last_snoc, removelast_last, length_app, Nat.add_1_r. Qed.

(** ** The stay on the wire *)

(** What an observer of the socket makes of a frame of the guest, and of a call. *)
Definition frame_event (m : ChatMessage) : option VisitEvent :=
  match ChatMessagePayload m with
  | Payload_GuestAction a => Some (VAct a)
  | Payload_GuestResponse (GuestResponse_ReceiveCottageKey k) =>
      Some (VKey (GuestResponse_ReceiveCottageKey k))
  | Payload_GuestResponse (GuestResponse_ReturnCottageKey k) =>
      Some (VKey (GuestResponse_ReturnCottageKey k))
  | _ => None
  end.

Definition on_wire (e : VisitEvent) : option VisitEvent :=
  match e with VWait _ => None | _ => Some e end.

Definition call_frame (c : LodgingCall) : option VisitEvent := visible c ≫= on_wire.

Lemma call_frames (l : list LodgingCall) : omap call_frame l = omap on_wire (omap visible l).
Proof.
  induction l as [|c l IH]; [done|]. cbn. unfold call_frame at 1.
  destruct (visible c) as [[t|a|r]|]; cbn; [exact IH|f_equal; exact IH..|exact IH].
Qed.

Lemma start_frame s c l :
  start_label s c = Some l ->
  omap frame_event (message_of l) = [] \/ omap frame_event (message_of l) = option_list (call_frame c).
Proof.
  destruct c as [|t|a|m r| |]; try done; cbn; intros [= <-]; cbn; destruct (write (cs_write s)); try (by left);
    right; try done. by destruct r.
Qed.

Lemma start_frame_written s c m f l :
  start_label s c = Some l -> l = LSend m f -> write f = None ->
  omap frame_event (message_of l) = option_list (call_frame c).
Proof. destruct c as [|t|a|q r| |]; try done; cbn; intros [= <-] [= <- <-] Hf; cbn; rewrite Hf; try done. by destruct r. Qed.

Lemma start_label_start s c l : start_label s c = Some l -> is_start l = true.
Proof. by destruct c; cbn; intros [= <-]. Qed.

(** Every message of the guest was acknowledged. *)
Definition acked (c : ChatCfg) : Prop :=
  Forall (fun m => exists a, a ∈ acks_read c /\ acknowledges a m = true) (sent (written c)).

Lemma acked_extends c c' new :
  acked c -> extends c c' new ->
  Forall (fun m => exists a, a ∈ acks_read c' /\ acknowledges a m = true) new -> acked c'.
Proof.
  intros H [Hs Ha] Hn. unfold acked. rewrite Hs. apply Forall_app. split; [|done].
  eapply Forall_impl; [exact H|]. intros m (a & Hin & Hack). exists a. split; [by apply Ha|done].
Qed.

(** The client after the calls [new], all of them accepted but perhaps the last. *)
Definition client_ok (strict : bool) (new : list LodgingCall) (o : Outside) : Prop :=
  exists cfg, out_chat o = Some cfg /\ reach cfg
    /\ omap frame_event (sent (written cfg)) `prefix_of` omap call_frame new
    /\ (strict = true -> caller cfg = CIdle /\ acked cfg
         /\ omap frame_event (sent (written cfg)) = omap call_frame new).

Lemma client_ok_weaken b new o : client_ok b new o -> client_ok false new o.
Proof. intros (cfg & H1 & H2 & H3 & _). by exists cfg. Qed.

(** A call that is no message of the client. *)
Lemma client_ok_same b new o o' c :
  client_ok b new o -> out_chat o' = out_chat o -> call_frame c = None -> client_ok b (new ++ [c]) o'.
Proof.
  intros (cfg & H1 & H2 & H3 & H4) Ho Hc. exists cfg. split; [by rewrite Ho|]. split; [done|].
  rewrite omap_app. cbn. rewrite Hc, app_nil_r. by split.
Qed.

Lemma perform_client s c new o :
  is_conversation c -> client_ok true new o ->
  client_ok false (new ++ [c]) (snd (perform s c o))
  /\ (accepted (fst (perform s c o)) -> client_ok true (new ++ [c]) (snd (perform s c o))).
Proof.
  intros Hconv Hok. destruct (start_label s c) as [l|] eqn:El.
  2:{ assert (H : client_ok true (new ++ [c]) (snd (perform s c o))).
      { destruct c as [|t|a|m r| |]; try done. cbn.
        by eapply (client_ok_same true new o). }
      split; [by eapply client_ok_weaken|done]. }
  destruct Hok as (cfg & Hcfg & Hr & _ & Hs). destruct (Hs eq_refl) as (Hidle & Hack & Hfr).
  assert (Hp : perform s c o = (chat_answer (chat_call s l cfg),
    mkOutside (Some (chat_call s l cfg)) (out_service (tell (cs_hours s) o)) (out_told (tell (cs_hours s) o)))).
  { destruct c as [|t|a|m r| |]; try done; unfold perform; cbn [out_chat tell]; rewrite Hcfg, El; done. }
  rewrite Hp. cbn [fst snd].
  destruct (chat_call_spec s l cfg Hr Hidle (start_label_start s c l El)) as (Hr' & Hext & Hacc).
  assert (Hfr' : omap frame_event (sent (written (chat_call s l cfg)))
                 = omap call_frame new ++ omap frame_event (message_of l))
    by (destruct Hext as [-> _]; by rewrite omap_app, Hfr).
  assert (Hnew : omap call_frame (new ++ [c]) = omap call_frame new ++ option_list (call_frame c))
    by (rewrite omap_app; cbn; by destruct (call_frame c)).
  assert (Hpre : omap frame_event (sent (written (chat_call s l cfg))) `prefix_of` omap call_frame (new ++ [c])).
  { rewrite Hfr', Hnew. apply prefix_app. destruct (start_frame s c l El) as [-> | ->]; [apply prefix_nil|done]. }
  split; [by exists (chat_call s l cfg)|].
  intros Ha. destruct (Hacc Ha) as (Hi & Hmsg). exists (chat_call s l cfg). do 3 (split; [done|]).
  intros _. split; [done|]. destruct l as [| | | |m f| | | | | |]; try (by destruct c).
  - destruct (Hmsg m f eq_refl) as (Hf & Hex). split.
    + eapply acked_extends; [exact Hack|exact Hext|]. cbn. rewrite Hf. by constructor.
    + rewrite Hfr', Hnew. f_equal. by eapply start_frame_written.
  - assert (c = CallNext) as -> by (by destruct c). split; [|by rewrite Hfr', Hnew].
    by eapply acked_extends.
Qed.

(** The client after a conversation, from the call that makes it. *)
Lemma conversation_client url new :
  Forall is_conversation new -> @all_accepted real_env [] (CallNewClient url :: new) ->
  client_ok true new (outside (CallNewClient url :: new)).
Proof.
  induction new as [|c new IH] using rev_ind; intros Hc Ha.
  - destruct Ha as [Ha _]. cbn in Ha |- *. destruct (cs_dial (schedule 0)); [done|]. exists chat_start.
    split; [done|]. split; [by exists []; constructor|]. split; [apply prefix_nil|].
    intros _. split; [done|]. split; [by constructor|done].
  - apply Forall_app in Hc as [Hc [Hc1 _]%Forall_cons].
    change (CallNewClient url :: new ++ [c]) with ((CallNewClient url :: new) ++ [c]) in *.
    apply (@all_accepted_app real_env) in Ha as [Ha [Ha1 _]].
    rewrite outside_snoc. apply perform_client; [done|by apply IH|].
    rewrite <- real_env_snoc. exact Ha1.
Qed.

Lemma conversation_client_smooth url new :
  Forall is_conversation new -> @smooth real_env [] (CallNewClient url :: new) ->
  out_chat (outside (CallNewClient url :: new)) = None
  \/ client_ok false new (outside (CallNewClient url :: new)).
Proof.
  intros Hc (n1 & n2 & Heq & Hn2 & Ha).
  destruct n1 as [|c1 n1]; [|injection Heq as <- ->].
  - destruct n2 as [|c2 n2]; [done|]. injection Heq as <- <-. cbn in Hn2.
    destruct new; [|cbn in Hn2; lia]. cbn. destruct (cs_dial (schedule 0)) eqn:E; [by left|right].
    exists chat_start. split; [done|]. split; [by exists []; constructor|]. split; [apply prefix_nil|done].
  - right. apply Forall_app in Hc as [Hc1 Hc2]. pose proof (conversation_client url n1 Hc1 Ha) as Hok.
    destruct n2 as [|c [|? ?]]; [|clear Hn2|cbn in Hn2; lia].
    + rewrite app_nil_r. by eapply client_ok_weaken.
    + change (CallNewClient url :: n1 ++ [c]) with ((CallNewClient url :: n1) ++ [c]).
      rewrite outside_snoc. apply perform_client; [by apply Forall_cons in Hc2 as [? _]|done].
Qed.

(** *** The hours *)

Definition told_inv (o : Outside) : Prop :=
  forall t, CurrentTime (out_service o) = Some t -> t ∈ out_told o.

Lemma new_channel_empty s : buffer_of (hourChangeBuffers s) (new_channel s) = [].
Proof.
  unfold buffer_of. pose proof (is_fresh (hourChangeChannels s ∪ dom (hourChangeBuffers s))) as Hf.
  fold (new_channel s) in Hf. apply not_elem_of_union in Hf as [_ Hf].
  by apply not_elem_of_dom in Hf as ->.
Qed.

Lemma tell_told ts o : told_inv o -> told_inv (tell ts o).
Proof.
  unfold told_inv, tell. cbn. intros H.
  assert (Hf : forall s, CurrentTime (fold_left (fun s t => notifyHourChange t s) ts s)
               = match last ts with Some t => Some t | None => CurrentTime s end).
  { induction ts as [|t ts IH]; intros s; [done|]. cbn [fold_left]. rewrite IH, last_cons.
    by destruct (last ts). }
  intros t Ht. rewrite Hf in Ht. apply elem_of_app. destruct (last ts) as [t'|] eqn:El.
  - right. injection Ht as <-. by apply last_Some_elem_of in El.
  - left. by apply H.
Qed.

(** A wait: what it leaves, and what its success says. *)
Lemma perform_wait s target o :
  told_inv o ->
  told_inv (snd (perform s (CallWaitUntil target) o))
  /\ (accepted (fst (perform s (CallWaitUntil target) o)) ->
      exists t, t ∈ out_told (snd (perform s (CallWaitUntil target) o)) /\ unixNano target <= unixNano t).
Proof.
  intros Ho. apply (tell_told (cs_hours s)) in Ho. unfold perform. revert Ho.
  generalize (tell (cs_hours s) o). clear o. intros o Ho. cbn [fst snd].
  set (ch := new_channel (out_service o)).
  destruct (exec_run (until_step target ch) (fun _ => true) (cs_wait s) (until_start (out_service o)))
    as (ls & Hrun).
  set (u := exec _ _ _ _) in *.
  assert (Hb : buffer_of (hourChangeBuffers (out_service o)) ch = []) by apply new_channel_empty.
  assert (Hi : until_inv target ch (out_service o) u)
    by (eapply (run_invariant (until_rel target ch)); [intros; by eapply until_inv_step|exact Hrun|
        by apply until_inv_start]).
  assert (Hknown : forall t, t ∈ known (out_service o) ++ uc_events u -> t ∈ out_told o ++ uc_events u).
  { intros t [Ht|Ht]%elem_of_app; apply elem_of_app; [left|by right].
    unfold known in Ht. destruct (CurrentTime (out_service o)) as [t0|] eqn:E; [|by apply not_elem_of_nil in Ht].
    apply list_elem_of_singleton in Ht as ->. by apply Ho. }
  split.
  - unfold told_inv. cbn [out_service out_told]. intros t Ht. apply Hknown.
    apply (ui_current _ _ _ _ Hi). unfold settle in Ht. by destruct (uc_notifying u).
  - unfold until_answer. pose proof (until_result target ch _ _ _ Hb Hrun) as Hres.
    destruct (uc_pc u) as [| |[]]; try done. intros _. destruct Hres as (t & Ht & Hle).
    exists t. split; [by apply Hknown|done].
Qed.

Lemma perform_told s c o : told_inv o -> told_inv (snd (perform s c o)).
Proof.
  intros Ho. pose proof (tell_told (cs_hours s) o Ho) as Ht.
  destruct c as [|t|a|m r| |]; unfold perform; cbn [snd].
  - by destruct (cs_dial s).
  - exact (proj1 (perform_wait s t o Ho)).
  - by destruct (out_chat _).
  - by destruct (out_chat _).
  - by destruct (out_chat _).
  - done.
Qed.

Lemma outside_told h : told_inv (outside h).
Proof.
  induction h as [|c h IH] using rev_ind; [|rewrite outside_snoc; by apply perform_told].
  unfold told_inv, outside, known. cbn. intros t ->. by left.
Qed.

(** *** The composition *)

Context {G : GoLib} {R : RedisServer} {RL : RedisLaws R} {E : Env}.

Definition stay (fuel : nat) (url : string) (w : LWorld) : outcome unit * LWorld :=
  RunLodgingStayFlow (L := real_env) fuel url w.

(** The calls of a stay: those of the conversation after the client was made, and the close. *)
Lemma stay_calls fuel url v w :
  cached (lw_world w) v -> lw_calls w = [] ->
  let r := fst (stay fuel url w) in
  let calls := lw_calls (snd (stay fuel url w)) in
  (calls = [] /\ (r = Ret tt -> env_ctx (w_polls (lw_world w)) <> None))
  \/ (calls = [CallNewClient url] /\ r <> Ret tt)
  \/ exists g b p new closes, lodgeable v g b p
     /\ calls = (CallNewClient url :: new) ++ closes /\ (closes = [] \/ closes = [CallClose])
     /\ Forall is_conversation new /\ @smooth real_env [] (CallNewClient url :: new)
     /\ omap visible new `prefix_of` visit DefaultLodgingFlow schedule_keyID p
     /\ (r = Ret tt -> omap visible new = visit DefaultLodgingFlow schedule_keyID p
                      /\ @all_accepted real_env [] (CallNewClient url :: new)).
Proof.
  intros Hc Hw. cbv zeta. unfold stay.
  destruct (LodgingStay_traces (L := real_env) fuel url v w Hc)
    as [_ [(Hctx & _ & Hcalls)|[(Hr & [Hcalls|Hcalls])|(g & b & p & new & Hl & Hcalls & Hconv & Hsm & Hpre & Hret)]]];
    rewrite Hw in *; cbn [app] in *.
  - left. split; [done|]. by intros _.
  - left. split; [done|]. intros Hx. rewrite Hx in Hr. by destruct Hr as [?|(e & ?)].
  - right. left. split; [done|]. intros Hx. rewrite Hx in Hr. by destruct Hr as [?|(e & ?)].
  - right. right. exists g, b, p, new. eexists. split; [done|].
    split; [rewrite Hcalls; reflexivity|]. split; [destruct (fst _); auto|]. done.
Qed.

Lemma outside_close h closes :
  closes = [] \/ closes = [CallClose] -> out_chat (outside (h ++ closes)) = out_chat (outside h).
Proof. intros [-> | ->]; [by rewrite app_nil_r|]. by rewrite outside_snoc. Qed.

(** A stay whose context is cancelled before it begins is over at once. *)
Lemma stay_cancelled fuel url w :
  env_ctx (w_polls (lw_world w)) <> None ->
  fst (stay fuel url w) = Ret tt /\ lw_calls (snd (stay fuel url w)) = lw_calls w.
Proof.
  intros Hx. unfold stay. rewrite RunLodgingStayFlow_eq. unfold mbind at 1 3, go_bind at 1 3.
  unfold on_world, zoom, ctx_Err. cbn. by destruct (env_ctx _).
Qed.

(** C8: the stay over the real chat client. However the client's reader and caller
    interleave, whatever arrives on the socket and wherever the run ends, what the guest has
    written on the socket besides acknowledgements is an initial segment of the actions and
    key messages of the visit planned for the booked period, in order. A stay that succeeds
    has written the whole visit, and the service has acknowledged every message of it,
    unless the context was cancelled before it began: then no call is made, no socket is
    opened, and the stay still ends without an error. *)
Theorem stay_over_chat fuel url v w :
  cached (lw_world w) v -> lw_calls w = [] ->
  let r := fst (stay fuel url w) in
  match out_chat (outside (lw_calls (snd (stay fuel url w)))) with
  | None => (r = Ret tt <-> env_ctx (w_polls (lw_world w)) <> None)
            /\ (r = Ret tt -> lw_calls (snd (stay fuel url w)) = [])
  | Some cfg =>
      (exists ls, run chat_rel chat_start ls cfg)
      /\ (sent (written cfg) = []
          \/ exists g b p, lodgeable v g b p
             /\ omap frame_event (sent (written cfg))
                  `prefix_of` omap on_wire (visit DefaultLodgingFlow schedule_keyID p))
      /\ (r = Ret tt -> exists g b p, lodgeable v g b p
            /\ omap frame_event (sent (written cfg))
               = omap on_wire (visit DefaultLodgingFlow schedule_keyID p)
            /\ forall m, m ∈ sent (written cfg) ->
                 exists a, a ∈ acks_read cfg /\ acknowledges a m = true)
  end.
Proof.
  intros Hc Hw. cbv zeta. pose proof (stay_cancelled fuel url w) as Hx.
  assert (Hno : fst (stay fuel url w) <> Ret tt -> forall P : Prop,
    (fst (stay fuel url w) = Ret tt <-> env_ctx (w_polls (lw_world w)) <> None)
    /\ (fst (stay fuel url w) = Ret tt -> P))
    by (intros Hr P; split; [split; [done|by intros H; apply Hx in H as [H _]]|done]).
  destruct (stay_calls fuel url v w Hc Hw)
    as [(-> & Hr)|[(-> & Hr)|(g & b & p & new & closes & Hl & -> & Hcl & Hconv & Hsm & Hpre & Hret)]].
  - cbn. split; [|done]. split; [exact Hr|]. intros H. by apply Hx in H as [H _].
  - cbn. destruct (cs_dial _); [by apply Hno|]. cbn. split; [exists []; constructor|]. split; [by left|done].
  - rewrite outside_close by done.
    assert (Hframes : forall cfg, omap frame_event (sent (written cfg)) `prefix_of` omap call_frame new ->
      omap frame_event (sent (written cfg))
        `prefix_of` omap on_wire (visit DefaultLodgingFlow schedule_keyID p)).
    { intros cfg H. etrans; [exact H|]. rewrite call_frames. destruct Hpre as (tl & ->).
      rewrite omap_app. by apply prefix_app_r. }
    assert (Hdone : fst (stay fuel url w) = Ret tt ->
      client_ok true new (outside (CallNewClient url :: new))).
    { intros H. apply conversation_client; [done|]. by apply Hret. }
    destruct (conversation_client_smooth url new Hconv Hsm) as [Hnone|(cfg & Hcfg & Hr & Hp & _)].
    + rewrite Hnone. apply Hno. intros H. destruct (Hdone H) as (cfg & Hcfg & _). congruence.
    + rewrite Hcfg. split; [done|]. split; [right; exists g, b, p; split; [done|by apply Hframes]|].
      intros H. destruct (Hdone H) as (cfg' & Hcfg' & _ & _ & Hs). rewrite Hcfg in Hcfg'.
      injection Hcfg' as <-. destruct (Hs eq_refl) as (_ & Hack & Hfr). exists g, b, p.
      split; [done|]. split; [rewrite Hfr, call_frames; by rewrite (proj1 (Hret H))|].
      by apply Forall_forall.
Qed.

(** C19: no guest is early. Whatever the hours told and however the goroutines of a wait
    interleave, when a stay goes on after waiting for an hour, the time service had by then
    been told a time that is not before it. *)
Theorem stay_never_early fuel url v w h1 target c h2 :
  cached (lw_world w) v -> lw_calls w = [] ->
  lw_calls (snd (stay fuel url w)) = h1 ++ CallWaitUntil target :: c :: h2 -> c <> CallClose ->
  exists t, t ∈ out_told (outside (h1 ++ [CallWaitUntil target])) /\ unixNano target <= unixNano t.
Proof.
  intros Hc Hw Hcalls Hclose.
  assert (Hacc : accepted (@env_lodging real_env (h1 ++ [CallWaitUntil target]))).
  { destruct (stay_calls fuel url v w Hc Hw)
      as [(Hn & _)|[(Hn & _)|(g & b & p & new & closes & _ & Hn & Hcl & _ & Hsm & _)]];
      rewrite Hcalls in Hn.
    - by destruct h1.
    - destruct h1 as [|? h1]; [done|]. by destruct h1.
    - destruct Hsm as (n1 & n2 & Heq & Hn2 & Ha). rewrite Heq in Hn.
      assert (Hlen : (length h1 < length n1)%nat).
      { apply (f_equal length) in Hn as Hlen. rewrite !length_app in Hlen. cbn in Hlen.
        destruct Hcl as [-> | ->]; cbn in Hlen; [lia|].
        destruct h2 as [|x h2]; [|cbn in Hlen; lia].
        rewrite <- !app_assoc in Hn.
        change (h1 ++ [CallWaitUntil target; c]) with (h1 ++ [CallWaitUntil target] ++ [c]) in Hn.
        rewrite !app_assoc in Hn. by apply app_inj_tail in Hn as [_ ->]. }
      assert (Hpre : n1 = (h1 ++ [CallWaitUntil target]) ++ drop (length (h1 ++ [CallWaitUntil target])) n1).
      { rewrite <- (take_drop (length (h1 ++ [CallWaitUntil target])) n1) at 1. f_equal.
        change (h1 ++ CallWaitUntil target :: c :: h2)
          with (h1 ++ [CallWaitUntil target] ++ c :: h2) in Hn.
        rewrite (app_assoc h1), <- (app_assoc n1) in Hn.
        apply (f_equal (take (length (h1 ++ [CallWaitUntil target])))) in Hn.
        rewrite take_app_length, take_app_le in Hn by (rewrite length_app; cbn; lia).
        by symmetry. }
      rewrite Hpre in Ha.
      apply (@all_accepted_app real_env) in Ha as [Ha _].
      apply (@all_accepted_app real_env) in Ha as [_ [Ha _]]. exact Ha. }
  rewrite real_env_snoc in Hacc. rewrite outside_snoc. by apply perform_wait; [apply outside_told|].
Qed.
End Stay.

(** ** A stay of three nights *)

Section Witnesses.
#[local] Existing Instances sample_lib sample_redis sample_redis_laws.
#[local] Instance stay_env0 : Env := sample_env [] sample_now.

Definition sample_url : string := "ws://guest-manager:1/lodging/chat".

(** The calls of the scripted stay of [Lodging], to know when an hour is waited for. *)
Definition sample_calls : list LodgingCall :=
  lw_calls (snd (RunLodgingStayFlow (L := scripted sample_messages) 10 sample_url lodging_world)).

Definition sample_ack (id : string) : ChatMessage :=
  mkChatMessage ("a-" +:+ id) id SENDER_SYSTEM protocolVersion []
    (Payload_Ack (mkAck id ACK_STATUS_ACCEPTED ERROR_CODE_NONE)).

(** Everything the service says arrives before the first message is read; every message of
    the guest is acknowledged while it waits, behind the acks of other calls; each hour is
    told after the goroutine of the wait has registered. *)
Definition sample_schedule (k : nat) : CallSchedule :=
  let id := "m-" +:+ utoa (Z.of_nat k) in
  {| cs_dial := None; cs_id := id; cs_corr := "c"; cs_trace := []; cs_write := wire_ok;
     cs_before := if Nat.eqb k 2
                  then concat (map (fun m => [LRead m; LSendAck "x" [] wire_ok; LPush]) sample_messages)
                  else [];
     cs_during := [LHead; LInbound; LRead (sample_ack id); LPush] ++ replicate 16 LAck;
     cs_hours := [];
     cs_wait := match sample_calls !! k with
                | Some (CallWaitUntil t) =>
                    [UCheckTime; HRegister; TSet t; TNotify; HReceive; HPublish; UReceive]
                | _ => []
                end |}.

#[local] Instance sample_stay : StaySchedule := {| schedule := sample_schedule; schedule_keyID := "key-1" |}.

Lemma sample_stay_Ret : fst (stay quiet_service 10 sample_url lodging_world) = Ret tt.
Proof. vm_compute. reflexivity. Qed.

Lemma sample_stay_calls :
  exists h1 c h2, lw_calls (snd (stay quiet_service 10 sample_url lodging_world))
    = h1 ++ CallWaitUntil (mkTime (unixNano (startOfUTCDay (Start sample_period)) + 15 * hourNs) 0) :: c :: h2
    /\ c <> CallClose.
Proof. exists [CallNewClient sample_url]. do 2 eexists. split; [vm_compute; reflexivity|done]. Qed.

Lemma stay_over_chat_witness :
  exists cfg, out_chat (outside quiet_service (lw_calls (snd (stay quiet_service 10 sample_url lodging_world))))
              = Some cfg
    /\ omap frame_event (sent (written cfg))
       = omap on_wire (visit DefaultLodgingFlow "key-1" sample_period).
Proof.
  pose proof (stay_over_chat quiet_service 10 sample_url sample_booked lodging_world
                sample_booked_cached eq_refl) as H.
  cbv zeta in H. rewrite sample_stay_Ret in H.
  destruct (out_chat _) as [cfg|]; [|exfalso; exact (proj1 (proj1 H) eq_refl eq_refl)].
  exists cfg. split; [reflexivity|]. destruct H as (_ & _ & H).
  destruct (H eq_refl) as (g & b & p & Hl & Hf & _).
  destruct Hl as (_ & Hb & _ & Hp). injection Hb as <-. injection Hp as <-. exact Hf.
Defined.

Lemma stay_never_early_witness :
  exists h t, t ∈ out_told (outside quiet_service h)
    /\ unixNano (startOfUTCDay (Start sample_period)) + 15 * hourNs <= unixNano t.
Proof.
  destruct sample_stay_calls as (h1 & c & h2 & Hc & Hn). eexists.
  exact (stay_never_early quiet_service 10 sample_url sample_booked lodging_world h1 _ c h2
           sample_booked_cached eq_refl Hc Hn).
Defined.
End Witnesses.
