(* ===== verification/Mq.v ===== *)
(** * RabbitMQ: [infra/mq], [config/rabbitmq_config.go]

    The shared connection and a consumer with its channel. The AMQP library is the class
    [AmqpEnv]: every call on it is recorded and answered from the history. *)

From Stdlib Require Import ZArith Lia.
From stdpp Require Import base tactics list option strings gmap.
From S2P Require Import Prelude GoEffects.
Open Scope Z_scope.

Record QueueConfig := mkQueueConfig {
  q_Name : string; q_Durable : bool; q_AutoDelete : bool; q_Exclusive : bool; q_NoWait : bool }.
Record BindingConfig := mkBindingConfig {
  ExchangeName : string; b_RoutingKey : string; b_NoWait : bool }.
Record ConsumeConfig := mkConsumeConfig {
  c_Consumer : string; c_AutoAck : bool; c_Exclusive : bool; c_NoLocal : bool; c_NoWait : bool }.
Record RabbitMqConsumerConfig := mkConsumerConfig {
  cfg_Queue : QueueConfig; cfg_Binding : BindingConfig; cfg_Consume : ConsumeConfig }.

Definition rabbitDialAttempts : nat := 5.

(** Connections and channels are numbered by the call that made them. *)
Inductive AmqpCall :=
| AmDial
| AmSleep
| AmConnIsClosed (conn : nat)
| AmConnClose (conn : nat)
| AmChannel (conn : nat)
| AmChIsClosed (ch : nat)
| AmChClose (ch : nat)
| AmQueueDeclare (ch : nat) (cfg : QueueConfig)
| AmQueueBind (ch : nat) (queue : string) (cfg : BindingConfig)
| AmConsume (ch : nat) (queue : string) (cfg : ConsumeConfig).

(** The result of the last call of a history: an error if any; for the calls that ask a
    question or name a queue, the answer. *)
Class AmqpEnv := {
  amqp_err : list AmqpCall -> option error;
  amqp_closed : list AmqpCall -> bool;
  amqp_queue_name : list AmqpCall -> string
}.

Section Mq.
Context {A : AmqpEnv}.

(** The connection ([conn], [closed]) and a consumer ([channel], [queue]). *)
Record MqWorld := mkMq {
  mq_calls : list AmqpCall;
  mq_conn : option nat;
  mq_closed : bool;
  mq_channel : option nat;
  mq_queue : string
}.

Definition mq_record (c : AmqpCall) (w : MqWorld) : MqWorld :=
  mkMq (mq_calls w ++ [c]) (mq_conn w) (mq_closed w) (mq_channel w) (mq_queue w).
Definition set_conn (c : option nat) (w : MqWorld) : MqWorld :=
  mkMq (mq_calls w) c (mq_closed w) (mq_channel w) (mq_queue w).
Definition set_closed (w : MqWorld) : MqWorld :=
  mkMq (mq_calls w) (mq_conn w) true (mq_channel w) (mq_queue w).
Definition set_channel (c : option nat) (w : MqWorld) : MqWorld :=
  mkMq (mq_calls w) (mq_conn w) (mq_closed w) c (mq_queue w).
Definition set_queue (q : string) (w : MqWorld) : MqWorld :=
  mkMq (mq_calls w) (mq_conn w) (mq_closed w) (mq_channel w) q.

(** A call that fails or not; its result is the history it leaves. *)
Definition amqp (c : AmqpCall) : go MqWorld (list AmqpCall) := fun w =>
  let w' := mq_record c w in
  (match amqp_err (mq_calls w') with Some e => Err e | None => Ret (mq_calls w') end, w').

Definition amqp_ask (c : AmqpCall) : go MqWorld bool := fun w =>
  let w' := mq_record c w in (Ret (amqp_closed (mq_calls w')), w').

(** The number of the object the last call made. *)
Definition made (h : list AmqpCall) : nat := length h.

(** *** [rabbitmq_connection.go] *)

Definition err_connection_closed : error := Errorf "rabbitmq connection closed" [].

(** The loop of [reconnectLocked] with [attempts] attempts to go. *)
Fixpoint dial_loop (attempts : nat) (lastErr : option error) : go MqWorld unit :=
  match attempts with
  | O => throw (Wrapf "dial rabbitmq after %d attempts: %w" ["5"]
                  (default (LibError "<nil>") lastErr))
  | S attempts =>
      r ← attempt (amqp AmDial);
      match r with
      | inr h => modify (set_conn (Some (made h)))
      | inl e =>
          _ ← (match attempts with O => mret tt | S _ => modify (mq_record AmSleep) end);
          dial_loop attempts (Some e)
      end
  end.

Definition reconnectLocked : go MqWorld unit :=
  closed ← gets mq_closed;
  _ ← guard_err closed err_connection_closed;
  dial_loop rabbitDialAttempts None.

Definition NewRabbitMqConnection : go MqWorld unit := reconnectLocked.

Definition IsConnectionOpen : go MqWorld bool :=
  conn ← gets mq_conn;
  match conn with
  | None => mret false
  | Some c => closed ← amqp_ask (AmConnIsClosed c); mret (negb closed)
  end.

Definition Connection_Close : go MqWorld unit :=
  _ ← modify set_closed;
  conn ← gets mq_conn;
  match conn with
  | None => mret tt
  | Some c =>
      closed ← amqp_ask (AmConnIsClosed c);
      if (closed : bool) then mret tt else _ ← amqp (AmConnClose c); mret tt
  end.

Definition reconnect_and_get : go MqWorld (option nat) :=
  _ ← reconnectLocked; gets mq_conn.

Definition openConnection : go MqWorld (option nat) :=
  closed ← gets mq_closed;
  _ ← guard_err closed err_connection_closed;
  conn ← gets mq_conn;
  match conn with
  | Some c =>
      is_closed ← amqp_ask (AmConnIsClosed c);
      if negb is_closed then mret (Some c) else reconnect_and_get
  | None => reconnect_and_get
  end.

(** *** [rabbitmq_channel.go] *)

(** [conn.Channel()] on the connection [openConnection] returned. *)
Definition make_channel (conn : option nat) : go MqWorld nat :=
  match conn with
  | None => go_panic "nil pointer dereference"
  | Some c => h ← amqp (AmChannel c); mret (made h)
  end.

Definition openChannel : go MqWorld unit :=
  conn ← openConnection;
  r ← attempt (make_channel conn);
  ch ← match r with
       | inr ch => mret ch
       | inl e =>
           closed ← amqp_ask (AmConnIsClosed (default 0%nat conn));
           _ ← guard_err (negb closed) e;
           conn ← openConnection;
           make_channel conn
       end;
  modify (set_channel (Some ch)).

Definition CloseChannel : go MqWorld unit :=
  ch ← gets mq_channel;
  match ch with
  | None => mret tt
  | Some c =>
      closed ← amqp_ask (AmChIsClosed c);
      if (closed : bool) then mret tt else _ ← amqp (AmChClose c); mret tt
  end.

(** [if c.channel == nil || c.channel.IsClosed() { reopenChannel }] *)
Definition ensure_channel : go MqWorld unit :=
  ch ← gets mq_channel;
  match ch with
  | None => openChannel
  | Some c => closed ← amqp_ask (AmChIsClosed c); if (closed : bool) then openChannel else mret tt
  end.

Definition the_channel : go MqWorld nat :=
  ch ← gets mq_channel;
  match ch with Some c => mret c | None => go_panic "nil pointer dereference" end.

(** *** [rabbitmq_consumer.go] *)

(** The error of a call with its context. *)
Definition wrap_err {T} (fmt : string) (args : list string) (m : go MqWorld T) : go MqWorld T :=
  r ← attempt m;
  match r with inl e => throw (Wrapf fmt args e) | inr a => mret a end.

Definition NewRabbitmqConsumer : go MqWorld unit :=
  _ ← modify (fun w => set_queue "" (set_channel None w));
  openChannel.

Definition DeclareQueue (cfg : QueueConfig) : go MqWorld unit :=
  _ ← ensure_channel;
  ch ← the_channel;
  h ← wrap_err "declare queue %q: %w" [q_Name cfg] (amqp (AmQueueDeclare ch cfg));
  modify (set_queue (amqp_queue_name h)).

Definition BindQueue (cfg : BindingConfig) : go MqWorld unit :=
  _ ← ensure_channel;
  queue ← gets mq_queue;
  _ ← guard_err (String.eqb queue "") (Errorf "queue not declared" []);
  ch ← the_channel;
  _ ← wrap_err "bind queue %q to exchange %q with routing key %q: %w"
        [queue; ExchangeName cfg; b_RoutingKey cfg] (amqp (AmQueueBind ch queue cfg));
  mret tt.

(** The deliveries are the bus's business; here only that consuming started. *)
Definition Consume (cfg : ConsumeConfig) : go MqWorld unit :=
  _ ← ensure_channel;
  queue ← gets mq_queue;
  ch ← the_channel;
  _ ← amqp (AmConsume ch queue cfg);
  mret tt.

(** ** Dialling *)

Definition is_dial (c : AmqpCall) : bool := match c with AmDial => true | _ => false end.

(** The dials and pauses of a loop that fails [k] times. *)
Fixpoint failed_dials (k : nat) : list AmqpCall :=
  match k with O => [] | S k => AmDial :: AmSleep :: failed_dials k end.

(** [k] failed attempts after the history [h], all pauses included. *)
Fixpoint dials_fail (k : nat) (h : list AmqpCall) : Prop :=
  match k with
  | O => True
  | S k => amqp_err (h ++ [AmDial]) <> None /\ dials_fail k (h ++ [AmDial; AmSleep])
  end.

(** One failed attempt with others to go, and one that succeeds. *)
Lemma dial_loop_again attempts e w :
  amqp_err (mq_calls w ++ [AmDial]) <> None ->
  exists e', amqp_err (mq_calls w ++ [AmDial]) = Some e'
    /\ dial_loop (S (S attempts)) e w
       = dial_loop (S attempts) (Some e') (mq_record AmSleep (mq_record AmDial w)).
Proof.
  intros Hf. destruct (amqp_err (mq_calls w ++ [AmDial])) as [e'|] eqn:E; [|done].
  exists e'. split; [done|]. change (dial_loop (S (S attempts)) e)
    with (r ← attempt (amqp AmDial);
          match r with
          | inr h => modify (set_conn (Some (made h)))
          | inl e => _ ← modify (mq_record AmSleep); dial_loop (S attempts) (Some e)
          end).
  assert (Ha : attempt (amqp AmDial) w = (Ret (inl e'), mq_record AmDial w))
    by (unfold attempt, amqp; cbn [mq_calls mq_record]; by rewrite E).
  rewrite (bind_Ret _ _ _ _ _ Ha). reflexivity.
Qed.

Lemma dial_loop_ok attempts e w :
  amqp_err (mq_calls w ++ [AmDial]) = None ->
  dial_loop (S attempts) e w
  = (Ret tt, set_conn (Some (made (mq_calls w ++ [AmDial]))) (mq_record AmDial w)).
Proof.
  intros Hok. cbn [dial_loop]. unfold mbind, go_bind, attempt, amqp.
  cbn [mq_calls mq_record]. by rewrite Hok.
Qed.

Lemma dial_loop_last e w e' :
  amqp_err (mq_calls w ++ [AmDial]) = Some e' ->
  dial_loop 1 e w
  = (Err (Wrapf "dial rabbitmq after %d attempts: %w" ["5"] e'), mq_record AmDial w).
Proof.
  intros Hok. cbn [dial_loop]. unfold mbind, go_bind, attempt, amqp.
  cbn [mq_calls mq_record]. by rewrite Hok.
Qed.

Lemma dial_loop_failures k attempts e w :
  dials_fail k (mq_calls w) ->
  exists e', dial_loop (k + S attempts) e w
             = dial_loop (S attempts) e'
                 (mkMq (mq_calls w ++ failed_dials k) (mq_conn w) (mq_closed w) (mq_channel w) (mq_queue w)).
Proof.
  revert e w. induction k as [|k IH]; intros e w Hf.
  - exists e. cbn [failed_dials]. rewrite app_nil_r. by destruct w.
  - destruct Hf as [H1 Hf].
    replace (S k + S attempts)%nat with (S (S (k + attempts))) by lia.
    destruct (dial_loop_again (k + attempts) e w H1) as (e1 & _ & ->).
    replace (S (k + attempts))%nat with (k + S attempts)%nat by lia.
    destruct (IH (Some e1) (mq_record AmSleep (mq_record AmDial w))) as (e2 & ->).
    { cbn. rewrite <- app_assoc. exact Hf. }
    exists e2. cbn [failed_dials mq_calls mq_record mq_conn mq_closed mq_channel mq_queue].
    by rewrite <- !app_assoc.
Qed.

Lemma reconnectLocked_open w :
  mq_closed w = false -> reconnectLocked w = dial_loop rabbitDialAttempts None w.
Proof. unfold reconnectLocked, mbind, go_bind, gets. by intros ->. Qed.

(** Connecting succeeds at the first dial that does, and holds the connection it made. *)
Lemma reconnect_dials w k :
  mq_closed w = false -> (k < rabbitDialAttempts)%nat -> dials_fail k (mq_calls w) ->
  let h := mq_calls w ++ failed_dials k ++ [AmDial] in
  amqp_err h = None ->
  reconnectLocked w = (Ret tt, mkMq h (Some (made h)) false (mq_channel w) (mq_queue w)).
Proof.
  cbv zeta. intros Hc Hk Hf Hok. rewrite reconnectLocked_open by done. unfold rabbitDialAttempts in *.
  replace 5%nat with (k + S (4 - k))%nat by lia.
  destruct (dial_loop_failures k (4 - k) None w Hf) as (e & ->).
  rewrite dial_loop_ok by (cbn [mq_calls]; by rewrite <- app_assoc).
  unfold set_conn, mq_record. cbn [mq_calls mq_conn mq_closed mq_channel mq_queue].
  by rewrite <- app_assoc, Hc.
Qed.

(** The object the last call made was not there before. *)
Lemma made_fresh h l h0 : l <> [] -> h0 `prefix_of` h -> made h0 <> made (h ++ l).
Proof.
  intros Hl Hp. apply prefix_length in Hp. unfold made. rewrite length_app.
  destruct l; [done|]. cbn. lia.
Qed.

Lemma reconnect_and_get_Ret w w' :
  reconnectLocked w = (Ret tt, w') -> reconnect_and_get w = (Ret (mq_conn w'), w').
Proof. intros H. unfold reconnect_and_get. by rewrite (bind_Ret _ _ _ _ _ H). Qed.

(** C38: connecting dials at most five times, with a pause after each failed attempt but
    the last, stops at the first success and then holds the connection that dial made,
    which is none of those made before; after five failures it reports the last error and
    holds what it held. Opening the connection asks whether the one at hand, if there is
    one, is closed; it dials only if it is or if there is none, and then gives the new one.
    Once the client is closed nothing is dialled. *)
Theorem reconnect_correct w :
  (mq_closed w = true -> reconnectLocked w = (Err err_connection_closed, w)
                         /\ openConnection w = (Err err_connection_closed, w))
  /\ (mq_closed w = false -> forall k, (k < 5)%nat -> dials_fail k (mq_calls w) ->
       let h := mq_calls w ++ failed_dials k ++ [AmDial] in
       let w' := mkMq h (Some (made h)) false (mq_channel w) (mq_queue w) in
       amqp_err h = None ->
       reconnectLocked w = (Ret tt, w')
       /\ (forall h0, h0 `prefix_of` mq_calls w -> made h0 <> made h)
       /\ (mq_conn w = None -> openConnection w = (Ret (Some (made h)), w')))
  /\ (mq_closed w = false -> forall c, mq_conn w = Some c ->
       let asked := mq_calls w ++ [AmConnIsClosed c] in
       (amqp_closed asked = false ->
          openConnection w = (Ret (Some c), mkMq asked (Some c) false (mq_channel w) (mq_queue w)))
       /\ forall k, (k < 5)%nat -> dials_fail k asked ->
          let h := asked ++ failed_dials k ++ [AmDial] in
          amqp_closed asked = true -> amqp_err h = None ->
          openConnection w
            = (Ret (Some (made h)), mkMq h (Some (made h)) false (mq_channel w) (mq_queue w)))
  /\ (mq_closed w = false -> dials_fail 5 (mq_calls w) ->
       exists e, amqp_err (mq_calls w ++ failed_dials 4 ++ [AmDial]) = Some e
         /\ reconnectLocked w
           = (Err (Wrapf "dial rabbitmq after %d attempts: %w" ["5"] e),
              mkMq (mq_calls w ++ failed_dials 4 ++ [AmDial]) (mq_conn w) false
                (mq_channel w) (mq_queue w))).
Proof.
  assert (Hopen : forall k : go MqWorld (option nat), mq_closed w = false ->
    (closed ← gets mq_closed; _ ← guard_err closed err_connection_closed; k) w = k w).
  { intros k Hc. unfold mbind, go_bind, gets, guard_err, mret, go_ret. by rewrite Hc. }
  split; [|split; [|split]].
  - intros Hc. unfold reconnectLocked, openConnection, mbind, go_bind, gets, guard_err, throw.
    by rewrite Hc.
  - intros Hc k Hk Hf h w' Hok. pose proof (reconnect_dials w k Hc Hk Hf Hok) as Hr.
    split; [exact Hr|]. split.
    + intros h0. apply made_fresh. by destruct k.
    + intros Hn. unfold openConnection. rewrite Hopen by done. unfold mbind at 1, go_bind at 1, gets.
      rewrite Hn. exact (reconnect_and_get_Ret _ _ Hr).
  - intros Hc c Hw asked. unfold openConnection. rewrite !Hopen by done.
    unfold mbind, go_bind, gets, amqp_ask. rewrite Hw. cbn [mq_calls mq_record]. fold asked.
    split; [intros ->|intros k Hk Hf Hcl Hok; rewrite Hcl].
    + unfold mq_record. by rewrite Hc, Hw.
    + exact (reconnect_and_get_Ret _ _ (reconnect_dials (mq_record (AmConnIsClosed c) w) k Hc Hk Hf Hok)).
  - intros Hc Hf. rewrite reconnectLocked_open by done.
    change rabbitDialAttempts with (4 + 1)%nat.
    assert (Hf4 : dials_fail 4 (mq_calls w)) by (cbn in *; tauto).
    assert (H5 : amqp_err (mq_calls w ++ failed_dials 4 ++ [AmDial]) <> None).
    { destruct Hf as (_ & _ & _ & _ & H & _). cbn in H. by rewrite <- !app_assoc in H. }
    destruct (amqp_err (mq_calls w ++ failed_dials 4 ++ [AmDial])) as [e5|] eqn:E5; [|done].
    exists e5. split; [done|].
    destruct (dial_loop_failures 4 0 None w Hf4) as (e & ->).
    rewrite (dial_loop_last _ _ e5) by (cbn [mq_calls]; by rewrite <- app_assoc).
    unfold mq_record. cbn [mq_calls mq_conn mq_closed mq_channel mq_queue].
    by rewrite <- app_assoc, Hc.
Qed.
End Mq.

(** ** The AMQP calls do not panic: a channel is used only when there is one *)

Section MqSafe.
Context {A : AmqpEnv}.
Notation anyway := (fun _ : MqWorld => True).

Lemma amqp_safe t c : safe t anyway (amqp c) (fun _ => anyway).
Proof. intros w _. unfold amqp. by destruct (amqp_err _). Qed.

Lemma amqp_ask_safe t c : safe t anyway (amqp_ask c) (fun _ => anyway).
Proof. by intros w _. Qed.

Lemma dial_loop_safe t attempts e :
  safe t anyway (dial_loop attempts e) (fun _ w => mq_conn w <> None).
Proof.
  revert e. induction attempts as [|n IH]; intros e w _; [done|]. cbn [dial_loop].
  unfold mbind, go_bind, attempt, amqp. cbn [mq_calls mq_record].
  destruct (amqp_err _) as [e'|]; [|done]. destruct n; by apply IH.
Qed.

Lemma reconnect_safe t : safe t anyway reconnect_and_get (fun c _ => c <> None).
Proof.
  unfold reconnect_and_get, reconnectLocked. intros w _. unfold mbind, go_bind, gets.
  unfold guard_err, throw, mret, go_ret. destruct (mq_closed w); [done|].
  pose proof (dial_loop_safe t rabbitDialAttempts None w I) as H.
  by destruct (dial_loop _ _ w) as [[[]|e|p|] w'].
Qed.

Lemma openConnection_safe t : safe t anyway openConnection (fun c _ => c <> None).
Proof.
  intros w _. unfold openConnection, mbind, go_bind, gets. unfold guard_err, throw, mret, go_ret.
  destruct (mq_closed w); [done|]. destruct (mq_conn w) as [c|]; [|by apply reconnect_safe].
  destruct (amqp_ask _ w) as [[closed|e|p|] w'] eqn:Ea; try done.
  destruct (negb closed); [done|by apply reconnect_safe].
Qed.

Lemma make_channel_safe t c : c <> None -> safe t anyway (make_channel c) (fun _ => anyway).
Proof.
  intros Hc. unfold make_channel. destruct c as [c|]; [|done].
  eapply safe_bind; [apply amqp_safe|intros h]. by apply safe_ret.
Qed.

Lemma openChannel_safe t : safe t anyway openChannel (fun _ w => mq_channel w <> None).
Proof.
  unfold openChannel. eapply safe_bind; [apply openConnection_safe|intros conn w Hconn].

  unfold mbind at 1, go_bind at 1.
  pose proof (make_channel_safe t conn Hconn w I) as H1. unfold attempt.
  destruct (make_channel conn w) as [[ch|e|p|] w1]; try done.
  assert (Hs : safe t anyway
    (ch ← (closed ← amqp_ask (AmConnIsClosed (default 0%nat conn));
           _ ← guard_err (negb closed) e; conn ← openConnection; make_channel conn);
     modify (set_channel (Some ch))) (fun _ w => mq_channel w <> None)).
  { eapply safe_bind; [|by intros ch w' _]. eapply safe_bind; [apply amqp_ask_safe|intros closed].
    eapply safe_bind; [apply safe_guard|intros ?].
    eapply safe_bind; [eapply safe_weaken; [apply openConnection_safe|done|intros ? ? Ha; exact Ha]|].
    intros c w' Hc. by apply (make_channel_safe t c Hc). }
  exact (Hs w1 I).
Qed.

Lemma ensure_channel_safe t : safe t anyway ensure_channel (fun _ w => mq_channel w <> None).
Proof.
  intros w _. unfold ensure_channel, mbind, go_bind, gets.
  destruct (mq_channel w) as [c|] eqn:Ec; [|by apply openChannel_safe].
  destruct (amqp_ask _ w) as [[[]|e|p|] w'] eqn:Ea; try done.
  - by apply openChannel_safe.
  - injection Ea as _ <-. simpl. congruence.
Qed.

Lemma the_channel_safe t :
  safe t (fun w : MqWorld => mq_channel w <> None) the_channel (fun _ => anyway).
Proof. intros w Hw. unfold the_channel, mbind, go_bind, gets. by destruct (mq_channel w). Qed.

Lemma wrap_amqp_safe t fmt args c : safe t anyway (wrap_err fmt args (amqp c)) (fun _ => anyway).
Proof.
  intros w _. unfold wrap_err, attempt, mbind, go_bind, amqp. by destruct (amqp_err _).
Qed.

Lemma DeclareQueue_safe t cfg : safe t anyway (DeclareQueue cfg) (fun _ => anyway).
Proof.
  unfold DeclareQueue. safe_seq ensure_channel_safe as ?. safe_seq the_channel_safe as ch.
  safe_seq wrap_amqp_safe as h. by intros w _.
Qed.

Lemma BindQueue_safe t cfg : safe t anyway (BindQueue cfg) (fun _ => anyway).
Proof.
  unfold BindQueue. safe_seq ensure_channel_safe as ?. safe_seq @safe_gets as q.
  eapply safe_bind; [apply safe_guard|intros ?].
  eapply safe_bind; [eapply safe_weaken; [apply the_channel_safe|by intros w [? _]|by intros ? ? ?]|intros ch].
  safe_seq wrap_amqp_safe as h. by apply safe_ret.
Qed.

Lemma Consume_safe t cfg : safe t anyway (Consume cfg) (fun _ => anyway).
Proof.
  unfold Consume. safe_seq ensure_channel_safe as ?. safe_seq @safe_gets as q.
  safe_seq the_channel_safe as ch. safe_seq amqp_safe as h. by apply safe_ret.
Qed.

Lemma CloseChannel_safe t : safe t anyway CloseChannel (fun _ => anyway).
Proof.
  unfold CloseChannel. safe_seq @safe_gets as ch. destruct ch as [c|]; [|by apply safe_ret].
  safe_seq amqp_ask_safe as closed. destruct closed; [by apply safe_ret|].
  safe_seq amqp_safe as h. by apply safe_ret.
Qed.

Lemma mq_robust {T} t (m : go MqWorld T) Q : safe t anyway m Q -> robust t anyway m.
Proof. intros H. eapply robust_intro; [exact H|]. by intros w _. Qed.
End MqSafe.

(** ** What a consumer's operations ask of the broker *)

Section ConsumerSpec.
Context {A : AmqpEnv}.

(** The history has grown from [h]; the consumer's queue is [q]. *)
Definition grown (h : list AmqpCall) (q : string) (w : MqWorld) : Prop :=
  h `prefix_of` mq_calls w /\ mq_queue w = q.

Lemma amqp_grown h q c : keeps (grown h q) (amqp c).
Proof. intros w [Hh Hq]. split; [by apply prefix_app_r|done]. Qed.

Lemma amqp_ask_grown h q c : keeps (grown h q) (amqp_ask c).
Proof. intros w [Hh Hq]. split; [by apply prefix_app_r|done]. Qed.

Lemma modify_grown h q f :
  (forall w, mq_calls (f w) = mq_calls w /\ mq_queue (f w) = mq_queue w) ->
  keeps (grown h q) (modify f).
Proof. intros Hf w [Hh Hq]. unfold grown. simpl. destruct (Hf w) as [-> ->]. done. Qed.

#[local] Hint Resolve amqp_grown amqp_ask_grown : guest.

Lemma dial_loop_grown h q attempts e : keeps (grown h q) (dial_loop attempts e).
Proof.
  revert e. induction attempts as [|n IH]; intros e; [apply keeps_throw|].
  cbn [dial_loop]. keeps_auto.
  - apply keeps_modify. intros w [Hh Hq]. split; [by apply prefix_app_r|done].
  - by apply modify_grown.
Qed.

#[local] Hint Resolve dial_loop_grown : guest.

Lemma openConnection_grown h q : keeps (grown h q) openConnection.
Proof. unfold openConnection, reconnect_and_get, reconnectLocked. keeps_auto. Qed.

#[local] Hint Resolve openConnection_grown : guest.

Lemma openChannel_grown h q : keeps (grown h q) openChannel.
Proof. unfold openChannel, make_channel. keeps_auto; by apply modify_grown. Qed.

Lemma ensure_channel_Ret w w' :
  ensure_channel w = (Ret tt, w') ->
  mq_calls w `prefix_of` mq_calls w' /\ mq_queue w' = mq_queue w.
Proof.
  intros H. pose proof (openChannel_grown (mq_calls w) (mq_queue w)) as Ho.
  assert (Hk : keeps (grown (mq_calls w) (mq_queue w)) ensure_channel)
    by (unfold ensure_channel; keeps_auto).
  specialize (Hk w ltac:(by split)). by rewrite H in Hk.
Qed.

Lemma the_channel_Ret w ch w' : the_channel w = (Ret ch, w') -> w' = w.
Proof.
  unfold the_channel, mbind, go_bind, gets. destruct (mq_channel w); [|done]. by intros [= _ <-].
Qed.

Lemma amqp_Ret c w h w' :
  amqp c w = (Ret h, w') -> mq_calls w' = mq_calls w ++ [c] /\ mq_queue w' = mq_queue w /\ h = mq_calls w'.
Proof. unfold amqp. destruct (amqp_err _); [done|]. by intros [= <- <-]. Qed.

Lemma wrap_amqp_Ret fmt args c w h w' :
  wrap_err fmt args (amqp c) w = (Ret h, w') -> amqp c w = (Ret h, w').
Proof.
  unfold wrap_err, attempt, mbind, go_bind. destruct (amqp c w) as [[a|e|p|] w1]; try done.
Qed.

(** A queue is declared by one call with the given configuration, and the consumer keeps
    the name the broker answered. *)
Lemma DeclareQueue_Ret cfg w w' :
  DeclareQueue cfg w = (Ret tt, w') ->
  exists h ch, mq_calls w' = mq_calls w ++ h ++ [AmQueueDeclare ch cfg]
    /\ mq_queue w' = amqp_queue_name (mq_calls w').
Proof.
  unfold DeclareQueue. intros H. go_inv H. destruct v. apply ensure_channel_Ret in Hrun as [[h Hh] Hq].
  go_inv H. apply the_channel_Ret in Hrun as ->.
  go_inv H. apply wrap_amqp_Ret, amqp_Ret in Hrun as (Hc & _ & ->).
  injection H as <-. exists h, v. cbn. rewrite Hc, Hh, <- app_assoc. done.
Qed.

Lemma BindQueue_Ret cfg w w' :
  BindQueue cfg w = (Ret tt, w') ->
  exists h ch, mq_calls w' = mq_calls w ++ h ++ [AmQueueBind ch (mq_queue w) cfg]
    /\ mq_queue w' = mq_queue w.
Proof.
  unfold BindQueue. intros H. go_inv H. destruct v. apply ensure_channel_Ret in Hrun as [[h Hh] Hq].
  go_inv H. injection Hrun as <- <-. go_inv H. destruct v. apply guard_inv in Hrun as [_ <-].
  go_inv H. apply the_channel_Ret in Hrun as ->.
  go_inv H. apply wrap_amqp_Ret, amqp_Ret in Hrun as (Hc & Hq' & ->).
  injection H as <-. exists h, v. rewrite Hq', Hc, Hh, Hq, <- app_assoc. done.
Qed.

Lemma Consume_Ret cfg w w' :
  Consume cfg w = (Ret tt, w') ->
  exists h ch, mq_calls w' = mq_calls w ++ h ++ [AmConsume ch (mq_queue w) cfg].
Proof.
  unfold Consume. intros H. go_inv H. destruct v. apply ensure_channel_Ret in Hrun as [[h Hh] Hq].
  go_inv H. injection Hrun as <- <-. go_inv H. apply the_channel_Ret in Hrun as ->.
  go_inv H. apply amqp_Ret in Hrun as (Hc & _ & _). injection H as <-.
  exists h, v. by rewrite Hc, Hh, Hq, <- app_assoc.
Qed.
End ConsumerSpec.
