(* ===== verification/Fakes.v ===== *)
(** * The test doubles: [infra/*/fakes/]

    The cache, the chat client, the clock, the consumer and the acknowledger the tests put
    in the place of the real ones, and what they share with them. *)

From Stdlib Require Import ZArith Lia.
From stdpp Require Import base tactics list option strings gmap.
From S2P Require Import Prelude GoEffects GoTime GoText Domain Json World Samples Bus Lodging Mq.
Open Scope Z_scope.

(** ** [redis/fakes/cache.go] *)

Record Cache := mkFakeCache {
  SetErr : option error;
  GetValue : string;
  GetErr : option error;
  DelErr : option error;
  EnsureKeyErr : option error;
  LoadValue : GuestJourneyCacheValue;
  LoadErr : option error;
  SaveErr : option error;
  SavedValue : GuestJourneyCacheValue;
  DeletedKey : string
}.

(** The double and the state its operations are given. *)
Record FakeWorld := mkFakeWorld { fw_cache : Cache; fw_state : option State }.

Definition set_saved (v : GuestJourneyCacheValue) (c : Cache) : Cache :=
  mkFakeCache (SetErr c) (GetValue c) (GetErr c) (DelErr c) (EnsureKeyErr c) v (LoadErr c) (SaveErr c)
    v (DeletedKey c).
Definition set_deleted (k : string) (c : Cache) : Cache :=
  mkFakeCache (SetErr c) (GetValue c) (GetErr c) (DelErr c) (EnsureKeyErr c) (LoadValue c) (LoadErr c)
    (SaveErr c) (SavedValue c) k.

(** Run on the double. *)
Definition on_fake (f : Cache -> Cache) : go FakeWorld unit :=
  modify (fun w => mkFakeWorld (f (fw_cache w)) (fw_state w)).

Definition fake_Set (key value : string) : go FakeWorld unit :=
  c ← gets fw_cache; lift_opt (SetErr c).
(** The value comes with the error. *)
Definition fake_Get (key : string) : go FakeWorld (string * option error) :=
  c ← gets fw_cache; mret (GetValue c, GetErr c).
Definition fake_Del (key : string) : go FakeWorld unit :=
  _ ← on_fake (set_deleted key); c ← gets fw_cache; lift_opt (DelErr c).

Definition fake_EnsureKey : go FakeWorld string := fun w =>
  match EnsureKeyErr (fw_cache w), fw_state w with
  | Some e, _ => (Err e, w)
  | None, None => (Err (Errorf "nil state" []), w)
  | None, Some s =>
      if negb (String.eqb (st_RedisKey s) "") then (Ret (st_RedisKey s), w)
      else if String.eqb (st_GuestId s) "" then (Err (Errorf "empty guest id" []), w)
      else (Ret ("guest." +:+ st_GuestId s),
            mkFakeWorld (fw_cache w) (Some (set_RedisKey ("guest." +:+ st_GuestId s) s)))
  end.

(** The state is not looked at; the value comes with the error. *)
Definition fake_Load : go FakeWorld (GuestJourneyCacheValue * option error) :=
  c ← gets fw_cache; mret (LoadValue c, LoadErr c).
Definition fake_Save (value : GuestJourneyCacheValue) : go FakeWorld unit :=
  _ ← on_fake (set_saved value); c ← gets fw_cache; lift_opt (SaveErr c).

(** ** [websocket/fakes/client.go] *)

Record Client := mkFakeClient {
  Messages : list ChatMessage;
  WaitErr : option error;
  ReplyErr : option error;
  SendErr : option error;
  CloseErr : option error;
  Replies : list GuestResponse;
  ReplyTo : list ChatMessage;
  SendActions : list GuestAction
}.

Definition answer_err (e : option error) : LodgingAnswer :=
  match e with Some e => AnswerErr e | None => AnswerOk end.

Definition fake_Close (c : Client) : LodgingAnswer * Client := (answer_err (CloseErr c), c).

Definition fake_SendAction (a : GuestAction) (c : Client) : LodgingAnswer * Client :=
  match SendErr c with
  | Some e => (AnswerErr e, c)
  | None => (AnswerOk, mkFakeClient (Messages c) (WaitErr c) (ReplyErr c) (SendErr c) (CloseErr c)
                         (Replies c) (ReplyTo c) (SendActions c ++ [a]))
  end.

Definition fake_Reply (m : ChatMessage) (r : GuestResponse) (c : Client) : LodgingAnswer * Client :=
  match ReplyErr c with
  | Some e => (AnswerErr e, c)
  | None => (AnswerOk, mkFakeClient (Messages c) (WaitErr c) (ReplyErr c) (SendErr c) (CloseErr c)
                         (Replies c ++ [r]) (ReplyTo c ++ [m]) (SendActions c))
  end.

Definition fake_WaitForNextSystemMessage (c : Client) : LodgingAnswer * Client :=
  match WaitErr c, Messages c with
  | Some e, _ => (AnswerErr e, c)
  | None, [] => (AnswerErr ContextCanceled, c)
  | None, m :: rest =>
      (AnswerMessage m, mkFakeClient rest (WaitErr c) (ReplyErr c) (SendErr c) (CloseErr c)
                          (Replies c) (ReplyTo c) (SendActions c))
  end.

(** A call of the stay on the double; the factory hands it out, the hours pass at once. *)
Definition fake_call (c : LodgingCall) (f : Client) : LodgingAnswer * Client :=
  match c with
  | CallNewClient _ | CallWaitUntil _ => (AnswerOk, f)
  | CallSendAction a => fake_SendAction a f
  | CallReply m r => fake_Reply m r f
  | CallNext => fake_WaitForNextSystemMessage f
  | CallClose => fake_Close f
  end.

Definition fake_after (h : list LodgingCall) (f : Client) : Client :=
  fold_left (fun f c => snd (fake_call c f)) h f.

(** The double as the environment of a stay. *)
Definition fake_env (f : Client) (keyID : string) : LodgingEnv := {|
  env_lodging h :=
    match last h with
    | Some c => fst (fake_call c (fake_after (removelast h) f))
    | None => AnswerNever
    end;
  env_keyID := keyID
|}.

(** ** [clock/fakes], [mq/fakes] *)

Record Clock := mkFakeClock { NowValue : Time; NowErr : option error; ClockCloseErr : option error }.
Definition fake_Now (c : Clock) : error + Time :=
  match NowErr c with Some e => inl e | None => inr (NowValue c) end.

Record Consumer := mkFakeConsumer {
  DeclareErr : option error;
  BindErr : option error;
  ConsumeErr : option error;
  ConsumerCloseErr : option error;
  DeclareCfg : option QueueConfig;
  BindingCfg : option BindingConfig;
  Deliveries : list Delivery;
  CloseCalls : nat
}.

Definition fake_DeclareQueue (cfg : QueueConfig) : go Consumer unit := fun c =>
  (match DeclareErr c with Some e => Err e | None => Ret tt end,
   mkFakeConsumer (DeclareErr c) (BindErr c) (ConsumeErr c) (ConsumerCloseErr c) (Some cfg) (BindingCfg c)
     (Deliveries c) (CloseCalls c)).
Definition fake_BindQueue (cfg : BindingConfig) : go Consumer unit := fun c =>
  (match BindErr c with Some e => Err e | None => Ret tt end,
   mkFakeConsumer (DeclareErr c) (BindErr c) (ConsumeErr c) (ConsumerCloseErr c) (DeclareCfg c) (Some cfg)
     (Deliveries c) (CloseCalls c)).
Definition fake_Consume (c : Consumer) : list Delivery * option error := (Deliveries c, ConsumeErr c).
Definition fake_CloseChannel : go Consumer unit := fun c =>
  (match ConsumerCloseErr c with Some e => Err e | None => Ret tt end,
   mkFakeConsumer (DeclareErr c) (BindErr c) (ConsumeErr c) (ConsumerCloseErr c) (DeclareCfg c) (BindingCfg c)
     (Deliveries c) (S (CloseCalls c))).

Record Acknowledger := mkFakeAcknowledger { AckCalls : nat; NackCalls : nat; RejectErr : option error }.
Definition fake_Ack (a : Acknowledger) : Acknowledger :=
  mkFakeAcknowledger (S (AckCalls a)) (NackCalls a) (RejectErr a).
Definition fake_Nack (a : Acknowledger) : Acknowledger :=
  mkFakeAcknowledger (AckCalls a) (S (NackCalls a)) (RejectErr a).
Definition fake_Reject (a : Acknowledger) : option error := RejectErr a.

(** What the fake acknowledger counts of the calls a loop has made. *)
Definition fake_acks (calls : list AckCall) (a : Acknowledger) : Acknowledger :=
  fold_left (fun a c => match c with CallAck _ _ => fake_Ack a | CallNack _ _ _ => fake_Nack a end) calls a.

(** ** What a test learns from a double *)

(** What the chat double has recorded of a history. *)
Definition sent_action (c : LodgingCall) : option GuestAction :=
  match c with CallSendAction a => Some a | _ => None end.
Definition sent_reply (c : LodgingCall) : option GuestResponse :=
  match c with CallReply _ r => Some r | _ => None end.
Definition replied_to (c : LodgingCall) : option ChatMessage :=
  match c with CallReply m _ => Some m | _ => None end.

Lemma fake_after_snoc h c f : fake_after (h ++ [c]) f = snd (fake_call c (fake_after h f)).
Proof. unfold fake_after. by rewrite fold_left_app. Qed.

(** The injected errors stay as they are. *)
Lemma fake_after_errors h f :
  WaitErr (fake_after h f) = WaitErr f /\ ReplyErr (fake_after h f) = ReplyErr f
  /\ SendErr (fake_after h f) = SendErr f.
Proof.
  induction h as [|c h IH] using rev_ind; [done|]. rewrite fake_after_snoc.
  destruct IH as (<- & <- & <-). destruct c as [|t|a|m r| |]; cbn; try done.
  - unfold fake_SendAction. destruct (SendErr (fake_after h f)) eqn:Ee; cbn; by rewrite ?Ee.
  - unfold fake_Reply. destruct (ReplyErr (fake_after h f)) eqn:Ee; cbn; by rewrite ?Ee.
  - unfold fake_WaitForNextSystemMessage.
    destruct (WaitErr (fake_after h f)) eqn:Ee, (Messages (fake_after h f)); cbn; by rewrite ?Ee.
Qed.

(** Unless told to fail, the double records every action in order, and every reply with the
    message it answers, and gives its messages out one by one; else it does nothing. *)
Lemma fake_after_records h f :
  SendActions (fake_after h f) = SendActions f ++ (if SendErr f then [] else omap sent_action h)
  /\ Replies (fake_after h f) = Replies f ++ (if ReplyErr f then [] else omap sent_reply h)
  /\ ReplyTo (fake_after h f) = ReplyTo f ++ (if ReplyErr f then [] else omap replied_to h)
  /\ Messages (fake_after h f)
     = if WaitErr f then Messages f else drop (length (List.filter is_next h)) (Messages f).
Proof.
  induction h as [|c h IH] using rev_ind.
  { destruct (SendErr f), (ReplyErr f), (WaitErr f); cbn; by rewrite !app_nil_r. }
  rewrite fake_after_snoc, !omap_app, List.filter_app, length_app, <- drop_drop.
  pose proof (fake_after_errors h f) as (Hw & Hr & Hs). destruct IH as (HS & HR & HT & HM).
  destruct c as [|t|a|m r| |]; cbn; rewrite ?app_nil_r, ?drop_0; try done.
  - unfold fake_SendAction. rewrite Hs. destruct (SendErr f); cbn; [done|].
    by rewrite HS, HR, HT, HM, app_assoc.
  - unfold fake_Reply. rewrite Hr. destruct (ReplyErr f); cbn; [done|].
    by rewrite HS, HR, HT, HM, !app_assoc.
  - unfold fake_WaitForNextSystemMessage. rewrite Hw. destruct (WaitErr f); cbn; [done|].
    rewrite <- HM. destruct (Messages (fake_after h f)) as [|m rest] eqn:Em; cbn; by rewrite ?Em.
Qed.

(** A double told to fail the actions accepts none. *)
Lemma failing_double_sends_nothing f key h new :
  is_nil (SendErr f) = false -> all_accepted (L := fake_env f key) h new -> omap sent_action new = [].
Proof.
  intros He. revert h. induction new as [|c new IH]; intros h; [done|]. intros [Ha Hn]. cbn.
  destruct c as [|t|a|m r| |]; cbn; try (by apply (IH _ Hn)).
  unfold env_lodging, fake_env in Ha. rewrite last_snoc, removelast_last in Ha. cbn in Ha.
  unfold fake_SendAction in Ha. destruct (fake_after_errors h f) as (_ & _ & Hs). rewrite Hs in Ha.
  by destruct (SendErr f).
Qed.

(** The key under which the double and the real cache keep a journey. *)
Definition same_key (r : outcome string) (r' : outcome string) : Prop :=
  match r, r' with Ret k, Ret k' => k = k' | Err _, Err _ => True | _, _ => False end.

Definition act_of (e : VisitEvent) : option GuestAction := match e with VAct a => Some a | _ => None end.

Lemma sent_actions_visible (l : list LodgingCall) : omap sent_action l = omap act_of (omap visible l).
Proof.
  induction l as [|c l IH]; [done|]. cbn.
  destruct c as [|t|a|m [| | |]| |]; cbn; try exact IH. f_equal. exact IH.
Qed.

Section Doubles.
Context {G : GoLib} {R : RedisServer} {RL : RedisLaws R} {E : Env}.

Lemma fake_EnsureKey_spec c w :
  EnsureKeyErr c = None ->
  let f := fake_EnsureKey (mkFakeWorld c (w_state w)) in
  same_key (fst f) (fst (EnsureKey w)) /\ fw_state (snd f) = w_state (snd (EnsureKey w)).
Proof.
  intros Hc. unfold fake_EnsureKey, EnsureKey, state_is_nil, gets, deref_state, guard_err, update_state, throw,
    mbind, go_bind, mret, go_ret. cbn. rewrite Hc.
  destruct w as [[s|] ca h ck r p]; cbn; [|done].
  destruct (String.eqb (st_RedisKey s) ""); cbn; [|done]. by destruct (String.eqb (st_GuestId s) "").
Qed.

(** What a test of a stay sees. *)
Lemma stay_over_double fuel url v w f key :
  cached (lw_world w) v -> lw_calls w = [] -> SendActions f = [] ->
  let run := RunLodgingStayFlow (L := fake_env f key) fuel url w in
  let recorded := SendActions (fake_after (lw_calls (snd run)) f) in
  match fst run with
  | Ret _ => (env_ctx (w_polls (lw_world w)) <> None /\ recorded = [])
             \/ exists g b p, lodgeable v g b p
                  /\ recorded = omap act_of (visit DefaultLodgingFlow key p)
  | Panic _ => False
  | _ => recorded = [] \/ exists g b p, lodgeable v g b p
               /\ recorded `prefix_of` omap act_of (visit DefaultLodgingFlow key p)
  end.
Proof.
  intros Hc Hw Hnone. cbv zeta.
  destruct (LodgingStay_traces (L := fake_env f key) fuel url v w Hc) as [Hp Hcases].
  destruct (RunLodgingStayFlow fuel url w) as [r w']. cbn [fst snd] in *.
  destruct (fake_after_records (lw_calls w') f) as (-> & _). rewrite Hnone. cbn [app].
  rewrite Hw in *.
  destruct Hcases as [(Hx & -> & ->)|[(Hr & Hcalls)|(g & b & p & new & Hl & Hcalls & _ & _ & Hpre & Hret)]].
  - left. split; [exact Hx|]. by destruct (SendErr f).
  - assert (omap sent_action (lw_calls w') = []) as -> by (by destruct Hcalls as [-> | ->]).
    destruct Hr as [->|(e & ->)]; left; by destruct (SendErr f).
  - assert (Hacts : omap sent_action (lw_calls w') = omap act_of (omap visible new)).
    { rewrite <- sent_actions_visible, Hcalls. cbn. rewrite omap_app.
      destruct r; cbn; by rewrite app_nil_r. }
    rewrite Hacts.
    assert (Hpre' : omap act_of (omap visible new) `prefix_of` omap act_of (visit DefaultLodgingFlow key p))
      by (destruct (Hpre : _ `prefix_of` visit DefaultLodgingFlow key p) as (tl & ->);
          rewrite omap_app; by apply prefix_app_r).
    destruct r as [[]|e|q|]; [right|..|done|]; try exists g, b, p.
    + split; [done|]. destruct (Hret eq_refl) as [Hvis [_ Hacc]].
      etransitivity; [|exact (f_equal (omap act_of) Hvis)].
      destruct (SendErr f) eqn:He; [|done]. rewrite <- sent_actions_visible. symmetry.
      apply (failing_double_sends_nothing f key _ _ ltac:(by rewrite He) Hacc).
    + destruct (SendErr f); [by left|]. right. by exists g, b, p.
    + destruct (SendErr f); [by left|]. right. by exists g, b, p.
Qed.

(** The real cache needs a state. *)
Lemma cache_without_state v w db :
  w_state w = None -> w_cache w = Some (Some db) ->
  Save v w = (Err err_state_nil, w) /\ Load w = (Err err_state_nil, w).
Proof.
  intros Hs Hc. destruct w as [st ca h ck r p]. cbn in Hs, Hc. subst. split; reflexivity.
Qed.

(** C33: what the doubles share with what they replace, and what they do not. Unless told to
    fail, the cache double gives a journey the key the real cache gives it, or an error when
    the real one does, and leaves the state the same. It loads what was saved last, with the
    error it was told to give: also in another state, for which the real cache has another
    entry, also when the saving reported an error, and without any state, where the real
    cache refuses both and stores nothing. A test of a stay over the chat double, told to
    fail or not, sees the planned visit: the actions it has recorded are an initial segment
    of the planned ones, and all of them when the stay succeeds, unless the context was
    cancelled before the stay began: then there are none. *)
Theorem doubles_agree :
  (forall c w,
     let f := fake_EnsureKey (mkFakeWorld c (w_state w)) in
     match EnsureKeyErr c with
     | Some e => f = (Err e, mkFakeWorld c (w_state w))
     | None => same_key (fst f) (fst (EnsureKey w)) /\ fw_state (snd f) = w_state (snd (EnsureKey w))
     end)
  /\ (forall v fw s,
       let saved := fake_Save v fw in
       fst saved = match SaveErr (fw_cache fw) with Some e => Err e | None => Ret tt end
       /\ fst (fake_Load (mkFakeWorld (fw_cache (snd saved)) s)) = Ret (v, LoadErr (fw_cache fw)))
  /\ (forall v w db, w_state w = None -> w_cache w = Some (Some db) ->
       Save v w = (Err err_state_nil, w) /\ Load w = (Err err_state_nil, w))
  /\ (forall fuel url v w f key,
       cached (lw_world w) v -> lw_calls w = [] -> SendActions f = [] ->
       let run := RunLodgingStayFlow (L := fake_env f key) fuel url w in
       let recorded := SendActions (fake_after (lw_calls (snd run)) f) in
       match fst run with
       | Ret _ => (env_ctx (w_polls (lw_world w)) <> None /\ recorded = [])
                  \/ exists g b p, lodgeable v g b p
                       /\ recorded = omap act_of (visit DefaultLodgingFlow key p)
       | Panic _ => False
       | _ => recorded = [] \/ exists g b p, lodgeable v g b p
                    /\ recorded `prefix_of` omap act_of (visit DefaultLodgingFlow key p)
       end).
Proof.
  split; [|split; [|split]].
  - intros c w. cbv zeta. destruct (EnsureKeyErr c) as [e|] eqn:He; [|by apply fake_EnsureKey_spec].
    unfold fake_EnsureKey. cbn. by rewrite He.
  - intros v fw s. unfold fake_Load, fake_Save, on_fake, modify, gets, lift_opt, throw, mbind, go_bind,
      mret, go_ret. cbn. destruct (SaveErr (fw_cache fw)); done.
  - exact cache_without_state.
  - exact stay_over_double.
Qed.
End Doubles.

(** ** A test of the stay *)

Section Witnesses.
#[local] Existing Instances sample_lib sample_redis sample_redis_laws.
#[local] Instance fakes_env0 : Env := sample_env [] sample_now.

Definition sample_fake : Client := mkFakeClient sample_messages None None None None [] [] [].

Lemma doubles_agree_witness :
  SendActions (fake_after (lw_calls (snd (RunLodgingStayFlow (L := fake_env sample_fake "key-1") 10
    "ws://guest-manager:1/lodging/chat" lodging_world))) sample_fake)
  = omap act_of (visit DefaultLodgingFlow "key-1" sample_period).
Proof.
  assert (Hr : fst (RunLodgingStayFlow (L := fake_env sample_fake "key-1") 10
                      "ws://guest-manager:1/lodging/chat" lodging_world) = Ret tt)
    by (vm_compute; reflexivity).
  pose proof (proj2 (proj2 (proj2 doubles_agree)) 10%nat "ws://guest-manager:1/lodging/chat" sample_booked lodging_world
    sample_fake "key-1" sample_booked_cached eq_refl eq_refl) as H.
  cbv zeta in H. rewrite Hr in H. destruct H as [(Hx & _)|(g & b & p & Hl & ->)]; [by destruct Hx|].
  destruct Hl as (_ & Hb & _ & Hp). injection Hb as <-. injection Hp as <-. reflexivity.
Defined.
End Witnesses.
