(* ===== verification/Settings.v ===== *)
(** * Settings and logger: [config/config.go], [infra/log/log.go]

    The configuration with its environment variables, the line [LoadConfigs] logs, and the
    handler that adds trace identifiers to every record. [env.Parse] is the class
    [EnvParse]; [encoding/json] on structs with embedded fields and the [slog.Handler]
    interface are the standard library's. *)

From Stdlib Require Import ZArith Lia.
From stdpp Require Import base tactics list option strings sets gmap.
From S2P Require Import Prelude GoEffects Json Mq.
Open Scope Z_scope.

(** ** The records of [config.go] *)

Definition Secret : Type := string.
Definition Secret_String (s : Secret) : string := "REDACTED".

Record NameConfig := mkNameConfig { ServiceName : string; Version : string }.
Record TelemetryConfig := mkTelemetryConfig {
  OTLPEndpoint : string; OTLPGrpcPort : Z; OTLPHealthPort : Z; OTLPInsecure : bool }.
Record AppConfig := mkAppConfig { ac_Name : NameConfig; ac_Telemetry : TelemetryConfig }.

Record ProbeConfig := mkProbeConfig {
  probe_Address : string;
  probe_Port : Z;
  ReadHeaderTimeoutInSeconds : Z;
  ReadTimeoutInSeconds : Z;
  WriteTimeoutInSeconds : Z;
  IdleTimeoutInSeconds : Z
}.

Record RedisConfig := mkRedisConfig {
  redis_Username : Secret; redis_Password : Secret; redis_Host : string; redis_Port : Z; redis_DB : Z }.
Record RabbitMqConsumersConfig := mkConsumersConfig {
  HourChange : RabbitMqConsumerConfig; Communication : RabbitMqConsumerConfig }.
Record RabbitMqConnConfig := mkConnConfig {
  rabbit_Username : Secret; rabbit_Password : Secret; rabbit_Host : string; rabbit_Port : Z }.

Record ServicesConfig := mkServicesConfig {
  ClockEmuGrpcUrl : string; ClockEmuGrpcPort : Z;
  CottageManagerUrl : string; CottageManagerPort : Z;
  GuestManagerUrl : string; GuestManagerPort : Z;
  PaymentSimulatorUrl : string; PaymentSimulatorPort : Z
}.

Record BookingFlowConfig := mkBookingFlowConfig { bf_GraphFile : string; bf_ConcurrencyLevel : Z }.
Record LodgingFlowConfig := mkLodgingFlowConfig { lf_ConcurrencyLevel : Z }.
Record PaymentFlowConfig := mkPaymentFlowConfig { pf_ConcurrencyLevel : Z }.
Record GuestRegisterFlowConfig := mkGuestRegisterFlowConfig {
  gf_GraphFile : string; gf_ConcurrencyLevel : Z }.
Record GuestJourneyFlowConfig := mkGuestJourneyFlowConfig { jf_ConcurrencyLevel : Z }.
Record FlowsConfig := mkFlowsConfig {
  fc_Booking : BookingFlowConfig;
  fc_Payment : PaymentFlowConfig;
  fc_Lodging : LodgingFlowConfig;
  fc_GuestRegister : GuestRegisterFlowConfig;
  fc_GuestJourney : GuestJourneyFlowConfig
}.

Record Configs := mkConfigs {
  cfg_App : AppConfig;
  cfg_Probe : ProbeConfig;
  cfg_RabbitConn : RabbitMqConnConfig;
  cfg_RabbitConsumers : RabbitMqConsumersConfig;
  cfg_Redis : RedisConfig;
  cfg_Services : ServicesConfig;
  cfg_Flows : FlowsConfig
}.

(** ** The tags: which variable fills which field *)

Record EnvVar := mkEnvVar { ev_name : string; ev_required : bool; ev_default : option string }.

(** The fields of a struct in order; [TagPrefix] is [envPrefix] on a struct field. *)
Inductive EnvTag := TagVar (v : EnvVar) | TagPrefix (prefix : string) (fields : list EnvTag).

Definition required (name : string) : EnvTag := TagVar (mkEnvVar name true None).
Definition required_or (name def : string) : EnvTag := TagVar (mkEnvVar name true (Some def)).
Definition optional (name : string) : EnvTag := TagVar (mkEnvVar name false None).
Definition optional_or (name def : string) : EnvTag := TagVar (mkEnvVar name false (Some def)).

Fixpoint tag_vars (prefix : string) (t : EnvTag) : list EnvVar :=
  match t with
  | TagVar v => [mkEnvVar (prefix +:+ ev_name v) (ev_required v) (ev_default v)]
  | TagPrefix p ts => concat (map (tag_vars (prefix +:+ p)) ts)
  end.

Definition AppConfig_tags : list EnvTag :=
  [optional "SERVICE_NAME"; optional "VERSION";
   required "OTEL_EXPORTER_OTLP_ENDPOINT"; required "OTEL_EXPORTER_OTLP_GRPC_PORT";
   required "OTEL_EXPORTER_OTLP_HEALTH_PORT"; required "OTEL_EXPORTER_OTLP_INSECURE"].

Definition ProbeConfig_tags : list EnvTag :=
  [required "PROBE_HTTP_ADDRESS"; required "PROBE_HTTP_PORT";
   required_or "READ_HEADER_TIMEOUT_IN_SECONDS" "5"; required_or "READ_TIMEOUT_IN_SECONDS" "10";
   required_or "WRITE_TIMEOUT_IN_SECONDS" "15"; required_or "IDLE_TIMEOUT_IN_SECONDS" "60"].

Definition RabbitMqConnConfig_tags : list EnvTag :=
  [required "RABBITMQ_USERNAME"; required "RABBITMQ_PASSWORD"; required "RABBITMQ_HOST";
   required "RABBITMQ_PORT"].

Definition RabbitMqConsumerConfig_tags : list EnvTag :=
  [TagPrefix "QUEUE_" [optional "NAME"; optional_or "DURABLE" "true"; optional_or "AUTO_DELETE" "false";
                       optional_or "EXCLUSIVE" "false"; optional_or "NO_WAIT" "false"];
   TagPrefix "BINDING_" [optional "EXCHANGE_NAME"; optional_or "ROUTING_KEY" "";
                         optional_or "NO_WAIT" "false"];
   TagPrefix "CONSUME_" [optional "CONSUMER"; optional_or "AUTO_ACK" "false";
                         optional_or "EXCLUSIVE" "false"; optional_or "NO_LOCAL" "false";
                         optional_or "NO_WAIT" "false"]].

Definition RabbitMqConsumersConfig_tags : list EnvTag :=
  [TagPrefix "HOUR_CHANGE_" RabbitMqConsumerConfig_tags;
   TagPrefix "COMMUNICATION_" RabbitMqConsumerConfig_tags].

Definition RedisConfig_tags : list EnvTag :=
  [optional_or "REDIS_USERNAME" ""; optional_or "REDIS_PASSWORD" "";
   required_or "REDIS_HOST" "localhost"; required_or "REDIS_PORT" "6379"; optional_or "REDIS_DB" "0"].

Definition ServicesConfig_tags : list EnvTag :=
  map required
    ["CLOCK_EMU_GRPC_URL"; "CLOCK_EMU_GRPC_PORT"; "COTTAGE_MANAGER_URL"; "COTTAGE_MANAGER_PORT";
     "GUEST_MANAGER_URL"; "GUEST_MANAGER_PORT"; "PAYMENT_SIMULATOR_URL"; "PAYMENT_SIMULATOR_PORT"].

Definition FlowsConfig_tags : list EnvTag :=
  [optional_or "BOOKING_FLOW_GRAPH_FILE" "docs/booking_mdp.dot";
   required "BOOKING_FLOW_CONCURRENCY_LEVEL";
   required "PAYMENT_FLOW_CONCURRENCY_LEVEL";
   required "LODGING_FLOW_CONCURRENCY_LEVEL";
   optional_or "GUEST_REGISTER_GRAPH_FILE" "docs/guest_register_mdp.dot";
   required "GUEST_REGISTER_FLOW_CONCURRENCY_LEVEL";
   required "GUEST_JOURNEY_FLOW_CONCURRENCY_LEVEL"].

(** The embedded structs of [Configs] add no prefix. *)
Definition Configs_tags : list EnvTag :=
  AppConfig_tags ++ ProbeConfig_tags ++ RabbitMqConnConfig_tags ++ RabbitMqConsumersConfig_tags
  ++ RedisConfig_tags ++ ServicesConfig_tags ++ FlowsConfig_tags.

Definition config_vars : list EnvVar := concat (map (tag_vars "") Configs_tags).

(** Without these the program does not start. *)
Definition must_be_set (v : EnvVar) : bool := ev_required v && is_nil (ev_default v).

(** ** How [encoding/json] writes a struct *)

(** A field with its encoded value, or an embedded struct. *)
Inductive gofield := GField (name : string) (v : json) | GEmbed (fields : list gofield).

(** The fields in the order of the declaration, with the depth of their embedding. *)
Fixpoint typeFields (depth : nat) (f : gofield) : list (string * nat * json) :=
  match f with
  | GField name v => [(name, depth, v)]
  | GEmbed fs => concat (map (typeFields (S depth)) fs)
  end.

(** Of the fields with one name the least deep is written, if there is only one such. *)
Definition dominant (all : list (string * nat * json)) (x : string * nat * json) : bool :=
  Nat.eqb
    (length (List.filter (fun y => String.eqb (fst (fst y)) (fst (fst x))
                                   && Nat.leb (snd (fst y)) (snd (fst x))) all)) 1.

Definition struct_json (fs : list gofield) : json :=
  let all := concat (map (typeFields 0) fs) in
  JObj (map (fun x => (fst (fst x), snd x)) (List.filter (dominant all) all)).

Definition GString (name s : string) : gofield := GField name (JStr s).
Definition GInt (name : string) (n : Z) : gofield := GField name (JNum n 0).
Definition GBool (name : string) (b : bool) : gofield := GField name (JBool b).

(** [Secret] is a string kind and has no [MarshalJSON] or [MarshalText]: its [String] method
    is not called here. *)
Definition GSecret (name : string) (s : Secret) : gofield := GField name (JStr s).

Definition NameConfig_fields (c : NameConfig) : list gofield :=
  [GString "ServiceName" (ServiceName c); GString "Version" (Version c)].
Definition TelemetryConfig_fields (c : TelemetryConfig) : list gofield :=
  [GString "OTLPEndpoint" (OTLPEndpoint c); GInt "OTLPGrpcPort" (OTLPGrpcPort c);
   GInt "OTLPHealthPort" (OTLPHealthPort c); GBool "OTLPInsecure" (OTLPInsecure c)].
Definition AppConfig_fields (c : AppConfig) : list gofield :=
  [GField "Name" (struct_json (NameConfig_fields (ac_Name c)));
   GField "Telemetry" (struct_json (TelemetryConfig_fields (ac_Telemetry c)))].
Definition ProbeConfig_fields (c : ProbeConfig) : list gofield :=
  [GString "Address" (probe_Address c); GInt "Port" (probe_Port c);
   GInt "ReadHeaderTimeoutInSeconds" (ReadHeaderTimeoutInSeconds c);
   GInt "ReadTimeoutInSeconds" (ReadTimeoutInSeconds c);
   GInt "WriteTimeoutInSeconds" (WriteTimeoutInSeconds c);
   GInt "IdleTimeoutInSeconds" (IdleTimeoutInSeconds c)].
Definition RabbitMqConnConfig_fields (c : RabbitMqConnConfig) : list gofield :=
  [GSecret "Username" (rabbit_Username c); GSecret "Password" (rabbit_Password c);
   GString "Host" (rabbit_Host c); GInt "Port" (rabbit_Port c)].
Definition RedisConfig_fields (c : RedisConfig) : list gofield :=
  [GSecret "Username" (redis_Username c); GSecret "Password" (redis_Password c);
   GString "Host" (redis_Host c); GInt "Port" (redis_Port c); GInt "DB" (redis_DB c)].

Definition QueueConfig_fields (c : QueueConfig) : list gofield :=
  [GString "Name" (q_Name c); GBool "Durable" (q_Durable c); GBool "AutoDelete" (q_AutoDelete c);
   GBool "Exclusive" (q_Exclusive c); GBool "NoWait" (q_NoWait c)].
Definition BindingConfig_fields (c : BindingConfig) : list gofield :=
  [GString "ExchangeName" (ExchangeName c); GString "RoutingKey" (b_RoutingKey c);
   GBool "NoWait" (b_NoWait c)].
Definition ConsumeConfig_fields (c : ConsumeConfig) : list gofield :=
  [GString "Consumer" (c_Consumer c); GBool "AutoAck" (c_AutoAck c); GBool "Exclusive" (c_Exclusive c);
   GBool "NoLocal" (c_NoLocal c); GBool "NoWait" (c_NoWait c)].
Definition RabbitMqConsumerConfig_fields (c : RabbitMqConsumerConfig) : list gofield :=
  [GField "Queue" (struct_json (QueueConfig_fields (cfg_Queue c)));
   GField "Binding" (struct_json (BindingConfig_fields (cfg_Binding c)));
   GField "Consume" (struct_json (ConsumeConfig_fields (cfg_Consume c)))].
Definition RabbitMqConsumersConfig_fields (c : RabbitMqConsumersConfig) : list gofield :=
  [GField "HourChange" (struct_json (RabbitMqConsumerConfig_fields (HourChange c)));
   GField "Communication" (struct_json (RabbitMqConsumerConfig_fields (Communication c)))].

Definition ServicesConfig_fields (c : ServicesConfig) : list gofield :=
  [GString "ClockEmuGrpcUrl" (ClockEmuGrpcUrl c); GInt "ClockEmuGrpcPort" (ClockEmuGrpcPort c);
   GString "CottageManagerUrl" (CottageManagerUrl c); GInt "CottageManagerPort" (CottageManagerPort c);
   GString "GuestManagerUrl" (GuestManagerUrl c); GInt "GuestManagerPort" (GuestManagerPort c);
   GString "PaymentSimulatorUrl" (PaymentSimulatorUrl c);
   GInt "PaymentSimulatorPort" (PaymentSimulatorPort c)].

Definition FlowsConfig_fields (c : FlowsConfig) : list gofield :=
  [GField "Booking" (struct_json [GString "GraphFile" (bf_GraphFile (fc_Booking c));
                                  GInt "ConcurrencyLevel" (bf_ConcurrencyLevel (fc_Booking c))]);
   GField "Payment" (struct_json [GInt "ConcurrencyLevel" (pf_ConcurrencyLevel (fc_Payment c))]);
   GField "Lodging" (struct_json [GInt "ConcurrencyLevel" (lf_ConcurrencyLevel (fc_Lodging c))]);
   GField "GuestRegister"
     (struct_json [GString "GraphFile" (gf_GraphFile (fc_GuestRegister c));
                   GInt "ConcurrencyLevel" (gf_ConcurrencyLevel (fc_GuestRegister c))]);
   GField "GuestJourney" (struct_json [GInt "ConcurrencyLevel" (jf_ConcurrencyLevel (fc_GuestJourney c))])].

Definition encode_Configs (c : Configs) : json :=
  struct_json
    [GEmbed (AppConfig_fields (cfg_App c)); GEmbed (ProbeConfig_fields (cfg_Probe c));
     GEmbed (RabbitMqConnConfig_fields (cfg_RabbitConn c));
     GEmbed (RabbitMqConsumersConfig_fields (cfg_RabbitConsumers c));
     GEmbed (RedisConfig_fields (cfg_Redis c)); GEmbed (ServicesConfig_fields (cfg_Services c));
     GEmbed (FlowsConfig_fields (cfg_Flows c))].

(** ** The logger: [infra/log/log.go] *)

Definition Attr : Type := string * json.

Record LogRecord := mkLogRecord { lr_level : Z; lr_msg : string; lr_attrs : list Attr }.
Definition LevelDebug : Z := -4.
Definition LevelInfo : Z := 0.

(** The span of a context as OpenTelemetry shows it. *)
Record SpanContext := mkSpanContext { sc_IsValid : bool; sc_TraceID : string; sc_SpanID : string }.

(** [slog.Handler]: [H] is the handler, [O] where records go. *)
Class SlogHandler (H O : Type) := {
  h_Enabled : H -> SpanContext -> Z -> bool;
  h_Handle : H -> SpanContext -> LogRecord -> go O unit;
  h_WithAttrs : H -> list Attr -> H;
  h_WithGroup : H -> string -> H
}.

Record TraceHandler (H : Type) := mkTraceHandler { th_next : H }.
Arguments mkTraceHandler {H} _.
Arguments th_next {H} _.

(** [r.AddAttrs] *)
Definition AddAttrs (l : list Attr) (r : LogRecord) : LogRecord :=
  mkLogRecord (lr_level r) (lr_msg r) (lr_attrs r ++ l).

Definition trace_attrs (sc : SpanContext) : list Attr :=
  [("trace_id", JStr (sc_TraceID sc)); ("span_id", JStr (sc_SpanID sc))].

Section TraceHandler.
Context {H O : Type} `{SlogHandler H O}.

Definition TraceHandler_Enabled (h : TraceHandler H) (ctx : SpanContext) (level : Z) : bool :=
  h_Enabled (th_next h) ctx level.

Definition TraceHandler_Handle (h : TraceHandler H) (ctx : SpanContext) (r : LogRecord) : go O unit :=
  let r := if sc_IsValid ctx then AddAttrs (trace_attrs ctx) r else r in
  h_Handle (th_next h) ctx r.

Definition TraceHandler_WithAttrs (h : TraceHandler H) (l : list Attr) : TraceHandler H :=
  mkTraceHandler (h_WithAttrs (th_next h) l).

Definition TraceHandler_WithGroup (h : TraceHandler H) (name : string) : TraceHandler H :=
  mkTraceHandler (h_WithGroup (th_next h) name).

#[export] Instance TraceHandler_slog : SlogHandler (TraceHandler H) O := {|
  h_Enabled := TraceHandler_Enabled;
  h_Handle := TraceHandler_Handle;
  h_WithAttrs := TraceHandler_WithAttrs;
  h_WithGroup := TraceHandler_WithGroup
|}.

(** [slog.New(h).With("app", hostname)] over the handler [base]. *)
Definition NewLogger (base : H) (hostname : error + string) : TraceHandler H :=
  h_WithAttrs (mkTraceHandler base)
    [("app", JStr (match hostname with inl _ => "unknown" | inr h => h end))].
End TraceHandler.

(** What a logger is told after it was made: [logger.With], [logger.WithGroup]. *)
Inductive WithOp := WithAttrs (l : list Attr) | WithGroup (name : string).

Definition with_op {H O} `{SlogHandler H O} (h : H) (op : WithOp) : H :=
  match op with WithAttrs l => h_WithAttrs h l | WithGroup name => h_WithGroup h name end.

Definition with_ops {H O} `{SlogHandler H O} (h : H) (ops : list WithOp) : H := fold_left with_op ops h.

(** A logger method: a record below the level is not handled. *)
Definition logger_log {H O} `{SlogHandler H O} (h : H) (ctx : SpanContext) (r : LogRecord) : go O unit :=
  if h_Enabled h ctx (lr_level r) then h_Handle h ctx r else mret tt.

(** ** [LoadConfigs] *)

(** [env.Parse(&cfg)] in an environment; what it leaves in [cfg] on an error is not used. *)
Class EnvParse := { env_Parse : (string -> option string) -> error + Configs }.

Section Load.
Context {P : EnvParse}.

(** [slog.InfoContext] writes to the world of log records. *)
Definition slog_Info (msg : string) (attrs : list Attr) : go (list LogRecord) unit :=
  modify (fun w => w ++ [mkLogRecord LevelInfo msg attrs]).

Definition LoadConfigs (environ : string -> option string) : go (list LogRecord) Configs :=
  cfg ← lift_sum (env_Parse environ);
  _ ← slog_Info "config loaded" [("config", encode_Configs cfg)];
  mret cfg.
End Load.

(** ** What the settings promise *)

(** The configuration but for its secrets. *)
Definition redact (c : Configs) : Configs :=
  let m := cfg_RabbitConn c in let r := cfg_Redis c in
  mkConfigs (cfg_App c) (cfg_Probe c)
    (mkConnConfig "" "" (rabbit_Host m) (rabbit_Port m)) (cfg_RabbitConsumers c)
    (mkRedisConfig "" "" (redis_Host r) (redis_Port r) (redis_DB r)) (cfg_Services c) (cfg_Flows c).

(** Two configurations an observer without the secrets cannot tell apart. *)
Definition same_but_secrets (c1 c2 : Configs) : Prop := redact c1 = redact c2.

#[export] Instance same_but_secrets_equiv : Equivalence same_but_secrets.
Proof.
  split; unfold same_but_secrets; [done|by intros ? ? ->|by intros ? ? ? -> ->].
Qed.

(** The members of the logged configuration. *)
Definition member_names (j : json) : list string :=
  match j with JObj kvs => map fst kvs | _ => [] end.

Lemma encode_Configs_redact c : encode_Configs c = encode_Configs (redact c).
Proof. destruct c as [[] [] [] [] [] [] []]. vm_compute. reflexivity. Qed.

#[export] Instance encode_Configs_proper : Proper (same_but_secrets ==> eq) encode_Configs.
Proof.
  intros c1 c2 H. by rewrite (encode_Configs_redact c1), (encode_Configs_redact c2), H.
Qed.

Lemma logged_names c :
  member_names (encode_Configs c)
  = ["Name"; "Telemetry"; "Address"; "ReadHeaderTimeoutInSeconds"; "ReadTimeoutInSeconds";
     "WriteTimeoutInSeconds"; "IdleTimeoutInSeconds"; "HourChange"; "Communication"; "DB";
     "ClockEmuGrpcUrl"; "ClockEmuGrpcPort"; "CottageManagerUrl"; "CottageManagerPort";
     "GuestManagerUrl"; "GuestManagerPort"; "PaymentSimulatorUrl"; "PaymentSimulatorPort";
     "Booking"; "Payment"; "Lodging"; "GuestRegister"; "GuestJourney"].
Proof. destruct c as [[] [] [] [] [] [] []]. vm_compute. reflexivity. Qed.

(** No two fields read one variable. *)
Lemma config_vars_distinct : NoDup (map ev_name config_vars).
Proof. apply (bool_decide_unpack _). vm_compute. reflexivity. Qed.

Section Promises.
Context {P : EnvParse}.

Lemma LoadConfigs_Ret environ w c w' :
  LoadConfigs environ w = (Ret c, w') ->
  env_Parse environ = inr c
  /\ w' = w ++ [mkLogRecord LevelInfo "config loaded" [("config", encode_Configs c)]].
Proof.
  unfold LoadConfigs, slog_Info, modify, lift_sum, throw, mbind, go_bind, mret, go_ret.
  destruct (env_Parse environ) as [e|c0]; [done|]. by intros [= -> <-].
Qed.

(** C34: the log cannot tell two configurations apart that differ in secrets only: the line
    [LoadConfigs] logs is the same; the names of the credentials do not occur in it, nor do
    those of hosts and ports, which the embedded structs share. It is this clash that hides
    them, not [Secret.String]: the Redis settings on their own are written with the
    password in the clear. *)
Theorem config_log_hides_secrets :
  (forall environ1 environ2 w c1 c2 w1 w2,
     LoadConfigs environ1 w = (Ret c1, w1) -> LoadConfigs environ2 w = (Ret c2, w2) ->
     same_but_secrets c1 c2 -> w1 = w2)
  /\ (forall c name, name ∈ ["Username"; "Password"; "Host"; "Port"] ->
        name ∉ member_names (encode_Configs c))
  /\ forall c : RedisConfig, exists kvs,
       struct_json (RedisConfig_fields c) = JObj kvs
       /\ ("Password", JStr (redis_Password c)) ∈ kvs.
Proof.
  split; [|split].
  - intros environ1 environ2 w c1 c2 w1 w2 H1 H2 Hc.
    apply LoadConfigs_Ret in H1 as [_ ->], H2 as [_ ->]. by rewrite Hc.
  - intros c name Hname. rewrite logged_names. revert name Hname. apply Forall_forall.
    apply (bool_decide_unpack _). vm_compute. reflexivity.
  - intros []. eexists. split; [vm_compute; reflexivity|]. set_solver.
Qed.

End Promises.

Section Logger.
Context {H O : Type} `{SlogHandler H O}.

(** What the program's logger does is what the handler underneath does with the record
    completed; this survives every [With] and [WithGroup]. *)
Lemma with_ops_trace (h : H) ops :
  with_ops (mkTraceHandler h) ops = mkTraceHandler (with_ops h ops).
Proof. revert h. induction ops as [|[l|name] ops IH]; intros h; [done|exact (IH _)..]. Qed.

(** However a logger was derived from the program's, a record logged in a valid span
    reaches the underlying handler with the identifiers of the trace and the span after its
    own attributes, any other record as it is, and the level is the underlying handler's;
    the host name was attached before anything else. *)
Theorem logger_correct (base : H) hostname ops ctx r :
  logger_log (with_ops (NewLogger base hostname) ops) ctx r
  = let h := with_ops (h_WithAttrs base
               [("app", JStr (match hostname with inl _ => "unknown" | inr n => n end))]) ops in
    if h_Enabled h ctx (lr_level r)
    then h_Handle h ctx (if sc_IsValid ctx
                         then mkLogRecord (lr_level r) (lr_msg r)
                                (lr_attrs r ++ [("trace_id", JStr (sc_TraceID ctx));
                                                ("span_id", JStr (sc_SpanID ctx))])
                         else r)
    else mret tt.
Proof.
  unfold logger_log, NewLogger. cbn [h_WithAttrs TraceHandler_slog]. unfold TraceHandler_WithAttrs.
  rewrite with_ops_trace. reflexivity.
Qed.
End Logger.

(** ** Concrete settings *)

Section Witnesses.
Definition sample_consumer : RabbitMqConsumerConfig :=
  mkConsumerConfig (mkQueueConfig "q" true false false false) (mkBindingConfig "ex" "" false)
    (mkConsumeConfig "" false false false false).

Definition sample_configs (password : Secret) : Configs :=
  mkConfigs (mkAppConfig (mkNameConfig "guests" "1") (mkTelemetryConfig "otel" 4317 13133 true))
    (mkProbeConfig "0.0.0.0" 8080 5 10 15 60) (mkConnConfig "rabbit" password "mq" 5672)
    (mkConsumersConfig sample_consumer sample_consumer) (mkRedisConfig "redis" password "cache" 6379 0)
    (mkServicesConfig "clock" 50051 "cottages" 8080 "guests" 8080 "payments" 8080)
    (mkFlowsConfig (mkBookingFlowConfig "" 2) (mkPaymentFlowConfig 2) (mkLodgingFlowConfig 2)
       (mkGuestRegisterFlowConfig "" 2) (mkGuestJourneyFlowConfig 2)).

(** A parser that knows the password and insists on everything that must be set. *)
Definition missing (environ : string -> option string) : list EnvVar :=
  List.filter (fun v => must_be_set v && is_nil (environ (ev_name v))) config_vars.
#[local] Instance sample_parse : EnvParse := {|
  env_Parse environ :=
    match missing environ with
    | [] => inr (sample_configs (default "" (environ "REDIS_PASSWORD")))
    | v :: _ => inl (Errorf "required environment variable %q is not set" [ev_name v])
    end
|}.

Definition environ_with (password : string) : string -> option string := fun name =>
  if String.eqb name "REDIS_PASSWORD" then Some password else Some "1".

Lemma config_log_hides_secrets_witness :
  exists w1 w2, LoadConfigs (environ_with "hunter2") [] = (Ret (sample_configs "hunter2"), w1)
    /\ LoadConfigs (environ_with "swordfish") [] = (Ret (sample_configs "swordfish"), w2)
    /\ w1 = w2.
Proof.
  assert (H1 : fst (LoadConfigs (environ_with "hunter2") []) = Ret (sample_configs "hunter2"))
    by (vm_compute; reflexivity).
  assert (H2 : fst (LoadConfigs (environ_with "swordfish") []) = Ret (sample_configs "swordfish"))
    by (vm_compute; reflexivity).
  exists (snd (LoadConfigs (environ_with "hunter2") [])), (snd (LoadConfigs (environ_with "swordfish") [])).
  pose proof (surjective_pairing (LoadConfigs (environ_with "hunter2") [])) as E1.
  pose proof (surjective_pairing (LoadConfigs (environ_with "swordfish") [])) as E2.
  rewrite H1 in E1. rewrite H2 in E2.
  split; [exact E1|]. split; [exact E2|].
  exact (proj1 config_log_hides_secrets _ _ _ _ _ _ _ E1 E2 eq_refl).
Defined.

(** A handler that writes the records at [LevelInfo] and above with its own attributes. *)
#[local] Instance list_handler : SlogHandler (list Attr) (list LogRecord) := {|
  h_Enabled _ _ level := LevelInfo <=? level;
  h_Handle own _ r := modify (fun out => out ++ [mkLogRecord (lr_level r) (lr_msg r) (own ++ lr_attrs r)]);
  h_WithAttrs own l := own ++ l;
  h_WithGroup own _ := own
|}.

Example logger_example :
  snd (logger_log (with_ops (NewLogger [] (inr "host-1")) [WithAttrs [("k", JNull)]])
         (mkSpanContext true "t" "s") (mkLogRecord LevelInfo "hello" []) [])
  = [mkLogRecord LevelInfo "hello"
       [("app", JStr "host-1"); ("k", JNull); ("trace_id", JStr "t"); ("span_id", JStr "s")]].
Proof. reflexivity. Qed.
End Witnesses.
