(* ===== verification/Probe.v ===== *)
(** * The probe server: [transport/http/], [infra/http/resty_client.go], [infra/clock/client.go]

    The readiness and health handlers, the server that routes to them, and the clients of
    the services it is built from. *)

From Stdlib Require Import ZArith Lia.
From stdpp Require Import base tactics list option strings gmap.
From S2P Require Import Prelude GoEffects GoTime GoText Mux Domain Json World Samples Telemetry Mq Settings.
Open Scope Z_scope.

(** ** [transport/http/probe/readiness.go] *)

Section Readiness.
Context {R : RedisServer} {E : Env} {A : AmqpEnv}.

Inductive HttpStatus :=
| StatusOK
| StatusServiceUnavailable (msg : error)
| StatusNotFound
| StatusMovedPermanently (path : string).

Record ProbeWorld := mkProbe { pb_world : World; pb_mq : MqWorld }.
Definition probe_world {T} (m : go World T) : go ProbeWorld T :=
  zoom pb_world (fun w p => mkProbe w (pb_mq p)) m.
Definition probe_mq {T} (m : go MqWorld T) : go ProbeWorld T :=
  zoom pb_mq (fun q p => mkProbe (pb_world p) q) m.

Definition pingHealthz (client : HttpClient) (clientName : string) : go World unit :=
  r ← attempt (do_http (Some client) GET "/healthz" [] None);
  match r with
  | inl e => throw (Wrapf "%s healthz ping failed; err=%s" [clientName] e)
  | inr (isErr, status, _) =>
      guard_err isErr (Errorf "%s healthz ping failed; httpCode=%d; err=%s" [clientName; status])
  end.

(** A check whose error is the answer. *)
Definition check_or {T} (m : go ProbeWorld T) (k : go ProbeWorld HttpStatus) : go ProbeWorld HttpStatus :=
  r ← err_of m;
  match r with Some e => mret (StatusServiceUnavailable e) | None => k end.

Definition ReadinessHandler : go ProbeWorld HttpStatus :=
  open ← probe_mq IsConnectionOpen;
  if negb open then mret (StatusServiceUnavailable (Errorf "RabbitMQ connection is not open" []))
  else
    ping ← err_of (probe_world (redis_call (fun db => of_err (redis_PING db))));
    match ping with
    | Some e => mret (StatusServiceUnavailable (Wrapf "Redis ping failed; err=%s" [] e))
    | None =>
        check_or (probe_world (pingHealthz CottageManager "CottageManager"))
          (check_or (probe_world (pingHealthz GuestManager "GuestManager")) (mret StatusOK))
    end.

Definition health_request (cl : HttpClient) : HttpRequest := mkHttpRequest cl GET "/healthz" [] None.

(** A service that answers without an error after the history [h]. *)
Definition healthy (cl : HttpClient) (h : list HttpRequest) : Prop :=
  exists st b, env_http (h ++ [health_request cl]) = HttpResponse false st b.

(** A check asks its service, and goes on only if that is in good health. *)
Lemma check_health cl name k p :
  let h := w_http (pb_world p) in
  let p1 := mkProbe (set_http (h ++ [health_request cl]) (pb_world p)) (pb_mq p) in
  let r := check_or (probe_world (pingHealthz cl name)) k p in
  (healthy cl h /\ r = k p1)
  \/ (~ healthy cl h /\ exists why, r = (Ret (StatusServiceUnavailable why), p1)).
Proof.
  cbv zeta. unfold check_or, err_of, attempt, probe_world, zoom, pingHealthz, attempt, do_http, mbind, go_bind,
    mret, go_ret, throw, guard_err, healthy. fold (health_request cl).
  destruct (env_http (_ ++ [health_request cl])) as [e|[] st b] eqn:Ee; cbn.
  - right. split; [by intros (? & ? & ?)|]. by eexists.
  - right. split; [by intros (? & ? & ?)|]. by eexists.
  - left. split; [by exists st, b|done].
Qed.

(** The ping of a Redis client that there is. *)
Lemma ping_redis p :
  w_cache (pb_world p) <> None ->
  exists r c, let p1 := mkProbe (set_cache c (pb_world p)) (pb_mq p) in
    err_of (probe_world (redis_call (fun db => of_err (redis_PING db)))) p = (Ret r, p1)
    /\ (r = None <-> exists db db', w_cache (pb_world p) = Some (Some db) /\ redis_PING db = (None, db')).
Proof.
  intros Hc. unfold err_of, attempt, probe_world, zoom, mbind, go_bind, mret, go_ret, redis_call, of_err.
  destruct p as [[s ca h ck rd po] q]. cbn in *. destruct ca as [[db|]|]; [| |done]; cbn.
  - destruct (redis_PING db) as [[e|] db'] eqn:Ep; cbn; eexists _, (Some (Some db')); split; try reflexivity.
    + split; [done|]. intros (db0 & db1 & [= <-] & H). congruence.
    + split; [|done]. intros _. by exists db, db'.
  - eexists _, (Some None). split; [reflexivity|]. split; [done|]. by intros (db & db' & H & _).
Qed.

(** C35: the readiness probe always answers, over a Redis client that there is: that the service
    is ready exactly when the broker's connection is open, Redis answers the ping, and the
    cottage manager and then the guest manager answer their health request without an
    error; otherwise that it is unavailable. To say that it is ready it has asked both
    managers, in this order, and nothing else; it never asks more. *)
Theorem ReadinessHandler_correct p :
  w_cache (pb_world p) <> None ->
  let '(r, p') := ReadinessHandler p in
  let h := w_http (pb_world p) in
  let h1 := h ++ [health_request CottageManager] in
  let h2 := h1 ++ [health_request GuestManager] in
  (r = Ret StatusOK \/ exists why, r = Ret (StatusServiceUnavailable why))
  /\ (r = Ret StatusOK <->
      fst (IsConnectionOpen (pb_mq p)) = Ret true
      /\ (exists db db', w_cache (pb_world p) = Some (Some db) /\ redis_PING db = (None, db'))
      /\ healthy CottageManager h /\ healthy GuestManager h1)
  /\ (r = Ret StatusOK -> w_http (pb_world p') = h2)
  /\ w_http (pb_world p') ∈ [h; h1; h2].
Proof.
  intros Hc. unfold ReadinessHandler.
  assert (Ho : exists open q, IsConnectionOpen (pb_mq p) = (Ret open, q)).
  { unfold IsConnectionOpen, gets, mbind, go_bind, amqp_ask, mret, go_ret.
    destruct (mq_conn (pb_mq p)); eexists _, _; reflexivity. }
  destruct Ho as (open & q & Eo). rewrite Eo. unfold mbind at 1, go_bind at 1. unfold probe_mq, zoom.
  rewrite Eo. destruct open; cbn [negb fst].
  2:{ cbn. split; [right; by eexists|]. split; [by split; [|intros [? _]]|]. split; [done|by left]. }
  set (p1 := mkProbe (pb_world p) q). destruct (ping_redis p1 Hc) as (r & c & Ep & Hr). cbv zeta in Ep.
  rewrite (bind_Ret _ _ _ _ _ Ep). cbn [pb_world pb_mq] in *.
  destruct r as [e|].
  { cbn. split; [right; by eexists|]. split; [|by split; [|left]].
    split; [done|]. intros (_ & Hp & _). by apply Hr in Hp. }
  pose proof (proj1 Hr eq_refl) as Hping. set (p2 := mkProbe _ _).
  destruct (check_health CottageManager "CottageManager"
              (check_or (probe_world (pingHealthz GuestManager "GuestManager")) (mret StatusOK)) p2)
    as [(H1 & ->)|(H1 & why & ->)].
  2:{ cbn. split; [right; by eexists|]. split; [by split; [|intros (_ & _ & ? & _)]|].
      split; [done|by right; left]. }
  match goal with |- context [check_or _ _ ?p3] =>
    destruct (check_health GuestManager "GuestManager" (mret StatusOK) p3) as [(H2 & ->)|(H2 & why & ->)] end;
    cbn in H2 |- *.
  - split; [by left|]. split; [done|]. split; [done|]. by right; right; left.
  - split; [right; by eexists|]. split; [by split; [|intros (_ & _ & _ & ?)]|].
    split; [done|by right; right; left].
Qed.

(** It never redirects. *)
Lemma ReadinessHandler_stays p path : fst (ReadinessHandler p) <> Ret (StatusMovedPermanently path).
Proof.
  unfold ReadinessHandler, mbind, go_bind. destruct (probe_mq _ p) as [[open|e|q|] p1]; try done.
  destruct (negb open); [done|].
  destruct (err_of _ p1) as [[[e|]|e|q|] p2]; try done.
  match goal with |- context [check_or (probe_world (pingHealthz CottageManager ?n)) ?k ?p3] =>
    destruct (check_health CottageManager n k p3) as [(_ & ->)|(_ & why & ->)] end; [|done].
  match goal with |- context [check_or (probe_world (pingHealthz GuestManager ?n)) ?k ?p3] =>
    destruct (check_health GuestManager n k p3) as [(_ & ->)|(_ & why & ->)] end; done.
Qed.
End Readiness.

(** ** [transport/http/probe_server.go] *)

(** [time.Duration(n) * time.Second], an [int64]. *)
Definition wrap64 (n : Z) : Z := (n + 2 ^ 63) mod 2 ^ 64 - 2 ^ 63.
Definition seconds (n : Z) : Z := wrap64 (n * nsPerSec).

(** [infra/http.NewRestyClient] *)
Record RestyClient := mkResty { resty_BaseURL : string; resty_Timeout : Z }.
Definition NewRestyClient (url : string) (port : Z) : RestyClient :=
  mkResty ("http://" +:+ address url port) (seconds 5).

Record Server := mkServer {
  srv_Addr : string;
  srv_ReadHeaderTimeout : Z;
  srv_ReadTimeout : Z;
  srv_WriteTimeout : Z;
  srv_IdleTimeout : Z;
  srv_cottages : RestyClient;
  srv_guests : RestyClient
}.

Definition StartHTTPServer (probeConfig : ProbeConfig) (serviceConfig : ServicesConfig) : Server :=
  mkServer (address (probe_Address probeConfig) (probe_Port probeConfig))
    (seconds (ReadHeaderTimeoutInSeconds probeConfig)) (seconds (ReadTimeoutInSeconds probeConfig))
    (seconds (WriteTimeoutInSeconds probeConfig)) (seconds (IdleTimeoutInSeconds probeConfig))
    (NewRestyClient (CottageManagerUrl serviceConfig) (CottageManagerPort serviceConfig))
    (NewRestyClient (GuestManagerUrl serviceConfig) (GuestManagerPort serviceConfig)).

(** The goroutine that serves: what it logs when [ListenAndServe] returns;
    [is_closed e] is [errors.Is(e, http.ErrServerClosed)]. *)
Definition serve_log (is_closed : error -> bool) (err : option error) : list string :=
  match err with
  | None => []
  | Some e => if is_closed e then [] else ["http serve"]
  end.

(** An error of the shutdown is logged and does not reach the caller. *)
Definition ShutDownHTTPServer (err : option error) : list string :=
  match err with None => [] | Some _ => ["http shutdown"] end.

Section Routes.
Context {R : RedisServer} {E : Env} {A : AmqpEnv}.

Definition HealthHandler : go ProbeWorld HttpStatus := mret StatusOK.

Definition probe_patterns : list (string * go ProbeWorld HttpStatus) :=
  [("/healthz", HealthHandler); ("/readyz", ReadinessHandler)].

(** What the mux answers to a request with this method and escaped path. *)
Definition serve (method path : string) : go ProbeWorld HttpStatus :=
  match findHandler probe_patterns method path with
  | Redirect np => mret (StatusMovedPermanently np)
  | Handler handler => handler
  | NotFound => mret StatusNotFound
  end.

(** A path a request may have without being in canonical form. *)
Definition rooted (path : string) : Prop := path = "" \/ String.get 0 path = Some slash.

Lemma canonical_rooted path : canonical path -> rooted path.
Proof. intros ([|s ss] & t & -> & Hne & _ & _ & [-> | ->]); [done|by right..]. Qed.

(** The answer to a request that is not redirected. *)
Definition answered (path : string) (p : ProbeWorld) (r : outcome HttpStatus * ProbeWorld) : Prop :=
  (stands_for "healthz" path -> r = (Ret StatusOK, p))
  /\ (stands_for "readyz" path -> r = ReadinessHandler p)
  /\ (~ stands_for "healthz" path -> ~ stands_for "readyz" path -> r = (Ret StatusNotFound, p)).

Lemma serve_answered method path p :
  rooted path -> method = "CONNECT" \/ canonical path -> answered path p (serve method path p).
Proof.
  intros Hr Hm. unfold serve, findHandler.
  assert ((if String.eqb method "CONNECT" then path else cleanPath path) = path) as ->.
  { destruct Hm as [->|Hc]; [done|]. rewrite (canonical_cleanPath _ Hc). by destruct (String.eqb method _). }
  rewrite String.eqb_refl. cbn [negb]. split; [|split].
  - intros (seg & -> & Hn & Hu). rewrite find_handler_here by done. by rewrite Hu.
  - intros (seg & -> & Hn & Hu). rewrite find_handler_here by done. by rewrite Hu.
  - intros H1 H2. destruct (find_handler probe_patterns path) as [handler|] eqn:Ef; [|done].
    exfalso. destruct Hr as [->|Hr]; [done|].
    destruct (find_handler_Some _ _ _ Hr Ef) as (s & Hs & Hin).
    apply elem_of_cons in Hin as [Hin|Hin%list_elem_of_singleton];
      apply (f_equal fst) in Hin; [apply (string_app_inj_l "/" s "healthz") in Hin|
        apply (string_app_inj_l "/" s "readyz") in Hin]; by subst s.
Qed.

Lemma serve_redirects method path p :
  method <> "CONNECT" -> ~ canonical path ->
  serve method path p = (Ret (StatusMovedPermanently (cleanPath path)), p).
Proof.
  intros Hm Hc. unfold serve, findHandler. rewrite (proj2 (String.eqb_neq method _) Hm).
  destruct (String.eqb_spec (cleanPath path) path) as [He|He]; [|done]. by apply cleanPath_fixed in He.
Qed.

Lemma serve_stays method path p path' :
  canonical path -> fst (serve method path p) <> Ret (StatusMovedPermanently path').
Proof.
  intros Hc. unfold serve, findHandler.
  assert ((if String.eqb method "CONNECT" then path else cleanPath path) = path) as ->
    by (rewrite (canonical_cleanPath _ Hc); by destruct (String.eqb method _)).
  rewrite String.eqb_refl. cbn [negb]. destruct (find_handler probe_patterns path) as [handler|] eqn:Ef; [|done].
  destruct (canonical_rooted _ Hc) as [->|Hr]; [done|].
  destruct (find_handler_Some _ _ _ Hr Ef) as (s & _ & Hin). unfold probe_patterns in Hin.
  apply elem_of_cons in Hin as [[= _ ->]|Hin]; [done|].
  apply list_elem_of_singleton in Hin as [= _ ->]. apply ReadinessHandler_stays.
Qed.

Lemma seconds_exact n : - 9223372036 <= n <= 9223372036 -> seconds n = n * nsPerSec.
Proof. intros H. unfold seconds, wrap64, nsPerSec. rewrite Z.mod_small; lia. Qed.

Lemma seconds_wraps n : 9223372037 <= n <= 18446744073 -> seconds n < 0.
Proof.
  intros H. unfold seconds, wrap64, nsPerSec.
  replace (n * 1000000000 + 2 ^ 63) with (n * 1000000000 - 2 ^ 63 + 1 * 2 ^ 64) by lia.
  rewrite Z.mod_add by lia. rewrite Z.mod_small by lia. lia.
Qed.

(** C37: the probe server answers a canonical path, or any path of a [CONNECT], by what it
    stands for, whether or not it is written with escapes: the health route with success
    whatever the state of the program, which it leaves alone, the readiness route by the
    probe, every other path with not found. Any other path is redirected to its canonical
    form, without a look at the state, and there it is not redirected again. A timeout of
    up to 9223372036 seconds is the duration it says; the next ones, as far as the 64-bit
    duration is overrun once, are negative, that is no timeout at all. *)
Theorem StartHTTPServer_correct :
  (forall method path p, rooted path -> method = "CONNECT" \/ canonical path ->
     answered path p (serve method path p))
  /\ (forall method path p, method <> "CONNECT" -> ~ canonical path ->
     serve method path p = (Ret (StatusMovedPermanently (cleanPath path)), p)
     /\ forall p', answered (cleanPath path) p' (serve method (cleanPath path) p')
                   /\ forall path', fst (serve method (cleanPath path) p')
                                    <> Ret (StatusMovedPermanently path'))
  /\ forall pc sc, let s := StartHTTPServer pc sc in
     Forall (fun '(n, d) => (0 <= n <= 9223372036 -> d = n * 1000000000)
                            /\ (9223372037 <= n <= 18446744073 -> d < 0))
       [(ReadHeaderTimeoutInSeconds pc, srv_ReadHeaderTimeout s);
        (ReadTimeoutInSeconds pc, srv_ReadTimeout s);
        (WriteTimeoutInSeconds pc, srv_WriteTimeout s);
        (IdleTimeoutInSeconds pc, srv_IdleTimeout s)].
Proof.
  split; [exact serve_answered|]. split.
  - intros method path p Hm Hc. split; [by apply serve_redirects|]. intros p'.
    pose proof (cleanPath_canonical path) as Hcan. split; [|intros path'; by apply serve_stays].
    apply serve_answered; [by apply canonical_rooted|by right].
  - intros pc sc. repeat constructor; intros H; first [apply seconds_exact; lia|by apply seconds_wraps].
Qed.
End Routes.

(** ** [infra/clock/client.go] *)

(** A protobuf timestamp; [AsTime] of a missing one is the Unix epoch. *)
Record Timestamp := mkTimestamp { ts_Seconds : Z; ts_Nanos : Z }.
Definition AsTime (t : option Timestamp) : Time :=
  match t with
  | None => mkTime 0 0
  | Some t => mkTime (ts_Seconds t * nsPerSec + ts_Nanos t) 0
  end.

(** The connection made with [grpc.NewClient]: its target, or the error of the library. *)
Definition NewClock (cfg : ServicesConfig) (dial : string -> option error) : error + string :=
  let target := address (ClockEmuGrpcUrl cfg) (ClockEmuGrpcPort cfg) in
  match dial target with Some e => inl e | None => inr target end.

(** The answer of the [Now] call of the service. *)
Definition Clock_Now (rpc : error + option Timestamp) : error + Time :=
  match rpc with inl e => inl e | inr t => inr (AsTime t) end.

(** The clock the journeys read, over the answers of the service. *)
Definition grpc_Now (rpc : nat -> error + option Timestamp) (n : nat) : error + Time := Clock_Now (rpc n).

(** The clock is read in UTC, and an error of the service is the caller's error. *)
Lemma grpc_Now_spec rpc n :
  match grpc_Now rpc n with
  | inl e => rpc n = inl e
  | inr t => zoneOffset t = 0 /\ exists ts, rpc n = inr ts /\ t = AsTime ts
  end.
Proof. unfold grpc_Now, Clock_Now. destruct (rpc n) as [e|[ts|]]; [done|split; [done|eauto]..]. Qed.

(** ** Concrete runs *)

Section Witnesses.
#[local] Existing Instances sample_lib sample_redis.

(** A broker that accepts everything. *)
#[local] Instance open_amqp : AmqpEnv := {|
  amqp_err _ := None; amqp_closed _ := false; amqp_queue_name _ := "q"
|}.

(** Two services in good health. *)
#[local] Instance healthy_env : Env :=
  sample_env [(GET, "/healthz", HttpResponse false "200 OK" None)] sample_now.

Definition healthy_probe : ProbeWorld :=
  mkProbe (mkWorld (Some emptyState) (Some (Some ∅)) [] 0 0 0) (mkMq [] (Some 1%nat) false None "").

Lemma ReadinessHandler_correct_witness :
  fst (ReadinessHandler healthy_probe) = Ret StatusOK
  /\ w_http (pb_world (snd (ReadinessHandler healthy_probe)))
     = [health_request CottageManager; health_request GuestManager].
Proof.
  assert (H : fst (ReadinessHandler healthy_probe) = Ret StatusOK) by (vm_compute; reflexivity).
  split; [exact H|].
  pose proof (ReadinessHandler_correct healthy_probe ltac:(discriminate)) as K.
  destruct (ReadinessHandler healthy_probe) as [r p']. destruct K as (_ & _ & Hh & _). exact (Hh H).
Defined.

Lemma StartHTTPServer_correct_witness :
  serve "GET" "/%68ealthz" healthy_probe = (Ret StatusOK, healthy_probe)
  /\ serve "GET" "//x/.././healthz" healthy_probe
     = (Ret (StatusMovedPermanently "/healthz"), healthy_probe)
  /\ serve "GET" "/healthz" healthy_probe = (Ret StatusOK, healthy_probe)
  /\ serve "GET" "/healthz/" healthy_probe = (Ret StatusNotFound, healthy_probe).
Proof.
  destruct (@StartHTTPServer_correct sample_redis healthy_env open_amqp) as (Ha & Hm & _).
  assert (Hseg : no_slash "%68ealthz") by (unfold no_slash; apply (bool_decide_unpack _); vm_compute; reflexivity).
  assert (Hbad : ~ canonical "//x/.././healthz")
    by (intros H%canonical_cleanPath; vm_compute in H; discriminate H).
  destruct (Hm "GET" "//x/.././healthz" healthy_probe ltac:(discriminate) Hbad) as [Hr Hs].
  destruct (Hs healthy_probe) as [(Hok & _) _].
  split; [|split; [exact Hr|split]].
  - apply (Ha "GET" "/%68ealthz" healthy_probe); [by right|right|by exists "%68ealthz"].
    apply cleanPath_fixed. vm_compute. reflexivity.
  - apply Hok. exists "healthz". split; [vm_compute; reflexivity|].
    split; [unfold no_slash; apply (bool_decide_unpack _); vm_compute; reflexivity|vm_compute; reflexivity].
  - apply (Ha "GET" "/healthz/" healthy_probe); [by right|right|..].
    + apply cleanPath_fixed. vm_compute. reflexivity.
    + intros (seg & [= <-] & Hn & _). revert Hn. unfold no_slash. vm_compute. set_solver.
    + intros (seg & [= <-] & Hn & _). revert Hn. unfold no_slash. vm_compute. set_solver.
Defined.
End Witnesses.
