(* ===== verification/Journey.v ===== *)
(** * A guest's journey: [app/journey/guest_journey.go], [guest_communication.go],
    [cleanup_service.go]

    The components of the other files run one after the other over one state: the world
    of the steps, the AMQP connection with the journey's consumer, the bus and the chat
    with the lodging service. What the bus goroutine receives between two waits, and the
    turns of each wait, are the environment's ([JourneyEnv]). *)

From Stdlib Require Import ZArith Lia Ascii.
From stdpp Require Import base tactics list option strings gmap.
From S2P Require Import Prelude GoEffects GoTime GoText Domain Json World Samples.
From S2P Require Import SelectPeriod Steps Flow Kept Bus Waits BusWait Lodging Mq.
Open Scope Z_scope.

(** [gofakeit], and what reaches the bus: the events before each of the three waits and
    the schedule of each wait. *)
Class JourneyEnv := {
  fake_Name : string;
  fake_SSN : string;
  fake_Address : string;
  events_before_payment : list BusEvent;
  events_before_confirmation : list BusEvent;
  events_before_checkin : list BusEvent;
  payment_turns : list (WaitLabel (M := PaymentRequest));
  confirmation_turns : list (WaitLabel (M := BookingConfirmedNotificationEvent));
  checkin_turns : list (WaitLabel (M := CheckInTodayNotification))
}.

Definition guestCommunicationExchange : string := "ex.communication".
Definition guestQueuePrefix : string := "q.guest.".
Definition guestRoutingKeyPrefix : string := "guest.".

Section Journey.
Context {G : GoLib} {R : RedisServer} {E : Env} {A : AmqpEnv} {P : ProtoLib}
  {L : LodgingEnv} {J : JourneyEnv}.

Record JWorld := mkJWorld {
  j_world : World;
  j_mq : MqWorld;
  j_bus : Bus;
  j_calls : list LodgingCall
}.

Definition set_j_bus (b : Bus) (j : JWorld) : JWorld :=
  mkJWorld (j_world j) (j_mq j) b (j_calls j).
Definition with_world {T} (m : go World T) : go JWorld T :=
  zoom j_world (fun w j => mkJWorld w (j_mq j) (j_bus j) (j_calls j)) m.
Definition with_mq {T} (m : go MqWorld T) : go JWorld T :=
  zoom j_mq (fun q j => mkJWorld (j_world j) q (j_bus j) (j_calls j)) m.
Definition with_lodging {T} (m : go LWorld T) : go JWorld T :=
  zoom (fun j => mkLWorld (j_world j) (j_calls j))
    (fun l j => mkJWorld (lw_world l) (j_mq j) (j_bus j) (lw_calls l)) m.
Definition with_bus (f : Bus -> Bus) : go JWorld unit :=
  modify (fun j => set_j_bus (f (j_bus j)) j).

(** *** Waiting on the journey's bus *)

(** A wait on one topic of the bus. The topic has no other subscriber, so the number of
    the waiter's channel does not matter. *)
Definition wait_on {M} (matches : option M -> go World unit) (topic : Bus -> Topic M)
    (set_topic : Topic M -> Bus -> Bus) (turns : list (WaitLabel (M := M))) : go JWorld unit :=
  fun j =>
    let c := wait_run matches 0 turns
               (wait_start 0 (topic (j_bus j)) (j_world j) (env_ctx (w_polls (j_world j)))
                  (bus_stopped (j_bus j))) in
    (wait_outcome c, mkJWorld (wt_world c) (j_mq j) (bus_after set_topic c (j_bus j)) (j_calls j)).

Definition wait_payment : go JWorld unit :=
  wait_on matchPaymentRequest paymentRequests set_paymentRequests payment_turns.
Definition wait_confirmation : go JWorld unit :=
  wait_on matchBookingConfirmation bookingConfirmations set_bookingConfirmations confirmation_turns.
Definition wait_checkin : go JWorld unit :=
  wait_on matchCheckinToday checkinTodays set_checkinTodays checkin_turns.

(** *** [guest_communication.go] *)

(** [if err := m; err != nil { _ = consumer.CloseChannel(); return err }] *)
Definition or_close (m : go MqWorld unit) : go JWorld unit :=
  r ← attempt (with_mq m);
  match r with
  | inr _ => mret tt
  | inl e => _ ← ignore_err (with_mq CloseChannel); throw e
  end.

Definition guest_queue (cfg : QueueConfig) (name : string) : QueueConfig :=
  mkQueueConfig name false true (q_Exclusive cfg) (q_NoWait cfg).

Definition guest_binding (cfg : BindingConfig) (routingKey : string) : BindingConfig :=
  mkBindingConfig
    (if String.eqb (ExchangeName cfg) "" then guestCommunicationExchange else ExchangeName cfg)
    routingKey (b_NoWait cfg).

Definition SetupCommunication (has_consumer has_bus : bool) (cfg : RabbitMqConsumerConfig)
  : go JWorld unit :=
  n ← with_world state_is_nil;
  _ ← guard_err n err_state_nil;
  s ← with_world deref_state;
  _ ← guard_err (String.eqb (st_GuestId s) "") err_guestId_empty;
  _ ← guard_err (negb has_consumer) (Errorf "invalid rabbitmq consumer" []);
  _ ← guard_err (negb has_bus) (Errorf "invalid guest communication runtime" []);
  let queueName := guestQueuePrefix +:+ st_GuestId s in
  let routingKey := guestRoutingKeyPrefix +:+ st_GuestId s in
  _ ← with_world (update_state (set_Queue queueName routingKey));
  _ ← or_close (DeclareQueue (guest_queue (cfg_Queue cfg) queueName));
  _ ← or_close (BindQueue (guest_binding (cfg_Binding cfg) routingKey));
  _ ← or_close (Consume (cfg_Consume cfg));
  with_bus (fun b => bus_Start (set_bus_Consumer true (bus_Reset b))).

(** *** [cleanup_service.go] *)

Definition CloseCommunication : go JWorld unit :=
  n ← with_world state_is_nil;
  _ ← guard_err n err_state_nil;
  b ← gets j_bus;
  if negb (bus_HasConsumer b) then mret tt
  else
    _ ← with_mq CloseChannel;
    with_bus (fun b => bus_Reset (set_bus_Consumer false b)).

Definition CleanupState : go JWorld unit :=
  _ ← with_world DeleteStateCache; CloseCommunication.

(** *** [guest_journey.go] *)

Definition err_journey_dependencies : error := Errorf "invalid guest journey dependencies" [].

(** The nil checks of the constructor, on what it is given: state, the flows, consumer,
    cache. A journey starts with a new bus. *)
Definition NewGuestJourney (w : World) (mq : MqWorld) (flows_given consumer_given : bool)
  : error + JWorld :=
  if is_nil (w_state w) || negb flows_given || negb consumer_given || is_nil (w_cache w)
  then inl err_journey_dependencies
  else inr (mkJWorld w mq NewGuestCommunicationBus []).

(** The n-th word of the name, or what stands for a missing one. *)
Definition name_part (words : list string) (n : nat) (fallback : string) : string :=
  match words !! n with
  | Some word => if String.eqb word "" then fallback else word
  | None => fallback
  end.

Definition fake_guest : Guest :=
  let name := Split fake_Name " "%char in
  let given := name_part name 0 "Guest" in
  let surname := name_part name 1 "Simulator" in
  mkGuest fake_SSN given surname (given +:+ "." +:+ surname +:+ "@test.com") fake_Address.

(** The key under which [Start] keeps the cached values of its guest. *)
Definition pending_key : string := "guest.pending." +:+ ToLower (DocumentId fake_guest).

Definition createGuest : go World unit :=
  _ ← update_state (set_Guest (Some fake_guest));
  _ ← update_state (set_RedisKey pending_key);
  InitializeStateCache.

Definition cleanupGuestJourney : go JWorld unit :=
  _ ← with_world LogStateCache; CleanupState.

Definition err_no_booking : error := Errorf "booking flow finished without bookingId" [].

Definition has_booking (v : GuestJourneyCacheValue) : bool :=
  match Booking v with Some b => negb (String.eqb (BookingID b) "") | None => false end.

Section Start.
Variable fuel : nat.
Variable cfg : RabbitMqConsumerConfig.
Variable chatURL : string.

(** From the guest's creation to the end of the booking flow. *)
Definition book_a_stay : go JWorld unit :=
  _ ← with_world createGuest;
  _ ← with_world (Flow_Start fuel NewGuestRegisterFlowWithState);
  _ ← SetupCommunication true true cfg;
  with_world (Flow_Start fuel NewBookingFlow).

(** From a booking with an identifier to the end of the stay. *)
Definition pay_and_stay : go JWorld unit :=
  _ ← with_world (SyncStateCache "UpdateBookingCacheStep");
  _ ← with_bus (bus_receives events_before_payment);
  _ ← wait_payment;
  _ ← with_world (Flow_Start fuel NewPaymentFlowWithState);
  _ ← with_world (SyncStateCache "UpdateInvoiceCacheStep");
  _ ← with_bus (bus_receives events_before_confirmation);
  _ ← wait_confirmation;
  _ ← with_bus (bus_receives events_before_checkin);
  _ ← wait_checkin;
  with_lodging (RunLodgingStayFlow fuel chatURL).

(** The body of [Start]: what runs before the deferred functions. *)
Definition journey_body : go JWorld unit :=
  _ ← book_a_stay;
  cacheValue ← with_world Load;
  _ ← guard_err (negb (has_booking cacheValue)) err_no_booking;
  _ ← pay_and_stay;
  cleanupGuestJourney.

(** The deferred cleanup: only after an error, whose value it may extend. *)
Definition Journey_Start : go JWorld unit := fun j =>
  match journey_body j with
  | (Err e, j1) =>
      match cleanupGuestJourney j1 with
      | (Ret _, j2) => (Err e, j2)
      | (Err e', j2) => (Err (ErrJoin [e; e']), j2)
      | (Panic p, j2) => (Panic p, j2)
      | (Stuck, j2) => (Stuck, j2)
      end
  | r => r
  end.
End Start.
End Journey.


(** ** The journey does not panic *)

Section JourneyRobust.
Context {G : GoLib} {R : RedisServer} {E : Env} {A : AmqpEnv} {P : ProtoLib}
  {L : LodgingEnv} {J : JourneyEnv}.

Definition jready (j : JWorld) : Prop := ready false (j_world j).

Lemma with_world_robust {T} t (m : go World T) :
  robust t (ready false) m -> robust t jready (with_world m).
Proof. intros Hm. by apply (robust_zoom t jready (ready false)). Qed.

Lemma with_mq_robust {T} t (m : go MqWorld T) Q :
  safe t (fun _ => True) m Q -> robust t jready (with_mq m).
Proof. intros H. apply (robust_zoom t jready (fun _ => True)); [done..|by eapply mq_robust]. Qed.

Lemma with_bus_robust t f : robust t jready (with_bus f).
Proof. by apply robust_modify. Qed.

#[local] Hint Resolve with_world_robust with_bus_robust : guest.

Lemma wait_on_robust {M} (matches : option M -> go World unit) topic set_topic turns :
  (forall m, robust true (ready false) (matches (Some m))) ->
  robust false jready (wait_on matches topic set_topic turns).
Proof.
  intros Hm j Hj. unfold wait_on. cbv zeta. cbn [fst snd].
  match goal with |- context [wait_run matches 0 turns ?c] =>
    destruct (wait_run_robust matches 0 (ready false) turns c Hm Hj I) as [H1 H2] end.
  split; [exact H1|]. unfold wait_outcome.
  destruct (wt_pc _) as [| |[[]|e|p|]]; done.
Qed.

Lemma or_close_robust t m Q : safe t (fun _ => True) m Q -> robust t jready (or_close m).
Proof.
  intros Hm. unfold or_close, ignore_err. robust_auto; eapply with_mq_robust;
    [exact Hm|apply CloseChannel_safe].
Qed.

Lemma SetupCommunication_robust t c b cfg : robust t jready (SetupCommunication c b cfg).
Proof.
  unfold SetupCommunication. robust_auto; try (apply with_world_robust; unfold state_is_nil; robust_auto);
    eapply or_close_robust; [apply DeclareQueue_safe|apply BindQueue_safe|apply Consume_safe].
Qed.

Lemma cleanup_robust t : robust t jready cleanupGuestJourney.
Proof.
  unfold cleanupGuestJourney, CleanupState, CloseCommunication. robust_auto.
  eapply with_mq_robust. apply CloseChannel_safe.
Qed.

Lemma createGuest_robust t : robust t (ready false) createGuest.
Proof. unfold createGuest. robust_auto. Qed.

Lemma loadCache_robust t : robust t (fun l => ready false (lw_world l)) loadCache.
Proof.
  unfold loadCache. apply robust_bind; [|intros v; robust_auto].
  by apply (robust_zoom t _ (ready false)); [..|apply Load_robust].
Qed.

Lemma conversation_robust fuel flow g b p :
  robust false (fun l => ready false (lw_world l)) (with_close (conversation fuel flow g b p)).
Proof.
  intros l Hl. destruct (traces_conversation fuel flow g b p l) as (Hw & Hp & _).
  unfold with_close. destruct (conversation fuel flow g b p l) as [[[]|e|why|] l'];
    cbn [fst snd lw_world record_call] in *; rewrite ?Hw; done.
Qed.

Lemma lodging_robust fuel url :
  robust false (fun l => ready false (lw_world l)) (RunLodgingStayFlow fuel url).
Proof.
  assert (Hz : forall T (m : go World T), robust false (ready false) m ->
                 robust false (fun l => ready false (lw_world l)) (on_world m))
    by (intros T m Hm; by apply (robust_zoom false _ (ready false))).
  rewrite RunLodgingStayFlow_eq. unfold RunLodging_Validate, RunLodging_Execute.
  robust_auto.
  - apply Hz. by intros w Hw.
  - apply Hz. eapply robust_intro; [apply require_state_safe|apply require_state_keeps].
  - apply Hz. eapply robust_intro; [apply require_cache_safe|apply require_cache_keeps].
  - apply loadCache_robust.
  - intros w Hw. unfold call. by destruct (env_lodging _).
  - apply conversation_robust.
Qed.

Lemma flows_robust fuel :
  robust false (ready false) (Flow_Start fuel NewGuestRegisterFlowWithState)
  /\ robust false (ready false) (Flow_Start fuel NewBookingFlow)
  /\ robust false (ready false) (Flow_Start fuel NewPaymentFlowWithState).
Proof.
  split; [|split]; eapply robust_intro;
    [apply register_flow_safe|apply register_flow_keeps|apply booking_flow_safe|
     apply booking_flow_keeps|apply payment_flow_safe|apply payment_flow_keeps]; apply _.
Qed.

Lemma waits_robust :
  robust false jready wait_payment /\ robust false jready wait_confirmation
  /\ robust false jready wait_checkin.
Proof.
  split; [|split]; apply wait_on_robust;
    [apply matchPaymentRequest_robust|apply matchBookingConfirmation_robust|apply matchCheckinToday_robust].
Qed.

#[local] Hint Resolve createGuest_robust SetupCommunication_robust cleanup_robust : guest.

Lemma journey_body_robust fuel cfg url : robust false jready (journey_body fuel cfg url).
Proof.
  destruct (flows_robust fuel) as (Hf1 & Hf2 & Hf3). destruct waits_robust as (Hw1 & Hw2 & Hw3).
  unfold journey_body, book_a_stay, pay_and_stay. robust_auto.
  apply (robust_zoom false jready (fun l => ready false (lw_world l))); [done|done|].
  apply lodging_robust.
Qed.

(** A journey the constructor accepts has a state and a cache. *)
Lemma NewGuestJourney_ready w mq j : NewGuestJourney w mq true true = inr j -> jready j.
Proof.
  unfold NewGuestJourney. intros Hn. destruct (w_state w) as [s|] eqn:Es; [|done].
  destruct (w_cache w) as [c|] eqn:Ec; [|done]. injection Hn as <-. by exists s, c.
Qed.

(** C3: no journey panics: whatever the services, the broker, the bus, the lodging
    service and the draws do, a journey the constructor accepts ends with a nil error or
    an error, or is still waiting; its state and its cache stay in place. *)
Theorem journey_never_panics fuel cfg url w mq j :
  NewGuestJourney w mq true true = inr j ->
  match fst (Journey_Start fuel cfg url j) with Panic _ => False | _ => True end
  /\ ready false (j_world (snd (Journey_Start fuel cfg url j))).
Proof.
  intros Hj%NewGuestJourney_ready.
  unfold Journey_Start. destruct (journey_body_robust fuel cfg url j Hj) as [H1 H2].
  destruct (journey_body _ _ _ j) as [[[]|e|p|] j1]; try done.
  destruct (cleanup_robust true j1 H1) as [H3 H4].
  by destruct (cleanupGuestJourney j1) as [[[]|e'|p|] j2].
Qed.
End JourneyRobust.

(** ** What a journey leaves behind *)

Section JourneySpec.
Context {G : GoLib} {R : RedisServer} {RL : RedisLaws R} {E : Env} {A : AmqpEnv} {P : ProtoLib}
  {L : LodgingEnv} {J : JourneyEnv}.

(** The cache holds nothing under the journey's own key, and the bus has no consumer. *)
Definition cleaned (j : JWorld) : Prop :=
  exists s db, w_state (j_world j) = Some s /\ w_cache (j_world j) = Some (Some db)
    /\ (redis_own (st_RedisKey s) -> redis_view db !! st_RedisKey s = None)
    /\ bus_HasConsumer (j_bus j) = false.

(** No request was sent, and nothing was said to the lodging service, in between. *)
Definition nothing_sent (j j' : JWorld) : Prop :=
  w_http (j_world j') = w_http (j_world j) /\ j_calls j' = j_calls j.

Lemma with_world_inv {T} (m : go World T) j r j' :
  with_world m j = (r, j') ->
  exists w, m (j_world j) = (r, w) /\ j' = mkJWorld w (j_mq j) (j_bus j) (j_calls j).
Proof.
  unfold with_world, zoom. destruct (m (j_world j)) as [r0 w]. intros [= -> <-]. eauto.
Qed.

Lemma with_mq_inv {T} (m : go MqWorld T) j r j' :
  with_mq m j = (r, j') ->
  exists q, m (j_mq j) = (r, q) /\ j' = mkJWorld (j_world j) q (j_bus j) (j_calls j).
Proof.
  unfold with_mq, zoom. destruct (m (j_mq j)) as [r0 q]. intros [= -> <-]. eauto.
Qed.

Lemma service_guards_Ret w s w' :
  service_guards w = (Ret s, w') -> w_state w = Some s /\ w' = w.
Proof.
  unfold service_guards, state_is_nil, cache_is_nil, gets, deref_state, guard_err, throw,
    mbind, go_bind, mret, go_ret.
  destruct (w_state w) as [s0|] eqn:Es; cbn; [|done]. destruct (w_cache w); cbn; [|done].
  rewrite Es. by intros [= -> <-].
Qed.

Lemma LogStateCache_Ret w w' : LogStateCache w = (Ret tt, w') ->
  exists s, w_state w = Some s /\ w_state w' = Some s /\ w_http w' = w_http w.
Proof.
  unfold LogStateCache. intros H. go_inv H. apply service_guards_Ret in Hrun as [Hs ->].
  go_inv H. destruct v0. apply guard_inv in Hrun as [_ <-].
  go_inv H. apply redis_call_Ret in Hrun as (db & db' & Hdb & _ & ->).
  apply ret_inv in H as [_ <-]. by exists v.
Qed.

Lemma DeleteStateCache_Ret w w' : DeleteStateCache w = (Ret tt, w') ->
  exists s db, w_state w = Some s /\ w_state w' = Some s /\ w_http w' = w_http w
    /\ w_cache w' = Some (Some db)
    /\ (redis_own (st_RedisKey s) -> redis_view db !! st_RedisKey s = None).
Proof.
  unfold DeleteStateCache. intros H. go_inv H. apply service_guards_Ret in Hrun as [Hs ->].
  go_inv H. destruct v0. apply guard_inv in Hrun as [_ <-].
  apply redis_call_Ret in H as (db & db' & Hdb & Hdel & ->).
  exists v, db'. split; [done|]. split; [done|]. split; [done|]. split; [done|].
  unfold of_err in Hdel. destruct (redis_DEL _ db) as [[e|] db1] eqn:Ed; [done|].
  injection Hdel as <-. intros Ho. rewrite (redis_DEL_ok _ _ _ Ho Ed). apply lookup_delete_eq.
Qed.

Lemma CloseCommunication_Ret j j' : CloseCommunication j = (Ret tt, j') ->
  j_world j' = j_world j /\ j_calls j' = j_calls j /\ bus_HasConsumer (j_bus j') = false.
Proof.
  unfold CloseCommunication. intros H. go_inv H.
  apply with_world_inv in Hrun as (w1 & H1 & ->). injection H1 as <- <-.
  go_inv H. destruct v. apply guard_inv in Hrun as [_ <-].
  go_inv H. injection Hrun as <- <-. cbn [j_bus] in H.
  destruct (bus_HasConsumer (j_bus j)) eqn:Eb; cbn [negb] in H.
  - go_inv H. destruct v. apply with_mq_inv in Hrun as (q & _ & ->).
    injection H as <-. done.
  - apply ret_inv in H as [_ <-]. done.
Qed.

Lemma cleanup_Ret j j' :
  cleanupGuestJourney j = (Ret tt, j') -> cleaned j' /\ nothing_sent j j'.
Proof.
  unfold cleanupGuestJourney, CleanupState. intros H. go_inv H. destruct v.
  apply with_world_inv in Hrun as (w1 & H1 & ->).
  destruct (LogStateCache_Ret _ _ H1) as (s & Hs & Hs1 & Hh1).
  go_inv H. destruct v. apply with_world_inv in Hrun as (w2 & H2 & ->). cbn [j_world j_mq j_bus j_calls] in *.
  destruct (DeleteStateCache_Ret _ _ H2) as (s2 & db & Hs2 & Hs2' & Hh2 & Hdb & Hv).
  destruct (CloseCommunication_Ret _ _ H) as (Hw & Hc & Hb). cbn [j_world j_calls] in *.
  split; [|split; congruence]. exists s2, db. rewrite Hw. done.
Qed.

(** A journey that succeeds is its body's success, and has cleaned up. *)
Lemma journey_Ret fuel cfg url j j' :
  Journey_Start fuel cfg url j = (Ret tt, j') ->
  journey_body fuel cfg url j = (Ret tt, j') /\ cleaned j'.
Proof.
  unfold Journey_Start. intros H.
  destruct (journey_body fuel cfg url j) as [[[]|e|p|] j1] eqn:Eb; try done.
  - injection H as ->. split; [done|]. unfold journey_body in Eb. do 4 go_inv Eb.
    by apply cleanup_Ret in Eb as [? _].
  - by destruct (cleanupGuestJourney j1) as [[[]|e'|p|] j2].
Qed.

(** C2: a journey cleans up after itself. Whenever it returns, its cache entry is gone, if
    the key is its own on the server, and its bus has no consumer; after an error this holds
    too, or the error says, next to the error of the journey, why the cleanup failed. *)
Theorem journey_cleans_up fuel cfg url j :
  let j' := snd (Journey_Start fuel cfg url j) in
  match fst (Journey_Start fuel cfg url j) with
  | Ret _ => cleaned j'
  | Err e => exists e0 j1, journey_body fuel cfg url j = (Err e0, j1)
      /\ ((e = e0 /\ cleaned j' /\ nothing_sent j1 j')
          \/ exists e1, e = ErrJoin [e0; e1] /\ cleanupGuestJourney j1 = (Err e1, j'))
  | Panic _ | Stuck => True
  end.
Proof.
  cbv zeta. unfold Journey_Start.
  destruct (journey_body fuel cfg url j) as [[[]|e|p|] j1] eqn:Eb; cbn [fst snd]; try done.
  - unfold journey_body in Eb. go_inv Eb. go_inv Eb. go_inv Eb. go_inv Eb.
    by apply cleanup_Ret in Eb as [? _].
  - destruct (cleanupGuestJourney j1) as [[[]|e1|p|] j2] eqn:Ec; cbn [fst snd]; try done.
    + exists e, j1. split; [done|]. left. split; [done|]. by apply cleanup_Ret.
    + exists e, j1. split; [done|]. right. by exists e1.
Qed.

(** *** What each part leaves alone *)

Lemma with_world_calls {T} c (m : go World T) : keeps (fun j => j_calls j = c) (with_world m).
Proof. intros j Hj. unfold with_world, zoom. by destruct (m (j_world j)). Qed.

Lemma with_mq_calls {T} c (m : go MqWorld T) : keeps (fun j => j_calls j = c) (with_mq m).
Proof. intros j Hj. unfold with_mq, zoom. by destruct (m (j_mq j)). Qed.

Lemma with_bus_calls c f : keeps (fun j => j_calls j = c) (with_bus f).
Proof. by intros j Hj. Qed.

Lemma wait_on_calls {M} c (matches : option M -> go World unit) topic set_topic turns :
  keeps (fun j => j_calls j = c) (wait_on matches topic set_topic turns).
Proof. by intros j Hj. Qed.

#[local] Hint Resolve with_world_calls with_mq_calls with_bus_calls wait_on_calls : guest.

Lemma book_a_stay_calls fuel cfg c : keeps (fun j => j_calls j = c) (book_a_stay fuel cfg).
Proof. unfold book_a_stay, SetupCommunication, or_close, ignore_err. keeps_auto. Qed.

(** The cleanup sends nothing, however it ends. *)
Lemma cleanup_sends_nothing j : keeps (nothing_sent j) cleanupGuestJourney.
Proof.
  assert (Hw : forall T (m : go World T), (forall h, keeps (fun w => w_http w = h) m) ->
                 keeps (nothing_sent j) (with_world m)).
  { intros T m Hm j1 [H1 H2]. unfold with_world, zoom. specialize (Hm _ (j_world j1) eq_refl).
    destruct (m (j_world j1)) as [r w]. split; [|exact H2]. cbn in *. congruence. }
  assert (Hs : forall h, keeps (fun w : World => w_http w = h) service_guards)
    by (intros h; unfold service_guards, state_is_nil, cache_is_nil; keeps_auto).
  assert (Hq : keeps (nothing_sent j) (with_mq CloseChannel))
    by (intros j1 Hj1; unfold with_mq, zoom; by destruct (CloseChannel (j_mq j1))).
  assert (Hb : forall f, keeps (nothing_sent j) (with_bus f)) by (by intros f j1 Hj1).
  unfold cleanupGuestJourney, CleanupState, CloseCommunication. keeps_auto; apply Hw; intros h;
    unfold LogStateCache, DeleteStateCache, Cache_Get, Cache_Del, state_is_nil; keeps_auto.
Qed.


Lemma matchCheckinToday_Ret m w w' :
  matchCheckinToday (Some m) w = (Ret tt, w') ->
  exists v b p, Load w = (Ret v, w') /\ Booking v = Some b /\ SelectedPeriod b = Some p
    /\ ct_BookingId m = BookingID b /\ ct_CottageName m = SelectedCottage b.
Proof.
  unfold matchCheckinToday. intros H. go_inv H.
  destruct (Booking v) as [b|] eqn:Eb; [|done].
  destruct (SelectedPeriod b) as [p|] eqn:Ep; [|done].
  apply bind_inv_Ret in H as ([] & w2 & H1 & H). apply guard_inv in H1 as [Hi <-].
  go_inv H. apply deref_state_Ret in Hrun0 as [_ ->].
  apply bind_inv_Ret in H as ([] & w2 & H1 & H). apply guard_inv in H1 as [_ <-].
  apply bind_inv_Ret in H as ([] & w2 & H1 & H). apply guard_inv in H1 as [Hn <-].
  apply guard_inv in H as [_ <-]. reflect_ineqs. by exists v, b, p.
Qed.

(** A stay that succeeds is the whole visit. *)
Lemma stay_Ret fuel url j j' v b p :
  (forall n, env_ctx n = None) -> cached (j_world j) v -> Booking v = Some b ->
  SelectedPeriod b = Some p ->
  with_lodging (RunLodgingStayFlow fuel url) j = (Ret tt, j') ->
  exists g new, lodgeable v g b p
    /\ j_calls j' = j_calls j ++ CallNewClient url :: new ++ [CallClose]
    /\ Forall is_conversation new /\ omap visible new = visit DefaultLodgingFlow env_keyID p
    /\ all_accepted (j_calls j) (CallNewClient url :: new).
Proof.
  intros Hctx Hc Hb Hp H. unfold with_lodging, zoom in H.
  set (l := mkLWorld (j_world j) (j_calls j)) in H.
  set (l1 := mkLWorld (tick_polls (j_world j)) (j_calls j)).
  destruct (RunLodgingStayFlow fuel url l) as [r l'] eqn:Es. injection H as -> <-.
  rewrite RunLodgingStayFlow_eq in Es.
  assert (Hpoll : on_world ctx_Err l = (Ret None, l1))
    by (unfold on_world, zoom, ctx_Err; cbn; by rewrite Hctx).
  rewrite (bind_Ret _ _ _ _ _ Hpoll) in Es. cbv beta iota in Es.
  go_inv Es. destruct v0.
  destruct (RunLodging_Validate_cases DefaultLodgingFlow url true true l1 v Hc) as [Hw _].
  rewrite Hrun in Hw. cbn [snd] in Hw. subst w.
  destruct (RunLodging_traces fuel DefaultLodgingFlow url v l1 Hc)
    as (_ & [([He|(e & He)] & _)|(g & b' & p' & new & Hl & Hcalls & Hconv & _ & _ & Hvis)]);
    rewrite Es in *; cbn [fst snd] in *; [done..|].
  assert (b' = b) as -> by (destruct Hl as (_ & ? & _); congruence).
  assert (p' = p) as -> by (destruct Hl as (_ & _ & _ & ?); congruence).
  exists g, new. split; [done|]. split; [exact Hcalls|]. split; [done|]. by apply Hvis.
Qed.

(** *** Setting the communication up *)

Lemma or_close_Ret m j j' :
  or_close m j = (Ret tt, j') ->
  exists q, m (j_mq j) = (Ret tt, q) /\ j' = mkJWorld (j_world j) q (j_bus j) (j_calls j).
Proof.
  unfold or_close. intros H. go_inv H. destruct v as [e|[]].
  - go_inv H. done.
  - injection H as <-. unfold attempt in Hrun.
    destruct (with_mq m j) as [[[]|e|p|] j1] eqn:Em; try done. injection Hrun as <-.
    by apply with_mq_inv.
Qed.

(** [m] leaves the bus alone unless it returns. *)
Definition bus_on_return {T} (b : Bus) (m : go JWorld T) : Prop := forall j, j_bus j = b ->
  match fst (m j) with Ret _ => True | _ => j_bus (snd (m j)) = b end.

Lemma bus_on_return_bind {T U} b (m : go JWorld T) (f : T -> go JWorld U) :
  keeps (fun j => j_bus j = b) m -> (forall a, bus_on_return b (f a)) -> bus_on_return b (m ≫= f).
Proof.
  intros Hm Hf j Hj. specialize (Hm j Hj). unfold mbind, go_bind.
  destruct (m j) as [[a|e|p|] j1]; try done. by apply Hf.
Qed.

Lemma with_world_bus {T} b (m : go World T) : keeps (fun j => j_bus j = b) (with_world m).
Proof. intros j Hj. unfold with_world, zoom. by destruct (m (j_world j)). Qed.

Lemma with_mq_bus {T} b (m : go MqWorld T) : keeps (fun j => j_bus j = b) (with_mq m).
Proof. intros j Hj. unfold with_mq, zoom. by destruct (m (j_mq j)). Qed.

#[local] Hint Resolve with_world_bus with_mq_bus : guest.

Lemma SetupCommunication_bus cfg b : bus_on_return b (SetupCommunication true true cfg).
Proof.
  unfold SetupCommunication, or_close, ignore_err. cbv zeta.
  repeat (apply bus_on_return_bind; [keeps_auto|intros ?]). by intros j Hj.
Qed.

(** The communication of a registered guest is set up on the guest's own queue: a
    queue named after the guest, neither durable nor kept when unused, is declared, then
    bound under the guest's routing key to the configured exchange or the default one,
    then consumed, in this order and under the name the broker gave; the bus then starts
    afresh, without subscribers or old messages. A set-up that fails leaves the bus as it
    was. *)
Theorem SetupCommunication_correct cfg j j' r :
  SetupCommunication true true cfg j = (r, j') ->
  match r with
  | Ret _ =>
      exists s ch1 ch2 ch3 h1 h2 h3,
        w_state (j_world j) = Some s /\ st_GuestId s <> ""
        /\ j_world j' = set_state (Some (set_Queue ("q.guest." +:+ st_GuestId s)
                                           ("guest." +:+ st_GuestId s) s)) (j_world j)
        /\ let declared := mq_calls (j_mq j) ++ h1 ++
              [AmQueueDeclare ch1 (mkQueueConfig ("q.guest." +:+ st_GuestId s) false true
                 (q_Exclusive (cfg_Queue cfg)) (q_NoWait (cfg_Queue cfg)))] in
           let q := amqp_queue_name declared in
           mq_calls (j_mq j') = declared
             ++ h2 ++ [AmQueueBind ch2 q (guest_binding (cfg_Binding cfg) ("guest." +:+ st_GuestId s))]
             ++ h3 ++ [AmConsume ch3 q (cfg_Consume cfg)]
        /\ bus_HasConsumer (j_bus j') = true /\ bus_err (j_bus j') = None
        /\ paymentRequests (j_bus j') = emptyTopic /\ bookingConfirmations (j_bus j') = emptyTopic
        /\ checkinTodays (j_bus j') = emptyTopic
  | _ => j_bus j' = j_bus j
  end.
Proof.
  intros H.
  pose proof (SetupCommunication_bus cfg (j_bus j) j eq_refl) as Hbus. rewrite H in Hbus.
  destruct r as [[]|e|p|]; [|exact Hbus..].
  unfold SetupCommunication in H. go_inv H. apply with_world_inv in Hrun as (w0 & H0 & ->).
  injection H0 as <- <-. go_inv H. destruct v. apply guard_inv in Hrun as [_ <-].
  go_inv H. apply with_world_inv in Hrun as (w0 & H0 & ->).
  apply deref_state_Ret in H0 as [Hs ->]. cbn [j_world j_mq j_bus j_calls] in *.
  apply bind_inv_Ret in H as ([] & ? & H1 & H). apply guard_inv in H1 as [Hid <-].
  rewrite !bind_guard_false in H. cbv zeta in H.
  go_inv H. destruct v0. apply with_world_inv in Hrun as (w0 & H0 & ->).
  apply update_state_Ret in H0 as (s' & Hs' & ->). cbn [j_world j_mq j_bus j_calls] in *.
  assert (s' = v) as -> by congruence.
  go_inv H. destruct v0. apply or_close_Ret in Hrun as (q1 & Hd & ->). cbn [j_mq] in *.
  apply DeclareQueue_Ret in Hd as (h1 & ch1 & Hc1 & Hq1).
  go_inv H. destruct v0. apply or_close_Ret in Hrun as (q2 & Hb & ->). cbn [j_mq] in *.
  apply BindQueue_Ret in Hb as (h2 & ch2 & Hc2 & Hq2).
  go_inv H. destruct v0. apply or_close_Ret in Hrun as (q3 & Hr & ->). cbn [j_mq] in *.
  apply Consume_Ret in Hr as (h3 & ch3 & Hc3).
  injection H as <-. cbn [j_world j_mq j_bus set_j_bus]. reflect_ineqs.
  exists v, ch1, ch2, ch3, h1, h2, h3. split; [done|]. split; [done|]. split; [done|].
  split; [|done]. unfold guest_queue in Hc1. cbv zeta. rewrite Hc3, Hq2, Hc2, Hq1, Hc1.
  rewrite <- !app_assoc. done.
Qed.

(** *** The waits and the goroutine of the bus *)

(** C23: the journey hands the deliveries that are not for a waiting step to the bus before
    the wait, as it runs one computation after the other. Nothing is lost by this: whatever
    turns the waiting step and the goroutine of the bus take over the one bus, with
    deliveries of every kind in between, the call ends as the wait does after the foreign
    deliveries were handled in their order, with the same outcome, the same world and the
    same bus, its other topics and its end included. *)
Theorem journey_waits_on_the_bus {M} (T : BusTopic M) {TL : TopicLaws T} matches ls j c :
  run (bus_wait_rel T matches 0)
    (bus_wait_start T 0 (j_bus j) (j_world j) (env_ctx (w_polls (j_world j)))) ls c ->
  (_ ← with_bus (bus_receives (foreign_events T ls));
   wait_on matches (topic T) (set_topic T) (own_turns T ls)) j
  = (match bw_pc c with Returned r => r | _ => Stuck end,
     mkJWorld (bw_world c) (j_mq j) (bw_bus c) (j_calls j)).
Proof.
  intros Hrun. destruct (bus_wait_refines T matches 0 _ _ _ _ _ Hrun) as (Hp & Hw & _ & Hb).
  unfold with_bus, wait_on, modify, wait_outcome, mbind, go_bind. cbn [j_bus j_world set_j_bus j_mq j_calls].
  by rewrite Hp, Hw, Hb.
Qed.
End JourneySpec.

(** ** Concrete runs *)

Section Witnesses.
#[local] Existing Instances sample_lib sample_redis sample_redis_laws sample_proto.

(** A broker that never fails. *)
#[local] Instance sample_amqp : AmqpEnv := {|
  amqp_err _ := None;
  amqp_closed _ := false;
  amqp_queue_name _ := "q.guest.g-7"
|}.

Definition sample_services (draw : Z) : Env := {|
  env_http := @env_http (sample_env
    [(POST, "/guest", HttpResponse false "201 Created" (Some (JStr "g-7")));
     (GET, "/guest/g-7", HttpResponse false "200 OK" None);
     (GET, "/cottages", HttpResponse false "200 OK" (Some (JArr [JObj [("name", JStr "Aspen")]])));
     (GET, "/cottage/Aspen/available-dates", HttpResponse false "200 OK"
        (Some (JObj [("cottage_name", JStr "Aspen");
                     ("available_periods",
                       JArr [JObj [("check_in", JStr "2025-03-20T00:00:00Z");
                                   ("check_out", JStr "2025-03-23T00:00:00Z")]])])));
     (POST, "/cottage/Aspen/booking", HttpResponse false "201 Created"
        (Some (JObj [("bookingId", JStr "b-1")])));
     (POST, "/v1/payments/invoice/inv-1", HttpResponse false "200 OK"
        (Some (JObj [("receiptNumber", JStr "r-1"); ("status", JStr "PAYMENT_STATUS_SUCCEEDED")])))]
    sample_now);
  env_now _ := inr sample_now;
  env_rand _ := draw;
  env_ctx _ := None
|}.

(** A draw of 0.58 takes the walk from the list over the cottage and the period to the
    booking; the greatest draw ends it after the list. *)
Definition booking_draw : Z := 58 * 2 ^ 53 / 100.
Definition ending_draw : Z := 2 ^ 53 - 1.

#[local] Instance sample_chat : LodgingEnv := scripted sample_messages.

#[local] Instance sample_journey : JourneyEnv := {|
  fake_Name := "Ada Lovelace";
  fake_SSN := "DOC-7";
  fake_Address := "1 Analytical Street";
  events_before_payment := [];
  events_before_confirmation := [];
  events_before_checkin := [];
  payment_turns :=
    [WTake;
     EPublish (mkPaymentRequest " inv-1 " "" (Some (mkMoney 300 "EUR")) None None
       (Some (mkBookingSummary "Aspen" 3 1)) (Some (mkPayerSummary "Ada" "ada.lovelace@TEST.com")) []);
     WReceive];
  confirmation_turns :=
    [EPublish (mkBookingConfirmed "e" "b-1" BOOKING_STATUS_CONFIRMED
       (Some (mkNotifiedGuest "g-7" "" "" "")) None None); WTake; WReceive];
  checkin_turns :=
    [WTake; EPublish (mkCheckInToday "b-1" "g-7" "Aspen" (Some (Date 2025 3 20 0 0 0 0 0)) None 1 None);
     WReceive]
|}.

Definition sample_cfg : RabbitMqConsumerConfig :=
  mkConsumerConfig (mkQueueConfig "" true false false false) (mkBindingConfig "" "" false)
    (mkConsumeConfig "" false false false false).

Definition chat_url : string := "ws://guest-manager:1/lodging/chat".

(** The world [buildGuestJourney] starts a journey in. *)
Definition fresh_world : World := mkWorld (Some emptyState) (Some (Some ∅)) [] 0 0 0.
Definition fresh_mq : MqWorld := mkMq [] (Some 1%nat) false (Some 2%nat) "".
Definition fresh_journey : JWorld := mkJWorld fresh_world fresh_mq NewGuestCommunicationBus [].

Lemma sample_journey_ends :
  fst (Journey_Start (E := sample_services booking_draw) 20 sample_cfg chat_url fresh_journey) = Ret tt.
Proof. vm_compute. reflexivity. Qed.

Lemma journey_never_panics_witness :
  NewGuestJourney fresh_world fresh_mq true true = inr fresh_journey
  /\ ready false (j_world (snd (Journey_Start (E := sample_services booking_draw) 20 sample_cfg chat_url
                                  fresh_journey))).
Proof.
  assert (H : NewGuestJourney fresh_world fresh_mq true true = inr fresh_journey) by reflexivity.
  split; [exact H|].
  pose proof (@journey_never_panics sample_lib sample_redis (sample_services booking_draw) sample_amqp sample_proto sample_chat
                sample_journey 20 sample_cfg chat_url
                fresh_world fresh_mq fresh_journey H) as K.
  match type of K with ?P /\ ?Q => exact (@proj2 P Q K) end.
Defined.

Definition unbooked_journey : JWorld :=
  snd (book_a_stay (E := sample_services ending_draw) 20 sample_cfg fresh_journey).

Lemma sample_flow_ends :
  fst (book_a_stay (E := sample_services ending_draw) 20 sample_cfg fresh_journey) = Ret tt.
Proof. vm_compute. reflexivity. Qed.

Lemma sample_no_booking :
  exists v, fst (with_world Load unbooked_journey) = Ret v /\ has_booking v = false.
Proof. vm_compute. eexists. split; reflexivity. Qed.


(** While the journey waits for a payment request, the invitation to check in arrives, and
    a delivery that cannot be read; then the journey is cancelled. *)
Definition checkin_delivery : Delivery :=
  mkDelivery (Some {["message_type" := HString checkinTodayMessageType]}) "guest.g-1" "b-1" 1.
Definition bad_delivery : Delivery := mkDelivery None "guest.g-1" "x" 2.
Definition crossed_turns : list BusLabel :=
  [BEvent (BusDelivery checkin_delivery); BTake; BEvent (BusDelivery bad_delivery);
   BCancel ContextCanceled; BCtxDone].

Lemma crossed_wait :
  exists c, run (bus_wait_rel payment_topic matchPaymentRequest 0)
      (bus_wait_start payment_topic 0 NewGuestCommunicationBus fresh_world None) crossed_turns c
    /\ bw_pc c = Returned (Err ContextCanceled).
Proof. eexists. split; [repeat (eapply run_cons; [reflexivity|]); constructor|reflexivity]. Qed.

Lemma journey_waits_on_the_bus_witness :
  exists j', (_ ← with_bus (bus_receives [BusDelivery checkin_delivery; BusDelivery bad_delivery]);
     wait_on (E := sample_services booking_draw) matchPaymentRequest paymentRequests set_paymentRequests
       [WTake; ECancel ContextCanceled; WCtxDone]) fresh_journey = (Err ContextCanceled, j').
Proof.
  destruct crossed_wait as (c & Hrun & Hpc).
  exists (mkJWorld (bw_world c) fresh_mq (bw_bus c) []).
  pose proof (journey_waits_on_the_bus (E := sample_services booking_draw) payment_topic matchPaymentRequest
                crossed_turns fresh_journey c Hrun) as H.
  rewrite Hpc in H. exact H.
Defined.

Definition registered_journey : JWorld :=
  set_j_bus NewGuestCommunicationBus
    (mkJWorld (sample_world sample_chosen) fresh_mq NewGuestCommunicationBus []).

Lemma sample_setup :
  fst (SetupCommunication true true sample_cfg registered_journey) = Ret tt.
Proof. vm_compute. reflexivity. Qed.

Lemma SetupCommunication_correct_witness :
  bus_HasConsumer (j_bus (snd (SetupCommunication true true sample_cfg registered_journey))) = true.
Proof.
  pose proof (run_ok _ _ _ sample_setup) as H.
  pose proof (@SetupCommunication_correct sample_redis sample_amqp sample_cfg registered_journey _ _ H)
    as (s & ch1 & ch2 & ch3 & h1 & h2 & h3 & _ & _ & _ & _ & Hb & _).
  exact Hb.
Defined.
End Witnesses.
