(* ===== verification/Progress.v ===== *)
(** * How far a journey has come

    What the steps, the flows and the waits do to a journey that succeeds: the posts it
    has sent, its identifier, and the cached guest, booking and invoice ([progress]). The
    end is the theorem about the whole of [GuestJourney.Start]. *)

From Stdlib Require Import ZArith Lia.
From stdpp Require Import base tactics list option strings gmap.
From S2P Require Import Prelude GoEffects GoTime GoText Domain Json World Samples.
From S2P Require Import SelectPeriod Steps Flow Kept Bus Waits BusWait Lodging Mq Journey.
Open Scope Z_scope.

Section Progress.
Context {G : GoLib} {R : RedisServer} {RL : RedisLaws R} {E : Env}.

(** The requests of a history, after [h0], with their answers; and its posts. *)
Fixpoint exchanges (h0 h : list HttpRequest) : list (HttpRequest * HttpResult) :=
  match h with
  | [] => []
  | r :: h => (r, env_http (h0 ++ [r])) :: exchanges (h0 ++ [r]) h
  end.

Definition posts (h : list HttpRequest) : list (HttpRequest * HttpResult) :=
  filter (fun x => is_post (fst x)) (exchanges [] h).

Lemma exchanges_app h0 h l : exchanges h0 (h ++ l) = exchanges h0 h ++ exchanges (h0 ++ h) l.
Proof.
  revert h0. induction h as [|r h IH]; intros h0; cbn; [by rewrite app_nil_r|].
  by rewrite IH, <- app_assoc.
Qed.

Lemma posts_gets h l : Forall (fun r => is_post r = false) l -> posts (h ++ l) = posts h.
Proof.
  intros Hl. unfold posts. rewrite exchanges_app, filter_app. cbn [app].
  assert (filter (fun x => is_post (fst x)) (exchanges h l) = []) as ->; [|by rewrite app_nil_r].
  revert h. induction Hl as [|x l Hx _ IH]; intros h; [done|]. cbn [exchanges].
  rewrite filter_cons_False by (cbn; rewrite Hx; by intros []). apply IH.
Qed.

Lemma posts_post h r : is_post r = true -> posts (h ++ [r]) = posts h ++ [(r, env_http (h ++ [r]))].
Proof.
  intros Hr. unfold posts. rewrite exchanges_app, filter_app. cbn [app exchanges].
  by rewrite (filter_cons_True _ (r, _)) by (cbn; by rewrite Hr).
Qed.

Lemma posts_requests h : map fst (posts h) = filter is_post h.
Proof.
  unfold posts. generalize (@nil HttpRequest) at 1. induction h as [|r h IH]; intros h0; [done|].
  cbn [exchanges]. destruct (is_post r) eqn:Er.
  - rewrite !filter_cons_True by (cbn; by rewrite Er). cbn. by rewrite IH.
  - rewrite !filter_cons_False by (cbn; rewrite Er; by intros []). apply IH.
Qed.

(** An answer that gives an identifier, *)
Definition gives (decode : json -> option string) (id : string) (a : HttpResult) : Prop :=
  exists st body, a = HttpResponse false st (Some body) /\ decode body = Some id.

(** and one to a payment that succeeded. *)
Definition paid (a : HttpResult) : Prop :=
  exists st body resp, a = HttpResponse false st (Some body)
    /\ decode_PayWithCardResponse (mkPayWithCardResponse "" "" "") body = Some resp
    /\ pay_Status resp = "PAYMENT_STATUS_SUCCEEDED".

Definition progress (id : string) (g : Guest) (bk : option GuestJourneyBooking)
    (iv : option GuestJourneyInvoice) (ps : list (HttpRequest * HttpResult)) (w : World) : Prop :=
  posts (w_http w) = ps
  /\ exists s v, w_state w = Some s /\ st_GuestId s = id /\ st_Guest s = Some g
       /\ cached w v /\ cacheValue_exact v
       /\ PersonalInfo v = Some g /\ Booking v = bk /\ Invoice v = iv.

(** A value that belongs to such a journey. *)
Definition value_of (g : Guest) (bk : option GuestJourneyBooking)
    (iv : option GuestJourneyInvoice) (v : GuestJourneyCacheValue) : Prop :=
  cacheValue_exact v /\ PersonalInfo v = Some g /\ Booking v = bk /\ Invoice v = iv.

Lemma progress_Load id g bk iv ps w v w' :
  progress id g bk iv ps w -> Load w = (Ret v, w') ->
  progress id g bk iv ps w' /\ value_of g bk iv v /\ cached w' v
  /\ w_http w' = w_http w /\ w_state w' = w_state w.
Proof.
  intros (Hp & s & v0 & Hs & Hid & Hg & Hc & Hv) H. destruct (Load_Ret _ _ _ H) as [Hc' Hf]. specialize (Hc' (cached_owned _ _ Hc)).
  destruct (Load_cached _ _ _ _ Hc H) as [-> Hst]. pose proof (frame_http _ _ Hf) as Hh.
  split; [|done]. split; [by rewrite Hh|]. exists s, v0. by rewrite Hst.
Qed.

(** A value saved over the cached one. *)
Lemma progress_Save id g bk iv ps w v w' :
  progress id g bk iv ps w -> Save v w = (Ret tt, w') ->
  cacheValue_exact v -> PersonalInfo v = Some g -> progress id g (Booking v) (Invoice v) ps w'.
Proof.
  intros (Hp & s & v0 & Hs & Hid & Hg & Hc & _) H Hex Hpi.
  destruct (Save_Ret _ _ _ H) as (Hf & Hc' & _).
  pose proof (saved_state _ _ _ _ _ Hc Hs H) as Hs'.
  split; [by rewrite (frame_http _ _ Hf)|]. exists s, v. split; [done|]. split; [done|].
  split; [done|]. split; [by apply (Hc' (cached_owned _ _ Hc))|done].
Qed.

(** The state may change where the journey does not look. *)
Lemma progress_state id g bk iv ps f w s :
  progress id g bk iv ps w -> w_state w = Some s ->
  st_RedisKey (f s) = st_RedisKey s -> st_GuestId (f s) = st_GuestId s ->
  st_Guest (f s) = st_Guest s -> progress id g bk iv ps (set_state (Some (f s)) w).
Proof.
  intros (Hp & s0 & v & Hs & Hid & Hg & Hc & Hv) Hs' H1 H2 H3.
  assert (s0 = s) as -> by congruence.
  split; [done|]. exists (f s), v. split; [done|]. split; [by rewrite H2|].
  split; [by rewrite H3|]. split; [by apply cached_set_state|done].
Qed.

Lemma progress_gets id g bk iv ps w l :
  progress id g bk iv ps w -> Forall (fun r => is_post r = false) l ->
  progress id g bk iv ps (set_http (w_http w ++ l) w).
Proof.
  intros (Hp & s & v & Hs & Hv) Hl. split; [by cbn [w_http set_http]; rewrite posts_gets|]. by exists s, v.
Qed.

(** *** Walks through a step graph *)

(** The validations only look. *)
Lemma deref_state_same w : keeps (eq w) deref_state.
Proof. intros w' <-. unfold deref_state. by destruct (w_state w). Qed.

Lemma Ret_same {A} (m : go World A) w r w' : keeps (eq w) m -> m w = (r, w') -> w' = w.
Proof. intros Hk H. specialize (Hk w eq_refl). by rewrite H in Hk. Qed.

(** A walk that succeeds without being cancelled went from step to step: [I] says what
    holds before a step, [Q] what holds where the walk may end. *)
Lemma run_from_Ret {T} (steps : T -> Step) stateMap (I : T -> World -> Prop) (Q : World -> Prop) :
  (forall n, env_ctx n = None) -> (forall k, stateMap k <> Some []) ->
  (forall k w, I k w -> I k (tick_polls w)) ->
  (forall k w w', I k w -> run_step steps k w = (Ret tt, w') ->
     match stateMap k with
     | None => Q w'
     | Some ts => forall item, item ∈ ts -> I (Value item) (tick_rand w')
     end) ->
  forall fuel k w w', I k w -> run_from steps stateMap fuel k w = (Ret tt, w') -> Q w'.
Proof.
  intros Hctx Hne Hpoll Hstep. induction fuel as [|fuel IH]; intros k w w' Hi H; [done|].
  rewrite run_from_S, Hctx in H.
  destruct (run_step steps k (tick_polls w)) as [[[]|e|p|] w3] eqn:Ek; try done.
  specialize (Hstep k (tick_polls w) w3 (Hpoll k w Hi) Ek).
  destruct (stateMap k) as [ts|] eqn:Es; [|by injection H as <-].
  destruct (decide (ts = [])) as [->|Hts]; [by destruct (Hne k)|].
  destruct (Pick_spec ts w3 Hts) as (item & Hpick & Hit & _). rewrite Hpick in H.
  eapply IH; [|exact H]. by apply Hstep.
Qed.
End Progress.

#[export] Hint Resolve deref_state_same : guest.

(** ** The flows *)

Section Flows.
Context {G : GoLib} {R : RedisServer} {RL : RedisLaws R} {E : Env}.

Definition register_request (g : Guest) : HttpRequest :=
  mkHttpRequest GuestManager POST "/guest" [] (Some (encode_Guest g)).

(** The booking of a stay in [cottage] for [p]. *)
Definition stay_request (id : string) (g : Guest) (cottage : string) (p : Period) : HttpRequest :=
  book_request CottageManager id g (mkBooking "" cottage (Some p)) p.

Definition unbooked (bk : option GuestJourneyBooking) : Prop :=
  forall b, bk = Some b -> BookingID b = "".

(** What the booking flow leaves behind: no booking and no post, or one post and the
    booking the answer to it gave. *)
Definition booking_end (id : string) (g : Guest) iv (ps : list (HttpRequest * HttpResult)) (w : World) : Prop :=
  (exists bk, unbooked bk /\ progress id g bk iv ps w)
  \/ exists bid cottage p a, gives (decode_Confirmation "") bid a
       /\ progress id g (Some (mkBooking bid cottage (Some p))) iv
            (ps ++ [(stay_request id g cottage p, a)]) w.

Lemma require_state_same w : keeps (eq w) require_state.
Proof. unfold require_state, state_is_nil. keeps_auto. Qed.
Lemma require_cache_same w : keeps (eq w) require_cache.
Proof. unfold require_cache, cache_is_nil. keeps_auto. Qed.
Lemma require_guestId_same w : keeps (eq w) require_guestId.
Proof. unfold require_guestId. keeps_auto. Qed.

#[local] Hint Resolve require_state_same require_cache_same require_guestId_same : guest.

Lemma booking_Validate_same k w : keeps (eq w) (Validate (booking_steps k)).
Proof.
  destruct k; simpl; unfold SelectCottage_Validate, SelectPeriod_Validate, BookCottage_Validate,
    state_is_nil, cache_is_nil; keeps_auto.
Qed.

Lemma payment_Validate_same k w : keeps (eq w) (Validate (payment_steps k)).
Proof. destruct k; simpl; unfold PayInvoice_Validate; keeps_auto. Qed.

Lemma register_Validate_same k w : keeps (eq w) (Validate (register_steps k)).
Proof. destruct k; simpl; unfold RegisterGuest_Validate; keeps_auto. Qed.

Lemma ListCottages_progress id g bk iv ps w w' :
  progress id g bk iv ps w -> ListCottages_Execute (Some CottageManager) w = (Ret tt, w') ->
  progress id g bk iv ps w'.
Proof.
  intros Hw H. unfold ListCottages_Execute in H. go_inv H. destruct v as [[ie st] body].
  apply do_http_Ret in Hrun as (cl & [= <-] & -> & _).
  go_inv H. apply guard_inv in Hrun as [_ <-].
  destruct (body ≫= _) as [cs|]; [|done]. apply update_state_Ret in H as (s & Hs & ->).
  eapply (progress_state _ _ _ _ _ (set_CottageNames _)); [|exact Hs|done|done|done].
  apply progress_gets; [exact Hw|by repeat constructor].
Qed.

Lemma SelectCottage_progress id g bk iv ps w w' :
  progress id g bk iv ps w -> unbooked bk -> SelectCottage_Execute w = (Ret tt, w') ->
  exists bk', unbooked bk' /\ progress id g bk' iv ps w'.
Proof.
  intros Hw Hbk H. unfold SelectCottage_Execute in H. go_inv H.
  apply deref_state_Ret in Hrun as [_ ->]. cbv zeta in H. go_inv H.
  unfold rand_Intn in Hrun. destruct (_ <=? 0); [done|]. injection Hrun as <- <-.
  destruct (_ !! _) as [name|]; [|done]. go_inv H.
  assert (Hw1 : progress id g bk iv ps (tick_rand w)) by exact Hw.
  destruct (progress_Load _ _ _ _ _ _ _ _ Hw1 Hrun) as (Hw2 & (Hex & Hpi & Hb & Hi) & _).
  pose proof (progress_Save _ _ _ _ _ _ _ _ Hw2 H) as Hw3. cbn in Hw3. rewrite Hi in Hw3.
  eexists. split; [|apply Hw3; [|exact Hpi]].
  - intros b [= <-]. destruct (Booking v0) as [b|] eqn:Eb; [|done]. cbn. apply Hbk. by rewrite <- Hb.
  - intros b p [= <-] Hp. cbn in Hp. destruct (Booking v0) as [b|] eqn:Eb; [|done]. by apply (Hex b).
Qed.

Lemma SelectPeriod_progress id g bk iv ps w w' :
  progress id g bk iv ps w -> unbooked bk -> SelectPeriod_Execute w = (Ret tt, w') ->
  exists bk', unbooked bk' /\ progress id g bk' iv ps w'.
Proof.
  intros (Hp & s & v & Hs & Hid & Hg & Hc & Hex & Hpi & Hb & Hi) Hbk H.
  destruct (Booking v) as [b|] eqn:Eb.
  2:{ exfalso. unfold SelectPeriod_Execute in H. go_inv H. apply clock_Now_Ret in Hrun as [_ ->].
      go_inv H. apply (Load_cached (tick_clock w) v) in Hrun as [-> _]; [|exact Hc].
      by rewrite Eb in H. }
  destruct (SelectPeriod_Ret w v b w' Hc Eb H)
    as (now & s' & all & c & w1 & _ & _ & Hst & Hh & _ & _ & _ & _ & Hc' & Hex').
  exists (Some (with_stay c b)). split; [intros b' [= <-]; cbn; apply Hbk; congruence|].
  split.
  - rewrite Hh, posts_gets; [done|]. apply Forall_concat, Forall_map, Forall_true.
    intros x. by repeat constructor.
  - exists s, (set_cv_Booking (Some (with_stay c b)) v). by rewrite Hst.
Qed.

Lemma BookCottage_progress id g bk iv ps w w' :
  progress id g bk iv ps w -> BookCottage_Execute (Some CottageManager) w = (Ret tt, w') ->
  booking_end id g iv ps w'.
Proof.
  intros (Hp & s & v & Hs & Hid & Hg & Hc & Hex & Hpi & Hb & Hi) H.
  destruct (BookCottage_Ret _ _ _ _ Hc Hex H)
    as (cl & s' & g' & b & p & st & body & bid & [= <-] & Hs' & Hbook & Hh & Ha & Hd & Hst & Hc').
  destruct Hbook as (Hg' & Hb' & _ & Hp' & _). assert (s' = s) as -> by congruence.
  assert (g' = g) as -> by congruence. right. exists bid, (SelectedCottage b), p, (env_http (w_http w')).
  split; [by exists st, body|]. split.
  - rewrite Hh, posts_post, Hp, Hid; done.
  - exists s, (set_cv_Booking (Some (mkBooking bid (SelectedCottage b) (Some p))) v).
    split; [done|]. split; [done|]. split; [done|]. split; [done|]. split; [|done].
    intros b1 p1 [= <-] [= <-]. by apply (Hex b p).
Qed.

(** The booking flow, from a journey without a booking. *)
Lemma booking_flow_progress fuel id g bk iv ps w w' :
  (forall n, env_ctx n = None) -> unbooked bk -> progress id g bk iv ps w ->
  Flow_Start fuel NewBookingFlow w = (Ret tt, w') -> booking_end id g iv ps w'.
Proof.
  intros Hctx Hbk Hw H.
  pose (I := fun (k : BookingStepId) w =>
    match k with
    | BookingEndId => booking_end id g iv ps w
    | _ => exists bk, unbooked bk /\ progress id g bk iv ps w
    end).
  refine (run_from_Ret booking_steps (flow_StateMap booking_def) I (booking_end id g iv ps)
            Hctx booking_edges_nonempty _ _ fuel ListCottagesId w w' _ H);
    [intros k w0 HI; by destruct k| |by exists bk].
  clear w w' bk Hbk Hw H. intros k w w' HI H. unfold run_step in H. go_inv H.
  pose proof (Ret_same _ _ _ _ (booking_Validate_same k w) Hrun) as ->.
  assert (Hmid : forall k0, (exists bk, unbooked bk /\ progress id g bk iv ps w') -> I k0 (tick_rand w'))
    by (intros [] Hx; [exact Hx..|by left]).
  destruct k; cbn [booking_steps Execute NewListCottagesStep NewSelectCottageStep
    NewSelectPeriodStep NewBookCottageStep NewEndStep] in H;
    [destruct HI as (bk & Hbk & Hw)..|].
  - intros item _. apply Hmid. exists bk. split; [done|]. by eapply ListCottages_progress.
  - intros item _. by eapply Hmid, SelectCottage_progress.
  - intros item _. by eapply Hmid, SelectPeriod_progress.
  - change (flow_StateMap booking_def BookCottageId) with
      (Some [mkWeighted BookingEndId (f64_of_Z 1)]).
    intros item ->%list_elem_of_singleton. change (booking_end id g iv ps w').
    by eapply BookCottage_progress.
  - by injection H as <-.
Qed.

Lemma RegisterGuest_progress id g bk iv ps w w' :
  progress id g bk iv ps w -> RegisterGuest_Execute (Some GuestManager) w = (Ret tt, w') ->
  exists id' a, gives (decode_string "") id' a
    /\ progress id' g bk iv (ps ++ [(register_request g, a)]) w'.
Proof.
  intros (Hp & s & v & Hs & Hid & Hg & Hc & Hex & Hpi & Hb & Hi) H.
  destruct (RegisterGuest_success _ _ _ _ Hc Hex H)
    as (cl & s' & g' & st & body & id' & [= <-] & Hs' & Hg' & Hh & Ha & Hd & Hst & Hc').
  assert (g' = g) as -> by congruence. exists id', (env_http (w_http w')).
  split; [by exists st, body|]. split.
  - rewrite Hh, posts_post; [by rewrite Hp|done].
  - by eexists _, (set_cv_GuestID id' v).
Qed.

Lemma RetrieveGuest_progress id g bk iv ps w w' :
  progress id g bk iv ps w -> RetrieveGuest_Execute (Some GuestManager) w = (Ret tt, w') ->
  progress id g bk iv ps w'.
Proof.
  intros Hw H. unfold RetrieveGuest_Execute in H. go_inv H.
  apply deref_state_Ret in Hrun as [_ ->]. go_inv H. destruct v0 as [[ie st] body].
  apply do_http_Ret in Hrun as (cl & [= <-] & -> & _). apply guard_inv in H as [_ <-].
  apply progress_gets; [exact Hw|by repeat constructor].
Qed.

Lemma register_edges_nonempty k : flow_StateMap register_def k <> Some [].
Proof. destruct k; vm_compute; discriminate. Qed.

(** The register flow: one registration, and the identifier its answer gave, not empty. *)
Lemma register_flow_progress fuel id g bk iv ps w w' :
  (forall n, env_ctx n = None) -> progress id g bk iv ps w ->
  Flow_Start fuel NewGuestRegisterFlowWithState w = (Ret tt, w') ->
  exists id' a, id' <> "" /\ gives (decode_string "") id' a
    /\ progress id' g bk iv (ps ++ [(register_request g, a)]) w'.
Proof.
  intros Hctx Hw H.
  pose (Q := fun w => exists id' a, id' <> "" /\ gives (decode_string "") id' a
               /\ progress id' g bk iv (ps ++ [(register_request g, a)]) w).
  pose (I := fun (k : RegisterStepId) w =>
    match k with
    | RegisterGuestId => progress id g bk iv ps w
    | RetrieveGuestId => exists id' a, gives (decode_string "") id' a
        /\ progress id' g bk iv (ps ++ [(register_request g, a)]) w
    | RegisterEndId => Q w
    end).
  refine (run_from_Ret register_steps (flow_StateMap register_def) I Q
            Hctx register_edges_nonempty _ _ fuel RegisterGuestId w w' Hw H);
    [intros k w0 HI; by destruct k|].
  clear w w' Hw H. intros k w w' HI H. unfold run_step in H. go_inv H.
  pose proof (Ret_same _ _ _ _ (register_Validate_same k w) Hrun) as ->.
  destruct k.
  - change (flow_StateMap register_def RegisterGuestId) with
      (Some [mkWeighted RetrieveGuestId (f64_of_Z 1)]).
    intros item ->%list_elem_of_singleton. exact (RegisterGuest_progress id g bk iv ps w w' HI H).
  - change (flow_StateMap register_def RetrieveGuestId) with
      (Some [mkWeighted RegisterEndId (f64_of_Z 1)]).
    intros item ->%list_elem_of_singleton. destruct HI as (id' & a & Ha & Hw).
    destruct v. apply safe_steps_state in Hrun as (s & Hs & Hne & _).
    exists id', a. split; [|split; [exact Ha|]; exact (RetrieveGuest_progress _ _ _ _ _ _ _ Hw H)].
    destruct Hw as (_ & s' & _ & Hs' & <- & _). congruence.
  - by injection H as <-.
Qed.

Lemma PayInvoice_progress id g bk inv ps w w' :
  progress id g bk (Some inv) ps w -> PayInvoice_Execute (Some PaymentSimulator) w = (Ret tt, w') ->
  exists receipt a, paid a /\ progress id g bk (Some (mkInvoice (InvoiceNumber inv) receipt))
                    (ps ++ [(pay_request PaymentSimulator g inv, a)]) w'.
Proof.
  intros (Hp & s & v & Hs & Hid & Hg & Hc & Hex & Hpi & Hb & Hi) H.
  destruct (PayInvoice_Ret _ _ _ _ Hc Hex H)
    as (cl & g' & i & st & body & resp & [= <-] & (Hg' & _ & Hi' & _) & Hh & Ha & Hd & Hok & Hst & Hc').
  assert (g' = g) as -> by congruence. assert (i = inv) as -> by congruence.
  exists (pay_ReceiptNumber resp), (env_http (w_http w')). split; [by exists st, body, resp|]. split.
  - rewrite Hh, posts_post; [by rewrite Hp|done].
  - exists s. eexists. rewrite Hst. split; [done|]. split; [done|]. split; [done|].
    split; [exact Hc'|]. done.
Qed.

Lemma payment_edges_nonempty k : flow_StateMap payment_def k <> Some [].
Proof. destruct k; vm_compute; discriminate. Qed.

(** The payment flow: one payment of the cached invoice. *)
Lemma payment_flow_progress fuel id g bk inv ps w w' :
  (forall n, env_ctx n = None) -> progress id g bk (Some inv) ps w ->
  Flow_Start fuel NewPaymentFlowWithState w = (Ret tt, w') ->
  exists receipt a, paid a /\ progress id g bk (Some (mkInvoice (InvoiceNumber inv) receipt))
                    (ps ++ [(pay_request PaymentSimulator g inv, a)]) w'.
Proof.
  intros Hctx Hw H.
  pose (Q := fun w => exists receipt a, paid a
               /\ progress id g bk (Some (mkInvoice (InvoiceNumber inv) receipt))
                    (ps ++ [(pay_request PaymentSimulator g inv, a)]) w).
  pose (I := fun (k : PaymentStepId) w =>
    match k with
    | PayInvoiceId => progress id g bk (Some inv) ps w
    | PaymentEndId => Q w
    end).
  refine (run_from_Ret payment_steps (flow_StateMap payment_def) I Q
            Hctx payment_edges_nonempty _ _ fuel PayInvoiceId w w' Hw H);
    [intros k w0 HI; by destruct k|].
  clear w w' Hw H. intros k w w' HI H. unfold run_step in H. go_inv H.
  pose proof (Ret_same _ _ _ _ (payment_Validate_same k w) Hrun) as ->.
  destruct k; [|by injection H as <-].
  change (flow_StateMap payment_def PayInvoiceId) with
    (Some [mkWeighted PaymentEndId (f64_of_Z 1)]).
  intros item ->%list_elem_of_singleton. exact (PayInvoice_progress id g bk inv ps w w' HI H).
Qed.
End Flows.

(** ** The cache service and the waits *)

Section Waiting.
Context {G : GoLib} {R : RedisServer} {RL : RedisLaws R} {E : Env}.

Lemma SyncStateCache_progress name id g bk iv ps w w' :
  progress id g bk iv ps w -> SyncStateCache name w = (Ret tt, w') -> progress id g bk iv ps w'.
Proof.
  intros Hw H. unfold SyncStateCache in H. go_inv H. apply service_guards_Ret in Hrun as [Hs ->].
  go_inv H. apply guard_inv in Hrun as [_ <-]. go_inv H.
  destruct (progress_Load _ _ _ _ _ _ _ _ Hw Hrun) as (Hw1 & (Hex & Hpi & Hb & Hi) & _).
  assert (Hg : st_Guest v = Some g) by (destruct Hw as (_ & s & _ & Hs' & _ & Hg & _); congruence).
  rewrite Hg in H. rewrite <- Hb, <- Hi. cbv zeta in H.
  destruct (negb _); exact (progress_Save _ _ _ _ _ _ _ _ Hw1 H Hex eq_refl).
Qed.

(** [Load] loses nothing, whatever it answers. *)
Lemma Load_keeps_progress id g bk iv ps : keeps (progress id g bk iv ps) Load.
Proof.
  intros w Hw. pose proof Hw as (Hp & s & v & Hs & Hid & Hg & Hc & Hv).
  pose proof Hc as (s' & db & j & Hs' & Hdb & Hk & Hj & Hd). pose proof Hk as [Hne Hown].
  rewrite (Load_eq w s' db Hs' Hdb Hne).
  destruct (redis_GET (st_RedisKey s') db) as [r db'] eqn:Eg. cbn [snd].
  split; [exact Hp|]. exists s, v. split; [exact Hs|]. split; [done|]. split; [done|].
  split; [|exact Hv]. exists s', db', j. split; [exact Hs'|]. split; [done|]. split; [done|].
  split; [|done]. destruct r as [e|j'];
    [by rewrite (redis_GET_err _ _ _ _ Hown Eg)|by destruct (redis_GET_ok _ _ _ _ Hown Eg) as [_ ->]].
Qed.

Lemma deref_keeps_progress id g bk iv ps : keeps (progress id g bk iv ps) deref_state.
Proof. intros w Hw. unfold deref_state. by destruct (w_state w). Qed.

#[local] Hint Resolve Load_keeps_progress deref_keeps_progress : guest.

Lemma matchBookingConfirmation_keeps id g bk iv ps m :
  keeps (progress id g bk iv ps) (matchBookingConfirmation (Some m)).
Proof. unfold matchBookingConfirmation. keeps_auto. Qed.

Lemma matchCheckinToday_keeps id g bk iv ps m :
  keeps (progress id g bk iv ps) (matchCheckinToday (Some m)).
Proof. unfold matchCheckinToday. keeps_auto. Qed.

(** A payment request that does not match may have reached the cache before its error;
    only the invoice can have changed. *)
Definition awaiting_payment id g bk ps w : Prop := exists iv, progress id g bk iv ps w.

Lemma Save_keeps_awaiting id g bk ps v :
  value_of g bk (Invoice v) v -> keeps (awaiting_payment id g bk ps) (Save v).
Proof.
  intros (Hex & Hpi & Hb & _) w (iv & Hw). pose proof Hw as (Hp & s & v0 & Hs & Hid & Hg & Hc & Hv).
  destruct (Save v w) as [r w'] eqn:Es. cbn [snd]. pose proof (Save_total _ _ _ _ _ Hc Es) as Hr.
  destruct r as [[]|e|p|]; try done.
  - exists (Invoice v). rewrite <- Hb. by eapply progress_Save.
  - destruct (Save_Err _ _ _ _ _ Hc Hex Es) as (Hst & Hh & [Hc'|Hc']).
    + exists iv. split; [by rewrite Hh|]. exists s, v0. by rewrite Hst.
    + exists (Invoice v). split; [by rewrite Hh|]. exists s, v. by rewrite Hst.
Qed.

Lemma with_invoice_value g bk iv v m :
  value_of g bk iv v -> value_of g bk (Invoice (with_invoice v m)) (with_invoice v m).
Proof. by intros (Hex & Hpi & Hb & _). Qed.

Lemma matchPaymentRequest_keeps id g bk ps m :
  keeps (awaiting_payment id g bk ps) (matchPaymentRequest (Some m)).
Proof.
  intros w (iv & Hw). unfold matchPaymentRequest.
  pose proof (Load_keeps_progress id g bk iv ps w Hw) as Hw1.
  destruct (Load w) as [r w1] eqn:El. cbn [snd] in Hw1.
  destruct r as [v|e|p|]; [rewrite (bind_Ret _ _ _ _ _ El)|rewrite (bind_Err _ _ _ _ _ El)|
    rewrite (bind_Panic _ _ _ _ _ El)|rewrite (bind_Stuck _ _ _ _ El)]; try by exists iv.
  destruct (progress_Load _ _ _ _ _ _ _ _ Hw El) as (_ & Hv & _).
  assert (Hs : keeps (awaiting_payment id g bk ps) (Save (with_invoice v m)))
    by (apply Save_keeps_awaiting; by eapply with_invoice_value).
  unfold with_invoice in Hs.
  match goal with |- awaiting_payment _ _ _ _ (snd (?k w1)) =>
    assert (Hk : keeps (awaiting_payment id g bk ps) k); [|apply Hk; by exists iv] end.
  keeps_auto.
Qed.

Lemma matchPaymentRequest_progress id g bk iv ps m w w' :
  progress id g bk iv ps w -> matchPaymentRequest (Some m) w = (Ret tt, w') ->
  exists inv b, progress id g bk (Some inv) ps w' /\ bk = Some b
    /\ InvoiceNumber inv = TrimSpace (pr_InvoiceNumber m) /\ valid_total m = true
    /\ payer_is m (Email g) = true /\ total_cottage m = Some (SelectedCottage b).
Proof.
  intros Hw H. apply matchPaymentRequest_Ret in H as (v & w1 & El & Hp & Hs).
  destruct (progress_Load _ _ _ _ _ _ _ _ Hw El) as (Hw1 & (Hex & Hpi & Hb & Hi) & _).
  destruct Hp as (g' & b & Hg' & Hb' & _ & Ht & Hpay & Hc & _).
  assert (g' = g) as -> by congruence. eexists _, b. rewrite <- Hb at 1.
  split; [exact (progress_Save _ _ _ _ _ _ _ _ Hw1 Hs Hex Hpi)|].
  split; [congruence|done].
Qed.

Lemma matchBookingConfirmation_Ret m w w' :
  matchBookingConfirmation (Some m) w = (Ret tt, w') ->
  exists v b, Load w = (Ret v, w') /\ Booking v = Some b
    /\ bc_BookingId m = BookingID b /\ bc_BookingStatus m = BOOKING_STATUS_CONFIRMED.
Proof.
  unfold matchBookingConfirmation. intros H. go_inv H.
  destruct (Booking v) as [b|] eqn:Eb; [|done].
  apply bind_inv_Ret in H as ([] & w2 & H1 & H). apply guard_inv in H1 as [Hi <-].
  apply bind_inv_Ret in H as ([] & w2 & H1 & H). apply guard_inv in H1 as [Hst <-].
  go_inv H. apply deref_state_Ret in Hrun0 as [_ ->]. apply guard_inv in H as [_ <-].
  apply negb_false_iff in Hi, Hst. apply bool_decide_eq_true in Hst.
  apply String.eqb_eq in Hi. by exists v, b.
Qed.
End Waiting.

(** ** The journey *)

Section JourneyProgress.
Context {G : GoLib} {R : RedisServer} {RL : RedisLaws R} {E : Env} {A : AmqpEnv} {P : ProtoLib}
  {L : LodgingEnv} {J : JourneyEnv}.

Lemma createGuest_progress w w' :
  redis_own pending_key -> createGuest w = (Ret tt, w') ->
  exists id, progress id fake_guest None None (posts (w_http w)) w'.
Proof.
  unfold createGuest. intros Ho H. go_inv H. apply update_state_Ret in Hrun as (s & Hs & ->).
  go_inv H. apply update_state_Ret in Hrun as (s1 & [= <-] & ->).
  unfold InitializeStateCache in H. go_inv H. apply service_guards_Ret in Hrun as [[= <-] ->].
  go_inv H. apply guard_inv in Hrun as [_ <-]. go_inv H. apply guard_inv in Hrun as [_ <-].
  destruct (Save_Ret _ _ _ H) as (Hf & Hc & _).
  assert (Hex : cacheValue_exact (mkCacheValue "" (Some fake_guest) None None)) by done.
  specialize (Hc ltac:(by eexists) Hex). exists (st_GuestId s). split; [by rewrite (frame_http _ _ Hf)|].
  destruct (frame_state _ _ Hf) as (s2 & [= <-] & Hs').
  eexists _, _. split; [exact Hs'|]. split; [done|]. split; [done|]. by split.
Qed.

(** *** Messages that arrived *)

(** [m] was delivered before one of the waits, or published during the wait for it. *)
Definition arrived (m : BusMessage) : Prop :=
  (exists d, message_of d = Some m
     /\ BusDelivery d ∈ events_before_payment ++ events_before_confirmation ++ events_before_checkin)
  \/ match m with
     | MsgPayment m => EPublish m ∈ payment_turns
     | MsgConfirmed m => EPublish m ∈ confirmation_turns
     | MsgCheckin m => EPublish m ∈ checkin_turns
     end.

(** Nobody listens on a topic between the waits, and what is pending has arrived. *)
Definition heard_topic {M} (ok : M -> Prop) (t : Topic M) : Prop :=
  channels t = ∅ /\ forall m, m ∈ pending t -> ok m.

Definition heard (b : Bus) : Prop :=
  heard_topic (fun m => arrived (MsgPayment m)) (paymentRequests b)
  /\ heard_topic (fun m => arrived (MsgConfirmed m)) (bookingConfirmations b)
  /\ heard_topic (fun m => arrived (MsgCheckin m)) (checkinTodays b).

Lemma heard_empty {M} (ok : M -> Prop) : heard_topic ok emptyTopic.
Proof. split; [done|]. intros m Hm. by apply not_elem_of_nil in Hm. Qed.

Lemma heard_publish {M} (ok : M -> Prop) m t :
  heard_topic ok t -> ok m -> heard_topic ok (publish m t).
Proof.
  intros [Hc Hp] Hm. destruct (publish_no_subscriber 0 m t Hc) as (H1 & H2 & _).
  split; [done|]. rewrite H2. set_solver.
Qed.

Lemma heard_message m b : heard b -> arrived m -> heard (publish_message m b).
Proof.
  intros (H1 & H2 & H3) Hm. destruct m; (split; [|split]); cbn; first [done|by apply heard_publish].
Qed.

Lemma bus_loop_heard done evs b :
  (forall d m, BusDelivery d ∈ evs -> message_of d = Some m -> arrived m) ->
  heard b -> heard (fst (fst (bus_loop done evs b))).
Proof.
  revert b. induction evs as [|ev evs IH]; intros b Hev Hb; [exact Hb|]. cbn [bus_loop].
  assert (Hrest : forall d m, BusDelivery d ∈ evs -> message_of d = Some m -> arrived m)
    by (intros d m Hd; apply Hev; by right).
  destruct ev as [e| |d]; cbn [bus_turn]; [done..|].
  pose proof (handleDelivery_message d b) as Hd. destruct (handleDelivery d b) as [e|b'].
  - specialize (IH b Hrest Hb). by destruct (bus_loop done evs b) as [[b2 a2] g2].
  - destruct Hd as (m & Hm & ->).
    assert (Hb' : heard (publish_message m b)) by (apply heard_message; [done|]; eapply Hev; [by left|done]).
    specialize (IH _ Hrest Hb'). by destruct (bus_loop done evs _) as [[b2 a2] g2].
Qed.

Lemma bus_receives_heard evs b :
  (forall ev, ev ∈ evs -> ev ∈ events_before_payment ++ events_before_confirmation ++ events_before_checkin) ->
  heard b -> heard (bus_receives evs b).
Proof.
  intros Hev Hb. unfold bus_receives. destruct (bus_is_done b); [done|].
  apply bus_loop_heard; [|done]. intros d m Hd Hm. left. eauto.
Qed.

(** A wait that succeeds, over a world that has [I]: the message it matched has arrived. *)
Lemma wait_on_Ret {M} (I : World -> Prop) (ok : M -> Prop) matches topic set_topic turns j j' :
  (forall m, keeps I (matches (Some m))) -> I (j_world j) ->
  heard (j_bus j) -> heard_topic ok (topic (j_bus j)) ->
  (forall t b, heard b -> heard_topic ok t -> heard (set_topic t b)) ->
  (forall m, EPublish m ∈ turns -> ok m) ->
  wait_on matches topic set_topic turns j = (Ret tt, j') ->
  exists m w, ok m /\ I w /\ matches (Some m) w = (Ret tt, j_world j')
    /\ j_calls j' = j_calls j /\ heard (j_bus j').
Proof.
  intros Hm HI Hheard [Hc Hp] Hset Hturns H. unfold wait_on in H.
  injection H as Hout <-. unfold wait_outcome in Hout. cbn [j_bus j_world j_calls].
  set (c0 := wait_start 0 _ _ _ _) in *. set (c := wait_run matches 0 turns c0) in *.
  assert (Hret : wt_pc c = Returned (Ret tt)) by (destruct (wt_pc c); [done..|by subst]).
  destruct (wait_run_matched matches 0 I turns c0 Hm HI Logic.I Hret) as (m & w & Hw & Hin & Hmm).
  destruct (wait_run_reachable matches 0 turns c0) as (ls & Hrun). fold c in Hrun, Hin, Hmm.
  destruct (wait_reachable _ _ _ _ _ _ _ _ Hc Hrun) as [Hch _ Hcons _].
  assert (Hall : forall x, x ∈ pending (topic (j_bus j)) ++ wt_published c -> ok x).
  { intros x [Hx|Hx]%elem_of_app; [by apply Hp|].
    apply wait_run_published in Hx as [Hx|Hx]; [by apply not_elem_of_nil in Hx|by apply Hturns]. }
  exists m, w. split; [apply Hall; rewrite Hcons; set_solver|].
  do 3 (split; [done|]). unfold bus_after.
  assert (Hb : heard (set_topic (wt_topic c) (j_bus j))).
  { apply Hset; [done|]. rewrite Hret in Hch. split; [done|]. intros x Hx. apply Hall.
    rewrite Hcons. set_solver. }
  destruct (wt_stopped c); [|done]. by destruct (bus_is_done (j_bus j)).
Qed.

Lemma wait_payment_progress id g bk iv ps j j' :
  progress id g bk iv ps (j_world j) -> heard (j_bus j) -> wait_payment j = (Ret tt, j') ->
  exists m inv b, arrived (MsgPayment m)
    /\ progress id g bk (Some inv) ps (j_world j') /\ j_calls j' = j_calls j /\ heard (j_bus j')
    /\ bk = Some b /\ InvoiceNumber inv = TrimSpace (pr_InvoiceNumber m) /\ valid_total m = true
    /\ payer_is m (Email g) = true /\ total_cottage m = Some (SelectedCottage b).
Proof.
  intros Hw Hb H. destruct (wait_on_Ret (awaiting_payment id g bk ps) (fun m => arrived (MsgPayment m))
    _ paymentRequests set_paymentRequests payment_turns j j' (matchPaymentRequest_keeps id g bk ps) ltac:(by exists iv) Hb (proj1 Hb)
    ltac:(by intros t b (? & ? & ?) ?) ltac:(by right) H) as (m & w & Ha & (iv' & Hw') & Hm & Hc & Hb').
  destruct (matchPaymentRequest_progress _ _ _ _ _ _ _ _ Hw' Hm) as (inv & b & Hp & Hrest).
  by exists m, inv, b.
Qed.

Lemma wait_confirmation_progress id g b iv ps j j' :
  progress id g (Some b) iv ps (j_world j) -> heard (j_bus j) -> wait_confirmation j = (Ret tt, j') ->
  exists m, arrived (MsgConfirmed m)
    /\ progress id g (Some b) iv ps (j_world j') /\ j_calls j' = j_calls j /\ heard (j_bus j')
    /\ bc_BookingId m = BookingID b /\ bc_BookingStatus m = BOOKING_STATUS_CONFIRMED.
Proof.
  intros Hw Hb H. destruct (wait_on_Ret _ (fun m => arrived (MsgConfirmed m))
    _ bookingConfirmations set_bookingConfirmations confirmation_turns j j'
    (matchBookingConfirmation_keeps id g (Some b) iv ps) Hw Hb (proj1 (proj2 Hb))
    ltac:(by intros t b0 (? & ? & ?) ?) ltac:(by right) H) as (m & w & Ha & Hw' & Hm & Hc & Hb').
  apply matchBookingConfirmation_Ret in Hm as (v & b' & El & Hbk & Hid & Hst).
  destruct (progress_Load _ _ _ _ _ _ _ _ Hw' El) as (Hp & (_ & _ & Hbk' & _) & _).
  assert (b' = b) as -> by congruence. by exists m.
Qed.

Lemma wait_checkin_progress id g b iv ps j j' :
  progress id g (Some b) iv ps (j_world j) -> heard (j_bus j) -> wait_checkin j = (Ret tt, j') ->
  exists m, arrived (MsgCheckin m)
    /\ progress id g (Some b) iv ps (j_world j') /\ j_calls j' = j_calls j
    /\ ct_BookingId m = BookingID b /\ ct_CottageName m = SelectedCottage b.
Proof.
  intros Hw Hb H. destruct (wait_on_Ret _ (fun m => arrived (MsgCheckin m))
    _ checkinTodays set_checkinTodays checkin_turns j j'
    (matchCheckinToday_keeps id g (Some b) iv ps) Hw Hb (proj2 (proj2 Hb))
    ltac:(by intros t b0 (? & ? & ?) ?) ltac:(by right) H) as (m & w & Ha & Hw' & Hm & Hc & _).
  apply matchCheckinToday_Ret in Hm as (v & b' & p & El & Hbk & _ & Hid & Hcot).
  destruct (progress_Load _ _ _ _ _ _ _ _ Hw' El) as (Hp & (_ & _ & Hbk' & _) & _).
  assert (b' = b) as -> by congruence. by exists m.
Qed.

(** *** Set-up, stay and cleanup *)

Lemma with_world_keeps {T} (I : World -> Prop) (m : go World T) :
  keeps I m -> keeps (fun j => I (j_world j)) (with_world m).
Proof.
  intros Hm j Hj. unfold with_world, zoom. specialize (Hm _ Hj). by destruct (m (j_world j)).
Qed.

Lemma with_mq_keeps {T} (I : World -> Prop) (m : go MqWorld T) :
  keeps (fun j => I (j_world j)) (with_mq m).
Proof. intros j Hj. unfold with_mq, zoom. by destruct (m (j_mq j)). Qed.

Lemma with_bus_keeps (I : World -> Prop) f : keeps (fun j => I (j_world j)) (with_bus f).
Proof. by intros j Hj. Qed.

Lemma with_lodging_keeps (I : World -> Prop) (m : go LWorld unit) :
  keeps (fun l => I (lw_world l)) m -> keeps (fun j => I (j_world j)) (with_lodging m).
Proof.
  intros Hm j Hj. unfold with_lodging, zoom.
  specialize (Hm (mkLWorld (j_world j) (j_calls j)) Hj). by destruct (m _).
Qed.

(** Of the journey's world the set-up only reads the state and names the queue. *)
Lemma SetupCommunication_keeps (I : World -> Prop) c b cfg :
  (forall q r, keeps I (update_state (set_Queue q r))) ->
  keeps (fun j => I (j_world j)) (SetupCommunication c b cfg).
Proof.
  intros Hu.
  assert (Hd : keeps I deref_state) by (intros w Hw; unfold deref_state; by destruct (w_state w)).
  unfold SetupCommunication, or_close, ignore_err. keeps_auto.
  1-3: apply with_world_keeps; unfold state_is_nil; keeps_auto; done.
  all: first [apply with_mq_keeps|apply with_bus_keeps].
Qed.

Lemma set_Queue_progress id g bk iv ps q r :
  keeps (progress id g bk iv ps) (update_state (set_Queue q r)).
Proof.
  intros w Hw. unfold update_state. destruct (w_state w) as [s|] eqn:Es; [|done].
  by apply (progress_state _ _ _ _ _ (set_Queue q r)).
Qed.

Lemma SetupCommunication_heard c b cfg j j' :
  SetupCommunication c b cfg j = (Ret tt, j') -> heard (j_bus j').
Proof.
  unfold SetupCommunication. intros H.
  repeat match type of H with
  | (_ ≫= _) _ = _ => let a := fresh in let j1 := fresh in let H1 := fresh in
      apply bind_inv_Ret in H as (a & j1 & H1 & H); cbv zeta beta in H
  end.
  injection H as <-. split; [|split]; apply heard_empty.
Qed.

(** Of the journey's world the lodging flow only polls the context and loads the cache. *)
Lemma RunLodging_keeps (I : World -> Prop) fuel url :
  keeps I ctx_Err -> keeps I Load -> keeps (fun l => I (lw_world l)) (RunLodgingStayFlow fuel url).
Proof.
  intros Hp Hl.
  assert (Hz : forall T (m : go World T), keeps I m -> keeps (fun l => I (lw_world l)) (on_world m)).
  { intros T m Hm l Hi. unfold on_world, zoom. specialize (Hm _ Hi). by destruct (m (lw_world l)). }
  assert (Hs : forall T (m : go World T), (forall w, keeps (eq w) m) -> keeps I m).
  { intros T m Hm w Hw. by rewrite <- (Hm w w eq_refl). }
  assert (Hc : forall c, keeps (fun l => I (lw_world l)) (call c))
    by (intros c w Hw; unfold call; by destruct (env_lodging _)).
  assert (Hconv : forall flow g b p,
    keeps (fun l => I (lw_world l)) (with_close (conversation fuel flow g b p))).
  { intros flow g b p w Hw. destruct (traces_conversation fuel flow g b p w) as (He & _).
    unfold with_close.
    destruct (conversation _ _ _ _ _ w) as [[[]|e|q|] w']; cbn in *; by rewrite He. }
  rewrite RunLodgingStayFlow_eq. unfold RunLodging_Validate, RunLodging_Execute, loadCache. keeps_auto;
    apply Hz; first [done|apply Hs; auto using require_state_same, require_cache_same].
Qed.

(** The lodging flow sends no HTTP request. *)
Lemma RunLodging_http fuel url h :
  keeps (fun l => w_http (lw_world l) = h) (RunLodgingStayFlow fuel url).
Proof.
  apply (RunLodging_keeps (fun w => w_http w = h)); [by intros w Hw|].
  unfold Load, check_redis, Cache_Get, EnsureKey, state_is_nil. keeps_auto.
Qed.

Lemma cleanup_posts j j' : cleanupGuestJourney j = (Ret tt, j') -> w_http (j_world j') = w_http (j_world j).
Proof. intros H. by destruct (cleanup_Ret _ _ H) as [_ [Hh _]]. Qed.

(** *** From the first call to the last *)

(** The payment request [m] announces the invoice of the stay to the guest. *)
Definition announces (m : PaymentRequest) (g : Guest) (cottage : string)
    (inv : GuestJourneyInvoice) : Prop :=
  arrived (MsgPayment m) /\ InvoiceNumber inv = TrimSpace (pr_InvoiceNumber m)
  /\ valid_total m = true /\ payer_is m (Email g) = true /\ total_cottage m = Some cottage.

(** Between the histories [h] and [h'] the guest was registered, which gave it [id], booked
    [cottage] for [p] under [id], which gave the booking [bid], and paid [inv], in this
    order, and nothing else was posted. *)
Definition posted (g : Guest) (id bid cottage : string) (p : Period) (inv : GuestJourneyInvoice)
    (h h' : list HttpRequest) : Prop :=
  exists registered booked payment,
    posts h' = posts h ++ [(register_request g, registered); (stay_request id g cottage p, booked);
                           (pay_request PaymentSimulator g inv, payment)]
    /\ gives (decode_string "") id registered /\ gives (decode_Confirmation "") bid booked
    /\ paid payment.

Lemma posted_requests g id bid cottage p inv h h' :
  posted g id bid cottage p inv h h' ->
  filter is_post h'
  = filter is_post h ++ [register_request g; stay_request id g cottage p;
                         pay_request PaymentSimulator g inv].
Proof.
  intros (a1 & a2 & a3 & Hp & _). by rewrite <- !posts_requests, Hp, map_app.
Qed.

Lemma book_a_stay_progress fuel cfg j j' :
  redis_own pending_key -> (forall n, env_ctx n = None) ->
  book_a_stay fuel cfg j = (Ret tt, j') ->
  exists id a, id <> "" /\ gives (decode_string "") id a
    /\ booking_end id fake_guest None
         (posts (w_http (j_world j)) ++ [(register_request fake_guest, a)]) (j_world j')
    /\ heard (j_bus j').
Proof.
  intros Hown Hctx H. unfold book_a_stay in H.
  go_inv H. destruct v. apply with_world_inv in Hrun as (w1 & H1 & ->).
  apply (createGuest_progress _ _ Hown) in H1 as (id0 & Hp1).
  go_inv H. destruct v. apply with_world_inv in Hrun as (w2 & H2 & ->). cbn [j_world] in H2.
  destruct (register_flow_progress _ _ _ _ _ _ _ _ Hctx Hp1 H2) as (id & a & Hid & Ha & Hp2).
  go_inv H. destruct v. exists id, a. split; [done|]. split; [done|].
  pose proof (SetupCommunication_heard _ _ _ _ _ Hrun) as Hb.
  match type of Hrun with _ ?j0 = _ =>
    pose proof (SetupCommunication_keeps _ true true cfg (set_Queue_progress id fake_guest None None _)
                  j0 Hp2) as Hp3 end.
  rewrite Hrun in Hp3. cbn [snd] in Hp3.
  apply with_world_inv in H as (w3 & H3 & ->). cbn [j_world j_bus]. split; [|exact Hb].
  eapply booking_flow_progress; [exact Hctx| |exact Hp3|exact H3]. done.
Qed.

Lemma pay_and_stay_progress fuel url id g b p ps j j' :
  (forall n, env_ctx n = None) -> SelectedPeriod b = Some p ->
  progress id g (Some b) None ps (j_world j) -> heard (j_bus j) ->
  pay_and_stay fuel url j = (Ret tt, j') ->
  exists inv a mp mc mi new,
    posts (w_http (j_world j')) = ps ++ [(pay_request PaymentSimulator g inv, a)] /\ paid a
    /\ announces mp g (SelectedCottage b) inv
    /\ (arrived (MsgConfirmed mc) /\ bc_BookingId mc = BookingID b
        /\ bc_BookingStatus mc = BOOKING_STATUS_CONFIRMED)
    /\ (arrived (MsgCheckin mi) /\ ct_BookingId mi = BookingID b
        /\ ct_CottageName mi = SelectedCottage b)
    /\ j_calls j' = j_calls j ++ CallNewClient url :: new ++ [CallClose]
    /\ Forall is_conversation new /\ omap visible new = visit DefaultLodgingFlow env_keyID p
    /\ all_accepted (j_calls j) (CallNewClient url :: new).
Proof.
  intros Hctx Hper Hw Hb H. unfold pay_and_stay in H.
  assert (Hrec : forall evs j0 j1, with_bus (bus_receives evs) j0 = (Ret tt, j1) ->
    (forall ev, ev ∈ evs -> ev ∈ events_before_payment ++ events_before_confirmation ++ events_before_checkin) ->
    heard (j_bus j0) -> j_world j1 = j_world j0 /\ j_calls j1 = j_calls j0 /\ heard (j_bus j1)).
  { intros evs j0 j1 H0 Hev Hb0. injection H0 as <-. do 2 (split; [done|]). by apply bus_receives_heard. }
  go_inv H. destruct v. apply with_world_inv in Hrun as (w1 & H1 & ->).
  apply (SyncStateCache_progress _ _ _ _ _ _ _ _ Hw) in H1.
  go_inv H. destruct v. apply Hrec in Hrun as (E2 & C2 & B2); [|set_solver|exact Hb].
  cbn [j_world j_calls] in E2, C2. rewrite <- E2 in H1. go_inv H. destruct v.
  destruct (wait_payment_progress _ _ _ _ _ _ _ H1 B2 Hrun)
    as (mp & inv & b' & Ha & P3 & C3 & B3 & [= <-] & Hinv & Hval & Hpay & Hcot).
  go_inv H. destruct v. apply with_world_inv in Hrun0 as (w4 & H4 & ->).
  destruct (payment_flow_progress _ _ _ _ _ _ _ _ Hctx P3 H4) as (receipt & a & Hpaid & P4).
  go_inv H. destruct v. apply with_world_inv in Hrun0 as (w5 & H5 & ->). cbn [j_world j_bus j_calls] in *.
  apply (SyncStateCache_progress _ _ _ _ _ _ _ _ P4) in H5.
  go_inv H. destruct v. apply Hrec in Hrun0 as (E6 & C6 & B6); [|set_solver|exact B3].
  cbn [j_world] in E6. rewrite <- E6 in H5. go_inv H. destruct v.
  destruct (wait_confirmation_progress _ _ _ _ _ _ _ H5 B6 Hrun0) as (mc & Hmc & P7 & C7 & B7 & Hc1 & Hc2).
  go_inv H. destruct v. apply Hrec in Hrun1 as (E8 & C8 & B8); [|set_solver|exact B7].
  rewrite <- E8 in P7. go_inv H. destruct v.
  destruct (wait_checkin_progress _ _ _ _ _ _ _ P7 B8 Hrun1) as (mi & Hmi & P9 & C9 & Hi1 & Hi2).
  exists inv, a, mp, mc, mi.
  pose proof P9 as (Hps & s & v & _ & _ & _ & Hc & _ & _ & Hbv & _).
  destruct (stay_Ret _ _ _ _ v b p Hctx Hc Hbv Hper H) as (g' & new & _ & Hn & Hconv & Hvis & Hacc).
  exists new. cbn [j_calls] in *. rewrite C9, C8, C7, C6, C3, C2 in Hn, Hacc.
  rewrite Hn. split; [|done].
  rewrite <- Hps. f_equal. pose proof (RunLodging_http fuel url (w_http (j_world w7))
    (mkLWorld (j_world w7) (j_calls w7)) eq_refl) as Hh.
  unfold with_lodging, zoom in H. by destruct (RunLodgingStayFlow _ _ _) as [r l]; injection H as _ <-.
Qed.

(** What a successful journey has done; the calls of its stay were all accepted. *)
Lemma journey_done fuel cfg url w mq j j' :
  redis_own pending_key -> (forall n, env_ctx n = None) ->
  NewGuestJourney w mq true true = inr j ->
  Journey_Start fuel cfg url j = (Ret tt, j') ->
  exists id bid cottage p inv mp mc mi new,
    id <> "" /\ bid <> ""
    /\ posted fake_guest id bid cottage p inv (w_http w) (w_http (j_world j'))
    /\ announces mp fake_guest cottage inv
    /\ (arrived (MsgConfirmed mc) /\ bc_BookingId mc = bid
        /\ bc_BookingStatus mc = BOOKING_STATUS_CONFIRMED)
    /\ (arrived (MsgCheckin mi) /\ ct_BookingId mi = bid /\ ct_CottageName mi = cottage)
    /\ j_calls j' = CallNewClient url :: new ++ [CallClose]
    /\ Forall is_conversation new /\ omap visible new = visit DefaultLodgingFlow env_keyID p
    /\ all_accepted [] (CallNewClient url :: new) /\ cleaned j'.
Proof.
  intros Hown Hctx Hnew Hs.
  assert (Hj : j = mkJWorld w mq NewGuestCommunicationBus []).
  { unfold NewGuestJourney in Hnew. destruct (_ || _); [done|]. by injection Hnew as <-. }
  assert (Hb : journey_body fuel cfg url j = (Ret tt, j')) by (by apply journey_Ret in Hs as [? _]).
  clear Hs Hnew. subst j. unfold journey_body in Hb. go_inv Hb. destruct v.
  pose proof (book_a_stay_calls fuel cfg [] (mkJWorld w mq NewGuestCommunicationBus []) eq_refl) as Hcalls0.
  rewrite Hrun in Hcalls0.
  destruct (book_a_stay_progress _ _ _ _ Hown Hctx Hrun) as (id & ar & Hid & Har & Hend & Hheard).
  go_inv Hb. apply with_world_inv in Hrun0 as (w2 & Hl & ->).
  go_inv Hb. destruct v0. apply guard_inv in Hrun0 as [Hbooked <-]. apply negb_false_iff in Hbooked.
  go_inv Hb. destruct v0. apply cleanup_Ret in Hb as [Hclean [Hposts Hcalls]].
  destruct Hend as [(bk & Hun & Hp)|(bid & cottage & p & ab & Hab & Hp)];
    destruct (progress_Load _ _ _ _ _ _ _ _ Hp Hl) as (Hp1 & (_ & _ & Hbk & _) & _);
    unfold has_booking in Hbooked; rewrite Hbk in Hbooked.
  { destruct bk as [b|]; [|done]. by rewrite (Hun b eq_refl) in Hbooked. }
  apply negb_true_iff, String.eqb_neq in Hbooked.
  destruct (pay_and_stay_progress _ _ _ _ (mkBooking bid cottage (Some p)) p _
              (mkJWorld w2 (j_mq w0) (j_bus w0) (j_calls w0)) _ Hctx eq_refl Hp1 Hheard Hrun0)
    as (inv & ap & mp & mc & mi & new & Hps & Hap & Ha & Hc & Hi & Hn & Hconv & Hvis & Hacc).
  exists id, bid, cottage, p, inv, mp, mc, mi, new. rewrite Hposts, Hcalls, Hn.
  cbn [j_world j_calls app fst snd] in Hcalls0, Hps, Hacc |- *. rewrite Hcalls0 in Hacc |- *.
  do 2 (split; [done|]). split; [|done].
  exists ar, ab, ap. split; [by rewrite Hps, <- !app_assoc|done].
Qed.

(** C1: a journey whose key is its own on the server, and that succeeds without being
    cancelled, made, in order and once each, exactly three posts: the registration of its
    guest, whose answer gave an identifier; the booking of a stay under that very
    identifier, whose answer gave a booking; and the payment, which the answer says
    succeeded, of an invoice that a message that arrived announced to the guest for the
    booked cottage. It went on after messages that arrived confirmed that very booking and
    invited to check in for it, and had one conversation with the lodging service, whose
    waits, actions and keys are the visit planned for the booked period. At the end it has
    cleaned up. *)
Theorem journey_success fuel cfg url w mq j j' :
  redis_own pending_key -> (forall n, env_ctx n = None) ->
  NewGuestJourney w mq true true = inr j ->
  Journey_Start fuel cfg url j = (Ret tt, j') ->
  exists id bid cottage p inv mp mc mi new,
    id <> "" /\ bid <> ""
    /\ posted fake_guest id bid cottage p inv (w_http w) (w_http (j_world j'))
    /\ announces mp fake_guest cottage inv
    /\ (arrived (MsgConfirmed mc) /\ bc_BookingId mc = bid
        /\ bc_BookingStatus mc = BOOKING_STATUS_CONFIRMED)
    /\ (arrived (MsgCheckin mi) /\ ct_BookingId mi = bid /\ ct_CottageName mi = cottage)
    /\ j_calls j' = CallNewClient url :: new ++ [CallClose]
    /\ Forall is_conversation new /\ omap visible new = visit DefaultLodgingFlow env_keyID p
    /\ cleaned j'.
Proof.
  intros Hown Hctx Hnew Hs.
  destruct (journey_done _ _ _ _ _ _ _ Hown Hctx Hnew Hs)
    as (id & bid & cottage & p & inv & mp & mc & mi & new & H1 & H2 & H3 & H4 & H5 & H6 & H7 & H8 & H9 & _ & H10).
  by exists id, bid, cottage, p, inv, mp, mc, mi, new.
Qed.
End JourneyProgress.

(** ** A concrete run *)

Section Witnesses.
#[local] Existing Instances sample_lib sample_redis sample_redis_laws sample_proto.
#[local] Existing Instances sample_amqp sample_chat sample_journey.

Lemma journey_success_witness :
  exists j' id bid cottage p inv new,
    Journey_Start (E := sample_services booking_draw) 20 sample_cfg chat_url fresh_journey = (Ret tt, j')
    /\ posted (E := sample_services booking_draw) fake_guest id bid cottage p inv [] (w_http (j_world j'))
    /\ j_calls j' = CallNewClient chat_url :: new ++ [CallClose]
    /\ omap visible new = visit DefaultLodgingFlow "key-1" p.
Proof.
  pose proof (run_ok _ _ _ sample_journey_ends) as Hrun.
  set (j' := snd (Journey_Start (E := sample_services booking_draw) 20 sample_cfg chat_url
                    fresh_journey)) in Hrun.
  assert (Hctx : forall n, @env_ctx (sample_services booking_draw) n = None) by (intros n; reflexivity).
  assert (Hnew : NewGuestJourney fresh_world fresh_mq true true = inr fresh_journey) by reflexivity.
  pose proof (@journey_success sample_lib sample_redis sample_redis_laws (sample_services booking_draw)
                sample_amqp sample_proto sample_chat sample_journey 20 sample_cfg chat_url
                fresh_world fresh_mq fresh_journey j' Logic.I Hctx Hnew Hrun) as K.
  clearbody j'.
  destruct K as (id & bid & cottage & p & inv & mp & mc & mi & new & _ & _ & Hp & _ & _ & _ & Hc & _ & Hv & _).
  exists j', id, bid, cottage, p, inv, new. split; [exact Hrun|]. split; [exact Hp|]. split; [exact Hc|exact Hv].
Defined.
End Witnesses.
