(* ===== verification/Ending.v ===== *)
(** * Every journey comes to an end

    The loops of a journey that the code does not bound are the walk of the booking flow, the
    waits and the reading of the chat. This file shows that nothing else keeps a journey
    going: one whose draws take the walk to its end, whose waits are cancelled at the latest
    and whose chat is closed at the latest returns, with a nil error or an error. *)

From Stdlib Require Import ZArith Lia.
From stdpp Require Import base tactics list option strings gmap.
From S2P Require Import Prelude GoEffects GoTime GoText Domain Json World Samples SelectPeriod Steps Flow Kept.
From S2P Require Import Bus Waits BusWait Lodging Mq Journey.
Open Scope Z_scope.

(** A computation that neither panics nor is left out of fuel. *)
Lemma robust_total {W A} (I : W -> Prop) (m : go W A) :
  robust false I m -> (forall w, I w -> fst (m w) <> Stuck) -> robust true I m.
Proof.
  intros Hr Hn w Hw. destruct (Hr w Hw) as [H1 H2]. split; [exact H1|].
  specialize (Hn w Hw). by destruct (fst (m w)).
Qed.

Lemma robust_forM {W A} t (I : W -> Prop) (l : list A) (f : A -> go W unit) :
  (forall x, robust t I (f x)) -> robust t I (forM_ l f).
Proof. intros Hf. induction l as [|x l IH]; [apply robust_ret|]. by apply robust_bind. Qed.

(** ** The stay *)

Section Stay.
Context {G : GoLib} {R : RedisServer} {E : Env} {L : LodgingEnv}.

(** The lodging service and the clock answer every call, a read with a message or an
    error, and after [K] calls with errors only. *)
Definition chat_closes (K : nat) : Prop := forall h c,
  match env_lodging (h ++ [c]) with
  | AnswerNever => False
  | AnswerErr _ => True
  | AnswerOk => c <> CallNext /\ (length h < K)%nat
  | AnswerMessage _ => (length h < K)%nat
  end.

Variable K : nat.
Hypothesis closes : chat_closes K.

Definition lready (l : LWorld) : Prop := ready false (lw_world l).

Lemma call_robust c : robust true lready (call c).
Proof.
  intros l Hl. unfold call. specialize (closes (lw_calls l) c). by destruct (env_lodging _).
Qed.

Lemma reply_robust m r : robust true lready (reply m r).
Proof. unfold reply. destruct m; [apply call_robust|apply robust_throw]. Qed.

(** A read gives a message only before the [K]-th call. *)
Lemma next_message_closes l :
  lready l ->
  lready (snd (next_message l)) /\ length (lw_calls (snd (next_message l))) = S (length (lw_calls l))
  /\ match fst (next_message l) with
     | Ret _ => (length (lw_calls l) < K)%nat
     | Err _ => True
     | _ => False
     end.
Proof.
  intros Hl. unfold next_message. cbn. split; [exact Hl|]. split; [rewrite length_app; cbn; lia|].
  specialize (closes (lw_calls l) CallNext). destruct (env_lodging _); try done. by destruct closes.
Qed.

(** A loop that reads at least one message per unit of fuel ends when there is more fuel
    than there are calls left. *)
Definition ends_from {A} (fuel : nat) (m : go LWorld A) : Prop := forall l,
  lready l -> (K - length (lw_calls l) < fuel)%nat ->
  lready (snd (m l)) /\ match fst (m l) with Ret _ | Err _ => True | _ => False end.

Lemma ends_robust {A} fuel (m : go LWorld A) : ends_from fuel m -> (K < fuel)%nat -> robust true lready m.
Proof.
  intros Hm Hf l Hl. destruct (Hm l Hl ltac:(lia)) as [H1 H2]. split; [exact H1|].
  by destruct (fst (m l)).
Qed.

Lemma ends_zero {A} (m : go LWorld A) : ends_from 0 m.
Proof. intros l _ Hk. lia. Qed.

Lemma ends_ret {A} fuel (a : A) : ends_from fuel (mret a).
Proof. by intros l Hl _. Qed.

(** One turn of such a loop, *)
Lemma ends_turn {A} fuel (f : ChatMessage -> go LWorld A) :
  (forall m, ends_from fuel (f m)) -> ends_from (S fuel) (next_message ≫= f).
Proof.
  intros Hf l Hl Hk. destruct (next_message_closes l Hl) as (H1 & H2 & H3).
  unfold mbind, go_bind. destruct (next_message l) as [[m|e|p|] l1]; cbn [fst snd] in *; try done.
  apply Hf; [done|lia].
Qed.

(** and one with an answer to the message. *)
Lemma ends_reply {A} fuel m r (f : unit -> go LWorld A) :
  (forall u, ends_from fuel (f u)) -> ends_from fuel (reply m r ≫= f).
Proof.
  intros Hf l Hl Hk. unfold reply. destruct m as [m|]; [|done].
  destruct (call_robust (CallReply m r) l Hl) as [H1 H2]. unfold mbind, go_bind, call in *.
  destruct (env_lodging _); try done; (apply Hf; [exact Hl|]); cbn; rewrite length_app; cbn; lia.
Qed.

Lemma expectNotification_ends fuel n : ends_from fuel (expectNotification fuel n).
Proof.
  induction fuel as [|fuel IH]; [apply ends_zero|]. cbn [expectNotification]. apply ends_turn. intros m.
  destruct (bool_decide _); [apply ends_ret|exact IH].
Qed.

Lemma expectRequest_ends fuel r : ends_from fuel (expectRequest fuel r).
Proof.
  induction fuel as [|fuel IH]; [apply ends_zero|]. cbn [expectRequest]. apply ends_turn. intros m.
  destruct (bool_decide _); [apply ends_ret|exact IH].
Qed.

Lemma finishCheckin_ends flow fuel d b : ends_from fuel (finishCheckin flow fuel d b).
Proof.
  induction fuel as [|fuel IH]; [apply ends_zero|]. cbn [finishCheckin]. apply ends_turn. intros m.
  repeat (case_match_goal; [first [exact IH|apply ends_ret|apply ends_reply; by intros []]|]).
  exact IH.
Qed.

(** *** The whole stay *)

Variable fuel : nat.
Hypothesis enough : (K < fuel)%nat.

Lemma expectNotification_robust n : robust true lready (expectNotification fuel n).
Proof. eapply ends_robust; [apply expectNotification_ends|exact enough]. Qed.

Lemma expectRequest_robust r : robust true lready (expectRequest fuel r).
Proof. eapply ends_robust; [apply expectRequest_ends|exact enough]. Qed.

Lemma finishCheckin_robust flow d b : robust true lready (finishCheckin flow fuel d b).
Proof. eapply ends_robust; [apply finishCheckin_ends|exact enough]. Qed.

#[local] Hint Resolve call_robust reply_robust expectNotification_robust expectRequest_robust
  finishCheckin_robust : guest.

Lemma gate_robust p s : robust true lready (waitForActionGate fuel p s).
Proof. unfold waitForActionGate. robust_auto. Qed.

Lemma after_robust s : robust true lready (waitAfterAction fuel s).
Proof. unfold waitAfterAction. robust_auto. Qed.

#[local] Hint Resolve gate_robust after_robust : guest.

Lemma plan_robust p plan : robust true lready (executeActionPlan fuel p plan).
Proof. apply robust_forM. intros s. unfold executeAction. robust_auto. Qed.

Lemma checkout_robust flow k p : robust true lready (executeCheckoutPlan fuel flow k p).
Proof. apply robust_forM. intros s. unfold executeCheckoutAction. robust_auto. Qed.

#[local] Hint Resolve plan_robust checkout_robust : guest.

Lemma conversation_ends flow g b p : robust true lready (with_close (conversation fuel flow g b p)).
Proof.
  assert (H : robust true lready (conversation fuel flow g b p)) by (unfold conversation; robust_auto).
  intros l Hl. destruct (H l Hl) as [H1 H2]. unfold with_close.
  by destruct (conversation fuel flow g b p l) as [[[]|e|why|] l'].
Qed.

Lemma stay_ends url : robust true lready (RunLodgingStayFlow fuel url).
Proof.
  assert (Hz : forall T (m : go World T), robust true (ready false) m -> robust true lready (on_world m))
    by (intros T m Hm; by apply (robust_zoom true _ (ready false))).
  rewrite RunLodgingStayFlow_eq. unfold RunLodging_Validate, RunLodging_Execute. robust_auto.
  - apply Hz. by intros w Hw.
  - apply Hz. eapply robust_intro; [apply require_state_safe|apply require_state_keeps]; apply _.
  - apply Hz. eapply robust_intro; [apply require_cache_safe|apply require_cache_keeps]; apply _.
  - apply loadCache_robust.
  - apply conversation_ends.
Qed.
End Stay.

(** ** The journey *)

Section Journey.
Context {G : GoLib} {R : RedisServer} {E : Env} {A : AmqpEnv} {P : ProtoLib}
  {L : LodgingEnv} {J : JourneyEnv}.

Lemma wait_on_ends {M} (matches : option M -> go World unit) topic set_topic turns :
  (forall m, robust true (ready false) (matches (Some m))) -> ends_wait turns ->
  robust true jready (wait_on matches topic set_topic turns).
Proof.
  intros Hm He. apply robust_total; [by apply wait_on_robust|]. intros j Hj. unfold wait_on. cbv zeta.
  cbn [fst]. unfold wait_outcome.
  match goal with |- context [wait_run matches 0 turns ?c] =>
    destruct (wait_run_robust matches 0 (ready false) turns c Hm Hj Logic.I) as [_ Hp];
    destruct (wait_run_ends matches 0 turns c He) as (r & Hr) end.
  rewrite Hr in *. by destruct r.
Qed.

Lemma flows_end N fuel :
  (forall n, (N <= n)%nat -> env_rand n mod 2 ^ 53 = 2 ^ 53 - 1) -> (N + 3 <= fuel)%nat ->
  robust true (ready false) (Flow_Start fuel NewGuestRegisterFlowWithState)
  /\ robust true (ready false) (Flow_Start fuel NewBookingFlow)
  /\ robust true (ready false) (Flow_Start fuel NewPaymentFlowWithState).
Proof.
  intros Hdraw Hf. destruct (flows_robust fuel) as (H1 & H2 & H3).
  split; [|split]; (apply robust_total; [done|]); intros w Hw.
  - replace fuel with (3 + (fuel - 3))%nat by lia.
    pose proof (register_flow_ends (fuel - 3) w Hw) as Hs.
    by destruct (Flow_Start (3 + (fuel - 3)) NewGuestRegisterFlowWithState w) as [[[]|e|p|] w'].
  - apply (booking_flow_total N); [done..|lia].
  - replace fuel with (2 + (fuel - 2))%nat by lia. by apply payment_flow_ends.
Qed.

(** C4: every journey comes to an end: if from the [N]-th on every draw is the greatest,
    [2^53 - 1] of [2^53], which ends the walk of the booking flow, each wait is cancelled or its bus stopped at the latest, and the lodging
    service answers every call and closes the chat after [K] calls at the latest, a journey
    the constructor accepts returns, with a nil error or an error, whatever everything else
    does; [N + 3] steps of the walk and [K + 1] messages are enough fuel. *)
Theorem journey_ends N K fuel cfg url w mq j :
  NewGuestJourney w mq true true = inr j ->
  (forall n, (N <= n)%nat -> env_rand n mod 2 ^ 53 = 2 ^ 53 - 1) ->
  ends_wait payment_turns -> ends_wait confirmation_turns -> ends_wait checkin_turns ->
  chat_closes K -> (N + 3 <= fuel)%nat -> (K < fuel)%nat ->
  match fst (Journey_Start fuel cfg url j) with Ret _ | Err _ => True | _ => False end.
Proof.
  intros Hnew Hdraw Hp Hc Hi Hchat HN HK.
  destruct (flows_end N fuel Hdraw HN) as (Hf1 & Hf2 & Hf3).
  assert (Hw1 : robust true jready wait_payment)
    by (apply wait_on_ends; [intros m; apply matchPaymentRequest_robust|done]).
  assert (Hw2 : robust true jready wait_confirmation)
    by (apply wait_on_ends; [intros m; apply matchBookingConfirmation_robust|done]).
  assert (Hw3 : robust true jready wait_checkin)
    by (apply wait_on_ends; [intros m; apply matchCheckinToday_robust|done]).
  assert (Hl : robust true jready (with_lodging (RunLodgingStayFlow fuel url)))
    by (apply (robust_zoom true jready lready); [done|done|by apply (stay_ends K)]).
  assert (Hbody : robust true jready (journey_body fuel cfg url)).
  { unfold journey_body, book_a_stay, pay_and_stay.
    robust_auto; eauto using with_world_robust, with_bus_robust, createGuest_robust,
      SetupCommunication_robust, cleanup_robust with guest. }
  assert (Hj : jready j) by (by eapply NewGuestJourney_ready).
  unfold Journey_Start. destruct (Hbody j Hj) as [H1 H2].
  destruct (journey_body _ _ _ j) as [[[]|e|p|] j1]; try done.
  destruct (cleanup_robust true j1 H1) as [_ H4].
  by destruct (cleanupGuestJourney j1) as [[[]|e'|p|] j2].
Qed.
End Journey.

(** ** A journey whose every wait is cancelled in the end *)

Section Witnesses.
#[local] Existing Instances sample_lib sample_redis sample_redis_laws sample_proto sample_amqp.

(** The first draws book a cottage, all others end the walk. *)
Definition booking_draws : nat := 10.

#[local] Instance ending_services : Env := {|
  env_http := @env_http (sample_services booking_draw);
  env_now := @env_now (sample_services booking_draw);
  env_rand n := if (n <? booking_draws)%nat then booking_draw else ending_draw;
  env_ctx := @env_ctx (sample_services booking_draw)
|}.

(** The chat of the sample stay, closed after a number of calls. *)
Definition chat_calls : nat := 60.

#[local] Instance closing_chat : LodgingEnv := {|
  env_lodging h :=
    if (length h <=? chat_calls)%nat then @env_lodging (scripted sample_messages) h
    else AnswerErr ContextCanceled;
  env_keyID := @env_keyID (scripted sample_messages)
|}.

Lemma closing_chat_closes : chat_closes chat_calls.
Proof.
  intros h c. unfold env_lodging, closing_chat. rewrite length_app. cbn [length].
  destruct (Nat.leb_spec (length h + 1) chat_calls) as [Hle|]; [|done].
  cbn [scripted env_lodging]. rewrite last_snoc.
  destruct c; try (split; [done|lia]).
  by destruct (sample_messages !! _); [lia|].
Qed.

(** The messages of the sample journey arrive, then the journey is cancelled. *)
#[local] Instance ending_journey : JourneyEnv :=
  let cancelled {M} (turns : list (WaitLabel (M := M))) := turns ++ [ECancel ContextCanceled; WTake; WCtxDone] in
  {|
    fake_Name := @fake_Name sample_journey;
    fake_SSN := @fake_SSN sample_journey;
    fake_Address := @fake_Address sample_journey;
    events_before_payment := [];
    events_before_confirmation := [];
    events_before_checkin := [];
    payment_turns := cancelled (@payment_turns sample_journey);
    confirmation_turns := cancelled (@confirmation_turns sample_journey);
    checkin_turns := cancelled (@checkin_turns sample_journey)
  |}.

Lemma ending_draws n : (booking_draws <= n)%nat -> env_rand n mod 2 ^ 53 = 2 ^ 53 - 1.
Proof. intros Hn. unfold env_rand, ending_services. by rewrite (proj2 (Nat.ltb_ge _ _) Hn). Qed.

Lemma ending_waits :
  ends_wait (@payment_turns ending_journey) /\ ends_wait (@confirmation_turns ending_journey)
  /\ ends_wait (@checkin_turns ending_journey).
Proof. split; [|split]; (eexists _, ContextCanceled; left; reflexivity). Qed.

Lemma journey_ends_witness :
  NewGuestJourney fresh_world fresh_mq true true = inr fresh_journey
  /\ match fst (Journey_Start 70 sample_cfg chat_url fresh_journey) with
     | Ret _ | Err _ => True
     | _ => False
     end.
Proof.
  assert (H : NewGuestJourney fresh_world fresh_mq true true = inr fresh_journey) by reflexivity.
  assert (HN : (booking_draws + 3 <= 70)%nat) by (unfold booking_draws; lia).
  assert (HK : (chat_calls < 70)%nat) by (unfold chat_calls; lia).
  split; [exact H|]. destruct ending_waits as (Hp & Hc & Hi).
  exact (@journey_ends sample_lib sample_redis ending_services sample_amqp sample_proto closing_chat
           ending_journey booking_draws chat_calls 70 sample_cfg chat_url fresh_world fresh_mq
           fresh_journey H ending_draws Hp Hc Hi closing_chat_closes HN HK).
Defined.

(** The same journey books, pays and stays before all that. *)
Lemma ending_journey_stays : fst (Journey_Start 70 sample_cfg chat_url fresh_journey) = Ret tt.
Proof. vm_compute. reflexivity. Qed.
End Witnesses.
