(* ===== verification/Crowd.v ===== *)
(** * A journey among other journeys

    The pool of [main] runs several journeys over one Redis server, and a command of one
    may fall between any two commands of another. By rely and guarantee: whatever a journey
    ends with, it has sent the server commands on its own key only ([journey_commands]); and
    a journey whose server executes, before each of its commands, any commands on other keys
    still does all it does alone ([journey_in_a_crowd]). *)

From Stdlib Require Import ZArith Lia.
From stdpp Require Import base tactics list option strings gmap relations.
From S2P Require Import Prelude GoEffects GoTime GoText Domain Json World Samples SelectPeriod Steps Flow Kept.
From S2P Require Import Bus Waits BusWait Lodging Mq Journey Progress.
Open Scope Z_scope.

(** ** The guarantee: a journey's commands *)

Section Guarantee.
Context {G : GoLib} {R : RedisServer} {E : Env} {A : AmqpEnv} {P : ProtoLib}
  {L : LodgingEnv} {J : JourneyEnv}.

Section Keeps.
Context (I : World -> Prop) {K : KeptBy I}.

Lemma matches_kept :
  (forall m, keeps I (matchPaymentRequest (Some m)))
  /\ (forall m, keeps I (matchBookingConfirmation (Some m)))
  /\ (forall m, keeps I (matchCheckinToday (Some m))).
Proof.
  split; [|split]; intros m;
    unfold matchPaymentRequest, matchBookingConfirmation, matchCheckinToday; keeps_auto.
Qed.

Lemma wait_on_keeps {M} (matches : option M -> go World unit) topic set_topic turns :
  (forall m, keeps I (matches (Some m))) ->
  keeps (fun j => I (j_world j)) (wait_on matches topic set_topic turns).
Proof. intros Hm j Hj. unfold wait_on. cbv zeta. cbn [snd j_world]. by apply wait_run_keeps. Qed.

(** What follows the guest's creation. *)
Lemma rest_of_booking_keeps fuel cfg : keeps (fun j => I (j_world j))
  (_ ← with_world (Flow_Start fuel NewGuestRegisterFlowWithState);
   _ ← SetupCommunication true true cfg;
   with_world (Flow_Start fuel NewBookingFlow)).
Proof.
  apply keeps_bind; [apply with_world_keeps, register_flow_keeps; exact K|intros _].
  apply keeps_bind; [apply SetupCommunication_keeps; intros q r; by apply kept_update|intros _].
  apply with_world_keeps, booking_flow_keeps. exact K.
Qed.

Lemma pay_and_stay_keeps fuel url : keeps (fun j => I (j_world j)) (pay_and_stay fuel url).
Proof.
  destruct matches_kept as (H1 & H2 & H3). unfold pay_and_stay.
  repeat (apply keeps_bind; [|intros _]);
    first [apply with_bus_keeps|by apply wait_on_keeps|apply with_lodging_keeps|apply with_world_keeps].
  - apply SyncStateCache_keeps. exact K.
  - apply payment_flow_keeps. exact K.
  - apply SyncStateCache_keeps. exact K.
  - apply RunLodging_keeps; [apply ctx_Err_kept; exact K|apply kept_Load].
Qed.

Lemma cleanup_keeps : keeps (fun j => I (j_world j)) cleanupGuestJourney.
Proof.
  unfold cleanupGuestJourney, CleanupState, CloseCommunication, state_is_nil. keeps_auto;
    first [apply with_bus_keeps|apply with_mq_keeps|apply with_world_keeps; auto with guest].
  - apply kept_Log.
  - apply kept_Delete.
Qed.
End Keeps.

(** From [Q] a computation leads to [I], whatever it ends with. *)
Definition leads {W T} (Q I : W -> Prop) (m : go W T) : Prop := forall w, Q w -> I (snd (m w)).

Lemma leads_bind {W T U} (Q I : W -> Prop) (m : go W T) (f : T -> go W U) :
  leads Q I m -> (forall a, keeps I (f a)) -> leads Q I (m ≫= f).
Proof.
  intros Hm Hf w Hw. specialize (Hm w Hw). unfold mbind, go_bind.
  destruct (m w) as [[a|e|p|] w']; try done. by apply Hf.
Qed.

(** The world has a state and the server [db]. *)
Definition over (db : redis_db) (w : World) : Prop :=
  w_cache w = Some (Some db) /\ exists s, w_state w = Some s.

Lemma pending_key_nonempty : pending_key <> "".
Proof. done. Qed.

#[local] Instance pending_kept db : KeptBy (commands pending_key db) :=
  commands_kept pending_key db pending_key_nonempty.

Lemma createGuest_commands db : leads (over db) (commands pending_key db) createGuest.
Proof.
  intros w (Hc & s & Hs). unfold createGuest.
  assert (Hu : forall f w1 s1, w_state w1 = Some s1 -> update_state f w1 = (Ret tt, set_state (Some (f s1)) w1))
    by (intros f w1 s1 H; unfold update_state; by rewrite H).
  rewrite (bind_Ret _ _ _ _ _ (Hu _ _ _ Hs)), (bind_Ret _ _ _ _ _ (Hu _ (set_state _ w) _ eq_refl)).
  apply (InitializeStateCache_keeps (commands pending_key db)).
  eexists _, db. split; [reflexivity|]. split; [exact Hc|]. split; [done|]. apply rtc_refl.
Qed.

(** Whatever a journey ends with, its key is the one of its guest's document, and the
    server has seen commands on that key only. *)
Lemma journey_commands fuel cfg url db :
  leads (fun j => over db (j_world j)) (fun j => commands pending_key db (j_world j))
    (Journey_Start fuel cfg url).
Proof.
  set (I := fun j => commands pending_key db (j_world j)).
  assert (Hbody : leads (fun j => over db (j_world j)) I (journey_body fuel cfg url)).
  { unfold journey_body. apply leads_bind; [|intros _].
    - unfold book_a_stay. apply leads_bind; [|intros _; apply rest_of_booking_keeps; apply _].
      intros j Hj. unfold I, with_world, zoom. pose proof (createGuest_commands db _ Hj) as H.
      by destruct (createGuest (j_world j)).
    - apply keeps_bind; [apply with_world_keeps, kept_Load|intros v].
      apply keeps_bind; [apply keeps_guard|intros _].
      apply keeps_bind; [apply pay_and_stay_keeps; apply _|intros _]. apply cleanup_keeps. apply _. }
  intros j Hj. specialize (Hbody j Hj). unfold Journey_Start.
  destruct (journey_body fuel cfg url j) as [[[]|e|p|] j1]; try exact Hbody.
  pose proof (cleanup_keeps (commands pending_key db) j1 Hbody) as Hc.
  by destruct (cleanupGuestJourney j1) as [[[]|e'|p|] j2].
Qed.
End Guarantee.

(** Guests whose documents differ in more than case have different keys. *)
Lemma pending_keys_differ `{G : GoLib} (d1 d2 : string) :
  ToLower d1 <> ToLower d2 -> "guest.pending." +:+ ToLower d1 <> "guest.pending." +:+ ToLower d2.
Proof. intros H He. by apply string_app_inj_l in He. Qed.

(** ** The rely: a server with other clients *)

Section Crowded.
Context {R : RedisServer}.

(** What the other journeys send before each command of the journey with key [key]: any
    commands, on other keys. *)
Class Crowd (key : string) := {
  crowd_turn : nat -> list (string * Command);
  crowd_elsewhere n c : c ∈ crowd_turn n -> fst c <> key
}.

Definition exec_all (cs : list (string * Command)) (db : redis_db) : redis_db :=
  fold_left (fun db c => exec_command (fst c) (snd c) db) cs db.

Context {key : string} {C : Crowd key}.

(** The server and the number of commands it has had from the journey. *)
Definition crowded_db : Type := nat * @redis_db R.

(** The others' turn, then the command. *)
Definition in_turn {A} (cmd : @redis_db R -> A * @redis_db R) (d : crowded_db) : A * crowded_db :=
  let '(r, db) := cmd (exec_all (crowd_turn (fst d)) (snd d)) in (r, (S (fst d), db)).

Definition crowded : RedisServer := {|
  redis_db := crowded_db;
  redis_SET k v := in_turn (redis_SET k v);
  redis_GET k := in_turn (redis_GET k);
  redis_DEL k := in_turn (redis_DEL k);
  redis_PING := in_turn redis_PING
|}.

Lemma exec_crowded k c (d : crowded_db) :
  @exec_command crowded k c d = (S (fst d), exec_command k c (exec_all (crowd_turn (fst d)) (snd d))).
Proof.
  destruct c; cbn; unfold in_turn;
    [destruct (redis_GET _ _)|destruct (redis_SET _ _ _)|destruct (redis_DEL _ _)]; done.
Qed.

(** One command of the journey after a turn of the others. *)
Definition turn_then_command (d d' : crowded_db) : Prop :=
  fst d' = S (fst d) /\ command_on key (exec_all (crowd_turn (fst d)) (snd d)) (snd d').

Lemma crowded_commands (d d' : @redis_db crowded) :
  rtc (command_on (R := crowded) key) d d' -> rtc turn_then_command d d'.
Proof.
  induction 1 as [d|d d1 d' (c & ->) _ IH]; [apply rtc_refl|].
  eapply rtc_l; [|exact IH]. rewrite exec_crowded. split; [done|]. by exists c.
Qed.

(** *** The laws hold for the journey's key *)

Context {RL : RedisLaws R}.
Hypothesis owns_all : forall k, redis_own k.

Lemma exec_elsewhere k c db k' : k' <> k -> redis_view (exec_command k c db) !! k' = redis_view db !! k'.
Proof.
  intros Hk. destruct c as [|v|]; cbn.
  - destruct (redis_GET k db) as [[e|j] db'] eqn:Eg; cbn;
      [by rewrite (redis_GET_err _ _ _ _ (owns_all k) Eg)|
       by destruct (redis_GET_ok _ _ _ _ (owns_all k) Eg) as [_ ->]].
  - destruct (redis_SET k v db) as [[e|] db'] eqn:Es; cbn.
    + destruct (redis_SET_err _ _ _ _ _ (owns_all k) Es) as [-> | ->]; [done|]. by rewrite lookup_insert_ne.
    + rewrite (redis_SET_ok _ _ _ _ (owns_all k) Es). by rewrite lookup_insert_ne.
  - destruct (redis_DEL k db) as [[e|] db'] eqn:Es; cbn.
    + destruct (redis_DEL_err _ _ _ _ (owns_all k) Es) as [-> | ->]; [done|]. by rewrite lookup_delete_ne.
    + rewrite (redis_DEL_ok _ _ _ (owns_all k) Es). by rewrite lookup_delete_ne.
Qed.

Lemma exec_all_elsewhere cs db k :
  (forall c, c ∈ cs -> fst c <> k) -> redis_view (exec_all cs db) !! k = redis_view db !! k.
Proof.
  revert db. induction cs as [|c cs IH]; intros db Hcs; [done|]. cbn.
  etransitivity; [apply IH; intros c' Hc'; apply Hcs; by right|].
  apply exec_elsewhere. intros He. apply (Hcs c); [by left|by symmetry].
Qed.

(** The entry of the journey, alone. *)
Definition own_view (db : @redis_db R) : gmap string json :=
  match redis_view db !! key with Some v => {[key := v]} | None => ∅ end.

Lemma own_view_lookup db : own_view db !! key = redis_view db !! key.
Proof. unfold own_view. destruct (redis_view db !! key); [by rewrite lookup_singleton_eq|done]. Qed.

Lemma own_view_eq db m :
  (forall k, k <> key -> m !! k = None) -> redis_view db !! key = m !! key -> own_view db = m.
Proof.
  intros Hm Hk. apply map_eq. intros k. destruct (decide (k = key)) as [->|Hne].
  - by rewrite own_view_lookup.
  - rewrite Hm by done. unfold own_view. destruct (redis_view db !! key); [|done].
    by rewrite lookup_singleton_ne.
Qed.

Lemma own_view_none db k : k <> key -> own_view db !! k = None.
Proof. intros H. unfold own_view. destruct (redis_view db !! key); [by rewrite lookup_singleton_ne|done]. Qed.

Lemma own_view_turn n db : own_view (exec_all (crowd_turn n) db) = own_view db.
Proof.
  apply own_view_eq; [apply own_view_none|]. rewrite own_view_lookup.
  apply exec_all_elsewhere, crowd_elsewhere.
Qed.

Lemma own_view_same db db' : redis_view db' = redis_view db -> own_view db' = own_view db.
Proof. unfold own_view. by intros ->. Qed.

Lemma own_view_SET v db db' :
  redis_view db' = <[key := v]> (redis_view db) -> own_view db' = <[key := v]> (own_view db).
Proof.
  intros Hv. apply own_view_eq.
  - intros k Hk. rewrite lookup_insert_ne by done. by apply own_view_none.
  - by rewrite Hv, !lookup_insert_eq.
Qed.

Lemma own_view_DEL db db' :
  redis_view db' = delete key (redis_view db) -> own_view db' = delete key (own_view db).
Proof.
  intros Hv. apply own_view_eq.
  - intros k Hk. rewrite lookup_delete_ne by done. by apply own_view_none.
  - by rewrite Hv, !lookup_delete_eq.
Qed.

Lemma in_turn_inv {A} (cmd : @redis_db R -> A * @redis_db R) d r d' :
  in_turn cmd d = (r, d') ->
  exists db0, own_view db0 = own_view (snd d) /\ cmd db0 = (r, snd d').
Proof.
  unfold in_turn. intros H. exists (exec_all (crowd_turn (fst d)) (snd d)).
  split; [apply own_view_turn|]. destruct (cmd _) as [r0 db]. by injection H as <- <-.
Qed.

Definition crowded_laws : RedisLaws crowded.
Proof.
  refine {| redis_view := fun d : @redis_db crowded => own_view (snd d);
            redis_own := fun k => k = key |}; simpl.
  - intros k v d d' -> (db0 & <- & H)%in_turn_inv. apply redis_SET_ok in H; [by apply own_view_SET|done].
  - intros k v e d d' -> (db0 & <- & H)%in_turn_inv.
    apply redis_SET_err in H as [H|H]; [left; by apply own_view_same|right; by apply own_view_SET|done].
  - intros k v d d' -> (db0 & <- & H)%in_turn_inv. apply redis_GET_ok in H as [H1 H2]; [|done].
    rewrite own_view_lookup. split; [done|by apply own_view_same].
  - intros k e d d' -> (db0 & <- & H)%in_turn_inv. apply redis_GET_err in H; [|done].
    by apply own_view_same.
  - intros k d d' -> (db0 & <- & H)%in_turn_inv. apply redis_DEL_ok in H; [by apply own_view_DEL|done].
  - intros k e d d' -> (db0 & <- & H)%in_turn_inv.
    apply redis_DEL_err in H as [H|H]; [left; by apply own_view_same|right; by apply own_view_DEL|done].
  - intros r d d' (db0 & <- & H)%in_turn_inv. apply redis_PING_view in H. by apply own_view_same.
Defined.
End Crowded.

(** ** A journey in the crowd *)

Section InACrowd.
Context {G : GoLib} {R : RedisServer} {RL : RedisLaws R} {J : JourneyEnv} {C : Crowd pending_key}.
Context {E : Env} {A : AmqpEnv} {P : ProtoLib} {L : LodgingEnv}.
Hypothesis owns_all : forall k, redis_own k.

#[local] Instance crowded_server : RedisServer := crowded.
#[local] Instance crowded_server_laws : RedisLaws crowded_server := crowded_laws owns_all.

(** C7: a journey that shares its server, which nobody else writes to, with other journeys
    whose commands are on other keys than its own, as they are when the documents of their
    guests differ in more than case ([pending_keys_differ]). Whatever it ends with, cancelled or not, the server has
    executed the others' commands, turn by turn, and between them commands on the journey's
    own key, no others: the others' entries are as their own commands left them. A journey
    that succeeds has left no entry of its own, and if it was not cancelled it has done what
    a journey alone does: it has made, in order and once each, the three posts of its guest,
    with the identifiers the answers gave, went on after the messages that arrived for it,
    and made the planned visit. *)
Theorem journey_in_a_crowd fuel cfg url w mq j d :
  NewGuestJourney w mq true true = inr j -> w_cache w = Some (Some d) ->
  let '(r, j') := Journey_Start (R := crowded_server) fuel cfg url j in
  exists s (d' : crowded_db (R := R)),
    w_state (j_world j') = Some s /\ st_RedisKey s = pending_key
    /\ w_cache (j_world j') = Some (Some d')
    /\ rtc (turn_then_command (R := R)) d d'
    /\ (r = Ret tt -> redis_view (RedisLaws := RL) (snd d') !! pending_key = None)
    /\ (r = Ret tt -> (forall n, env_ctx n = None) ->
        exists id bid cottage p inv mp mc mi new,
             posted fake_guest id bid cottage p inv (w_http w) (w_http (j_world j'))
             /\ announces mp fake_guest cottage inv
             /\ (arrived (MsgConfirmed mc) /\ bc_BookingId mc = bid
                 /\ bc_BookingStatus mc = BOOKING_STATUS_CONFIRMED)
             /\ (arrived (MsgCheckin mi) /\ ct_BookingId mi = bid /\ ct_CottageName mi = cottage)
             /\ j_calls j' = CallNewClient url :: new ++ [CallClose]
             /\ omap visible new = visit DefaultLodgingFlow env_keyID p).
Proof.
  intros Hnew Hd. destruct (Journey_Start fuel cfg url j) as [r j'] eqn:Es.
  assert (Hover : over d (j_world j)).
  { unfold NewGuestJourney in Hnew. destruct (w_state w) as [s|] eqn:Ew; [|done].
    destruct (_ || _); [done|]. injection Hnew as <-. split; [done|]. by exists s. }
  pose proof (journey_commands fuel cfg url d j Hover) as Hk. rewrite Es in Hk. cbn [snd] in Hk.
  destruct Hk as (s & d' & Hs & Hc & Hkey & Hr). exists s, d'.
  do 3 (split; [done|]). split; [by apply crowded_commands|]. split.
  - intros ->. destruct (journey_Ret (RL := crowded_server_laws) _ _ _ _ _ Es) as [_ Hcl].
    destruct Hcl as (s' & db & Hs' & Hdb & Hnone & _).
    assert (s' = s) as -> by congruence. assert (db = d') as -> by congruence.
    rewrite Hkey in Hnone. specialize (Hnone eq_refl). cbn in Hnone.
    by rewrite <- (own_view_lookup (key := pending_key)).
  - intros -> Hctx.
    destruct (journey_done (RL := crowded_server_laws) fuel cfg url w mq j j' eq_refl Hctx Hnew Es)
      as (id & bid & cottage & p & inv & mp & mc & mi & new & _ & _ & H3 & H4 & H5 & H6 & H7 & _ & H9 & _).
    by exists id, bid, cottage, p, inv, mp, mc, mi, new.
Qed.
End InACrowd.

(** ** A concrete crowd *)

Section Witnesses.
#[local] Existing Instances sample_lib sample_redis sample_redis_laws sample_proto.
#[local] Existing Instances sample_amqp sample_chat sample_journey.

(** Another guest saves and loads before every command, and ends before the tenth. *)
Definition other_guest (n : nat) : list (string * Command) :=
  let key := "guest.pending." +:+ ToLower "DOC-8" in
  if Nat.eqb n 9 then [(key, CmdDel)]
  else [(key, CmdSet (default JNull (encode_CacheValue sample_booked))); (key, CmdGet)].

#[local] Instance sample_crowd : Crowd pending_key.
Proof.
  refine {| crowd_turn := other_guest |}. intros n c Hc Heq.
  assert (Hk : fst c = "guest.pending." +:+ ToLower "DOC-8").
  { unfold other_guest in Hc. destruct (Nat.eqb n 9);
      repeat (apply elem_of_cons in Hc as [->|Hc]; [done|]); by apply not_elem_of_nil in Hc. }
  rewrite Hk in Heq. by apply pending_keys_differ in Heq.
Defined.

Definition crowd_db : crowded_db (R := sample_redis) := (0%nat, (∅ : gmap string json)).
Definition crowd_world : World (R := crowded) :=
  @mkWorld crowded (Some emptyState) (Some (Some crowd_db)) [] 0 0 0.
Definition crowd_journey : JWorld (R := crowded) :=
  @mkJWorld crowded crowd_world fresh_mq NewGuestCommunicationBus [].

Definition crowd_run : outcome unit * JWorld (R := crowded) :=
  Journey_Start (R := crowded) (E := sample_services booking_draw) 20 sample_cfg chat_url crowd_journey.

Lemma crowd_run_ends : fst crowd_run = Ret tt.
Proof. vm_compute. reflexivity. Qed.

Lemma journey_in_a_crowd_witness :
  exists (d' : crowded_db (R := sample_redis)) id bid cottage p inv,
    w_cache (j_world (snd crowd_run)) = Some (Some d')
    /\ rtc turn_then_command crowd_db d'
    /\ (snd d' : gmap string json) !! pending_key = None
    /\ posted (E := sample_services booking_draw) fake_guest id bid cottage p inv []
         (w_http (j_world (snd crowd_run))).
Proof.
  assert (Hctx : forall n, @env_ctx (sample_services booking_draw) n = None) by (intros n; reflexivity).
  assert (Hnew : NewGuestJourney (R := crowded) crowd_world fresh_mq true true = inr crowd_journey) by reflexivity.
  pose proof (journey_in_a_crowd (RL := sample_redis_laws) (E := sample_services booking_draw) (fun _ => Logic.I)
                20 sample_cfg chat_url crowd_world fresh_mq crowd_journey crowd_db Hnew eq_refl) as K.
  pose proof crowd_run_ends as Hends. unfold crowd_run in *.
  change (@crowded_server sample_lib sample_redis sample_journey sample_crowd) with (@crowded sample_redis pending_key sample_crowd) in K.
  destruct (Journey_Start _ _ _ _) as [r j']. cbn [fst snd] in *.
  destruct K as (s & d' & _ & _ & Hc & Hr & Hgone & K). specialize (Hgone Hends). destruct (K Hends Hctx) as (id & bid & cottage & p & inv & mp & mc & mi & new & Hp & _).
  exists d', id, bid, cottage, p, inv. split; [exact Hc|]. split; [exact Hr|]. split; [exact Hgone|exact Hp].
Defined.
End Witnesses.
