(* ===== verification/Whole.v ===== *)
(** * The guest's journey over the real chat client and clock

    [Journey] runs against the interface [LodgingEnv]; [Stay] implements it by the client of
    [Chat] and the clock of [TimeEvents]. Here the two meet: a whole journey, from the guest
    that is made up to the last frame on the socket. *)

From Stdlib Require Import ZArith Lia.
From stdpp Require Import base tactics list option strings gmap.
From S2P Require Import Prelude GoEffects GoTime GoText Domain Json World Samples SelectPeriod Steps Flow.
From S2P Require Import Bus Waits BusWait TimeEvents Chat Lodging Stay Mq Journey Progress.
Open Scope Z_scope.

Section Whole.
Context {G : GoLib} {R : RedisServer} {RL : RedisLaws R} {E : Env} {A : AmqpEnv} {P : ProtoLib}
  {J : JourneyEnv} {S : StaySchedule}.
(** The time service when the journey begins *)
Variable service0 : TimeEventService.

Definition journey (fuel : nat) (cfg : RabbitMqConsumerConfig) (url : string) (j : JWorld)
  : outcome unit * JWorld :=
  Journey_Start (L := real_env service0) fuel cfg url j.

(** What the journey's calls have done to the client and to the time service. *)
Definition left_outside (j : JWorld) : Outside := outside service0 (j_calls j).

(** *** The hours of an accepted run *)

Lemma accepted_wait h t :
  accepted (@env_lodging (real_env service0) (h ++ [CallWaitUntil t])) ->
  exists told, told ∈ out_told (outside service0 (h ++ [CallWaitUntil t])) /\ unixNano t <= unixNano told.
Proof. rewrite real_env_snoc, outside_snoc. by apply perform_wait, outside_told. Qed.

Lemma accepted_waits new closes h t h' :
  @all_accepted (real_env service0) [] new -> Forall (fun c => c = CallClose) closes ->
  new ++ closes = h ++ CallWaitUntil t :: h' ->
  exists told, told ∈ out_told (outside service0 (h ++ [CallWaitUntil t])) /\ unixNano t <= unixNano told.
Proof.
  intros Ha Hc Heq. apply accepted_wait.
  apply app_eq_inv in Heq as [(k & Hn & Hk)|(k & -> & Hk)].
  - destruct k as [|c k]; cbn in Hk.
    + rewrite <- Hk in Hc. by apply Forall_cons in Hc as [Hx _].
    + injection Hk as <- _. rewrite Hn in Ha.
      apply (@all_accepted_app (real_env service0)) in Ha as [_ [Ha _]]. exact Ha.
  - rewrite Hk in Hc. apply Forall_app in Hc as [_ Hc]. by apply Forall_cons in Hc as [Hx _].
Qed.

(** C6: the whole journey over the real client and clock. One whose key is its own on the
    server, and that succeeds without being cancelled, has posted its guest, a booking and
    the payment of an invoice announced by a message that arrived, each once and in this
    order. On the socket it has written, besides acknowledgements, exactly
    the actions and key messages of the visit planned for the period it booked, in order,
    and the service has acknowledged each of them. And whenever it had waited for an hour,
    the time service had been told a time not before it. *)
Theorem journey_over_chat fuel cfg url w mq j j' :
  redis_own pending_key -> (forall n, env_ctx n = None) ->
  NewGuestJourney w mq true true = inr j ->
  journey fuel cfg url j = (Ret tt, j') ->
  exists id cottage p inv mp chat,
    filter is_post (w_http (j_world j'))
      = filter is_post (w_http w)
        ++ [register_request fake_guest; stay_request id fake_guest cottage p;
            pay_request PaymentSimulator fake_guest inv]
    /\ announces mp fake_guest cottage inv
    /\ out_chat (left_outside j') = Some chat
    /\ (exists ls, run chat_rel chat_start ls chat)
    /\ omap frame_event (sent (written chat))
       = omap on_wire (visit DefaultLodgingFlow schedule_keyID p)
    /\ (forall m, m ∈ sent (written chat) -> exists a, a ∈ acks_read chat /\ acknowledges a m = true)
    /\ (forall h t h', j_calls j' = h ++ CallWaitUntil t :: h' ->
          exists told, told ∈ out_told (outside service0 (h ++ [CallWaitUntil t]))
                       /\ unixNano t <= unixNano told).
Proof.
  intros Hown Hctx Hnew Hs.
  destruct (journey_done (L := real_env service0) _ _ _ _ _ _ _ Hown Hctx Hnew Hs)
    as (id & bid & cottage & p & inv & mp & mc & mi & new & _ & _ & Hp%posted_requests & Hann & _ & _ & Hcalls & Hconv
        & Hvis & Hacc & _).
  destruct (conversation_client service0 url new Hconv Hacc) as (chat & Hchat & Hr & _ & Hst).
  destruct (Hst eq_refl) as (_ & Hack & Hfr).
  exists id, cottage, p, inv, mp, chat. split; [exact Hp|]. split; [exact Hann|]. split.
  { unfold left_outside. rewrite Hcalls, app_comm_cons, outside_close by (by right). exact Hchat. }
  split; [exact Hr|]. split; [by rewrite Hfr, call_frames, Hvis|].
  split; [by apply Forall_forall|]. intros h t h' Heq. rewrite Hcalls, app_comm_cons in Heq.
  eapply accepted_waits; [exact Hacc| |exact Heq]. by repeat constructor.
Qed.
End Whole.

(** ** A concrete run *)

Section Witnesses.
#[local] Existing Instances sample_lib sample_redis sample_redis_laws sample_proto.
#[local] Existing Instances sample_amqp sample_journey sample_stay.

Definition whole_run : outcome unit * JWorld :=
  journey (E := sample_services booking_draw) quiet_service 20 sample_cfg chat_url fresh_journey.

Lemma whole_run_ends : fst whole_run = Ret tt.
Proof. vm_compute. reflexivity. Qed.

Lemma journey_over_chat_witness :
  exists id cottage p inv chat,
    filter is_post (w_http (j_world (snd whole_run)))
      = [register_request fake_guest; stay_request id fake_guest cottage p;
         pay_request PaymentSimulator fake_guest inv]
    /\ out_chat (left_outside quiet_service (snd whole_run)) = Some chat
    /\ omap frame_event (sent (written chat)) = omap on_wire (visit DefaultLodgingFlow "key-1" p).
Proof.
  pose proof (run_ok _ _ _ whole_run_ends) as Hrun.
  assert (Hctx : forall n, @env_ctx (sample_services booking_draw) n = None) by (intros n; reflexivity).
  assert (Hnew : NewGuestJourney fresh_world fresh_mq true true = inr fresh_journey) by reflexivity.
  destruct (journey_over_chat (E := sample_services booking_draw) (RL := sample_redis_laws) quiet_service 20 sample_cfg chat_url
              fresh_world fresh_mq fresh_journey (snd whole_run) Logic.I Hctx Hnew Hrun)
    as (id & cottage & p & inv & mp & chat & Hp & _ & Hc & _ & Hf & _).
  exists id, cottage, p, inv, chat. split; [exact Hp|]. split; [exact Hc|exact Hf].
Defined.
End Witnesses.
