(* ===== verification/Main.v ===== *)
(** * The program: [main.go], [infra/init.go]

    Setting the infrastructure up and tearing it down, building a journey, the pool that
    keeps a fixed number of journeys running, and the skeleton of [main]. *)

From Stdlib Require Import ZArith Lia.
From stdpp Require Import base tactics list option strings gmap.
From S2P Require Import Prelude GoEffects GoTime GoText Domain Json World Samples Telemetry Flow Bus Lodging Mq Journey.
Open Scope Z_scope.

(** ** [runCleanup] (the same function in [main.go] and [infra/init.go]) *)

Section Cleanup.
Context {W : Type}.

Fixpoint runCleanup_from (shutdownErr : option error) (fs : list (go W unit)) : go W (option error) :=
  match fs with
  | [] => mret shutdownErr
  | f :: fs =>
      err ← err_of f;
      runCleanup_from (match err with
                       | Some e => errors_Join [shutdownErr; Some e]
                       | None => shutdownErr
                       end) fs
  end.

(** Last registered, first run; every function runs. *)
Definition runCleanup (cleanup : list (go W unit)) : go W (option error) :=
  runCleanup_from None (rev cleanup).
End Cleanup.

(** ** [infra/init.go] *)

Section Infra.
Context {A : AmqpEnv}.

(** [if err := m; err != nil { _ = runCleanup(ctx, cleanup); return err }] *)
Definition or_cleanup (cleanup : list (go MqWorld unit)) (context : option string)
    (m : go MqWorld unit) : go MqWorld unit :=
  r ← attempt m;
  match r with
  | inr _ => mret tt
  | inl e =>
      _ ← runCleanup cleanup;
      throw (match context with Some fmt => Wrapf fmt [] e | None => e end)
  end.

(** The result is the cleanup of the connection and the hour-event consumer. *)
Definition NewRabbitmq (cfg : RabbitMqConsumerConfig) : go MqWorld (list (go MqWorld unit)) :=
  _ ← NewRabbitMqConnection;
  let cleanup1 := [Connection_Close] in
  _ ← or_cleanup cleanup1 None NewRabbitmqConsumer;
  let cleanup2 := cleanup1 ++ [CloseChannel] in
  _ ← or_cleanup cleanup2 (Some "declare hour event queue: %w") (DeclareQueue (cfg_Queue cfg));
  _ ← or_cleanup cleanup2 (Some "bind hour event queue: %w") (BindQueue (cfg_Binding cfg));
  mret cleanup2.

(** *** A failed set-up closes the connection *)

Lemma err_of_ends {W} (f : go W unit) w :
  match fst (f w) with Panic _ | Stuck => False | _ => True end ->
  exists e, err_of f w = (Ret e, snd (f w)).
Proof.
  unfold err_of, attempt, mbind, go_bind, mret, go_ret.
  destruct (f w) as [[a|e|p|] w']; [eauto..|done|done].
Qed.

Lemma runCleanup_from_last (Q : MqWorld -> Prop) acc (fs : list (go MqWorld unit))
    (last : go MqWorld unit) w :
  (forall w, Q (snd (last w)) /\ match fst (last w) with Panic _ | Stuck => False | _ => True end) ->
  (forall f, f ∈ fs -> forall w, match fst (f w) with Panic _ | Stuck => False | _ => True end) ->
  Q (snd (runCleanup_from acc (fs ++ [last]) w))
  /\ exists r, fst (runCleanup_from acc (fs ++ [last]) w) = Ret r.
Proof.
  intros Hq Hfs. revert acc w. induction fs as [|f fs IH]; intros acc w; cbn [app runCleanup_from].
  - destruct (Hq w) as [H1 H2]. destruct (err_of_ends last w H2) as (e & He).
    rewrite (bind_Ret _ _ _ _ _ He). split; [exact H1|by eexists].
  - destruct (err_of_ends f w (Hfs f ltac:(by left) w)) as (e & He).
    rewrite !(bind_Ret _ _ _ _ _ He). apply IH. intros g Hg. apply Hfs. by right.
Qed.

Lemma Connection_Close_closed w :
  mq_closed (snd (Connection_Close w)) = true
  /\ match fst (Connection_Close w) with Panic _ | Stuck => False | _ => True end.
Proof.
  unfold Connection_Close, modify, gets, amqp_ask, amqp, mbind, go_bind, mret, go_ret.
  cbn [mq_conn set_closed]. destruct (mq_conn w); [|done]. destruct (amqp_closed _); [done|].
  by destruct (amqp_err _).
Qed.

Lemma CloseChannel_ends w : match fst (CloseChannel w) with Panic _ | Stuck => False | _ => True end.
Proof.
  unfold CloseChannel, gets, amqp_ask, amqp, mbind, go_bind, mret, go_ret.
  destruct (mq_channel w); [|done]. destruct (amqp_closed _); [done|]. by destruct (amqp_err _).
Qed.

Lemma or_cleanup_closes l context m w e w' :
  (l = [] \/ l = [CloseChannel]) ->
  or_cleanup (Connection_Close :: l) context m w = (Err e, w') -> mq_closed w' = true.
Proof.
  intros Hl. unfold or_cleanup, attempt. unfold mbind, go_bind.
  destruct (m w) as [[[]|e0|p|] w1]; try done.
  unfold runCleanup. cbn [rev].
  destruct (runCleanup_from_last (fun w => mq_closed w = true) None (rev l) Connection_Close w1)
    as [Hc (r & Hr)].
  - apply Connection_Close_closed.
  - intros f Hf. destruct Hl as [->| ->]; cbn in Hf; [by apply not_elem_of_nil in Hf|].
    apply list_elem_of_singleton in Hf as ->. apply CloseChannel_ends.
  - destruct (runCleanup_from None (rev l ++ [Connection_Close]) w1) as [r1 w2] eqn:Er.
    cbn [fst snd] in Hr, Hc. subst r1. unfold throw. by intros [= _ <-].
Qed.

(** A broker that cannot be set up at start-up leaves no connection behind: when
    [NewRabbitmq] fails, either no connection was made, or the one it made is closed,
    wherever the channel, the queue or the binding failed. *)
Theorem NewRabbitmq_closes cfg w e w' :
  NewRabbitmq cfg w = (Err e, w') ->
  NewRabbitMqConnection w = (Err e, w') \/ mq_closed w' = true.
Proof.
  unfold NewRabbitmq. intros H. unfold mbind at 1, go_bind at 1 in H.
  destruct (NewRabbitMqConnection w) as [[[]|e0|p|] w1]; try done; [right|injection H as -> <-; by left].
  cbv zeta in H. unfold mbind at 1, go_bind at 1 in H.
  destruct (or_cleanup [Connection_Close] None _ w1) as [[[]|e1|p|] w2] eqn:E1; try done;
    [|injection H as -> <-; by eapply (or_cleanup_closes []); [left|]].
  cbn [app] in H. unfold mbind at 1, go_bind at 1 in H.
  destruct (or_cleanup _ _ (DeclareQueue _) w2) as [[[]|e1|p|] w3] eqn:E2; try done;
    [|injection H as -> <-; by eapply (or_cleanup_closes [CloseChannel]); [right|]].
  unfold mbind at 1, go_bind at 1 in H.
  destruct (or_cleanup _ _ (BindQueue _) w3) as [[[]|e1|p|] w4] eqn:E3; try done.
  injection H as -> <-. by eapply (or_cleanup_closes [CloseChannel]); [right|].
Qed.
End Infra.

(** [infra.NewRedisClient]: a client that does not answer is closed. *)
Section RedisInfra.
Context {R : RedisServer}.

Definition NewRedisClient (close_err : option error) (host : string) (port : Z) : go Redis unit :=
  r ← attempt Redis_Ping;
  match r with
  | inr _ => mret tt
  | inl e =>
      _ ← ignore_err (Redis_Close close_err);
      throw (Wrapf "redis ping failed for address %s:%d: %w" [host; appendInt port 0] e)
  end.

(** A client is handed out, open, when Redis answered the ping, and is closed otherwise. *)
Lemma NewRedisClient_spec close_err host port r :
  match fst (redis_PING (rd_db r)) with
  | None => fst (NewRedisClient close_err host port r) = Ret tt
            /\ rd_closed (snd (NewRedisClient close_err host port r)) = rd_closed r
  | Some e => fst (NewRedisClient close_err host port r)
                = Err (Wrapf "redis ping failed for address %s:%d: %w" [host; appendInt port 0] e)
              /\ rd_closed (snd (NewRedisClient close_err host port r)) = true
  end.
Proof.
  unfold NewRedisClient, ignore_err, attempt, Redis_Ping, Redis_Close, traced, of_err, throw,
    mbind, go_bind, mret, go_ret.
  destruct (redis_PING (rd_db r)) as [[e|] db]; cbn; [|done]. by destruct close_err.
Qed.
End RedisInfra.

(** ** [buildGuestJourney] *)

Section Build.
Context {R : RedisServer} {A : AmqpEnv}.

(** The flow constructors do not fail. The state is new; the cache and the connection are
    shared, the consumer and its channel are the journey's own. *)
Definition buildGuestJourney (cache : option (option redis_db)) : go MqWorld JWorld :=
  _ ← NewRabbitmqConsumer;
  mq ← get;
  lift_sum (NewGuestJourney (mkWorld (Some emptyState) cache [] 0 0 0) mq true true).
End Build.

(** ** [runJourneys]: the pool *)

(** Goroutines by what they do: building a journey, running it, about to notify. The
    notification channel holds [pl_tokens] of [pl_level]; [pl_toStart] calls of
    [startJourney] are left in the first loop. *)
Record Pool := mkPool {
  pl_level : nat;
  pl_toStart : nat;
  pl_building : nat;
  pl_running : nat;
  pl_notifying : nat;
  pl_tokens : nat;
  pl_cancelled : bool;
  pl_returned : bool
}.

Inductive PoolLabel :=
| MStart | MTake | MDone
| GBuilt | GBuildFails | GEnds | GNotify
| ECancelled.

Definition pool_step (l : PoolLabel) (p : Pool) : option Pool :=
  let '(mkPool level s b r n t c ret) := p in
  match l with
  | MStart => match s, ret with S s, false => Some (mkPool level s (S b) r n t c ret) | _, _ => None end
  | MTake => match s, t, ret with
             | O, S t, false => Some (mkPool level O (S b) r n t c ret)
             | _, _, _ => None
             end
  | MDone => match s, c, ret with
             | O, true, false => Some (mkPool level O b r n t c true)
             | _, _, _ => None
             end
  | GBuilt => match b with S b => Some (mkPool level s b (S r) n t c ret) | O => None end
  | GBuildFails => match b with S b => Some (mkPool level s b r (S n) t c ret) | O => None end
  | GEnds => match r with S r => Some (mkPool level s b r (S n) t c ret) | O => None end
  | GNotify => match n with
               | S n => if Nat.ltb t level then Some (mkPool level s b r n (S t) c ret) else None
               | O => None
               end
  | ECancelled => Some (mkPool level s b r n t true ret)
  end.

Definition pool_rel (p : Pool) (l : PoolLabel) (p' : Pool) : Prop := pool_step l p = Some p'.

(** [make(chan struct{}, concurrencyLevel)] panics for a negative level. *)
Definition runJourneys (concurrencyLevel : Z) : outcome Pool :=
  if concurrencyLevel <? 0 then Panic "makechan: size out of range"
  else Ret (mkPool (Z.to_nat concurrencyLevel) (Z.to_nat concurrencyLevel) 0 0 0 0 false false).

Definition pool_sum (p : Pool) : nat :=
  pl_toStart p + pl_building p + pl_running p + pl_notifying p + pl_tokens p.

Lemma pool_sum_step p l p' : pool_rel p l p' -> pool_sum p' = pool_sum p /\ pl_level p' = pl_level p.
Proof.
  unfold pool_rel, pool_step, pool_sum. destruct p as [level s b r n t c ret].
  destruct l; intros H; repeat case_match; simplify_eq; cbn; lia.
Qed.

(** C32: the pool never runs or builds more than [concurrencyLevel] journeys at a time; a
    goroutine whose journey is over never blocks on its notification; until the context
    is cancelled the main goroutine, its first loop done, waits only while every place is
    taken by a journey or by a goroutine that will notify, so that a journey that ends is
    replaced. A negative level gives no pool. *)
Theorem pool_correct level p0 ls p :
  runJourneys level = Ret p0 -> run pool_rel p0 ls p ->
  0 <= level
  /\ Z.of_nat (pl_building p + pl_running p) <= level
  /\ (pl_notifying p <> O -> exists p', pool_rel p GNotify p')
  /\ (pl_toStart p = O -> pl_returned p = false ->
      (forall p', ~ pool_rel p MTake p') ->
      Z.of_nat (pl_building p + pl_running p + pl_notifying p) = level)
  /\ (pl_tokens p <> O -> pl_toStart p = O -> pl_returned p = false ->
      exists p', pool_rel p MTake p' /\ pl_building p' = S (pl_building p)).
Proof.
  unfold runJourneys. intros H0 Hrun. destruct (level <? 0) eqn:El; [done|]. injection H0 as <-.
  reflect_ineqs.
  assert (HI : pool_sum p = Z.to_nat level /\ pl_level p = Z.to_nat level).
  { apply (run_invariant pool_rel (fun p => pool_sum p = Z.to_nat level /\ pl_level p = Z.to_nat level))
      in Hrun; [exact Hrun| |unfold pool_sum; cbn; lia].
    intros q l q' [Hs Hl] Hq. destruct (pool_sum_step _ _ _ Hq). lia. }
  destruct p as [lv s b r n t c ret]. unfold pool_sum, pool_rel in *. cbn -[Nat.ltb] in *.
  destruct HI as [Hsum ->]. split; [done|]. split; [lia|]. split; [|split].
  - intros Hn. destruct n as [|n]; [done|]. destruct (Nat.ltb t (Z.to_nat level)) eqn:Et; [eexists; reflexivity|].
    apply Nat.ltb_ge in Et. lia.
  - intros -> -> Hno. destruct t as [|t]; [lia|]. by destruct (Hno _ eq_refl).
  - intros Ht -> ->. destruct t as [|t]; [done|]. eexists. split; reflexivity.
Qed.

(** A factory that keeps failing is called again at once: the pool is where it was. *)
Lemma pool_hot_loop level b r t c :
  (S b + r + t <= level)%nat ->
  let p := mkPool level 0 (S b) r 0 t c false in
  run pool_rel p [GBuildFails; GNotify; MTake] p.
Proof.
  intros Hl p. unfold p.
  eapply run_cons; [reflexivity|]. eapply run_cons.
  { unfold pool_rel, pool_step. rewrite (proj2 (Nat.ltb_lt _ _)); [reflexivity|lia]. }
  apply run_one. reflexivity.
Qed.

(** ** [main] *)

Inductive MainStep := LoadConfigs | InitTelemetry | InitRabbitmq | InitRedis | InitClock
                    | StartProbe | NewTimeEvents.

Inductive MainEvent :=
| Init (s : MainStep)
| Journeys
| Cleaned (s : MainStep)
| Exit (code : Z).

Record MainWorld := mkMain {
  m_events : list MainEvent;
  m_cleanup : list MainStep;
  m_started : bool;
  m_exited : bool
}.

Section Main.
(** What each step reports, and its cleanup. *)
Variable init_err : MainStep -> option error.
Variable cleanup_err : MainStep -> option error.

Definition m_record (e : MainEvent) : go MainWorld unit :=
  modify (fun w => mkMain (m_events w ++ [e]) (m_cleanup w) (m_started w) (m_exited w)).

(** [os.Exit] ends the process: nothing runs after it, deferred functions included. *)
Definition os_Exit (code : Z) : go MainWorld unit :=
  _ ← m_record (Exit code);
  _ ← modify (fun w => mkMain (m_events w) (m_cleanup w) (m_started w) true);
  go_panic "exit".

Definition exitOnError (err : option error) : go MainWorld unit :=
  match err with Some _ => os_Exit 1 | None => mret tt end.

(** Loading the configuration and the time event service register no cleanup. *)
Definition registers (s : MainStep) : bool :=
  match s with LoadConfigs | NewTimeEvents => false | _ => true end.

(** [http.StartHTTPServer] reports nothing. *)
Definition main_step (s : MainStep) : go MainWorld unit :=
  _ ← m_record (Init s);
  _ ← exitOnError (match s with StartProbe => None | _ => init_err s end);
  if registers s
  then modify (fun w => mkMain (m_events w) (m_cleanup w ++ [s]) (m_started w) (m_exited w))
  else mret tt.

Definition cleanup_step (s : MainStep) : go MainWorld unit :=
  _ ← m_record (Cleaned s); lift_opt (cleanup_err s).

Definition run_registered : go MainWorld unit :=
  cleanup ← gets m_cleanup; _ ← runCleanup (map cleanup_step cleanup); mret tt.

Definition main_steps : list MainStep :=
  [LoadConfigs; InitTelemetry; InitRabbitmq; InitRedis; InitClock; StartProbe; NewTimeEvents].

Definition main_body : go MainWorld unit :=
  _ ← forM_ main_steps main_step;
  _ ← modify (fun w => mkMain (m_events w) (m_cleanup w) true (m_exited w));
  _ ← m_record Journeys;
  run_registered.

(** The deferred function of [main] runs when [main] returns, not when the process exits. *)
Definition main : go MainWorld unit := fun w =>
  let '(r, w1) := main_body w in
  if m_exited w1 then (r, w1)
  else if m_started w1 then (r, w1)
  else run_registered w1.

Definition main_start : MainWorld := mkMain [] [] false false.

(** The first step that fails, with those before it. *)
Fixpoint first_failure (done_ steps : list MainStep) : option (list MainStep * MainStep) :=
  match steps with
  | [] => None
  | s :: rest =>
      match (match s with StartProbe => None | _ => init_err s end) with
      | Some _ => Some (done_, s)
      | None => first_failure (done_ ++ [s]) rest
      end
  end.

(** The cleanup functions run in reverse order, each once, whatever they report. *)
Lemma runCleanup_from_steps acc l w :
  exists r, runCleanup_from acc (map cleanup_step l) w
    = (Ret r, mkMain (m_events w ++ map Cleaned l) (m_cleanup w) (m_started w) (m_exited w)).
Proof.
  revert acc w. induction l as [|s l IH]; intros acc w; cbn [map runCleanup_from].
  - exists acc. rewrite app_nil_r. by destruct w.
  - assert (Hs : exists e, err_of (cleanup_step s) w
      = (Ret e, mkMain (m_events w ++ [Cleaned s]) (m_cleanup w) (m_started w) (m_exited w))).
    { unfold err_of, attempt, cleanup_step, m_record, modify, mbind, go_bind, mret, go_ret.
      destruct (cleanup_err s); eexists; reflexivity. }
    destruct Hs as (e & He). rewrite (bind_Ret _ _ _ _ _ He).
    match goal with |- context [runCleanup_from ?a _ ?w1] => destruct (IH a w1) as (r & Hr) end.
    exists r. rewrite Hr. cbn. by rewrite <- app_assoc.
Qed.

Lemma run_registered_spec w :
  snd (run_registered w)
  = mkMain (m_events w ++ map Cleaned (rev (m_cleanup w))) (m_cleanup w) (m_started w) (m_exited w)
  /\ fst (run_registered w) = Ret tt.
Proof.
  unfold run_registered, runCleanup. unfold mbind, go_bind, gets. rewrite <- map_rev.
  destruct (runCleanup_from_steps None (rev (m_cleanup w)) w) as (r & ->). done.
Qed.

Definition startup_world (done_ : list MainStep) : MainWorld :=
  mkMain (map Init done_) (List.filter registers done_) false false.

Lemma startup_spec done_ steps :
  forM_ steps main_step (startup_world done_) =
  match first_failure done_ steps with
  | None => (Ret tt, startup_world (done_ ++ steps))
  | Some (before, s) =>
      (Panic "exit", mkMain (map Init (before ++ [s]) ++ [Exit 1]) (List.filter registers before) false true)
  end.
Proof.
  revert done_. induction steps as [|s steps IH]; intros done_; cbn [forM_ first_failure].
  - by rewrite app_nil_r.
  - destruct (match s with StartProbe => None | _ => init_err s end) as [e|] eqn:Ee.
    + apply bind_Panic. unfold main_step. rewrite Ee.
      unfold exitOnError, os_Exit, m_record, modify, go_panic, mbind, go_bind, startup_world. cbn.
      by rewrite map_app.
    + assert (Hs : main_step s (startup_world done_) = (Ret tt, startup_world (done_ ++ [s]))).
      { unfold main_step. rewrite Ee.
        unfold exitOnError, m_record, modify, mbind, go_bind, mret, go_ret, startup_world. cbn.
        rewrite map_app, List.filter_app. cbn. destruct (registers s); [done|]. by rewrite app_nil_r. }
      rewrite (bind_Ret _ _ _ _ _ Hs), IH. by rewrite <- app_assoc.
Qed.

(** A start-up in which every step succeeds runs the journeys and then cleans up
    everything it registered, in reverse order, whatever the cleanups report; when a step
    fails the process exits with status 1 and nothing that was set up before it is
    cleaned up: the deferred start-up cleanup never runs. *)
Theorem main_correct :
  m_events (snd (main main_start)) =
  match first_failure [] main_steps with
  | None => map Init main_steps ++ [Journeys]
            ++ map Cleaned [StartProbe; InitClock; InitRedis; InitRabbitmq; InitTelemetry]
  | Some (before, s) => map Init (before ++ [s]) ++ [Exit 1]
  end.
Proof.
  pose proof (startup_spec [] main_steps) as Hs. change (startup_world []) with main_start in Hs.
  unfold main, main_body. destruct (first_failure [] main_steps) as [[before s]|].
  - rewrite (bind_Panic _ _ _ _ _ Hs). reflexivity.
  - rewrite (bind_Ret _ _ _ _ _ Hs). unfold m_record, modify, mbind, go_bind.
    match goal with |- context [run_registered ?w1] =>
      destruct (run_registered_spec w1) as [Hw Hr]; destruct (run_registered w1) as [r w2] end.
    cbn in Hw, Hr. subst r w2. reflexivity.
Qed.
End Main.

(** ** Concrete runs *)

Section Witnesses.
(** A broker that refuses every binding. *)
#[local] Instance refusing_amqp : AmqpEnv := {|
  amqp_err h := match last h with Some (AmQueueBind _ _ _) => Some (LibError "404") | _ => None end;
  amqp_closed _ := false;
  amqp_queue_name _ := "q.guest-simulator.hour-change"
|}.

Lemma NewRabbitmq_closes_witness :
  exists e w', NewRabbitmq sample_cfg (mkMq [] None false None "") = (Err e, w')
    /\ (NewRabbitMqConnection (mkMq [] None false None "") = (Err e, w') \/ mq_closed w' = true).
Proof.
  assert (H : exists e, fst (NewRabbitmq sample_cfg (mkMq [] None false None "")) = Err e)
    by (vm_compute; by eexists).
  destruct H as [e He]. exists e, (snd (NewRabbitmq sample_cfg (mkMq [] None false None ""))).
  assert (Hr : NewRabbitmq sample_cfg (mkMq [] None false None "")
               = (Err e, snd (NewRabbitmq sample_cfg (mkMq [] None false None ""))))
    by (rewrite <- He; apply surjective_pairing).
  split; [exact Hr|]. exact (NewRabbitmq_closes _ _ _ _ Hr).
Defined.
End Witnesses.

(** Two places in the pool, one journey over and replaced. *)

Definition pool_labels : list PoolLabel := [MStart; MStart; GBuilt; GEnds; GNotify; MTake].

Lemma pool_correct_witness :
  run pool_rel (mkPool 2 2 0 0 0 0 false false) pool_labels (mkPool 2 0 2 0 0 0 false false)
  /\ Z.of_nat (2 + 0) <= 2.
Proof.
  assert (H : run pool_rel (mkPool 2 2 0 0 0 0 false false) pool_labels (mkPool 2 0 2 0 0 0 false false)).
  { unfold pool_labels. repeat (eapply run_cons; [reflexivity|]). apply run_nil. }
  split; [exact H|].
  destruct (pool_correct 2 _ pool_labels _ eq_refl H) as (_ & Hb & _). exact Hb.
Defined.
