(* ===== verification/Boot.v ===== *)
(** * The program from its environment to its shutdown: [main.go] over the real components

    [Main] has the skeleton of [main], with what each step reports as a parameter. Here each
    step is the component it starts: the settings of [Settings], the telemetry of
    [Telemetry], the broker of [Mq] and [Main], Redis, the clock and the probe server of
    [Probe], the time service of [TimeEvents], the pool of [Main]. The question is what is
    left running when the process ends. *)

From Stdlib Require Import ZArith Lia.
From stdpp Require Import base tactics list option strings gmap.
From S2P Require Import Prelude GoEffects GoTime GoText Domain Json World Samples Telemetry.
From S2P Require Import Bus TimeEvents Lodging Mq Settings Probe Journey Main.
Open Scope Z_scope.

(** ** What each component is given *)

(** The URI [reconnectLocked] dials and the options of the Redis client; the credentials are
    converted to plain strings. *)
Record AmqpURI := mkAmqpURI {
  uri_Scheme : string; uri_Username : string; uri_Password : string; uri_Host : string; uri_Port : Z }.
Definition amqp_uri (cfg : RabbitMqConnConfig) : AmqpURI :=
  mkAmqpURI "amqp" (rabbit_Username cfg) (rabbit_Password cfg) (rabbit_Host cfg) (rabbit_Port cfg).

Record RedisOptions := mkRedisOptions {
  ro_Addr : string; ro_Username : string; ro_Password : string; ro_DB : Z;
  ro_DialTimeout : Z; ro_ReadTimeout : Z; ro_WriteTimeout : Z }.
Definition redis_options (cfg : RedisConfig) : RedisOptions :=
  mkRedisOptions (address (redis_Host cfg) (redis_Port cfg)) (redis_Username cfg) (redis_Password cfg)
    (redis_DB cfg) (seconds 5) (seconds 5) (seconds 5).

Definition telemetry_config (c : Configs) : Config :=
  let t := ac_Telemetry (cfg_App c) in mkTelConfig (OTLPEndpoint t) (OTLPGrpcPort t) (OTLPInsecure t).
Definition telemetry_app (c : Configs) : AppInfo :=
  let n := ac_Name (cfg_App c) in mkAppInfo (ServiceName n) (Version n).

(** The HTTP client of each service, and the address of the lodging chat. *)
Definition service_client (cfg : ServicesConfig) (s : HttpClient) : RestyClient :=
  match s with
  | CottageManager => NewRestyClient (CottageManagerUrl cfg) (CottageManagerPort cfg)
  | GuestManager => NewRestyClient (GuestManagerUrl cfg) (GuestManagerPort cfg)
  | PaymentSimulator => NewRestyClient (PaymentSimulatorUrl cfg) (PaymentSimulatorPort cfg)
  end.
Definition lodging_chat_url (cfg : ServicesConfig) : string :=
  "ws://" +:+ address (GuestManagerUrl cfg) (GuestManagerPort cfg) +:+ "/lodging/chat".

(** The lodging flow of a journey, over the real client factory. *)
Definition NewLodgingFlowWithState (cfg : ServicesConfig) (notifications : bool) : LodgingStayFlow :=
  mkStayFlow (Some (NewRunLodgingStep (lodging_chat_url cfg) true notifications DefaultLodgingFlow)).

(** [guestJourneyFactoryDeps], what of it comes from the settings. *)
Record JourneyDeps := mkDeps {
  dp_clients : list RestyClient; dp_lodging : LodgingStayFlow; dp_consumer : RabbitMqConsumerConfig }.
Definition journey_deps (c : Configs) : JourneyDeps :=
  mkDeps (map (service_client (cfg_Services c)) [CottageManager; GuestManager; PaymentSimulator])
    (NewLodgingFlowWithState (cfg_Services c) true) (Communication (cfg_RabbitConsumers c)).

(** A component that is set up with its part of the settings. *)
Inductive Endpoint :=
| EndTelemetry (cfg : Config) (app : AppInfo)
| EndRabbit (uri : AmqpURI) (hourChange : RabbitMqConsumerConfig)
| EndRedis (opts : RedisOptions)
| EndClock (target : string)
| EndProbe (server : Server)
| EndJourneys (level : Z) (deps : JourneyDeps).

Definition endpoints (c : Configs) : list Endpoint :=
  [EndTelemetry (telemetry_config c) (telemetry_app c);
   EndRabbit (amqp_uri (cfg_RabbitConn c)) (HourChange (cfg_RabbitConsumers c));
   EndRedis (redis_options (cfg_Redis c));
   EndClock (address (ClockEmuGrpcUrl (cfg_Services c)) (ClockEmuGrpcPort (cfg_Services c)));
   EndProbe (StartHTTPServer (cfg_Probe c) (cfg_Services c));
   EndJourneys (jf_ConcurrencyLevel (fc_GuestJourney (cfg_Flows c))) (journey_deps c)].

(** ** The process *)

Section Boot.
Context {T : TelEnv} {A : AmqpEnv} {R : RedisServer} {P : EnvParse}.

Record Boot := mkBoot {
  bt_log : list LogRecord;
  bt_tel : TelWorld;
  bt_mq : MqWorld;
  bt_redis : Redis;
  bt_clock : bool;              (* the gRPC connection is open *)
  bt_server : bool;             (* the probe server serves *)
  bt_given : list Endpoint;
  bt_events : list MainEvent
}.

(** Before [main]: nothing runs, and there is no Redis client yet. *)
Definition boot_start (db : redis_db) : Boot :=
  mkBoot [] (mkTel [] []) (mkMq [] None false None "") (mkRedis db [] true) false false [] [].

Definition set_log x b := mkBoot x (bt_tel b) (bt_mq b) (bt_redis b) (bt_clock b) (bt_server b) (bt_given b) (bt_events b).
Definition set_tel x b := mkBoot (bt_log b) x (bt_mq b) (bt_redis b) (bt_clock b) (bt_server b) (bt_given b) (bt_events b).
Definition set_mq x b := mkBoot (bt_log b) (bt_tel b) x (bt_redis b) (bt_clock b) (bt_server b) (bt_given b) (bt_events b).
Definition set_redis x b := mkBoot (bt_log b) (bt_tel b) (bt_mq b) x (bt_clock b) (bt_server b) (bt_given b) (bt_events b).
Definition set_clock x b := mkBoot (bt_log b) (bt_tel b) (bt_mq b) (bt_redis b) x (bt_server b) (bt_given b) (bt_events b).
Definition set_server x b := mkBoot (bt_log b) (bt_tel b) (bt_mq b) (bt_redis b) (bt_clock b) x (bt_given b) (bt_events b).
Definition give (e : Endpoint) b := mkBoot (bt_log b) (bt_tel b) (bt_mq b) (bt_redis b) (bt_clock b) (bt_server b) (bt_given b ++ [e]) (bt_events b).
Definition happen (e : MainEvent) b := mkBoot (bt_log b) (bt_tel b) (bt_mq b) (bt_redis b) (bt_clock b) (bt_server b) (bt_given b) (bt_events b ++ [e]).

(** The outside: the environment variables; what closing the Redis client, dialling and
    closing the clock's connection report; how the pool's goroutines are scheduled; what the
    journeys leave of the connection and of Redis. *)
Variable environ : string -> option string.
Variable redis_close : option error.
Variable clock_dial : string -> option error.
Variable clock_close : option error.
Variable pool_schedule : list PoolLabel.
Variable work : MqWorld -> redis_db -> MqWorld * redis_db.

(** *** The components in their places *)

Definition boot_configs : go Boot Configs := zoom bt_log set_log (Settings.LoadConfigs environ).

Definition boot_telemetry (c : Configs) : go Boot (go TelWorld unit) :=
  _ ← modify (give (EndTelemetry (telemetry_config c) (telemetry_app c)));
  zoom bt_tel set_tel (Telemetry.Init (telemetry_config c) (telemetry_app c)).

Definition boot_rabbitmq (c : Configs) : go Boot (list (go MqWorld unit)) :=
  _ ← modify (give (EndRabbit (amqp_uri (cfg_RabbitConn c)) (HourChange (cfg_RabbitConsumers c))));
  zoom bt_mq set_mq (NewRabbitmq (HourChange (cfg_RabbitConsumers c))).

(** [goredis.NewClient] makes an open client. *)
Definition boot_redis (c : Configs) : go Boot unit :=
  _ ← modify (give (EndRedis (redis_options (cfg_Redis c))));
  _ ← modify (fun b => set_redis (mkRedis (rd_db (bt_redis b)) (rd_spans (bt_redis b)) false) b);
  zoom bt_redis set_redis
    (NewRedisClient redis_close (redis_Host (cfg_Redis c)) (redis_Port (cfg_Redis c))).

Definition boot_clock (c : Configs) : go Boot unit :=
  target ← lift_sum (NewClock (cfg_Services c) clock_dial);
  modify (fun b => set_clock true (give (EndClock target) b)).

Definition boot_probe (c : Configs) : go Boot unit :=
  modify (fun b => set_server true (give (EndProbe (StartHTTPServer (cfg_Probe c) (cfg_Services c))) b)).

(** The clean-ups [main] registers. *)
Definition close_telemetry (shutdown : go TelWorld unit) : go Boot unit := zoom bt_tel set_tel shutdown.
Definition close_rabbitmq (cleanup : list (go MqWorld unit)) : go Boot unit :=
  zoom bt_mq set_mq (err ← runCleanup cleanup; lift_opt err).
Definition close_redis : go Boot unit := zoom bt_redis set_redis (Redis_Close redis_close).
Definition close_clock : go Boot unit := _ ← modify (set_clock false); lift_opt clock_close.
Definition close_probe : go Boot unit := modify (set_server false).

(** *** [main] *)

(** A step of the start-up followed by the rest. An error is an [os.Exit], which runs no
    deferred function; a panic would run the one [main] has deferred, with the clean-ups
    registered so far. *)
Definition boot_step {X Y} (s : MainStep) (cleanup : list (go Boot unit)) (m : go Boot X)
    (rest : X -> go Boot Y) : go Boot Y := fun b =>
  match m (happen (Main.Init s) b) with
  | (Ret x, b') => rest x b'
  | (Err e, b') => (Panic "exit", happen (Exit 1) b')
  | (Panic p, b') => (Panic p, snd (runCleanup cleanup b'))
  | (Stuck, b') => (Stuck, b')
  end.

(** [runJourneys] until it returns; in the meantime the journeys use the connection and
    Redis. A panic here finds [started] set: nothing is cleaned up. *)
Definition boot_journeys (c : Configs) : go Boot unit := fun b =>
  let level := jf_ConcurrencyLevel (fc_GuestJourney (cfg_Flows c)) in
  let b := give (EndJourneys level (journey_deps c)) (happen Journeys b) in
  match runJourneys level with
  | Ret p0 =>
      let '(mq, db) := work (bt_mq b) (rd_db (bt_redis b)) in
      let b' := set_redis (mkRedis db (rd_spans (bt_redis b)) (rd_closed (bt_redis b))) (set_mq mq b) in
      if pl_returned (exec pool_step (fun _ => true) pool_schedule p0) then (Ret tt, b') else (Stuck, b')
  | Err e => (Err e, b)
  | Panic p => (Panic p, b)
  | Stuck => (Stuck, b)
  end.

Definition boot_main : go Boot unit :=
  boot_step LoadConfigs [] boot_configs (fun configs =>
  boot_step InitTelemetry [] (boot_telemetry configs) (fun shutdownTelemetry =>
  let cleanup := [close_telemetry shutdownTelemetry] in
  boot_step InitRabbitmq cleanup (boot_rabbitmq configs) (fun connectionClose =>
  let cleanup := cleanup ++ [close_rabbitmq connectionClose] in
  boot_step InitRedis cleanup (boot_redis configs) (fun _ =>
  let cleanup := cleanup ++ [close_redis] in
  boot_step InitClock cleanup (boot_clock configs) (fun _ =>
  let cleanup := cleanup ++ [close_clock] in
  boot_step StartProbe cleanup (boot_probe configs) (fun _ =>
  let cleanup := cleanup ++ [close_probe] in
  boot_step NewTimeEvents cleanup (lift_sum (NewTimeEventService (Some tt))) (fun _ =>
  _ ← boot_journeys configs;
  _ ← runCleanup cleanup;
  mret tt))))))).

(** ** What each component leaves behind *)

(** A component that runs. *)
Definition is_open (b : Boot) (s : MainStep) : bool :=
  match s with
  | InitTelemetry => match tel_running (bt_tel b) with [] => false | _ => true end
  | InitRabbitmq => match mq_conn (bt_mq b) with Some _ => negb (mq_closed (bt_mq b)) | None => false end
  | InitRedis => negb (rd_closed (bt_redis b))
  | InitClock => bt_clock b
  | StartProbe => bt_server b
  | LoadConfigs | NewTimeEvents => false
  end.

(** *** The broker *)

Definition opened (w : MqWorld) : Prop := mq_conn w <> None /\ mq_closed w = false.

Lemma amqp_opened c : keeps opened (amqp c).
Proof. by intros w Hw. Qed.
Lemma amqp_ask_opened c : keeps opened (amqp_ask c).
Proof. by intros w Hw. Qed.
Lemma modify_opened f :
  (forall w, opened w -> opened (f w)) -> keeps opened (modify f).
Proof. intros Hf w Hw. by apply Hf. Qed.

#[local] Hint Resolve amqp_opened amqp_ask_opened : guest.

Lemma dial_loop_opened attempts e : keeps opened (dial_loop attempts e).
Proof.
  revert e. induction attempts as [|n IH]; intros e; [apply keeps_throw|].
  cbn [dial_loop]. keeps_auto; apply modify_opened; intros w [? ?]; by split.
Qed.

#[local] Hint Resolve dial_loop_opened : guest.

Lemma ensure_channel_opened : keeps opened ensure_channel.
Proof.
  unfold ensure_channel, openChannel, make_channel, openConnection, reconnect_and_get, reconnectLocked.
  keeps_auto; apply modify_opened; intros w [? ?]; by split.
Qed.

Lemma NewRabbitmqConsumer_opened : keeps opened NewRabbitmqConsumer.
Proof.
  unfold NewRabbitmqConsumer, openChannel, make_channel, openConnection, reconnect_and_get, reconnectLocked.
  keeps_auto; apply modify_opened; intros w [? ?]; by split.
Qed.

#[local] Hint Resolve ensure_channel_opened : guest.

Lemma DeclareQueue_opened cfg : keeps opened (DeclareQueue cfg).
Proof.
  unfold DeclareQueue, the_channel, wrap_err. keeps_auto; apply modify_opened; intros w [? ?]; by split.
Qed.

Lemma BindQueue_opened cfg : keeps opened (BindQueue cfg).
Proof. unfold BindQueue, the_channel, wrap_err. keeps_auto. Qed.

Lemma dial_loop_conn attempts e w :
  match dial_loop attempts e w with
  | (Ret _, w') => mq_conn w' <> None /\ mq_closed w' = mq_closed w
  | (Err _, w') => mq_conn w' = mq_conn w
  | _ => False
  end.
Proof.
  revert e w. induction attempts as [|n IH]; intros e w; [done|].
  cbn [dial_loop]. unfold mbind, go_bind, attempt, amqp. cbn [mq_calls mq_record].
  destruct (amqp_err _) as [e'|]; [|done].
  destruct n as [|n]; [done|]. exact (IH (Some e') (mq_record AmSleep (mq_record AmDial w))).
Qed.

(** A step of the set-up after the connection: it leaves the connection open, or closes it
    and fails. *)
Lemma or_cleanup_opened cleanup context m w :
  cleanup = [] \/ cleanup = [CloseChannel] ->
  keeps opened m -> safe true (fun _ => True) m (fun _ _ => True) -> opened w ->
  match or_cleanup (Connection_Close :: cleanup) context m w with
  | (Ret _, w') => opened w'
  | (Err _, w') => mq_closed w' = true
  | _ => False
  end.
Proof.
  intros Hc Hk Hs Hw. specialize (Hk w Hw). specialize (Hs w I).
  destruct (or_cleanup _ context m w) as [r w'] eqn:E. pose proof E as E'.
  unfold or_cleanup, attempt, mbind, go_bind in E'.
  destruct (m w) as [[[]|e|p|] w1]; try done; cbn [snd] in Hk; [by injection E' as <- <-|].
  assert (Hr : exists x, fst (runCleanup (Connection_Close :: cleanup) w1) = Ret x).
  { unfold runCleanup. cbn [rev].
    apply (runCleanup_from_last (fun _ => True) None (rev cleanup) Connection_Close w1).
    - intros w0. split; [done|]. apply Connection_Close_closed.
    - intros f Hf. destruct Hc as [->| ->]; cbn in Hf; [by apply not_elem_of_nil in Hf|].
      apply list_elem_of_singleton in Hf as ->. apply CloseChannel_ends. }
  destruct Hr as (x & Hx). destruct (runCleanup _ w1) as [r2 w2]. cbn [fst] in Hx. subst r2.
  unfold throw in E'. injection E' as <- <-. by eapply or_cleanup_closes.
Qed.

(** [NewRabbitmq] from nothing: an open connection with its clean-up, or no connection. *)
Lemma NewRabbitmq_cases cfg w :
  mq_conn w = None -> mq_closed w = false ->
  match NewRabbitmq cfg w with
  | (Ret cleanup, w') => cleanup = [Connection_Close; CloseChannel] /\ opened w'
  | (Err _, w') => mq_conn w' = None \/ mq_closed w' = true
  | _ => False
  end.
Proof.
  intros Hn Hcl. unfold NewRabbitmq. unfold mbind at 1, go_bind at 1.
  unfold NewRabbitMqConnection. rewrite reconnectLocked_open by done.
  pose proof (dial_loop_conn rabbitDialAttempts None w) as Hd.
  destruct (dial_loop _ None w) as [[[]|e|p|] w1]; try done; [|left; congruence].
  destruct Hd as [Hc1 Hc2]. assert (H1 : opened w1) by (split; [done|congruence]).
  clear Hc1 Hc2. cbv zeta. cbn [app].
  assert (Hstep : forall l ctx (m : go MqWorld unit) (k : unit -> go MqWorld (list (go MqWorld unit))) w0,
    l = [] \/ l = [CloseChannel] -> keeps opened m -> safe true (fun _ => True) m (fun _ _ => True) ->
    opened w0 ->
    (forall w', opened w' ->
       match k tt w' with
       | (Ret cleanup, w') => cleanup = [Connection_Close; CloseChannel] /\ opened w'
       | (Err _, w') => mq_conn w' = None \/ mq_closed w' = true
       | _ => False
       end) ->
    match (or_cleanup (Connection_Close :: l) ctx m ≫= k) w0 with
    | (Ret cleanup, w') => cleanup = [Connection_Close; CloseChannel] /\ opened w'
    | (Err _, w') => mq_conn w' = None \/ mq_closed w' = true
    | _ => False
    end).
  { intros l ctx m k w0 Hl Hk Hs Hw0 Hnext. unfold mbind, go_bind.
    pose proof (or_cleanup_opened l ctx m w0 Hl Hk Hs Hw0) as H.
    destruct (or_cleanup _ ctx m w0) as [[[]|e|p|] w']; try done; [by apply Hnext|by right]. }
  apply Hstep; [by left|apply NewRabbitmqConsumer_opened| |done|intros w2 H2].
  { intros w2 _. pose proof (openChannel_safe true (set_queue "" (set_channel None w2)) I) as H.
    unfold NewRabbitmqConsumer, modify, mbind, go_bind. by destruct (openChannel _) as [[[]|e|p|] w3]. }
  apply Hstep; [by right|apply DeclareQueue_opened|apply DeclareQueue_safe|done|intros w3 H3].
  apply Hstep; [by right|apply BindQueue_opened|apply BindQueue_safe|done|intros w4 H4]. done.
Qed.

(** *** The clean-ups, one by one and together *)

Lemma runCleanup_from_snoc acc (fs : list (go Boot unit)) f b e b' r b'' :
  err_of f b = (Ret e, b') ->
  runCleanup_from (match e with Some e => errors_Join [acc; Some e] | None => acc end) fs b' = (Ret r, b'') ->
  runCleanup_from acc (f :: fs) b = (Ret r, b'').
Proof. intros H1 H2. cbn [runCleanup_from]. by rewrite (bind_Ret _ _ _ _ _ H1). Qed.

Lemma close_telemetry_ends b h :
  bt_tel b = mkTel h [TracerProvider; MeterProvider] ->
  exists e h', err_of (close_telemetry shutdownTelemetry) b = (Ret e, set_tel (mkTel h' []) b).
Proof.
  intros Hb. unfold close_telemetry, err_of, attempt, zoom, mbind, go_bind, mret, go_ret.
  rewrite Hb, shutdownTelemetry_spec. cbv zeta.
  destruct (tel_err (h ++ _)); destruct (tel_err _); eauto.
Qed.

Lemma close_rabbitmq_ends b :
  exists e w, err_of (close_rabbitmq [Connection_Close; CloseChannel]) b = (Ret e, set_mq w b)
    /\ mq_closed w = true.
Proof.
  destruct (runCleanup_from_last (fun w => mq_closed w = true) None [CloseChannel] Connection_Close (bt_mq b))
    as [Hc (x & Hx)].
  { apply Connection_Close_closed. }
  { intros f ->%list_elem_of_singleton. apply CloseChannel_ends. }
  unfold close_rabbitmq, runCleanup, err_of, attempt, zoom, mbind, go_bind, mret, go_ret. cbn [rev app].
  change ([CloseChannel] ++ [Connection_Close]) with ([CloseChannel; Connection_Close]) in Hc, Hx.
  destruct (runCleanup_from None _ (bt_mq b)) as [r w]. cbn [fst snd] in Hx, Hc. subst r.
  destruct x as [e|]; cbn; eauto.
Qed.

Lemma close_redis_ends b :
  exists e r, err_of close_redis b = (Ret e, set_redis r b) /\ rd_closed r = true.
Proof.
  unfold close_redis, Redis_Close, err_of, attempt, zoom, mbind, go_bind, mret, go_ret.
  destruct redis_close; eauto.
Qed.

Lemma close_clock_ends b : exists e, err_of close_clock b = (Ret e, set_clock false b).
Proof.
  unfold close_clock, lift_opt, modify, err_of, attempt, mbind, go_bind, mret, go_ret, throw.
  destruct clock_close; eauto.
Qed.

(** Everything [main] registers, run in reverse: nothing is left open. *)
Definition all_cleanups : list (go Boot unit) :=
  [close_telemetry shutdownTelemetry; close_rabbitmq [Connection_Close; CloseChannel];
   close_redis; close_clock; close_probe].

Lemma all_cleanups_close b h :
  bt_tel b = mkTel h [TracerProvider; MeterProvider] ->
  exists r b', runCleanup all_cleanups b = (Ret r, b') /\ (forall s, is_open b' s = false)
    /\ bt_given b' = bt_given b /\ bt_events b' = bt_events b.
Proof.
  intros Hb. set (b1 := set_server false b).
  destruct (close_clock_ends b1) as (e2 & H2). set (b2 := set_clock false b1) in H2.
  destruct (close_redis_ends b2) as (e3 & r3 & H3 & Hr). set (b3 := set_redis r3 b2) in H3.
  destruct (close_rabbitmq_ends b3) as (e4 & w4 & H4 & Hw). set (b4 := set_mq w4 b3) in H4.
  destruct (close_telemetry_ends b4 h Hb) as (e5 & h5 & H5).
  eexists _, (set_tel (mkTel h5 []) b4). split; [|split; [|done]].
  - unfold runCleanup, all_cleanups. cbn [rev app].
    eapply runCleanup_from_snoc; [reflexivity|]. eapply runCleanup_from_snoc; [exact H2|].
    eapply runCleanup_from_snoc; [exact H3|]. eapply runCleanup_from_snoc; [exact H4|].
    eapply runCleanup_from_snoc; [exact H5|]. reflexivity.
  - intros []; cbn; rewrite ?Hr, ?Hw; try done. by destruct (mq_conn w4).
Qed.

(** *** The start-up, component by component *)

(** How a component ends: with its result and itself running, or with an error. *)
Lemma boot_telemetry_cases c b h :
  bt_tel b = mkTel h [] ->
  let b1 := give (EndTelemetry (telemetry_config c) (telemetry_app c)) b in
  (exists h', boot_telemetry c b
     = (Ret shutdownTelemetry, set_tel (mkTel h' [TracerProvider; MeterProvider]) b1))
  \/ exists e w, boot_telemetry c b = (Err e, set_tel w b1).
Proof.
  intros Hb. cbv zeta. pose proof (Init_spec (telemetry_config c) (telemetry_app c) h) as H.
  unfold boot_telemetry, modify, zoom, mbind, go_bind. cbn [bt_tel give]. rewrite Hb.
  destruct (init_failure _ _ _) as [[[before k] e]|]; [right; rewrite H; eauto|].
  left. destruct H as [-> _]. eauto.
Qed.

Lemma boot_rabbitmq_cases c b :
  mq_conn (bt_mq b) = None -> mq_closed (bt_mq b) = false ->
  let b1 := give (EndRabbit (amqp_uri (cfg_RabbitConn c)) (HourChange (cfg_RabbitConsumers c))) b in
  (exists w, boot_rabbitmq c b = (Ret [Connection_Close; CloseChannel], set_mq w b1) /\ opened w)
  \/ exists e w, boot_rabbitmq c b = (Err e, set_mq w b1) /\ (mq_conn w = None \/ mq_closed w = true).
Proof.
  intros H1 H2. cbv zeta.
  pose proof (NewRabbitmq_cases (HourChange (cfg_RabbitConsumers c)) (bt_mq b) H1 H2) as H.
  unfold boot_rabbitmq, modify, zoom, mbind, go_bind. cbn [bt_mq give].
  destruct (NewRabbitmq _ _) as [[cl|e|p|] w]; try done; [left|right; eauto].
  destruct H as [-> H]. eauto.
Qed.

Lemma boot_redis_cases c b :
  let b1 := give (EndRedis (redis_options (cfg_Redis c))) b in
  (exists r, boot_redis c b = (Ret tt, set_redis r b1) /\ rd_closed r = false)
  \/ exists e r, boot_redis c b = (Err e, set_redis r b1) /\ rd_closed r = true.
Proof.
  cbv zeta. set (r0 := mkRedis (rd_db (bt_redis b)) (rd_spans (bt_redis b)) false).
  pose proof (NewRedisClient_spec redis_close (redis_Host (cfg_Redis c)) (redis_Port (cfg_Redis c)) r0) as H.
  unfold boot_redis, modify, zoom, mbind, go_bind. cbn [bt_redis give set_redis]. fold r0.
  destruct (NewRedisClient _ _ _ r0) as [r w]. cbn [fst snd] in H.
  destruct (fst (redis_PING (rd_db r0))) as [e|]; destruct H as [-> H]; [right|left]; eauto.
Qed.

Lemma boot_clock_cases c b :
  let target := address (ClockEmuGrpcUrl (cfg_Services c)) (ClockEmuGrpcPort (cfg_Services c)) in
  boot_clock c b = (Ret tt, set_clock true (give (EndClock target) b))
  \/ exists e, boot_clock c b = (Err e, b).
Proof.
  cbv zeta. unfold boot_clock, NewClock, lift_sum, throw, mbind, go_bind.
  destruct (clock_dial _); [right; eauto|by left].
Qed.

Lemma boot_step_Ret {X Y} s cleanup (m : go Boot X) (rest : X -> go Boot Y) b x b' :
  m (happen (Main.Init s) b) = (Ret x, b') -> boot_step s cleanup m rest b = rest x b'.
Proof. unfold boot_step. by intros ->. Qed.

Lemma boot_step_Err {X Y} s cleanup (m : go Boot X) (rest : X -> go Boot Y) b e b' :
  m (happen (Main.Init s) b) = (Err e, b') ->
  boot_step s cleanup m rest b = (Panic "exit", happen (Exit 1) b').
Proof. unfold boot_step. by intros ->. Qed.

Lemma opened_open w : opened w ->
  match mq_conn w with Some _ => negb (mq_closed w) | None => false end = true.
Proof. intros [Hc ->]. by destruct (mq_conn w). Qed.

(** The process when every step of the start-up has succeeded. *)
Definition started (c : Configs) (b : Boot) : Prop :=
  (forall s, is_open b s = registers s)
  /\ (exists h, bt_tel b = mkTel h [TracerProvider; MeterProvider])
  /\ endpoints c = bt_given b ++ [EndJourneys (jf_ConcurrencyLevel (fc_GuestJourney (cfg_Flows c))) (journey_deps c)]
  /\ bt_events b = map Main.Init main_steps.

(** The process that exits because of [s], with the steps before it. *)
Definition exited_at (before : list MainStep) (s : MainStep) (b : Boot) : Prop :=
  (exists after, main_steps = before ++ s :: after /\ Forall (fun s' => is_open b s' = false) after)
  /\ bt_events b = map Main.Init (before ++ [s]) ++ [Exit 1]
  /\ Forall (fun s' => is_open b s' = registers s') before
  /\ (s = InitTelemetry \/ is_open b s = false).

(** The end of [main], from the journeys on. *)
Definition boot_run (c : Configs) : go Boot unit :=
  _ ← boot_journeys c; _ ← runCleanup all_cleanups; mret tt.

Lemma boot_startup db :
  (exists c b, env_Parse environ = inr c /\ started c b /\ boot_main (boot_start db) = boot_run c b)
  \/ exists before s b, exited_at before s b /\ boot_main (boot_start db) = (Panic "exit", b).
Proof.
  unfold boot_main. set (b0 := boot_start db).
  destruct (env_Parse environ) as [e|c] eqn:Ep.
  { right. exists [], LoadConfigs. eexists. split; [|eapply boot_step_Err; unfold boot_configs,
      Settings.LoadConfigs, zoom, mbind, go_bind, lift_sum, throw; rewrite Ep; reflexivity].
    split; [eexists; split; [reflexivity|by repeat constructor]|]. split; [done|]. split; [constructor|by right]. }
  erewrite boot_step_Ret; [|unfold boot_configs, Settings.LoadConfigs, zoom, mbind, go_bind,
    lift_sum, mret, go_ret; rewrite Ep; reflexivity].
  set (b1 := set_log _ _).
  destruct (boot_telemetry_cases c (happen (Main.Init InitTelemetry) b1) [] eq_refl)
    as [(h & H)|(e & w & H)].
  2:{ right. exists [LoadConfigs], InitTelemetry. eexists. split; [|exact (boot_step_Err _ _ _ _ _ _ _ H)].
      split; [eexists; split; [reflexivity|by repeat constructor]|]. split; [done|]. split; [by repeat constructor|by left]. }
  rewrite (boot_step_Ret _ _ _ _ _ _ _ H). cbv zeta. set (b2 := set_tel _ _).
  destruct (boot_rabbitmq_cases c (happen (Main.Init InitRabbitmq) b2) eq_refl eq_refl)
    as [(w & H3 & Hw)|(e & w & H3 & Hw)]; cbv zeta in H3.
  2:{ right. exists [LoadConfigs; InitTelemetry], InitRabbitmq. eexists.
      split; [|exact (boot_step_Err _ _ _ _ _ _ _ H3)].
      split; [eexists; split; [reflexivity|by repeat constructor]|]. split; [done|]. split; [by repeat constructor|].
      right. cbn. destruct Hw as [-> | ->]; [done|by destruct (mq_conn w)]. }
  rewrite (boot_step_Ret _ _ _ _ _ _ _ H3). set (b3 := set_mq w _). apply opened_open in Hw.
  destruct (boot_redis_cases c (happen (Main.Init InitRedis) b3)) as [(r & H4 & Hr)|(e & r & H4 & Hr)];
    cbv zeta in H4.
  2:{ right. exists [LoadConfigs; InitTelemetry; InitRabbitmq], InitRedis. eexists.
      split; [|exact (boot_step_Err _ _ _ _ _ _ _ H4)].
      split; [eexists; split; [reflexivity|by repeat constructor]|]. split; [done|]. split; [by repeat constructor|]. right. cbn. by rewrite Hr. }
  rewrite (boot_step_Ret _ _ _ _ _ _ _ H4). set (b4 := set_redis r _). apply negb_true_iff in Hr.
  destruct (boot_clock_cases c (happen (Main.Init InitClock) b4)) as [H5|(e & H5)]; cbv zeta in H5.
  2:{ right. exists [LoadConfigs; InitTelemetry; InitRabbitmq; InitRedis], InitClock. eexists.
      split; [|exact (boot_step_Err _ _ _ _ _ _ _ H5)].
      split; [eexists; split; [reflexivity|by repeat constructor]|]. split; [done|]. split; [by repeat constructor|by right]. }
  rewrite (boot_step_Ret _ _ _ _ _ _ _ H5). set (b5 := set_clock true _).
  erewrite boot_step_Ret by reflexivity. erewrite boot_step_Ret by reflexivity.
  left. exists c. eexists. split; [done|]. split; [|reflexivity].
  split; [by intros []|]. split; [by eexists|]. done.
Qed.

Lemma boot_run_cases c b :
  started c b ->
  let level := jf_ConcurrencyLevel (fc_GuestJourney (cfg_Flows c)) in
  match boot_run c b with
  | (Ret _, b') => (forall s, is_open b' s = false) /\ bt_given b' = endpoints c /\ 0 <= level
                   /\ bt_events b' = map Main.Init main_steps ++ [Journeys]
  | (Panic _, b') => level < 0 /\ forall s, is_open b' s = registers s
  | (Stuck, _) => exists p0, runJourneys level = Ret p0
                   /\ pl_returned (exec pool_step (fun _ => true) pool_schedule p0) = false
  | (Err _, _) => False
  end.
Proof.
  intros (Ho & (h & Ht) & Hg & He). cbv zeta. unfold boot_run, boot_journeys. cbv zeta.
  unfold mbind at 1, go_bind at 1. unfold runJourneys. destruct (_ <? 0) eqn:El; reflect_ineqs.
  { split; [done|]. exact Ho. }
  destruct (work _ _) as [mq db]. destruct (pl_returned _) eqn:Er; [|eauto].
  match goal with |- match (mbind _ _) ?b1 with _ => _ end =>
    destruct (all_cleanups_close b1 h Ht) as (r & b' & Hr & Hc & Hg' & He') end.
  rewrite (bind_Ret _ _ _ _ _ Hr). split; [exact Hc|]. rewrite Hg', He', Hg. cbn. by rewrite He.
Qed.

(** C10: the whole program, from nothing: when it ends by itself everything it set up is shut
    down, the telemetry providers, the connection to the broker, Redis, the clock and the
    probe server, whatever the shutdowns report and whatever the journeys did, and every
    component was given its own part of the settings. It ends otherwise in two ways. When a
    step of the start-up fails the process exits with status 1: exactly the components
    started before stay open, the failing one is not (but telemetry, which may leave
    providers behind). When the pool's level is negative it panics with everything open. And
    it goes on for ever only while the pool does not return. *)
Theorem boot_main_correct db :
  match boot_main (boot_start db) with
  | (Ret _, b) =>
      (forall s, is_open b s = false)
      /\ exists c, env_Parse environ = inr c /\ bt_given b = endpoints c
           /\ 0 <= jf_ConcurrencyLevel (fc_GuestJourney (cfg_Flows c))
           /\ bt_events b = map Main.Init main_steps ++ [Journeys]
  | (Panic p, b) =>
      (p = "exit" /\ exists before s, exited_at before s b)
      \/ exists c, env_Parse environ = inr c
           /\ jf_ConcurrencyLevel (fc_GuestJourney (cfg_Flows c)) < 0
           /\ forall s, is_open b s = registers s
  | (Stuck, _) =>
      exists c p0, env_Parse environ = inr c
        /\ runJourneys (jf_ConcurrencyLevel (fc_GuestJourney (cfg_Flows c))) = Ret p0
        /\ pl_returned (exec pool_step (fun _ => true) pool_schedule p0) = false
  | (Err _, _) => False
  end.
Proof.
  destruct (boot_startup db) as [(c & b & Hp & Hs & ->)|(before & s & b & Hx & ->)]; [|left; eauto].
  pose proof (boot_run_cases c b Hs) as H. cbv zeta in H.
  destruct (boot_run c b) as [[u|e|p|] b']; [destruct H as (? & ? & ? & ?)|done|right|destruct H as (p0 & ? & ?)];
    eauto 7.
Qed.
End Boot.

(** ** Concrete runs *)

Section Witnesses.
#[local] Existing Instances sample_redis.
#[local] Instance quiet_telemetry : TelEnv := {| tel_err _ := None |}.
#[local] Instance quiet_broker : AmqpEnv := {|
  amqp_err _ := None; amqp_closed _ := false; amqp_queue_name _ := "q.guest-simulator.hour-change" |}.

Definition boot_settings (level : Z) : Configs :=
  mkConfigs (mkAppConfig (mkNameConfig "guests" "1") (mkTelemetryConfig "otel" 4317 13133 true))
    (mkProbeConfig "0.0.0.0" 8080 5 10 15 60) (mkConnConfig "rabbit" "hunter2" "mq" 5672)
    (mkConsumersConfig sample_cfg sample_cfg) (mkRedisConfig "redis" "hunter2" "cache" 6379 0)
    (mkServicesConfig "clock" 50051 "cottages" 8080 "guests" 8080 "payments" 8080)
    (mkFlowsConfig (mkBookingFlowConfig "" 2) (mkPaymentFlowConfig 2) (mkLodgingFlowConfig 2)
       (mkGuestRegisterFlowConfig "" 2) (mkGuestJourneyFlowConfig level)).

(** A pool of [level] that is cancelled; [dial] is what the clock's library reports. *)
Definition boot_sample (level : Z) (dial : option error) : outcome unit * Boot :=
  boot_main (P := {| env_Parse _ := inr (boot_settings level) |}) (fun _ => None) None (fun _ => dial) None
    [MStart; ECancelled; MDone] (fun mq db => (mq, db)) (boot_start (∅ : gmap string json)).

Definition open_steps (b : Boot) : list MainStep := List.filter (is_open b) main_steps.

Example boot_runs :
  fst (boot_sample 1 None) = Ret tt /\ open_steps (snd (boot_sample 1 None)) = []
  /\ length (bt_given (snd (boot_sample 1 None))) = 6%nat.
Proof. vm_compute. done. Qed.

Example boot_leaks :
  fst (boot_sample 1 (Some (LibError "no clock"))) = Panic "exit"
  /\ open_steps (snd (boot_sample 1 (Some (LibError "no clock")))) = [InitTelemetry; InitRabbitmq; InitRedis].
Proof. vm_compute. done. Qed.

Example boot_panics :
  fst (boot_sample (-1) None) = Panic "makechan: size out of range"
  /\ length (open_steps (snd (boot_sample (-1) None))) = 5%nat.
Proof. vm_compute. done. Qed.
End Witnesses.
